(** * RAID-5 stripe I/O engine (module/bdev/raid/raid5.c)

    A shallow embedding of the stripe request engine, the scatter-gather
    XOR helpers, the stripe cache and the request dispatcher, followed by
    the properties established about them.

    Conventions.
    - C integers are [Z]; unsigned 64-bit and 8-bit arithmetic that can
      wrap is written with [u64] / [u8].
    - A pointer into [stripe_req->chunks] is the element index
      ([chunk - stripe_req->chunks]).
    - Host memory is a flat byte map [Z -> Z]; an [iovec] names a range
      of it.
    - Calls that leave the engine (base bdev submissions, the upstream
      completion) are recorded in program order in a trace. *)

From Stdlib Require Import ZArith List Bool Lia.
From stdpp Require Import base list gmap.

Open Scope Z_scope.

(** ** Machine arithmetic *)

Definition u64 (x : Z) : Z := x mod 2 ^ 64.
Definition u8 (x : Z) : Z := x mod 2 ^ 8.

(** [int] as produced by a wrapping two's complement cast. *)
Definition int32 (x : Z) : Z := (x + 2 ^ 31) mod 2 ^ 32 - 2 ^ 31.

Definition INT_MIN : Z := - 2 ^ 31.
Definition INT_MAX : Z := 2 ^ 31 - 1.

(** errno values of the target platform (Linux). *)
Definition ENOMEM : Z := 12.
Definition EINVAL : Z := 22.

(** [abs] from <stdlib.h>; the result is converted back to [int]. *)
Definition c_abs (x : Z) : Z := int32 (Z.abs x).

(** ** Status and request kinds *)

Inductive spdk_bdev_io_status :=
| SPDK_BDEV_IO_STATUS_SUCCESS
| SPDK_BDEV_IO_STATUS_NOMEM
| SPDK_BDEV_IO_STATUS_FAILED.

Inductive spdk_bdev_io_type :=
| SPDK_BDEV_IO_TYPE_READ
| SPDK_BDEV_IO_TYPE_WRITE.

Inductive chunk_request_type :=
| CHUNK_READ
| CHUNK_WRITE
| CHUNK_PREREAD.

#[global] Instance spdk_bdev_io_status_eq_dec : EqDecision spdk_bdev_io_status.
Proof. solve_decision. Defined.
#[global] Instance spdk_bdev_io_type_eq_dec : EqDecision spdk_bdev_io_type.
Proof. solve_decision. Defined.
#[global] Instance chunk_request_type_eq_dec : EqDecision chunk_request_type.
Proof. solve_decision. Defined.

(** [errno_to_status]. *)
Definition errno_to_status (err : Z) : spdk_bdev_io_status :=
  let err := c_abs err in
  if err =? 0 then SPDK_BDEV_IO_STATUS_SUCCESS
  else if err =? ENOMEM then SPDK_BDEV_IO_STATUS_NOMEM
  else SPDK_BDEV_IO_STATUS_FAILED.

(** ** Host memory and scatter-gather vectors *)

Definition memory := Z -> Z.

Definition mem_store (m : memory) (a v : Z) : memory :=
  fun x => if x =? a then v else m x.

Record iovec := { iov_base : Z; iov_len : Z }.

#[global] Instance iovec_eq_dec : EqDecision iovec.
Proof. solve_decision. Defined.

(** [raid5_xor_buf]: [to[i] ^= from[i]] for [size] bytes.  The source
    works a machine word at a time on [restrict] pointers, which on
    non-overlapping buffers is the bytewise loop below. *)
Fixpoint xor_bytes (n : nat) (m : memory) (to from : Z) : memory :=
  match n with
  | O => m
  | S n' => xor_bytes n' (mem_store m to (Z.lxor (m to) (m from))) (to + 1) (from + 1)
  end.

Definition raid5_xor_buf (m : memory) (to from size : Z) : memory :=
  xor_bytes (Z.to_nat size) m to from.

(** [memcpy]. *)
Fixpoint copy_bytes (n : nat) (m : memory) (to from : Z) : memory :=
  match n with
  | O => m
  | S n' => copy_bytes n' (mem_store m to (m from)) (to + 1) (from + 1)
  end.

Definition c_memcpy (m : memory) (to from size : Z) : memory :=
  copy_bytes (Z.to_nat size) m to from.

(** [memset]. *)
Fixpoint set_bytes (n : nat) (m : memory) (to c : Z) : memory :=
  match n with
  | O => m
  | S n' => set_bytes n' (mem_store m to c) (to + 1) c
  end.

Definition c_memset (m : memory) (to c size : Z) : memory :=
  set_bytes (Z.to_nat size) m to c.

(** The cursor-positioning loop shared by [raid5_xor_iovs] and
    [raid5_memcpy_iovs]:
<<
    n = 0; off = 0;
    while (v < iovs + cnt) {
        n += v->iov_len;
        if (n > offset) { off = v->iov_len - (n - offset); break; }
        v++;
    }
>>
    The cursor [v] is the list of vectors from [v] on. *)
Fixpoint iovs_seek (v : list iovec) (n offset : Z) : list iovec * Z :=
  match v with
  | [] => ([], 0)
  | x :: v' =>
      let n := u64 (n + iov_len x) in
      if n >? offset then (v, u64 (iov_len x - u64 (n - offset)))
      else iovs_seek v' n offset
  end.

(** The transfer loop of [raid5_xor_iovs] / [raid5_memcpy_iovs],
    parameterised by the per-segment operation:
<<
    while (v1 < end1 && v2 < end2 && size > 0) {
        n = spdk_min(v1->iov_len - off1, v2->iov_len - off2);
        if (n > size) n = size;
        size -= n;
        op(v1->iov_base + off1, v2->iov_base + off2, n);
        off1 += n; off2 += n;
        if (off1 == v1->iov_len) { off1 = 0; v1++; }
        if (off2 == v2->iov_len) { off2 = 0; v2++; }
    }
>>
    Every iteration that leaves [size > 0] advances [v1] or [v2], so the
    loop is a recursion on the two cursors. *)
Section IovsLoop.
Variable op : memory -> Z -> Z -> Z -> memory.

Fixpoint iovs_loop (v1 : list iovec) : list iovec -> Z -> Z -> Z -> memory -> memory :=
  fix inner (v2 : list iovec) (off1 off2 size : Z) (m : memory) {struct v2} : memory :=
    match v1, v2 with
    | x1 :: v1', x2 :: v2' =>
        if size >? 0 then
          let n := Z.min (u64 (iov_len x1 - off1)) (u64 (iov_len x2 - off2)) in
          let n := if n >? size then size else n in
          let size := u64 (size - n) in
          let m := op m (iov_base x1 + off1) (iov_base x2 + off2) n in
          let off1 := u64 (off1 + n) in
          let off2 := u64 (off2 + n) in
          if off1 =? iov_len x1 then
            if off2 =? iov_len x2 then iovs_loop v1' v2' 0 0 size m
            else iovs_loop v1' v2 0 off2 size m
          else
            if off2 =? iov_len x2 then inner v2' off1 0 size m
            else m
        else m
    | _, _ => m
    end.
End IovsLoop.

(** [raid5_xor_iovs]. *)
Definition raid5_xor_iovs (m : memory)
    (iovs_dest : list iovec) (iovs_dest_offset : Z)
    (iovs_src : list iovec) (iovs_src_offset : Z) (size : Z) : memory :=
  let '(v1, off1) := iovs_seek iovs_dest 0 iovs_dest_offset in
  let '(v2, off2) := iovs_seek iovs_src 0 iovs_src_offset in
  iovs_loop raid5_xor_buf v1 v2 off1 off2 size m.

(** [raid5_memcpy_iovs]. *)
Definition raid5_memcpy_iovs (m : memory)
    (iovs_dest : list iovec) (iovs_dest_offset : Z)
    (iovs_src : list iovec) (iovs_src_offset : Z) (size : Z) : memory :=
  let '(v1, off1) := iovs_seek iovs_dest 0 iovs_dest_offset in
  let '(v2, off2) := iovs_seek iovs_src 0 iovs_src_offset in
  iovs_loop c_memcpy v1 v2 off1 off2 size m.

(** [raid5_memset_iovs]. *)
Definition raid5_memset_iovs (m : memory) (iovs : list iovec) (c : Z) : memory :=
  fold_left (fun m v => c_memset m (iov_base v) c (iov_len v)) iovs m.

(** ** Geometry of the array

    The fields of [struct raid_bdev] (bdev_raid.h) that the engine
    reads.  [base_bdev_degraded] is [base_bdev_info[i].degraded]. *)
Record raid_bdev := {
  num_base_bdevs : Z;          (* uint8_t *)
  strip_size : Z;              (* uint32_t, blocks *)
  strip_size_shift : Z;        (* uint32_t *)
  blocklen : Z;                (* bdev.blocklen, uint32_t *)
  base_bdev_degraded : list bool
}.

(** [g_raid5_module.base_bdevs_max_degraded]. *)
Definition base_bdevs_max_degraded : Z := 1.

(** [raid5_stripe_data_chunks_num] (returns [uint8_t]). *)
Definition raid5_stripe_data_chunks_num (rb : raid_bdev) : Z :=
  u8 (num_base_bdevs rb - base_bdevs_max_degraded).

(** C's [x << s] on [uint64_t]. *)
Definition shl64 (x s : Z) : Z := u64 (Z.shiftl x s).

(** ** Chunks and stripe requests *)

(** What [chunk->iovs] points at: the embedded [chunk->iov], a heap
    array obtained from [realloc], or [NULL]. *)
Inductive iovs_ref :=
| IovsEmbedded
| IovsHeap (arr : list iovec)
| IovsNull.

Record chunk := {
  index : Z;                   (* uint8_t *)
  req_offset : Z;
  req_blocks : Z;
  preread_offset : Z;
  preread_blocks : Z;
  iovs : iovs_ref;
  iovcnt : Z;
  iov : iovec;
  request_type : chunk_request_type
}.

(** The function stored in [chunk_requests_complete_cb]. *)
Inductive completion_cb :=
| cb_raid5_complete_stripe_request
| cb_raid5_stripe_write_preread_complete_rmw
| cb_raid5_stripe_write_preread_complete
| cb_raid5_stripe_write_preread_complete_degraded
| cb_raid5_complete_reconstructed_stripe_request.

#[global] Instance completion_cb_eq_dec : EqDecision completion_cb.
Proof. solve_decision. Defined.

Record stripe_request := {
  raid_io : nat;               (* handle of the parent raid_bdev_io *)
  stripe : nat;                (* handle of the target stripe *)
  remaining : Z;               (* int *)
  status : spdk_bdev_io_status;
  chunk_requests_complete_cb : completion_cb;
  iov_offset : Z;
  init_iov_offset : Z;
  first_data_chunk : Z;
  last_data_chunk : Z;
  parity_chunk : Z;
  degraded_chunk : option Z;   (* NULL = None *)
  chunks : list chunk
}.

Definition chunk_zero : chunk :=
  {| index := 0; req_offset := 0; req_blocks := 0; preread_offset := 0;
     preread_blocks := 0; iovs := IovsEmbedded; iovcnt := 0;
     iov := {| iov_base := 0; iov_len := 0 |}; request_type := CHUNK_READ |}.

(** [req->chunks[i]].  The array holds [num_base_bdevs] chunks; an index
    outside it is undefined in C and reads [chunk_zero] here. *)
Definition get_chunk (r : stripe_request) (i : Z) : chunk :=
  if i <? 0 then chunk_zero else default chunk_zero (chunks r !! Z.to_nat i).

Definition upd_chunks (r : stripe_request) (cs : list chunk) : stripe_request :=
  {| raid_io := raid_io r; stripe := stripe r; remaining := remaining r;
     status := status r;
     chunk_requests_complete_cb := chunk_requests_complete_cb r;
     iov_offset := iov_offset r; init_iov_offset := init_iov_offset r;
     first_data_chunk := first_data_chunk r;
     last_data_chunk := last_data_chunk r; parity_chunk := parity_chunk r;
     degraded_chunk := degraded_chunk r; chunks := cs |}.

(** [req->chunks[i] = c]; a store outside the array is dropped. *)
Definition set_chunk (r : stripe_request) (i : Z) (c : chunk) : stripe_request :=
  upd_chunks r (if i <? 0 then chunks r else <[Z.to_nat i := c]> (chunks r)).

Definition upd_remaining (r : stripe_request) (v : Z) : stripe_request :=
  {| raid_io := raid_io r; stripe := stripe r; remaining := v;
     status := status r;
     chunk_requests_complete_cb := chunk_requests_complete_cb r;
     iov_offset := iov_offset r; init_iov_offset := init_iov_offset r;
     first_data_chunk := first_data_chunk r;
     last_data_chunk := last_data_chunk r; parity_chunk := parity_chunk r;
     degraded_chunk := degraded_chunk r; chunks := chunks r |}.

Definition upd_status (r : stripe_request) (v : spdk_bdev_io_status) : stripe_request :=
  {| raid_io := raid_io r; stripe := stripe r; remaining := remaining r;
     status := v;
     chunk_requests_complete_cb := chunk_requests_complete_cb r;
     iov_offset := iov_offset r; init_iov_offset := init_iov_offset r;
     first_data_chunk := first_data_chunk r;
     last_data_chunk := last_data_chunk r; parity_chunk := parity_chunk r;
     degraded_chunk := degraded_chunk r; chunks := chunks r |}.

Definition upd_cb (r : stripe_request) (v : completion_cb) : stripe_request :=
  {| raid_io := raid_io r; stripe := stripe r; remaining := remaining r;
     status := status r;
     chunk_requests_complete_cb := v;
     iov_offset := iov_offset r; init_iov_offset := init_iov_offset r;
     first_data_chunk := first_data_chunk r;
     last_data_chunk := last_data_chunk r; parity_chunk := parity_chunk r;
     degraded_chunk := degraded_chunk r; chunks := chunks r |}.

Definition upd_iov_offset (r : stripe_request) (v : Z) : stripe_request :=
  {| raid_io := raid_io r; stripe := stripe r; remaining := remaining r;
     status := status r;
     chunk_requests_complete_cb := chunk_requests_complete_cb r;
     iov_offset := v; init_iov_offset := init_iov_offset r;
     first_data_chunk := first_data_chunk r;
     last_data_chunk := last_data_chunk r; parity_chunk := parity_chunk r;
     degraded_chunk := degraded_chunk r; chunks := chunks r |}.

Definition upd_degraded_chunk (r : stripe_request) (v : option Z) : stripe_request :=
  {| raid_io := raid_io r; stripe := stripe r; remaining := remaining r;
     status := status r;
     chunk_requests_complete_cb := chunk_requests_complete_cb r;
     iov_offset := iov_offset r; init_iov_offset := init_iov_offset r;
     first_data_chunk := first_data_chunk r;
     last_data_chunk := last_data_chunk r; parity_chunk := parity_chunk r;
     degraded_chunk := v; chunks := chunks r |}.

(** Field stores on a chunk. *)
Definition chunk_set_req (c : chunk) (off blocks : Z) : chunk :=
  {| index := index c; req_offset := off; req_blocks := blocks;
     preread_offset := preread_offset c; preread_blocks := preread_blocks c;
     iovs := iovs c; iovcnt := iovcnt c; iov := iov c;
     request_type := request_type c |}.

Definition chunk_set_preread (c : chunk) (off blocks : Z) : chunk :=
  {| index := index c; req_offset := req_offset c; req_blocks := req_blocks c;
     preread_offset := off; preread_blocks := blocks;
     iovs := iovs c; iovcnt := iovcnt c; iov := iov c;
     request_type := request_type c |}.

Definition chunk_set_iov (c : chunk) (v : iovec) : chunk :=
  {| index := index c; req_offset := req_offset c; req_blocks := req_blocks c;
     preread_offset := preread_offset c; preread_blocks := preread_blocks c;
     iovs := iovs c; iovcnt := iovcnt c; iov := v;
     request_type := request_type c |}.

Definition chunk_set_iovs (c : chunk) (p : iovs_ref) : chunk :=
  {| index := index c; req_offset := req_offset c; req_blocks := req_blocks c;
     preread_offset := preread_offset c; preread_blocks := preread_blocks c;
     iovs := p; iovcnt := iovcnt c; iov := iov c;
     request_type := request_type c |}.

Definition chunk_set_iovcnt (c : chunk) (n : Z) : chunk :=
  {| index := index c; req_offset := req_offset c; req_blocks := req_blocks c;
     preread_offset := preread_offset c; preread_blocks := preread_blocks c;
     iovs := iovs c; iovcnt := n; iov := iov c;
     request_type := request_type c |}.

Definition chunk_set_request_type (c : chunk) (t : chunk_request_type) : chunk :=
  {| index := index c; req_offset := req_offset c; req_blocks := req_blocks c;
     preread_offset := preread_offset c; preread_blocks := preread_blocks c;
     iovs := iovs c; iovcnt := iovcnt c; iov := iov c;
     request_type := t |}.

(** The vectors a base bdev or the XOR engine sees for a chunk: the
    first [iovcnt] entries of what [chunk->iovs] points at. *)
Definition chunk_iovs (c : chunk) : list iovec :=
  match iovs c with
  | IovsEmbedded => take (Z.to_nat (iovcnt c)) [iov c]
  | IovsHeap arr => take (Z.to_nat (iovcnt c)) arr
  | IovsNull => []
  end.

(** [chunk->iovs[i] = es[i]] for the leading entries. *)
Definition chunk_write_iovs (c : chunk) (es : list iovec) : chunk :=
  match iovs c with
  | IovsEmbedded =>
      match es with
      | e :: _ => chunk_set_iov c e
      | [] => c
      end
  | IovsHeap arr => chunk_set_iovs c (IovsHeap (es ++ drop (length es) arr))
  | IovsNull => c
  end.

(** ** [raid5_chunk_map_iov] *)

(** First loop: the vector containing byte [offset]. *)
Fixpoint map_find_start (iov : list iovec) (off offset : Z) : option (list iovec * Z) :=
  match iov with
  | [] => None
  | x :: iov' =>
      if u64 (off + iov_len x) >? offset then Some (iov, off)
      else map_find_start iov' (u64 (off + iov_len x)) offset
  end.

(** Second loop: how many vectors are needed to reach [offset + len]. *)
Fixpoint map_count (iov : list iovec) (off target new_iovcnt : Z) : Z :=
  match iov with
  | [] => new_iovcnt
  | x :: iov' =>
      let new_iovcnt := new_iovcnt + 1 in
      if u64 (off + iov_len x) >=? target then new_iovcnt
      else map_count iov' (u64 (off + iov_len x)) target new_iovcnt
  end.

(** Third loop: the entries written to [chunk->iovs], and the [len]
    left over. *)
Fixpoint map_fill (cnt : nat) (iov : list iovec) (off offset len : Z) : list iovec * Z :=
  match cnt, iov with
  | S cnt', x :: iov' =>
      let d := u64 (offset - off) in
      let e := {| iov_base := iov_base x + d;
                  iov_len := Z.min len (u64 (iov_len x - d)) |} in
      let '(es, len') :=
        map_fill cnt' iov' (u64 (off + iov_len x)) (u64 (offset + iov_len e))
                 (u64 (len - iov_len e)) in
      (e :: es, len')
  | _, _ => ([], len)
  end.

(** [realloc(chunk->iovs, new_iovcnt * sizeof(struct iovec))]; [ok] is
    whether the allocator satisfies the call. *)
Definition realloc_iovs (p : iovs_ref) (new_iovcnt : Z) (ok : bool) : option iovs_ref :=
  if ok then
    match p with
    | IovsHeap arr =>
        Some (IovsHeap (take (Z.to_nat new_iovcnt)
                (arr ++ replicate (Z.to_nat new_iovcnt - length arr)%nat
                                  {| iov_base := 0; iov_len := 0 |})))
    | _ => Some (IovsHeap (replicate (Z.to_nat new_iovcnt) {| iov_base := 0; iov_len := 0 |}))
    end
  else None.

(** Returns the status code and the chunk as left behind; [ok] is the
    allocator's answer should [realloc] be called, and the second
    component tells whether it was. *)
Definition raid5_chunk_map_iov (c : chunk) (iov : list iovec) (offset len : Z) (ok : bool)
  : Z * bool * chunk :=
  match map_find_start iov 0 offset with
  | None => (- EINVAL, false, c)
  | Some (iov_s, start_v_off) =>
      let new_iovcnt := map_count iov_s start_v_off (u64 (offset + len)) 0 in
      let fill (c : chunk) :=
        let c := chunk_set_iovcnt c new_iovcnt in
        let '(es, len') := map_fill (Z.to_nat new_iovcnt) iov_s start_v_off offset len in
        let c := chunk_write_iovs c es in
        if len' >? 0 then (- EINVAL, c) else (0, c) in
      if new_iovcnt >? iovcnt c then
        let c := match iovs c with
                 | IovsEmbedded => chunk_set_iovs c IovsNull
                 | _ => c
                 end in
        match realloc_iovs (iovs c) new_iovcnt ok with
        | None => (- ENOMEM, true, c)
        | Some p => let '(ret, c) := fill (chunk_set_iovs c p) in (ret, true, c)
        end
      else let '(ret, c) := fill c in (ret, false, c)
  end.

(** ** The base block devices

    Modelled from the spec: the base bdev layer ([spdk_bdev_readv_blocks],
    [spdk_bdev_writev_blocks], [spdk_bdev_queue_io_wait]) is not part of
    raid5.c.  A submission returns [0] (accepted), [-ENOMEM]
    (backpressure) or another negative code; an accepted I/O completes
    later, through [raid5_complete_chunk_request], never from inside the
    submitting call.  A successful read copies [num_blocks] blocks from
    the member device into the vectors, a successful write copies them
    out. *)

Definition disk := Z -> Z -> Z.   (* member index -> byte address -> byte *)

Definition disk_store (d : disk) (member a v : Z) : disk :=
  fun mb x => if (mb =? member) && (x =? a) then v else d mb x.

Record bdev_io := {
  bio_chunk : Z;               (* cb_arg: the chunk *)
  bio_member : Z;              (* base_bdev_info[chunk->index] *)
  bio_type : spdk_bdev_io_type;
  bio_offset_blocks : Z;
  bio_num_blocks : Z;
  bio_iovs : list iovec
}.

(** The byte addresses a vector list names, in order. *)
Definition iov_addrs (v : iovec) : list Z := seqZ (iov_base v) (iov_len v).
Definition iovs_addrs (l : list iovec) : list Z := concat (map iov_addrs l).

Fixpoint dma_read (d : disk) (member : Z) (a : Z) (addrs : list Z) (m : memory) : memory :=
  match addrs with
  | [] => m
  | x :: addrs' => dma_read d member (a + 1) addrs' (mem_store m x (d member a))
  end.

Fixpoint dma_write (m : memory) (member : Z) (a : Z) (addrs : list Z) (d : disk) : disk :=
  match addrs with
  | [] => d
  | x :: addrs' => dma_write m member (a + 1) addrs' (disk_store d member a (m x))
  end.

(** ** Engine state *)

Inductive event :=
| EvSubmit (io : bdev_io) (ty : chunk_request_type) (ret : Z)
| EvQueueIoWait (chunk_index : Z)
| EvCallback (cb : completion_cb)
| EvComplete (st : spdk_bdev_io_status) (blocks : Z).

Record engine := {
  req : stripe_request;
  mem : memory;
  disks : disk;
  inflight : list bdev_io;     (* accepted by a base bdev, not yet completed *)
  waitq : list Z;              (* chunks parked by spdk_bdev_queue_io_wait *)
  realloc_script : list bool;  (* answers of the allocator, in call order *)
  submit_script : list Z;      (* return codes of the base bdevs, in call order *)
  asserted : bool;             (* an assert(false) was reached *)
  trace : list event           (* oldest first *)
}.

Definition with_req (e : engine) (r : stripe_request) : engine :=
  {| req := r; mem := mem e; disks := disks e; inflight := inflight e;
     waitq := waitq e; realloc_script := realloc_script e;
     submit_script := submit_script e; asserted := asserted e; trace := trace e |}.

Definition with_mem (e : engine) (m : memory) : engine :=
  {| req := req e; mem := m; disks := disks e; inflight := inflight e;
     waitq := waitq e; realloc_script := realloc_script e;
     submit_script := submit_script e; asserted := asserted e; trace := trace e |}.

Definition with_disks (e : engine) (d : disk) : engine :=
  {| req := req e; mem := mem e; disks := d; inflight := inflight e;
     waitq := waitq e; realloc_script := realloc_script e;
     submit_script := submit_script e; asserted := asserted e; trace := trace e |}.

Definition with_inflight (e : engine) (l : list bdev_io) : engine :=
  {| req := req e; mem := mem e; disks := disks e; inflight := l;
     waitq := waitq e; realloc_script := realloc_script e;
     submit_script := submit_script e; asserted := asserted e; trace := trace e |}.

Definition with_waitq (e : engine) (l : list Z) : engine :=
  {| req := req e; mem := mem e; disks := disks e; inflight := inflight e;
     waitq := l; realloc_script := realloc_script e;
     submit_script := submit_script e; asserted := asserted e; trace := trace e |}.

Definition with_realloc_script (e : engine) (l : list bool) : engine :=
  {| req := req e; mem := mem e; disks := disks e; inflight := inflight e;
     waitq := waitq e; realloc_script := l;
     submit_script := submit_script e; asserted := asserted e; trace := trace e |}.

Definition with_submit_script (e : engine) (l : list Z) : engine :=
  {| req := req e; mem := mem e; disks := disks e; inflight := inflight e;
     waitq := waitq e; realloc_script := realloc_script e;
     submit_script := l; asserted := asserted e; trace := trace e |}.

Definition with_asserted (e : engine) : engine :=
  {| req := req e; mem := mem e; disks := disks e; inflight := inflight e;
     waitq := waitq e; realloc_script := realloc_script e;
     submit_script := submit_script e; asserted := true; trace := trace e |}.

Definition emit (e : engine) (ev : event) : engine :=
  {| req := req e; mem := mem e; disks := disks e; inflight := inflight e;
     waitq := waitq e; realloc_script := realloc_script e;
     submit_script := submit_script e; asserted := asserted e;
     trace := trace e ++ [ev] |}.

(** A loop over chunk indices whose body may [return] from the
    enclosing function: the boolean is [false] once it has. *)
Fixpoint for_each (l : list Z) (body : Z -> engine -> bool * engine) (e : engine)
  : bool * engine :=
  match l with
  | [] => (true, e)
  | i :: l' =>
      let '(go, e') := body i e in
      if go then for_each l' body e' else (false, e')
  end.

(** [chunk != d_chunk] and friends: comparison with a possibly NULL
    chunk pointer. *)
Definition is_chunk (p : option Z) (i : Z) : bool :=
  match p with
  | Some j => j =? i
  | None => false
  end.

(** Dereferencing a chunk pointer that may be NULL.  NULL is undefined
    in C; here it is index [-1], which reads [chunk_zero] and drops
    stores. *)
Definition deref (p : option Z) : Z := default (-1) p.

(** [__NEXT_DATA_CHUNK]. *)
Definition next_data_chunk (p c : Z) : Z := if c + 1 =? p then c + 2 else c + 1.

(** The chunks visited by [FOR_EACH_DATA_CHUNK]; each step moves the
    cursor forward, so [n] steps cover an array of [n] chunks. *)
Fixpoint data_chunks_from (fuel : nat) (n p c : Z) : list Z :=
  match fuel with
  | O => []
  | S fuel' => if c <? n then c :: data_chunks_from fuel' n p (next_data_chunk p c) else []
  end.

(** ** The stripe request engine

    The functions below run on behalf of one stripe request.  What they
    read through [stripe_req->raid_io] and [stripe_req->stripe] does not
    change while they run and is fixed for the section. *)
Section Engine.
Variable rb : raid_bdev.                 (* raid_io->raid_bdev *)
Variable io_type : spdk_bdev_io_type.    (* bdev_io->type *)
Variable bdev_iovs : list iovec.         (* bdev_io->u.bdev.iovs[0..iovcnt) *)
Variable stripe_index : Z.               (* stripe->index *)
Variable chunk_buffers : list Z.         (* stripe->chunk_buffers[] *)

Definition chunk_buffer (i : Z) : Z :=
  if i <? 0 then 0 else default 0 (chunk_buffers !! Z.to_nat i).

(** [FOR_EACH_CHUNK]. *)
Definition each_chunk : list Z := seqZ 0 (num_base_bdevs rb).

(** [FOR_EACH_DATA_CHUNK]. *)
Definition each_data_chunk (r : stripe_request) : list Z :=
  data_chunks_from (Z.to_nat (num_base_bdevs rb)) (num_base_bdevs rb)
                   (parity_chunk r) (next_data_chunk (parity_chunk r) (-1)).

Definition chunk_at (e : engine) (i : Z) : chunk := get_chunk (req e) i.

Definition store_chunk (e : engine) (i : Z) (c : chunk) : engine :=
  with_req e (set_chunk (req e) i c).

(** [raid5_chunk_map_req_data]. *)
Definition raid5_chunk_map_req_data (i : Z) (e : engine) : Z * engine :=
  let c := chunk_at e i in
  let len := u64 (req_blocks c * blocklen rb) in
  let ok := hd true (realloc_script e) in
  let '(ret, called, c') :=
    raid5_chunk_map_iov c bdev_iovs (iov_offset (req e)) len ok in
  let e := if called then with_realloc_script e (tl (realloc_script e)) else e in
  let e := store_chunk e i c' in
  let e := if ret =? 0
           then with_req e (upd_iov_offset (req e) (u64 (iov_offset (req e) + len)))
           else e in
  (ret, e).

(** [raid5_complete_stripe_request], as far as the request itself is
    concerned: it reads the status and the data blocks of the request
    and leaves the engine.  What it does to the stripe queue, the
    request pool, the parent I/O and the retry queue is
    [complete_stripe_request_effects] further down. *)
Definition raid5_complete_stripe_request (e : engine) : engine :=
  let blocks :=
    fold_left (fun acc i => u64 (acc + req_blocks (chunk_at e i)))
              (each_data_chunk (req e)) 0 in
  emit e (EvComplete (status (req e)) blocks).

(** [raid5_abort_stripe_request]. *)
Definition raid5_abort_stripe_request (st : spdk_bdev_io_status) (e : engine) : engine :=
  let e := with_req e (upd_remaining (req e) 0) in
  let e := with_req e (upd_status (req e) st) in
  raid5_complete_stripe_request e.

(** The I/O that [_raid5_submit_chunk_request] builds for a chunk: the
    device, the direction, the block range and the vectors. *)
Definition chunk_bdev_io (i : Z) (c : chunk) : bdev_io :=
  let '(offset_blocks, num_blocks, ty) :=
    match request_type c with
    | CHUNK_PREREAD => (preread_offset c, preread_blocks c, SPDK_BDEV_IO_TYPE_READ)
    | CHUNK_READ => (req_offset c, req_blocks c, SPDK_BDEV_IO_TYPE_READ)
    | CHUNK_WRITE => (req_offset c, req_blocks c, SPDK_BDEV_IO_TYPE_WRITE)
    end in
  let base_offset_blocks :=
    u64 (shl64 stripe_index (strip_size_shift rb) + offset_blocks) in
  {| bio_chunk := i; bio_member := index c; bio_type := ty;
     bio_offset_blocks := base_offset_blocks;
     bio_num_blocks := num_blocks; bio_iovs := chunk_iovs c |}.

(** [_raid5_submit_chunk_request]. *)
Definition _raid5_submit_chunk_request (i : Z) (e : engine) : engine :=
  let c := chunk_at e i in
  let io := chunk_bdev_io i c in
  let ret := hd 0 (submit_script e) in
  let e := with_submit_script e (tl (submit_script e)) in
  let e := emit e (EvSubmit io (request_type c) ret) in
  if ret =? 0 then with_inflight e (inflight e ++ [io])
  else if ret =? - ENOMEM then
    emit (with_waitq e (waitq e ++ [i])) (EvQueueIoWait i)
  else with_asserted e.

(** [raid5_submit_chunk_request]. *)
Definition raid5_submit_chunk_request (i : Z) (ty : chunk_request_type) (e : engine) : engine :=
  let e := with_req e (upd_remaining (req e) (remaining (req e) + 1)) in
  let e := store_chunk e i (chunk_set_request_type (chunk_at e i) ty) in
  _raid5_submit_chunk_request i e.

(** [raid5_stripe_write_submit]. *)
Definition raid5_stripe_write_submit (e : engine) : engine :=
  let d_chunk := degraded_chunk (req e) in
  let e := with_req e (upd_cb (req e) cb_raid5_complete_stripe_request) in
  fold_left
    (fun e i =>
       if (req_blocks (chunk_at e i) >? 0) && negb (is_chunk d_chunk i)
       then raid5_submit_chunk_request i CHUNK_WRITE e
       else e)
    each_chunk e.

(** [xor_iovs] between two chunks of the request. *)
Definition xor_chunks (e : engine) (dst : Z) (dst_off : Z) (src : Z) (src_off size : Z) : engine :=
  with_mem e (raid5_xor_iovs (mem e)
                (chunk_iovs (chunk_at e dst)) dst_off
                (chunk_iovs (chunk_at e src)) src_off size).

Definition memset_chunk (e : engine) (i : Z) : engine :=
  with_mem e (raid5_memset_iovs (mem e) (chunk_iovs (chunk_at e i)) 0).

(** [(a - b) * blocklen] in [uint64_t]. *)
Definition blk_diff (a b : Z) : Z := u64 (u64 (a - b) * blocklen rb).
Definition blk_len (n : Z) : Z := u64 (n * blocklen rb).

(** [raid5_stripe_write_preread_complete_rmw]. *)
Definition raid5_stripe_write_preread_complete_rmw (e : engine) : engine :=
  let p := parity_chunk (req e) in
  let '(go, e) :=
    for_each (each_data_chunk (req e))
      (fun i e =>
         let chunk := chunk_at e i in
         if req_blocks chunk =? 0 then (true, e)
         else
           let dest_offset := blk_diff (req_offset chunk) (req_offset (chunk_at e p)) in
           (* xor old parity with old data... *)
           let e := xor_chunks e p dest_offset i 0 (blk_len (req_blocks chunk)) in
           let '(ret, e) := raid5_chunk_map_req_data i e in
           if negb (ret =? 0)
           then (false, raid5_abort_stripe_request (errno_to_status ret) e)
           else
             (* ...and with new data *)
             (true, xor_chunks e p dest_offset i 0 (blk_len (req_blocks (chunk_at e i)))))
      e in
  if go then raid5_stripe_write_submit e else e.

(** The loop body shared by [raid5_stripe_write_preread_complete] and
    the [else] branch of [raid5_stripe_write_preread_complete_degraded]
    (the source repeats it verbatim). *)
Definition reconstruct_write_step (p i : Z) (e : engine) : bool * engine :=
  let e :=
    if preread_blocks (chunk_at e i) >? 0
    then xor_chunks e p
           (blk_diff (preread_offset (chunk_at e i)) (req_offset (chunk_at e p)))
           i 0 (blk_len (preread_blocks (chunk_at e i)))
    else e in
  if req_blocks (chunk_at e i) >? 0 then
    let '(ret, e) := raid5_chunk_map_req_data i e in
    if negb (ret =? 0)
    then (false, raid5_abort_stripe_request (errno_to_status ret) e)
    else
      (true, xor_chunks e p
               (blk_diff (req_offset (chunk_at e i)) (req_offset (chunk_at e p)))
               i 0 (blk_len (req_blocks (chunk_at e i))))
  else (true, e).

(** [raid5_stripe_write_preread_complete]. *)
Definition raid5_stripe_write_preread_complete (e : engine) : engine :=
  let p := parity_chunk (req e) in
  let e := memset_chunk e p in
  let '(go, e) := for_each (each_data_chunk (req e)) (reconstruct_write_step p) e in
  if go then raid5_stripe_write_submit e else e.

(** [raid5_stripe_write_preread_complete_degraded]. *)
Definition raid5_stripe_write_preread_complete_degraded (e : engine) : engine :=
  let d := deref (degraded_chunk (req e)) in
  let p := parity_chunk (req e) in
  if negb (preread_blocks (chunk_at e p) =? 0) then
    let pc := chunk_at e p in
    let dc := chunk_set_preread (chunk_at e d) (preread_offset pc) (preread_blocks pc) in
    let dc := chunk_set_iov dc
                {| iov_base := chunk_buffer (index dc);
                   iov_len := blk_len (preread_blocks pc) |} in
    let e := store_chunk e d dc in
    let e := memset_chunk e d in
    let e :=
      fold_left
        (fun e i =>
           if negb (is_chunk (degraded_chunk (req e)) i) then
             let src_offset :=
               blk_diff (preread_offset (chunk_at e d)) (preread_offset (chunk_at e i)) in
             xor_chunks e d 0 i src_offset (blk_len (preread_blocks (chunk_at e d)))
           else e)
        each_chunk e in
    let e := memset_chunk e p in
    let '(go, e) :=
      for_each (each_data_chunk (req e))
        (fun i e =>
           let chunk := chunk_at e i in
           let '(real_preread_offset, real_preread_blocks) :=
             if negb (req_offset chunk =? 0) then (0, req_offset chunk)
             else (req_blocks chunk, u64 (strip_size rb - req_blocks chunk)) in
           let e :=
             if real_preread_blocks >? 0
             then xor_chunks e p
                    (blk_diff real_preread_offset (req_offset (chunk_at e p)))
                    i (blk_diff real_preread_offset (preread_offset (chunk_at e p)))
                    (blk_len real_preread_blocks)
             else e in
           if req_blocks chunk >? 0 then
             let '(ret, e) := raid5_chunk_map_req_data i e in
             if negb (ret =? 0)
             then (false, raid5_abort_stripe_request (errno_to_status ret) e)
             else
               (true, xor_chunks e p
                        (blk_diff (req_offset (chunk_at e i)) (req_offset (chunk_at e p)))
                        i 0 (blk_len (req_blocks (chunk_at e i))))
           else (true, e))
        e in
    if go then raid5_stripe_write_submit e else e
  else
    let e := memset_chunk e p in
    let '(go, e) := for_each (each_data_chunk (req e)) (reconstruct_write_step p) e in
    if go then raid5_stripe_write_submit e else e.

(** The tail of both planning loops:
<<
    if (chunk->preread_blocks || chunk == p_chunk) {
        len = (chunk == p_chunk ? chunk->req_blocks : chunk->preread_blocks) * blocklen;
        chunk->iov.iov_base = stripe->chunk_buffers[chunk->index];
        chunk->iov.iov_len = len;
    }
    if (chunk->preread_blocks) raid5_submit_chunk_request(chunk, CHUNK_PREREAD);
>> *)
Definition bind_and_preread (p i : Z) (e : engine) : engine :=
  let chunk := chunk_at e i in
  let e :=
    if negb (preread_blocks chunk =? 0) || (i =? p) then
      let len := if i =? p then blk_len (req_blocks chunk)
                 else blk_len (preread_blocks chunk) in
      store_chunk e i
        (chunk_set_iov chunk {| iov_base := chunk_buffer (index chunk); iov_len := len |})
    else e in
  if negb (preread_blocks (chunk_at e i) =? 0)
  then raid5_submit_chunk_request i CHUNK_PREREAD e
  else e.

(** The parity window:
<<
    if (first_data_chunk == last_data_chunk) {
        p_chunk->req_offset = first_data_chunk->req_offset;
        p_chunk->req_blocks = first_data_chunk->req_blocks;
    } else {
        p_chunk->req_offset = 0;
        p_chunk->req_blocks = raid_bdev->strip_size;
    }
>> *)
Definition set_parity_window (e : engine) : engine :=
  let r := req e in
  let p := parity_chunk r in
  if first_data_chunk r =? last_data_chunk r then
    let e := store_chunk e p
               (chunk_set_req (chunk_at e p)
                  (req_offset (chunk_at e (first_data_chunk r))) (req_blocks (chunk_at e p))) in
    store_chunk e p
      (chunk_set_req (chunk_at e p)
         (req_offset (chunk_at e p)) (req_blocks (chunk_at e (first_data_chunk r))))
  else
    store_chunk e p (chunk_set_req (chunk_at e p) 0 (strip_size rb)).

(** [raid5_complete_reconstructed_stripe_request].  After
    [raid5_abort_stripe_request] the source does not return: the copy
    loop goes on and the request is completed again at the end. *)
Definition raid5_complete_reconstructed_stripe_request (e : engine) : engine :=
  let d := deref (degraded_chunk (req e)) in
  let e := memset_chunk e d in
  let e :=
    fold_left
      (fun e i =>
         if negb (is_chunk (degraded_chunk (req e)) i) then
           let chunk := chunk_at e i in
           let d_chunk := chunk_at e d in
           let src_offset :=
             match request_type chunk with
             | CHUNK_PREREAD => blk_diff (req_offset d_chunk) (preread_offset chunk)
             | _ => blk_diff (req_offset d_chunk) (req_offset chunk)
             end in
           xor_chunks e d 0 i src_offset (blk_len (req_blocks d_chunk))
         else e)
      each_chunk e in
  let e := with_req e (upd_iov_offset (req e) (init_iov_offset (req e))) in
  let e :=
    fold_left
      (fun e i =>
         let chunk := chunk_at e i in
         let len := blk_len (req_blocks chunk) in
         if (req_blocks chunk >? 0) && negb (is_chunk (degraded_chunk (req e)) i)
            && bool_decide (request_type chunk = CHUNK_PREREAD) then
           (* preread_iovs = chunk->iovs keeps pointing at whatever
              chunk->iovs pointed at: the embedded chunk->iov is
              overwritten in place by the mapping below *)
           let preread_iovs := iovs chunk in
           let preread_iovcnt := iovcnt chunk in
           let '(ret, e) := raid5_chunk_map_req_data i e in
           let e := if negb (ret =? 0)
                    then raid5_abort_stripe_request (errno_to_status ret) e
                    else e in
           let chunk := chunk_at e i in
           let src :=
             match preread_iovs with
             | IovsEmbedded => take (Z.to_nat preread_iovcnt) [iov chunk]
             | IovsHeap arr =>
                 take (Z.to_nat preread_iovcnt)
                      (match iovs chunk with IovsHeap arr' => arr' | _ => arr end)
             | IovsNull => []
             end in
           let src_offset := blk_diff (req_offset chunk) (preread_offset chunk) in
           with_mem e (raid5_memcpy_iovs (mem e) (chunk_iovs chunk) 0 src src_offset
                         (blk_len (req_blocks chunk)))
         else
           with_req e (upd_iov_offset (req e) (u64 (iov_offset (req e) + len))))
      (each_data_chunk (req e)) e in
  raid5_complete_stripe_request e.

(** [stripe_req->chunk_requests_complete_cb(stripe_req)]. *)
Definition invoke_cb (e : engine) : engine :=
  let cb := chunk_requests_complete_cb (req e) in
  let e := emit e (EvCallback cb) in
  match cb with
  | cb_raid5_complete_stripe_request => raid5_complete_stripe_request e
  | cb_raid5_stripe_write_preread_complete_rmw => raid5_stripe_write_preread_complete_rmw e
  | cb_raid5_stripe_write_preread_complete => raid5_stripe_write_preread_complete e
  | cb_raid5_stripe_write_preread_complete_degraded =>
      raid5_stripe_write_preread_complete_degraded e
  | cb_raid5_complete_reconstructed_stripe_request =>
      raid5_complete_reconstructed_stripe_request e
  end.

(** [raid5_complete_chunk_request]. *)
Definition raid5_complete_chunk_request (success : bool) (e : engine) : engine :=
  let e := if success then e
           else with_req e (upd_status (req e) SPDK_BDEV_IO_STATUS_FAILED) in
  let e := with_req e (upd_remaining (req e) (remaining (req e) - 1)) in
  if remaining (req e) =? 0 then
    if bool_decide (status (req e) = SPDK_BDEV_IO_STATUS_SUCCESS)
    then invoke_cb e
    else raid5_complete_stripe_request e
  else e.

(** The preread window [raid5_degraded_write] gives to a chunk other
    than the degraded one (the [if]/[else] ladder of its loop). *)
Definition degraded_write_preread (r : stripe_request) (i : Z) : Z * Z :=
  let d := deref (degraded_chunk r) in
  let p := parity_chunk r in
  let chunk := get_chunk r i in
  let d_chunk := get_chunk r d in
  let p_chunk := get_chunk r p in
  let single := first_data_chunk r =? last_data_chunk r in
  let complement :=
    if negb (req_offset d_chunk =? 0) then (0, req_offset d_chunk)
    else (req_blocks d_chunk, u64 (strip_size rb - req_blocks d_chunk)) in
  if req_blocks d_chunk =? 0 then (req_offset chunk, req_blocks chunk)
  else if single then
    if i =? p then (0, 0) else (req_offset p_chunk, req_blocks p_chunk)
  else if (req_offset d_chunk =? 0) && (req_blocks d_chunk =? strip_size rb) then
    if i =? p then (0, 0)
    else if negb (req_offset chunk =? 0) then (0, req_offset chunk)
    else (req_blocks chunk, u64 (strip_size rb - req_blocks chunk))
  else
    if i =? p then complement
    else if (i =? first_data_chunk r) || (i =? last_data_chunk r)
            || (req_blocks chunk =? 0)
    then (0, strip_size rb)
    else complement.

(** [raid5_degraded_write], up to and including the preread loop. *)
Definition raid5_degraded_write_plan (e : engine) : engine :=
  let d := deref (degraded_chunk (req e)) in
  let p := parity_chunk (req e) in
  let e := set_parity_window e in
  let e :=
    with_req e
      (upd_cb (req e)
         (if negb (req_blocks (chunk_at e d) =? 0)
          then cb_raid5_stripe_write_preread_complete_degraded
          else cb_raid5_stripe_write_preread_complete_rmw)) in
  fold_left
    (fun e i =>
       if i =? d then store_chunk e i (chunk_set_preread (chunk_at e i) 0 0)
       else
         let '(po, pb) := degraded_write_preread (req e) i in
         let e := store_chunk e i (chunk_set_preread (chunk_at e i) po pb) in
         bind_and_preread p i e)
    each_chunk e.

(** [raid5_degraded_write]. *)
Definition raid5_degraded_write (e : engine) : engine :=
  if is_chunk (degraded_chunk (req e)) (parity_chunk (req e)) then
    let '(go, e) :=
      for_each (each_data_chunk (req e))
        (fun i e =>
           if req_blocks (chunk_at e i) >? 0 then
             let '(ret, e) := raid5_chunk_map_req_data i e in
             if negb (ret =? 0)
             then (false, raid5_abort_stripe_request (errno_to_status ret) e)
             else (true, e)
           else (true, e))
        e in
    if go then raid5_stripe_write_submit e else e
  else
    let e := raid5_degraded_write_plan e in
    (* If no preread needs to be done (full stripe), complete immediately *)
    if remaining (req e) =? 0 then invoke_cb e else e.

(** The vote of [raid5_stripe_write]:
<<
    FOR_EACH_DATA_CHUNK(stripe_req, chunk) {
        if (chunk->req_blocks < p_chunk->req_blocks) preread_balance++;
        if (chunk->req_blocks > 0) preread_balance--;
    }
>> *)
Definition preread_balance (e : engine) : Z :=
  let p := parity_chunk (req e) in
  fold_left
    (fun balance i =>
       let balance :=
         if req_blocks (chunk_at e i) <? req_blocks (chunk_at e p)
         then balance + 1 else balance in
       if req_blocks (chunk_at e i) >? 0 then balance - 1 else balance)
    (each_data_chunk (req e)) 0.

(** The preread window [raid5_stripe_write] gives to a chunk (the
    [if]/[else] ladder of its loop); [balance] is the outcome of the
    vote. *)
Definition stripe_write_preread (balance : Z) (r : stripe_request) (i : Z) : Z * Z :=
  let p := parity_chunk r in
  let chunk := get_chunk r i in
  let p_chunk := get_chunk r p in
  if balance >? 0 then
    (* for RMW, request chunks are the same as the preread chunks *)
    (req_offset chunk, req_blocks chunk)
  else if i =? p then (0, 0)  (* for reconstruction write, no need to read parity *)
  else if first_data_chunk r =? last_data_chunk r then
    if negb (req_blocks chunk =? 0) then (0, 0)      (* don't read request chunks *)
    else (req_offset p_chunk, req_blocks p_chunk)    (* read non-request chunks *)
  else
    if negb (req_offset chunk =? 0) then (0, req_offset chunk)
    else (req_blocks chunk, u64 (strip_size rb - req_blocks chunk)).

(** [raid5_stripe_write] without a degraded chunk, up to and
    including the preread loop. *)
Definition raid5_stripe_write_plan (e : engine) : engine :=
  let p := parity_chunk (req e) in
  (* single chunk -> partial parity update; > 1 chunk -> full parity update *)
  let e := set_parity_window e in
  let balance := preread_balance e in
  let e :=
    with_req e
      (upd_cb (req e)
         (if balance >? 0 then cb_raid5_stripe_write_preread_complete_rmw
          else cb_raid5_stripe_write_preread_complete)) in
  fold_left
    (fun e i =>
       let '(po, pb) := stripe_write_preread balance (req e) i in
       let e := store_chunk e i (chunk_set_preread (chunk_at e i) po pb) in
       bind_and_preread p i e)
    each_chunk e.

(** [raid5_stripe_write]. *)
Definition raid5_stripe_write (e : engine) : engine :=
  match degraded_chunk (req e) with
  | Some _ => raid5_degraded_write e
  | None =>
      let e := raid5_stripe_write_plan e in
      (* If no preread needs to be done (full stripe), complete immediately *)
      if remaining (req e) =? 0 then invoke_cb e else e
  end.

Definition base_degraded (member : Z) : bool :=
  if member <? 0 then false
  else default false (base_bdev_degraded rb !! Z.to_nat member).

(** [raid5_check_degraded]. *)
Definition raid5_check_degraded (e : engine) : Z * engine :=
  let e := with_req e (upd_degraded_chunk (req e) None) in
  let '(total_degraded, e) :=
    fold_left
      (fun '(total, e) i =>
         if base_degraded (index (chunk_at e i))
         then (u8 (total + 1), with_req e (upd_degraded_chunk (req e) (Some i)))
         else (total, e))
      each_chunk (0, e) in
  if total_degraded >? base_bdevs_max_degraded then (-1, e) else (0, e).

(** [raid5_stripe_read]. *)
Definition raid5_stripe_read (e : engine) : engine :=
  let dp := degraded_chunk (req e) in
  let d := deref dp in
  if bool_decide (dp <> None) && (req_blocks (chunk_at e d) >? 0) then
    (* read necessary blocks for reconstruction *)
    let e := with_req e (upd_cb (req e) cb_raid5_complete_reconstructed_stripe_request) in
    snd (for_each each_chunk
      (fun i e =>
         let chunk := chunk_at e i in
         let d_chunk := chunk_at e d in
         let scratch (e : engine) (po pb : Z) :=
           let c := chunk_set_preread (chunk_at e i) po pb in
           store_chunk e i
             (chunk_set_iov c {| iov_base := chunk_buffer (index c);
                                 iov_len := blk_len pb |}) in
         let mapped (e : engine) :=
           let e := store_chunk e i (chunk_set_preread (chunk_at e i) 0 0) in
           raid5_chunk_map_req_data i e in
         let '(ret, e) :=
           if req_blocks chunk =? 0 then
             (* parity chunk or chunks which are not requested *)
             (0, scratch e (req_offset d_chunk) (req_blocks d_chunk))
           else if i =? d then mapped e
           else if (req_offset chunk >? req_offset d_chunk)
                   || (u64 (req_offset chunk + req_blocks chunk)
                       <? u64 (req_offset d_chunk + req_blocks d_chunk)) then
             let po := Z.min (req_offset chunk) (req_offset d_chunk) in
             let pb := u64 (Z.max (u64 (req_offset chunk + req_blocks chunk))
                                  (u64 (req_offset d_chunk + req_blocks d_chunk)) - po) in
             let e := scratch e po pb in
             (0, with_req e (upd_iov_offset (req e)
                               (u64 (iov_offset (req e) + blk_len (req_blocks chunk)))))
           else mapped e in
         if negb (ret =? 0)
         then (false, raid5_abort_stripe_request (errno_to_status ret) e)
         else
           let chunk := chunk_at e i in
           if negb (preread_blocks chunk =? 0)
           then (true, raid5_submit_chunk_request i CHUNK_PREREAD e)
           else if negb (req_blocks chunk =? 0) && negb (i =? d)
           then (true, raid5_submit_chunk_request i CHUNK_READ e)
           else (true, e))
      e)
  else
    let e := with_req e (upd_cb (req e) cb_raid5_complete_stripe_request) in
    snd (for_each (each_data_chunk (req e))
      (fun i e =>
         if req_blocks (chunk_at e i) >? 0 then
           let '(ret, e) := raid5_chunk_map_req_data i e in
           if negb (ret =? 0)
           then (false, raid5_abort_stripe_request (errno_to_status ret) e)
           else (true, raid5_submit_chunk_request i CHUNK_READ e)
         else (true, e))
      e).

(** [raid5_submit_stripe_request]. *)
Definition raid5_submit_stripe_request (e : engine) : engine :=
  let '(ret, e) := raid5_check_degraded e in
  if negb (ret =? 0) then raid5_abort_stripe_request SPDK_BDEV_IO_STATUS_FAILED e
  else
    match io_type with
    | SPDK_BDEV_IO_TYPE_READ => raid5_stripe_read e
    | SPDK_BDEV_IO_TYPE_WRITE => raid5_stripe_write e
    end.

(** *** What the base devices do to an engine *)

(** The data movement of a successful I/O. *)
Definition transfer (io : bdev_io) (e : engine) : engine :=
  let addrs := take (Z.to_nat (bio_num_blocks io * blocklen rb)) (iovs_addrs (bio_iovs io)) in
  let a := bio_offset_blocks io * blocklen rb in
  match bio_type io with
  | SPDK_BDEV_IO_TYPE_READ =>
      with_mem e (dma_read (disks e) (bio_member io) a addrs (mem e))
  | SPDK_BDEV_IO_TYPE_WRITE =>
      with_disks e (dma_write (mem e) (bio_member io) a addrs (disks e))
  end.

Inductive env_event :=
| IoDone (n : nat) (success : bool)   (* the n-th I/O in flight completes *)
| IoWaitRetry (n : nat).              (* the n-th parked chunk is resubmitted *)

Definition env_step (ev : env_event) (e : engine) : option engine :=
  match ev with
  | IoDone n success =>
      match inflight e !! n with
      | Some io =>
          let e := with_inflight e (delete n (inflight e)) in
          let e := if success then transfer io e else e in
          Some (raid5_complete_chunk_request success e)
      | None => None
      end
  | IoWaitRetry n =>
      match waitq e !! n with
      | Some i => Some (_raid5_submit_chunk_request i (with_waitq e (delete n (waitq e))))
      | None => None
      end
  end.

Fixpoint env_run (evs : list env_event) (e : engine) : option engine :=
  match evs with
  | [] => Some e
  | ev :: evs' =>
      match env_step ev e with
      | Some e' => env_run evs' e'
      | None => None
      end
  end.

End Engine.

(** ** Stripes, parent I/Os and the dispatcher state *)

(** [struct stripe].  Handles of stripes, stripe requests and parent
    I/Os are positions in the arrays that hold them. *)
Record stripe_obj := {
  s_index : Z;                 (* stripe->index, the hash key *)
  s_hash : Z;                  (* stripe->hash *)
  s_requests : list nat;       (* stripe->requests, head first *)
  s_refs : Z;                  (* unsigned int *)
  s_chunk_buffers : list Z
}.

(** The fields of [struct raid_bdev_io] / [struct spdk_bdev_io]
    (bdev_raid.h) that raid5.c uses. *)
Record raid_bdev_io := {
  rio_type : spdk_bdev_io_type;
  rio_offset_blocks : Z;
  rio_num_blocks : Z;
  rio_iovs : list iovec;
  rio_raid_ch : nat;
  base_bdev_io_remaining : Z;
  base_bdev_io_status : spdk_bdev_io_status
}.

Inductive sys_event :=
| SysEnqueue (st : nat) (r : nat) (stripe_offset blocks iov_off : Z)
| SysCompletePart (io : nat) (blocks : Z) (status : spdk_bdev_io_status)
| SysComplete (io : nat) (status : spdk_bdev_io_status)
| SysSendMsg (r : nat)
| SysRetryQueued (io : nat)
| SysRetry (io : nat)
| SysEngine (r : nat) (ev : event).

(** [struct raid5_info], the per-thread channels, and everything else
    the dispatcher touches. *)
Record system := {
  stripes : list stripe_obj;             (* r5info->stripes[] *)
  active_stripes_hash : gmap Z nat;      (* rte_hash: stripe index -> stripe *)
  active_stripes : list nat;             (* head first *)
  free_stripes : list nat;               (* head first *)
  stripe_request_mempool : list nat;     (* free stripe_request objects *)
  stripe_reqs : list stripe_request;     (* the objects of the mempool *)
  raid_ios : list raid_bdev_io;
  retry_queues : list (list nat);        (* r5ch->retry_queue per channel *)
  sys_inflight : list (nat * bdev_io);   (* base bdev I/Os in flight *)
  sys_waitq : list (nat * Z);            (* chunks parked on a base bdev *)
  sys_msgs : list nat;                   (* spdk_thread_send_msg not yet run *)
  sys_mem : memory;
  sys_disks : disk;
  sys_realloc_script : list bool;
  sys_submit_script : list Z;
  sys_asserted : bool;
  sys_log : list sys_event
}.

Definition stripe_zero : stripe_obj :=
  {| s_index := 0; s_hash := 0; s_requests := []; s_refs := 0; s_chunk_buffers := [] |}.

Definition request_zero : stripe_request :=
  {| raid_io := O; stripe := O; remaining := 0; status := SPDK_BDEV_IO_STATUS_SUCCESS;
     chunk_requests_complete_cb := cb_raid5_complete_stripe_request;
     iov_offset := 0; init_iov_offset := 0; first_data_chunk := 0;
     last_data_chunk := 0; parity_chunk := 0; degraded_chunk := None; chunks := [] |}.

Definition raid_io_zero : raid_bdev_io :=
  {| rio_type := SPDK_BDEV_IO_TYPE_READ; rio_offset_blocks := 0; rio_num_blocks := 0;
     rio_iovs := []; rio_raid_ch := O; base_bdev_io_remaining := 0;
     base_bdev_io_status := SPDK_BDEV_IO_STATUS_SUCCESS |}.

Definition the_stripe (s : system) (h : nat) : stripe_obj := default stripe_zero (stripes s !! h).
Definition the_request (s : system) (h : nat) : stripe_request :=
  default request_zero (stripe_reqs s !! h).
Definition the_raid_io (s : system) (h : nat) : raid_bdev_io :=
  default raid_io_zero (raid_ios s !! h).
Definition the_retry_queue (s : system) (ch : nat) : list nat :=
  default [] (retry_queues s !! ch).

Definition sys_set_cache (s : system) (sl : list stripe_obj) (h : gmap Z nat)
    (act fr : list nat) : system :=
  {| stripes := sl; active_stripes_hash := h; active_stripes := act; free_stripes := fr;
     stripe_request_mempool := stripe_request_mempool s; stripe_reqs := stripe_reqs s;
     raid_ios := raid_ios s; retry_queues := retry_queues s;
     sys_inflight := sys_inflight s; sys_waitq := sys_waitq s; sys_msgs := sys_msgs s;
     sys_mem := sys_mem s; sys_disks := sys_disks s;
     sys_realloc_script := sys_realloc_script s; sys_submit_script := sys_submit_script s;
     sys_asserted := sys_asserted s; sys_log := sys_log s |}.

Definition sys_set_stripe (s : system) (h : nat) (o : stripe_obj) : system :=
  sys_set_cache s (<[h := o]> (stripes s)) (active_stripes_hash s)
                (active_stripes s) (free_stripes s).

Definition sys_set_pool (s : system) (pool : list nat) (rs : list stripe_request) : system :=
  {| stripes := stripes s; active_stripes_hash := active_stripes_hash s;
     active_stripes := active_stripes s; free_stripes := free_stripes s;
     stripe_request_mempool := pool; stripe_reqs := rs;
     raid_ios := raid_ios s; retry_queues := retry_queues s;
     sys_inflight := sys_inflight s; sys_waitq := sys_waitq s; sys_msgs := sys_msgs s;
     sys_mem := sys_mem s; sys_disks := sys_disks s;
     sys_realloc_script := sys_realloc_script s; sys_submit_script := sys_submit_script s;
     sys_asserted := sys_asserted s; sys_log := sys_log s |}.

Definition sys_set_raid_io (s : system) (h : nat) (io : raid_bdev_io) : system :=
  {| stripes := stripes s; active_stripes_hash := active_stripes_hash s;
     active_stripes := active_stripes s; free_stripes := free_stripes s;
     stripe_request_mempool := stripe_request_mempool s; stripe_reqs := stripe_reqs s;
     raid_ios := <[h := io]> (raid_ios s); retry_queues := retry_queues s;
     sys_inflight := sys_inflight s; sys_waitq := sys_waitq s; sys_msgs := sys_msgs s;
     sys_mem := sys_mem s; sys_disks := sys_disks s;
     sys_realloc_script := sys_realloc_script s; sys_submit_script := sys_submit_script s;
     sys_asserted := sys_asserted s; sys_log := sys_log s |}.

Definition sys_set_retry_queue (s : system) (ch : nat) (q : list nat) : system :=
  {| stripes := stripes s; active_stripes_hash := active_stripes_hash s;
     active_stripes := active_stripes s; free_stripes := free_stripes s;
     stripe_request_mempool := stripe_request_mempool s; stripe_reqs := stripe_reqs s;
     raid_ios := raid_ios s; retry_queues := <[ch := q]> (retry_queues s);
     sys_inflight := sys_inflight s; sys_waitq := sys_waitq s; sys_msgs := sys_msgs s;
     sys_mem := sys_mem s; sys_disks := sys_disks s;
     sys_realloc_script := sys_realloc_script s; sys_submit_script := sys_submit_script s;
     sys_asserted := sys_asserted s; sys_log := sys_log s |}.

Definition sys_set_bdev (s : system) (fl : list (nat * bdev_io)) (wq : list (nat * Z))
    (msgs : list nat) : system :=
  {| stripes := stripes s; active_stripes_hash := active_stripes_hash s;
     active_stripes := active_stripes s; free_stripes := free_stripes s;
     stripe_request_mempool := stripe_request_mempool s; stripe_reqs := stripe_reqs s;
     raid_ios := raid_ios s; retry_queues := retry_queues s;
     sys_inflight := fl; sys_waitq := wq; sys_msgs := msgs;
     sys_mem := sys_mem s; sys_disks := sys_disks s;
     sys_realloc_script := sys_realloc_script s; sys_submit_script := sys_submit_script s;
     sys_asserted := sys_asserted s; sys_log := sys_log s |}.

Definition sys_set_machine (s : system) (m : memory) (d : disk) (ra : list bool)
    (su : list Z) (a : bool) : system :=
  {| stripes := stripes s; active_stripes_hash := active_stripes_hash s;
     active_stripes := active_stripes s; free_stripes := free_stripes s;
     stripe_request_mempool := stripe_request_mempool s; stripe_reqs := stripe_reqs s;
     raid_ios := raid_ios s; retry_queues := retry_queues s;
     sys_inflight := sys_inflight s; sys_waitq := sys_waitq s; sys_msgs := sys_msgs s;
     sys_mem := m; sys_disks := d;
     sys_realloc_script := ra; sys_submit_script := su;
     sys_asserted := a; sys_log := sys_log s |}.

Definition sys_emit (s : system) (evs : list sys_event) : system :=
  {| stripes := stripes s; active_stripes_hash := active_stripes_hash s;
     active_stripes := active_stripes s; free_stripes := free_stripes s;
     stripe_request_mempool := stripe_request_mempool s; stripe_reqs := stripe_reqs s;
     raid_ios := raid_ios s; retry_queues := retry_queues s;
     sys_inflight := sys_inflight s; sys_waitq := sys_waitq s; sys_msgs := sys_msgs s;
     sys_mem := sys_mem s; sys_disks := sys_disks s;
     sys_realloc_script := sys_realloc_script s; sys_submit_script := sys_submit_script s;
     sys_asserted := sys_asserted s; sys_log := sys_log s ++ evs |}.

(** [TAILQ_REMOVE]: unlink one element. *)
Fixpoint tailq_remove (h : nat) (l : list nat) : list nat :=
  match l with
  | [] => []
  | x :: l' => if Nat.eqb x h then l' else x :: tailq_remove h l'
  end.

(** [TAILQ_NEXT]. *)
Fixpoint tailq_next (h : nat) (l : list nat) : option nat :=
  match l with
  | [] => None
  | x :: l' => if Nat.eqb x h then head l' else tailq_next h l'
  end.

(** ** Building a stripe request ([raid5_handle_stripe], second half) *)

(** [raid5_get_data_chunk], as an index into [chunks]. *)
Definition raid5_get_data_chunk (r : stripe_request) (chunk_data_idx : Z) : Z :=
  let p_chunk_idx := u8 (parity_chunk r) in
  if chunk_data_idx <? p_chunk_idx then chunk_data_idx else chunk_data_idx + 1.

(** [raid5_chunk_data_index] for the chunk at position [i]. *)
Definition raid5_chunk_data_index (r : stripe_request) (i : Z) : Z :=
  u8 (if i <? parity_chunk r then index (get_chunk r i) else index (get_chunk r i) - 1).

(** The parity position chosen by [raid5_handle_stripe]:
    [raid5_stripe_data_chunks_num(raid_bdev) - stripe->index % num_base_bdevs]. *)
Definition parity_position (rb : raid_bdev) (stripe_index : Z) : Z :=
  u64 (raid5_stripe_data_chunks_num rb - stripe_index mod num_base_bdevs rb).

(** The body of the chunk loop of [raid5_handle_stripe]. *)
Definition init_chunk (rb : raid_bdev) (stripe_offset_from stripe_offset_to : Z)
    (r : stripe_request) (i : Z) : stripe_request :=
  let c := get_chunk r i in
  let c :=
    {| index := u8 i; req_offset := req_offset c; req_blocks := req_blocks c;
       preread_offset := preread_offset c; preread_blocks := preread_blocks c;
       iovs := IovsEmbedded; iovcnt := 1; iov := iov c;
       request_type := request_type c |} in
  let r := set_chunk r i c in
  if (i =? parity_chunk r) || (i <? first_data_chunk r) || (i >? last_data_chunk r)
  then set_chunk r i (chunk_set_req c 0 0)
  else
    let chunk_offset_from := shl64 (raid5_chunk_data_index r i) (strip_size_shift rb) in
    let chunk_offset_to := u64 (chunk_offset_from + strip_size rb) in
    let off := if stripe_offset_from >? chunk_offset_from
               then u64 (stripe_offset_from - chunk_offset_from) else 0 in
    let blk := if stripe_offset_to <? chunk_offset_to
               then u64 (stripe_offset_to - chunk_offset_from) else strip_size rb in
    set_chunk r i (chunk_set_req c off (u64 (blk - off))).

(** The initialisation of a stripe request taken from the pool; [r0] is
    the object as the pool hands it out (fields that the source does not
    write keep their old contents). *)
Definition init_stripe_request (rb : raid_bdev) (r0 : stripe_request)
    (raid_io_h stripe_h : nat) (stripe_index stripe_offset blocks iov_off : Z)
  : stripe_request :=
  let r :=
    {| raid_io := raid_io_h; stripe := stripe_h; remaining := 0;
       status := SPDK_BDEV_IO_STATUS_SUCCESS;
       chunk_requests_complete_cb := chunk_requests_complete_cb r0;
       iov_offset := iov_off; init_iov_offset := iov_off;
       first_data_chunk := first_data_chunk r0;
       last_data_chunk := last_data_chunk r0;
       parity_chunk := parity_position rb stripe_index;
       degraded_chunk := degraded_chunk r0; chunks := chunks r0 |} in
  let stripe_offset_from := stripe_offset in
  let stripe_offset_to := u64 (stripe_offset_from + blocks) in
  let first_chunk_data_idx := u8 (Z.shiftr stripe_offset_from (strip_size_shift rb)) in
  let last_chunk_data_idx := u8 (Z.shiftr (u64 (stripe_offset_to - 1)) (strip_size_shift rb)) in
  let r :=
    {| raid_io := raid_io r; stripe := stripe r; remaining := remaining r;
       status := status r;
       chunk_requests_complete_cb := chunk_requests_complete_cb r;
       iov_offset := iov_offset r; init_iov_offset := init_iov_offset r;
       first_data_chunk := raid5_get_data_chunk r first_chunk_data_idx;
       last_data_chunk := raid5_get_data_chunk r last_chunk_data_idx;
       parity_chunk := parity_chunk r;
       degraded_chunk := degraded_chunk r; chunks := chunks r |} in
  fold_left (init_chunk rb stripe_offset_from stripe_offset_to)
            (seqZ 0 (num_base_bdevs rb)) r.

(** ** The stripe cache and the dispatcher *)
Section Dispatcher.
Variable rb : raid_bdev.
(** [RAID_MAX_STRIPES] (bdev_raid.h). *)
Variable RAID_MAX_STRIPES : Z.
(** [rte_hash_hash] of the stripe hash table. *)
Variable rte_hash_hash : Z -> Z.
(** The callback stored in a retry queue entry,
    [wqe->cb_fn = _raid5_submit_rw_request]; the recursion through it
    is closed by [raid5_submit_rw_request] below. *)
Variable cb_fn : nat -> system -> system.

(** [RAID_MAX_STRIPES / 8] on [int]. *)
Definition reclaim_target (s : system) : Z :=
  Z.quot RAID_MAX_STRIPES 8 - RAID_MAX_STRIPES + Z.of_nat (size (active_stripes_hash s)).

(** The body of the loop of [raid5_reclaim_stripes] for a stripe that
    is given up: unlink it from the active list, append it to the free
    list, delete its key from the hash. *)
Definition reclaim_one (h : nat) (s : system) : system :=
  let o := the_stripe s h in
  let s := sys_set_cache s (stripes s) (active_stripes_hash s)
             (tailq_remove h (active_stripes s)) (free_stripes s ++ [h]) in
  (* rte_hash_del_key_with_hash; a negative return is assert(false) *)
  let found := bool_decide (is_Some (active_stripes_hash s !! s_index o)) in
  let s := sys_set_cache s (stripes s) (delete (s_index o) (active_stripes_hash s))
             (active_stripes s) (free_stripes s) in
  if found then s
  else sys_set_machine s (sys_mem s) (sys_disks s) (sys_realloc_script s)
         (sys_submit_script s) true.

(** One iteration of the loop of [raid5_reclaim_stripes] on stripe [h];
    the boolean is [false] after [break]. *)
Definition reclaim_step (to_reclaim : Z) (h : nat) (st : Z * system) : bool * (Z * system) :=
  let '(reclaimed, s) := st in
  if s_refs (the_stripe s h) >? 0 then (true, (reclaimed, s))   (* continue *)
  else
    let s := reclaim_one h s in
    let reclaimed := reclaimed + 1 in
    if reclaimed >? to_reclaim then (false, (reclaimed, s)) else (true, (reclaimed, s)).

(** [TAILQ_FOREACH_REVERSE_SAFE] over the handles in [l] (tail first). *)
Fixpoint reclaim_walk (to_reclaim : Z) (l : list nat) (st : Z * system) : Z * system :=
  match l with
  | [] => st
  | h :: l' =>
      let '(go, st') := reclaim_step to_reclaim h st in
      if go then reclaim_walk to_reclaim l' st' else st'
  end.

(** [raid5_reclaim_stripes]. *)
Definition raid5_reclaim_stripes (s : system) : Z * system :=
  let to_reclaim := reclaim_target s in
  reclaim_walk to_reclaim (rev (active_stripes s)) (0, s).

(** [raid5_get_stripe]. *)
Definition raid5_get_stripe (stripe_index : Z) (s : system) : option nat * system :=
  let hash := rte_hash_hash stripe_index in
  let '(found, s) :=
    match active_stripes_hash s !! stripe_index with
    | Some h =>
        (Some h, sys_set_cache s (stripes s) (active_stripes_hash s)
                   (tailq_remove h (active_stripes s)) (free_stripes s))
    | None =>
        let '(avail, s) :=
          match head (free_stripes s) with
          | Some h => (Some h, s)
          | None =>
              let '(n, s) := raid5_reclaim_stripes s in
              if n >? 0 then (head (free_stripes s), s) else (None, s)
          end in
        match avail with
        | None => (None, s)
        | Some h =>
            let s := sys_set_cache s (stripes s) (active_stripes_hash s)
                       (active_stripes s) (tailq_remove h (free_stripes s)) in
            let o := the_stripe s h in
            let s := sys_set_stripe s h
                       {| s_index := stripe_index; s_hash := hash;
                          s_requests := s_requests o; s_refs := s_refs o;
                          s_chunk_buffers := s_chunk_buffers o |} in
            (Some h, sys_set_cache s (stripes s)
                       (<[stripe_index := h]> (active_stripes_hash s))
                       (active_stripes s) (free_stripes s))
        end
    end in
  match found with
  | None => (None, s)
  | Some h =>
      let s := sys_set_cache s (stripes s) (active_stripes_hash s)
                 (h :: active_stripes s) (free_stripes s) in
      let o := the_stripe s h in
      let s := sys_set_stripe s h
                 {| s_index := s_index o; s_hash := s_hash o;
                    s_requests := s_requests o;
                    s_refs := (s_refs o + 1) mod 2 ^ 32;
                    s_chunk_buffers := s_chunk_buffers o |} in
      (Some h, s)
  end.

(** Modelled from the spec: [raid_bdev_io_complete_part] lives in
    bdev_raid.c.  It accounts [completed] blocks of the parent I/O,
    keeps a non-success status, and returns true iff all parts have
    completed, in which case the parent I/O is completed upstream with
    the aggregate status. *)
Definition raid_bdev_io_complete_part (io_h : nat) (completed : Z)
    (st : spdk_bdev_io_status) (s : system) : bool * system :=
  let io := the_raid_io s io_h in
  let left := u64 (base_bdev_io_remaining io - completed) in
  let agg := if bool_decide (st = SPDK_BDEV_IO_STATUS_SUCCESS)
             then base_bdev_io_status io else st in
  let s := sys_set_raid_io s io_h
             {| rio_type := rio_type io; rio_offset_blocks := rio_offset_blocks io;
                rio_num_blocks := rio_num_blocks io; rio_iovs := rio_iovs io;
                rio_raid_ch := rio_raid_ch io; base_bdev_io_remaining := left;
                base_bdev_io_status := agg |} in
  let s := sys_emit s [SysCompletePart io_h completed st] in
  if left =? 0 then (true, sys_emit s [SysComplete io_h agg]) else (false, s).

(** [raid5_io_channel_retry_request]. *)
Definition raid5_io_channel_retry_request (ch : nat) (s : system) : system :=
  match the_retry_queue s ch with
  | waiter :: q =>
      let s := sys_set_retry_queue s ch q in
      cb_fn waiter (sys_emit s [SysRetry waiter])
  | [] => sys_set_machine s (sys_mem s) (sys_disks s) (sys_realloc_script s)
            (sys_submit_script s) true          (* assert(waitq_entry != NULL) *)
  end.

(** What [raid5_complete_stripe_request] does outside the request, for
    the request [h] whose status and data block count it has read. *)
Definition complete_stripe_request_effects (h : nat) (st : spdk_bdev_io_status)
    (req_blocks : Z) (s : system) : system :=
  let r := the_request s h in
  let stripe_h := stripe r in
  let io_h := raid_io r in
  let ch := rio_raid_ch (the_raid_io s io_h) in
  let o := the_stripe s stripe_h in
  (* if next request available, submit it *)
  let next_req := tailq_next h (s_requests o) in
  let s := sys_set_stripe s stripe_h
             {| s_index := s_index o; s_hash := s_hash o;
                s_requests := tailq_remove h (s_requests o); s_refs := s_refs o;
                s_chunk_buffers := s_chunk_buffers o |} in
  let s := match next_req with
           | Some n => sys_emit (sys_set_bdev s (sys_inflight s) (sys_waitq s)
                                              (sys_msgs s ++ [n])) [SysSendMsg n]
           | None => s
           end in
  (* raid5_stripe_request_put *)
  let s := sys_set_pool s (h :: stripe_request_mempool s) (stripe_reqs s) in
  let '(all_done, s) := raid_bdev_io_complete_part io_h req_blocks st s in
  if all_done then
    let o := the_stripe s stripe_h in
    let s := sys_set_stripe s stripe_h
               {| s_index := s_index o; s_hash := s_hash o;
                  s_requests := s_requests o; s_refs := (s_refs o - 1) mod 2 ^ 32;
                  s_chunk_buffers := s_chunk_buffers o |} in
    match the_retry_queue s ch with
    | [] => s
    | _ :: _ => raid5_io_channel_retry_request ch s
    end
  else s.

(** Running a piece of the engine on the stripe request [h]: the
    request, the memory and the base devices are handed to it, its
    results are stored back, and the completions it asked for are
    carried out. *)
Definition run_engine (h : nat) (f : engine -> engine) (s : system) : system :=
  let e0 := {| req := the_request s h; mem := sys_mem s; disks := sys_disks s;
               inflight := []; waitq := [];
               realloc_script := sys_realloc_script s;
               submit_script := sys_submit_script s;
               asserted := sys_asserted s; trace := [] |} in
  let e := f e0 in
  let s := sys_set_pool s (stripe_request_mempool s) (<[h := req e]> (stripe_reqs s)) in
  let s := sys_set_machine s (mem e) (disks e) (realloc_script e) (submit_script e)
             (asserted e) in
  let s := sys_set_bdev s (sys_inflight s ++ map (pair h) (inflight e))
             (sys_waitq s ++ map (pair h) (waitq e)) (sys_msgs s) in
  let s := sys_emit s (map (SysEngine h) (trace e)) in
  fold_left
    (fun s ev =>
       match ev with
       | EvComplete st blocks => complete_stripe_request_effects h st blocks s
       | _ => s
       end)
    (trace e) s.

Definition sys_submit_stripe_request (h : nat) (s : system) : system :=
  let r := the_request s h in
  let io := the_raid_io s (raid_io r) in
  let o := the_stripe s (stripe r) in
  run_engine h
    (raid5_submit_stripe_request rb (rio_type io) (rio_iovs io) (s_index o)
       (s_chunk_buffers o)) s.

(** [raid5_handle_stripe] from [spdk_mempool_get] on. *)
Definition handle_stripe_request (io_h stripe_h : nat) (stripe_offset blocks iov_off : Z)
    (s : system) : system :=
  match stripe_request_mempool s with
  | [] => snd (raid_bdev_io_complete_part io_h blocks SPDK_BDEV_IO_STATUS_NOMEM s)
  | h :: pool =>
      let r := init_stripe_request rb (the_request s h) io_h stripe_h
                 (s_index (the_stripe s stripe_h)) stripe_offset blocks iov_off in
      let s := sys_set_pool s pool (<[h := r]> (stripe_reqs s)) in
      let o := the_stripe s stripe_h in
      let do_submit := bool_decide (s_requests o = []) in
      let s := sys_set_stripe s stripe_h
                 {| s_index := s_index o; s_hash := s_hash o;
                    s_requests := s_requests o ++ [h]; s_refs := s_refs o;
                    s_chunk_buffers := s_chunk_buffers o |} in
      let s := sys_emit s [SysEnqueue stripe_h h stripe_offset blocks iov_off] in
      if do_submit then sys_submit_stripe_request h s else s
  end.

(** [raid5_handle_stripe].  The recursive call is on fewer blocks; the
    counter [depth] bounds the recursion and [None] means it ran out. *)
Fixpoint handle_stripe_rec (depth : nat) (io_h stripe_h : nat)
    (stripe_offset blocks iov_off : Z) (s : system) : option system :=
  match depth with
  | O => None
  | S depth' =>
      let io := the_raid_io s io_h in
      if (base_bdev_io_remaining io =? blocks)
         && bool_decide (rio_type io = SPDK_BDEV_IO_TYPE_WRITE)
         && (blocks <? strip_size rb) then
        (* Split in 2 smaller requests if this request would require
           a non-contiguous parity chunk update *)
        let blocks_limit := u64 (strip_size rb - stripe_offset mod strip_size rb) in
        if blocks >? blocks_limit then
          match handle_stripe_rec depth' io_h stripe_h stripe_offset blocks_limit iov_off s with
          | Some s =>
              Some (handle_stripe_request io_h stripe_h
                      (u64 (stripe_offset + blocks_limit))
                      (u64 (blocks - blocks_limit))
                      (u64 (iov_off + u64 (blocks_limit * blocklen rb))) s)
          | None => None
          end
        else Some (handle_stripe_request io_h stripe_h stripe_offset blocks iov_off s)
      else Some (handle_stripe_request io_h stripe_h stripe_offset blocks iov_off s)
  end.

Definition raid5_handle_stripe (io_h stripe_h : nat) (stripe_offset blocks iov_off : Z)
    (s : system) : system :=
  default s (handle_stripe_rec (S (Z.to_nat blocks)) io_h stripe_h
               stripe_offset blocks iov_off s).

(** [r5info->stripe_blocks], computed by [raid5_start] in 32 bits. *)
Definition stripe_blocks : Z :=
  (strip_size rb * raid5_stripe_data_chunks_num rb) mod 2 ^ 32.

(** The body of [raid5_submit_rw_request]. *)
Definition submit_rw_request_body (io_h : nat) (s : system) : system :=
  let io := the_raid_io s io_h in
  let offset_blocks := rio_offset_blocks io in
  let num_blocks := rio_num_blocks io in
  let stripe_index := offset_blocks / stripe_blocks in
  let stripe_offset := offset_blocks mod stripe_blocks in
  let '(st, s) := raid5_get_stripe stripe_index s in
  match st with
  | None =>
      let ch := rio_raid_ch io in
      sys_emit (sys_set_retry_queue s ch (the_retry_queue s ch ++ [io_h]))
               [SysRetryQueued io_h]
  | Some stripe_h =>
      let io := the_raid_io s io_h in
      let s := sys_set_raid_io s io_h
                 {| rio_type := rio_type io; rio_offset_blocks := rio_offset_blocks io;
                    rio_num_blocks := rio_num_blocks io; rio_iovs := rio_iovs io;
                    rio_raid_ch := rio_raid_ch io; base_bdev_io_remaining := num_blocks;
                    base_bdev_io_status := base_bdev_io_status io |} in
      raid5_handle_stripe io_h stripe_h stripe_offset num_blocks 0 s
  end.

(** *** Events from outside the dispatcher *)

Inductive sys_env_event :=
| SysIoDone (n : nat) (success : bool)   (* a base bdev I/O completes *)
| SysIoWaitRetry (n : nat)               (* a base bdev wakes a parked chunk *)
| SysDeliverMsg (n : nat).               (* a thread runs a message *)

Definition sys_env_step (ev : sys_env_event) (s : system) : option system :=
  match ev with
  | SysIoDone n success =>
      match sys_inflight s !! n with
      | Some (h, io) =>
          let r := the_request s h in
          let pio := the_raid_io s (raid_io r) in
          let o := the_stripe s (stripe r) in
          let s := sys_set_bdev s (delete n (sys_inflight s)) (sys_waitq s) (sys_msgs s) in
          Some (run_engine h
                  (fun e =>
                     raid5_complete_chunk_request rb (rio_iovs pio) (s_index o)
                       (s_chunk_buffers o) success
                       (if success then transfer rb io e else e)) s)
      | None => None
      end
  | SysIoWaitRetry n =>
      match sys_waitq s !! n with
      | Some (h, i) =>
          let r := the_request s h in
          let o := the_stripe s (stripe r) in
          let s := sys_set_bdev s (sys_inflight s) (delete n (sys_waitq s)) (sys_msgs s) in
          Some (run_engine h (_raid5_submit_chunk_request rb (s_index o) i) s)
      | None => None
      end
  | SysDeliverMsg n =>
      match sys_msgs s !! n with
      | Some h =>
          let s := sys_set_bdev s (sys_inflight s) (sys_waitq s) (delete n (sys_msgs s)) in
          Some (sys_submit_stripe_request h s)
      | None => None
      end
  end.

End Dispatcher.

(** [raid5_submit_rw_request].  It can re-enter itself through the retry
    queue when a request completes inside the call; [depth] bounds that
    nesting, and a call cut short by the bound leaves the state as it
    is. *)
Fixpoint raid5_submit_rw_request (depth : nat) (rb : raid_bdev) (RAID_MAX_STRIPES : Z)
    (rte_hash_hash : Z -> Z) (io_h : nat) (s : system) : system :=
  match depth with
  | O => s
  | S depth' =>
      submit_rw_request_body rb RAID_MAX_STRIPES rte_hash_hash
        (raid5_submit_rw_request depth' rb RAID_MAX_STRIPES rte_hash_hash) io_h s
  end.


(** ** Specification-level notions used in the statements below *)

(** The vote of one data chunk, as the specification words it: [+1] when
    its [req_blocks] is less than the parity chunk's, [-1] when its
    [req_blocks] is greater than 0. *)
Definition vote_of (blocks parity_blocks : Z) : Z :=
  (if blocks <? parity_blocks then 1 else 0) - (if blocks >? 0 then 1 else 0).

(** The positions of the data chunks of a stripe request with [n] chunks
    whose parity chunk is at position [p]. *)
Definition data_positions (n p : Z) : list Z :=
  filter (fun i => i <> p) (seqZ 0 n).

(** The final balance of the vote. *)
Definition spec_vote (n p : Z) (blocks : Z -> Z) : Z :=
  foldr Z.add 0 (map (fun i => vote_of (blocks i) (blocks p)) (data_positions n p)).

(** Events by kind. *)
Definition is_completion (ev : event) : bool :=
  match ev with EvComplete _ _ => true | _ => false end.

Definition is_callback (ev : event) : bool :=
  match ev with EvCallback _ => true | _ => false end.

Definition is_preread_submit (ev : event) : bool :=
  match ev with EvSubmit _ CHUNK_PREREAD _ => true | _ => false end.

Definition is_write_submit (ev : event) : bool :=
  match ev with EvSubmit _ CHUNK_WRITE _ => true | _ => false end.

(** How often [raid5_complete_stripe_request] was entered. *)
Definition completions (t : list event) : nat := length (List.filter is_completion t).

(** What a planning step may change: [remaining], the bookkeeping of the
    base devices and the trace, and of a chunk its preread window, its
    embedded vector and its request type. *)
Definition plan_frame (e e' : engine) : Prop :=
  mem e' = mem e /\ disks e' = disks e /\ realloc_script e' = realloc_script e /\
  parity_chunk (req e') = parity_chunk (req e) /\
  first_data_chunk (req e') = first_data_chunk (req e) /\
  last_data_chunk (req e') = last_data_chunk (req e) /\
  degraded_chunk (req e') = degraded_chunk (req e) /\
  status (req e') = status (req e) /\
  chunk_requests_complete_cb (req e') = chunk_requests_complete_cb (req e) /\
  iov_offset (req e') = iov_offset (req e) /\
  init_iov_offset (req e') = init_iov_offset (req e) /\
  length (chunks (req e')) = length (chunks (req e)) /\
  forall j,
    req_offset (get_chunk (req e') j) = req_offset (get_chunk (req e) j) /\
    req_blocks (get_chunk (req e') j) = req_blocks (get_chunk (req e) j) /\
    index (get_chunk (req e') j) = index (get_chunk (req e) j) /\
    iovs (get_chunk (req e') j) = iovs (get_chunk (req e) j) /\
    iovcnt (get_chunk (req e') j) = iovcnt (get_chunk (req e) j).

(** Chunk I/Os handed to the base devices and not yet completed. *)
Definition pending (e : engine) : Z :=
  Z.of_nat (length (inflight e)) + Z.of_nat (length (waitq e)).

(** The base devices keep to their contract: a submission returns [0]
    or [-ENOMEM]. *)
Definition bdev_contract (script : list Z) : Prop :=
  Forall (fun ret => ret = 0 \/ ret = - ENOMEM) script.

(** Events that may follow the compute callback of a write: data and
    parity writes, their parking on a base device, and the completion of
    an aborted request. *)
Definition write_phase_event (ev : event) : Prop :=
  match ev with
  | EvSubmit _ ty _ => ty = CHUNK_WRITE
  | EvQueueIoWait _ => True
  | EvCallback _ => False
  | EvComplete _ _ => True
  end.

(** [e'] continues the trace of [e] with events that satisfy [Q], and
    has as many chunks. *)
Definition trace_ext (Q : event -> Prop) (e e' : engine) : Prop :=
  length (chunks (req e')) = length (chunks (req e)) /\
  exists l, trace e' = trace e ++ l /\ Forall Q l.

(** Kinds of events from the base devices. *)
Definition is_io_done (ev : env_event) : Prop :=
  match ev with IoDone _ _ => True | IoWaitRetry _ => False end.

Definition is_io_failure (ev : env_event) : Prop :=
  match ev with IoDone _ false => True | _ => False end.


(** ** Reclaim as the specification words it

    "Walk active list from tail; for each stripe whose ref_count == 0,
    remove from hash, unlink from active, push to free.  Stop after
    freeing the target count or at the first refused tail entry." *)
Fixpoint spec_reclaim_walk (to_reclaim : Z) (l : list nat) (st : Z * system) : Z * system :=
  match l with
  | [] => st
  | h :: l' =>
      let '(reclaimed, s) := st in
      if s_refs (the_stripe s h) >? 0 then st       (* the tail refuses: stop *)
      else
        let s := reclaim_one h s in
        let reclaimed := reclaimed + 1 in
        if reclaimed >=? to_reclaim then (reclaimed, s)
        else spec_reclaim_walk to_reclaim l' (reclaimed, s)
  end.

Definition spec_reclaim_stripes (RAID_MAX_STRIPES : Z) (s : system) : Z * system :=
  spec_reclaim_walk (reclaim_target RAID_MAX_STRIPES s) (rev (active_stripes s)) (0, s).

(** A stripe that reclaim may take: nobody holds a reference. *)
Definition reclaimable (s : system) (h : nat) : bool :=
  negb (s_refs (the_stripe s h) >? 0).

(** ** Worked configurations

    Three member devices, strips of four two-byte blocks. *)
Definition ex_rb : raid_bdev :=
  {| num_base_bdevs := 3; strip_size := 4; strip_size_shift := 2; blocklen := 2;
     base_bdev_degraded := [false; false; false] |}.

Definition ex_pool_object : stripe_request :=
  upd_chunks request_zero [chunk_zero; chunk_zero; chunk_zero].

Definition ex_stripe (index refs : Z) (base : Z) : stripe_obj :=
  {| s_index := index; s_hash := index; s_requests := []; s_refs := refs;
     s_chunk_buffers := [base; base + 8; base + 16] |}.

(** Two active stripes: stripe object 0 (at the head, idle) and stripe
    object 1 (at the tail, referenced); no free stripe. *)
Definition ex_cache : system :=
  {| stripes := [ex_stripe 10 0 1000; ex_stripe 11 1 2000];
     active_stripes_hash := <[10 := 0%nat]> (<[11 := 1%nat]> ∅);
     active_stripes := [0%nat; 1%nat];
     free_stripes := [];
     stripe_request_mempool := [0%nat; 1%nat];
     stripe_reqs := [ex_pool_object; ex_pool_object];
     raid_ios := [];
     retry_queues := [[]];
     sys_inflight := []; sys_waitq := []; sys_msgs := [];
     sys_mem := fun _ => 0; sys_disks := fun _ _ => 0;
     sys_realloc_script := []; sys_submit_script := [];
     sys_asserted := false; sys_log := [] |}.

(** A cache whose [n] stripes are all active (stripe object [i] caches
    stripe [i]; object [0] is at the head), with a reference held on the
    one at the tail only, and no free stripe. *)
Definition ex_full_cache (n : nat) : system :=
  {| stripes := map (fun i : nat =>
                       ex_stripe (Z.of_nat i) (if Nat.eqb (S i) n then 1 else 0)
                                 (1000 * Z.of_nat (S i))) (seq 0 n);
     active_stripes_hash := list_to_map (map (fun i : nat => (Z.of_nat i, i)) (seq 0 n));
     active_stripes := seq 0 n;
     free_stripes := [];
     stripe_request_mempool := [0%nat; 1%nat];
     stripe_reqs := [ex_pool_object; ex_pool_object];
     raid_ios := [];
     retry_queues := [[]];
     sys_inflight := []; sys_waitq := []; sys_msgs := [];
     sys_mem := fun _ => 0; sys_disks := fun _ _ => 0;
     sys_realloc_script := []; sys_submit_script := [];
     sys_asserted := false; sys_log := [] |}.

(** Host memory with a 16-byte user buffer at address 100 (bytes 1, 2,
    3, ...), member devices whose byte at address [a] is
    [10 * (member + 1) + a], and scratch buffers at 1000, 2000, 3000. *)
Definition ex_mem : memory := fun a => if (100 <=? a) && (a <? 116) then a - 99 else 0.
Definition ex_disk : disk := fun member a => 10 * (member + 1) + a.
Definition ex_iovs : list iovec := [{| iov_base := 100; iov_len := 16 |}].
Definition ex_buffers : list Z := [1000; 2000; 3000].

Definition ex_engine (r : stripe_request) : engine :=
  {| req := r; mem := ex_mem; disks := ex_disk; inflight := []; waitq := [];
     realloc_script := []; submit_script := []; asserted := false; trace := [] |}.

(** A write of the whole of stripe 0, and a write of the last block of
    the first strip of stripe 1. *)
Definition ex_full_request : stripe_request :=
  init_stripe_request ex_rb ex_pool_object 0 0 0 0 8 0.
Definition ex_single_request : stripe_request :=
  init_stripe_request ex_rb ex_pool_object 0 0 1 3 1 0.

(** A write of blocks 3 and 4 of stripe 0, which straddles the boundary
    between the first and the second strip; the stripe is held and two
    request objects are in the pool. *)
Definition ex_straddling_write : raid_bdev_io :=
  {| rio_type := SPDK_BDEV_IO_TYPE_WRITE; rio_offset_blocks := 3; rio_num_blocks := 2;
     rio_iovs := ex_iovs; rio_raid_ch := O; base_bdev_io_remaining := 2;
     base_bdev_io_status := SPDK_BDEV_IO_STATUS_SUCCESS |}.

Definition ex_write_system : system :=
  {| stripes := [ex_stripe 0 1 1000];
     active_stripes_hash := <[0 := 0%nat]> ∅;
     active_stripes := [0%nat];
     free_stripes := [];
     stripe_request_mempool := [0%nat; 1%nat];
     stripe_reqs := [ex_pool_object; ex_pool_object];
     raid_ios := [ex_straddling_write];
     retry_queues := [[]];
     sys_inflight := []; sys_waitq := []; sys_msgs := [];
     sys_mem := ex_mem; sys_disks := ex_disk;
     sys_realloc_script := []; sys_submit_script := [];
     sys_asserted := false; sys_log := [] |}.

(** The only cached stripe (index 10) is referenced and the free list is
    empty when a write to stripe 0 arrives. *)
Definition ex_busy_system : system :=
  {| stripes := [ex_stripe 10 1 1000];
     active_stripes_hash := <[10 := 0%nat]> ∅;
     active_stripes := [0%nat];
     free_stripes := [];
     stripe_request_mempool := [0%nat; 1%nat];
     stripe_reqs := [ex_pool_object; ex_pool_object];
     raid_ios := [ex_straddling_write];
     retry_queues := [[]];
     sys_inflight := []; sys_waitq := []; sys_msgs := [];
     sys_mem := ex_mem; sys_disks := ex_disk;
     sys_realloc_script := []; sys_submit_script := [];
     sys_asserted := false; sys_log := [] |}.

(** Stripe request 0 is the only part of I/O 0 still open, on stripe
    object 0; I/O 1 waits in the retry queue of the channel. *)
Definition ex_retry_system : system :=
  {| stripes := [{| s_index := 10; s_hash := 10; s_requests := [0%nat]; s_refs := 1;
                    s_chunk_buffers := [1000; 1008; 1016] |}];
     active_stripes_hash := <[10 := 0%nat]> ∅;
     active_stripes := [0%nat];
     free_stripes := [];
     stripe_request_mempool := [1%nat];
     stripe_reqs := [init_stripe_request ex_rb ex_pool_object 0 0 10 3 2 0; ex_pool_object];
     raid_ios := [ex_straddling_write; ex_straddling_write];
     retry_queues := [[1%nat]];
     sys_inflight := []; sys_waitq := []; sys_msgs := [];
     sys_mem := ex_mem; sys_disks := ex_disk;
     sys_realloc_script := []; sys_submit_script := [];
     sys_asserted := false; sys_log := [] |}.

(** The same array with member 1 degraded, and a read of blocks 2..5 of
    stripe 0: two blocks of the chunk on member 0 and two of the chunk
    on the degraded member.  The upstream buffer comes in three
    vectors, and the allocator refuses the first request. *)
Definition ex_degraded_rb : raid_bdev :=
  {| num_base_bdevs := 3; strip_size := 4; strip_size_shift := 2; blocklen := 2;
     base_bdev_degraded := [false; true; false] |}.

Definition ex_split_iovs : list iovec :=
  [{| iov_base := 100; iov_len := 2 |}; {| iov_base := 102; iov_len := 2 |};
   {| iov_base := 104; iov_len := 4 |}].

Definition ex_degraded_read : engine :=
  {| req := init_stripe_request ex_degraded_rb ex_pool_object 0 0 0 2 4 0;
     mem := ex_mem; disks := ex_disk; inflight := []; waitq := [];
     realloc_script := [false]; submit_script := []; asserted := false; trace := [] |}.

(** An array of four members, with scratch buffers at 1000, 2000, 3000
    and 4000, whose parity strips were never written: every byte of
    member [m] is [2 ^ m], except on member 3, the parity member of
    stripe 0, where it is [0].  The request writes block 3 of the
    first strip of stripe 0. *)
Definition ex_rb4 : raid_bdev :=
  {| num_base_bdevs := 4; strip_size := 4; strip_size_shift := 2; blocklen := 2;
     base_bdev_degraded := [false; false; false; false] |}.

Definition ex_pool_object4 : stripe_request :=
  upd_chunks request_zero [chunk_zero; chunk_zero; chunk_zero; chunk_zero].

Definition ex_buffers4 : list Z := [1000; 2000; 3000; 4000].

Definition ex_stale_disk : disk := fun member _ => if member =? 3 then 0 else 2 ^ member.

Definition ex_small_write : engine :=
  {| req := init_stripe_request ex_rb4 ex_pool_object4 0 0 0 3 1 0;
     mem := ex_mem; disks := ex_stale_disk; inflight := []; waitq := [];
     realloc_script := []; submit_script := []; asserted := false; trace := [] |}.

(** The same array and request with a parity strip that is the XOR of
    the data strips. *)
Definition ex_parity_disk : disk := fun member _ => if member =? 3 then 7 else 2 ^ member.

Definition ex_small_write_consistent : engine := with_disks ex_small_write ex_parity_disk.

(** ** Scatter-gather vectors as address lists *)

Definition iovs_total (l : list iovec) : Z := foldr (fun v acc => iov_len v + acc) 0 l.

(** Vector lists as a program can hold them: lengths are [size_t], and
    the bytes they name fit the address space. *)
Definition wf_iovs (l : list iovec) : Prop :=
  Forall (fun v => 0 <= iov_len v) l /\ iovs_total l < 2 ^ 64.

Definition iov_sized (v : iovec) : Prop := 0 <= iov_len v < 2 ^ 64.

(** The addresses from a cursor [(v, off)] on: the rest of the first
    vector, then the vectors behind it. *)
Definition cursor_addrs (v : list iovec) (off : Z) : list Z :=
  match v with
  | [] => []
  | x :: v' => seqZ (iov_base x + off) (iov_len x - off) ++ iovs_addrs v'
  end.

Definition cursor_ok (v : list iovec) (off : Z) : Prop :=
  match v with
  | [] => off = 0
  | x :: _ => 0 <= off <= iov_len x
  end.

(** [m[a] = f(m[a], m[b])] for the address pairs in order. *)
Fixpoint bytes_op (f : Z -> Z -> Z) (pairs : list (Z * Z)) (m : memory) : memory :=
  match pairs with
  | [] => m
  | (a, b) :: ps => bytes_op f ps (mem_store m a (f (m a) (m b)))
  end.

(** ** Accounting of chunk I/Os

    The relations below describe what a step of the engine does to the
    counter [remaining], to the chunk I/Os outstanding at the base
    devices and to the number of times the request was completed. *)

(** What stays as planned: the layout of the request and the blocks
    each chunk is asked for. *)
Definition shape_eq (e e' : engine) : Prop :=
  length (chunks (req e')) = length (chunks (req e)) /\
  parity_chunk (req e') = parity_chunk (req e) /\
  first_data_chunk (req e') = first_data_chunk (req e) /\
  last_data_chunk (req e') = last_data_chunk (req e) /\
  degraded_chunk (req e') = degraded_chunk (req e) /\
  init_iov_offset (req e') = init_iov_offset (req e) /\
  forall j, req_blocks (get_chunk (req e') j) = req_blocks (get_chunk (req e) j).

(** The scripts of the allocator and of the base devices are only
    consumed. *)
Definition scripts_shrink (e e' : engine) : Prop :=
  (exists n, realloc_script e' = drop n (realloc_script e)) /\
  (exists n, submit_script e' = drop n (submit_script e)).

(** [e'] comes from [e] by submitting [k] chunk I/Os, without
    completing the request. *)
Definition books (k : Z) (e e' : engine) : Prop :=
  shape_eq e e' /\ scripts_shrink e e' /\
  status (req e') = status (req e) /\
  completions (trace e') = completions (trace e) /\
  remaining (req e') = remaining (req e) + k /\
  (bdev_contract (submit_script e) ->
   asserted e' = asserted e /\ pending e' = pending e + k).

(** The same, within one phase: the callback stays. *)
Definition moves (k : Z) (e e' : engine) : Prop :=
  books k e e' /\
  chunk_requests_complete_cb (req e') = chunk_requests_complete_cb (req e).

(** [e'] comes from [e] by a path that ends in
    [raid5_abort_stripe_request]. *)
Definition aborted (e e' : engine) : Prop :=
  shape_eq e e' /\ scripts_shrink e e' /\
  completions (trace e') = S (completions (trace e)) /\
  remaining (req e') = 0 /\
  (bdev_contract (submit_script e) -> asserted e' = asserted e).

(** Some chunk will be written by [raid5_stripe_write_submit]. *)
Definition has_write (n : Z) (e : engine) : Prop :=
  exists w, 0 <= w < n /\ 0 < req_blocks (chunk_at e w) /\
            is_chunk (degraded_chunk (req e)) w = false.

(** The bytes a stripe request moves for its parent I/O. *)
Definition request_bytes (rb : raid_bdev) (r : stripe_request) : Z :=
  foldr Z.add 0
    (map (fun i => req_blocks (get_chunk r i) * blocklen rb)
         (data_positions (num_base_bdevs rb) (parity_chunk r))).

(** The vectors of the parent I/O hold the bytes of the request, from
    [init_iov_offset] on. *)
Definition upstream_covers (rb : raid_bdev) (bdev_iovs : list iovec) (r : stripe_request)
  : Prop :=
  wf_iovs bdev_iovs /\ 0 < blocklen rb /\
  (forall j, 0 <= req_blocks (get_chunk r j)) /\
  0 <= init_iov_offset r /\
  init_iov_offset r + request_bytes rb r <= iovs_total bdev_iovs.

(** [realloc] never fails. *)
Definition allocator_ok (e : engine) : Prop :=
  Forall (fun b => b = true) (realloc_script e).

(** What the callback of the current phase needs so that it leaves the
    request either completed or with chunk I/Os outstanding. *)
Definition cb_good (rb : raid_bdev) (bdev_iovs : list iovec) (e : engine) : Prop :=
  match chunk_requests_complete_cb (req e) with
  | cb_raid5_complete_stripe_request => True
  | cb_raid5_complete_reconstructed_stripe_request =>
      upstream_covers rb bdev_iovs (req e) /\ allocator_ok e
  | _ => has_write (num_base_bdevs rb) e
  end.

Definition engine_ok (rb : raid_bdev) (e : engine) : Prop :=
  Z.of_nat (length (chunks (req e))) = num_base_bdevs rb /\
  bdev_contract (submit_script e) /\ asserted e = false.

(** Not yet completed: the counter is the number of chunk I/Os
    outstanding, and there are some. *)
Definition live (rb : raid_bdev) (bdev_iovs : list iovec) (e : engine) : Prop :=
  completions (trace e) = 0%nat /\ remaining (req e) = pending e /\ 0 < pending e /\
  (status (req e) = SPDK_BDEV_IO_STATUS_SUCCESS -> cb_good rb bdev_iovs e).

(** Completed, once; the counter cannot come back to zero. *)
Definition finished (e : engine) : Prop :=
  completions (trace e) = 1%nat /\ remaining (req e) <= 0.

Definition accounted (rb : raid_bdev) (bdev_iovs : list iovec) (e : engine) : Prop :=
  engine_ok rb e /\ (live rb bdev_iovs e \/ finished e).

(** A request as [raid5_handle_stripe] hands it over. *)
Definition fresh (e : engine) : Prop :=
  remaining (req e) = 0 /\ status (req e) = SPDK_BDEV_IO_STATUS_SUCCESS /\
  inflight e = [] /\ waitq e = [] /\ asserted e = false /\ trace e = [].

(** A read that asks for blocks of a degraded member. *)
Definition reconstructing (rb : raid_bdev) (io_type : spdk_bdev_io_type) (e : engine) : Prop :=
  io_type = SPDK_BDEV_IO_TYPE_READ /\
  exists i, 0 <= i < num_base_bdevs rb /\
            base_degraded rb (index (chunk_at e i)) = true /\
            0 < req_blocks (chunk_at e i).

(** What [chunk->iovs] points at holds at least [chunk->iovcnt]
    entries. *)
Definition chunk_cap_ok (c : chunk) : Prop :=
  match iovs c with
  | IovsEmbedded => iovcnt c <= 1
  | IovsHeap arr => iovcnt c <= Z.of_nat (length arr)
  | IovsNull => iovcnt c <= 0
  end.

(** The layout [raid5_handle_stripe] gives a request: a parity chunk
    and a first data chunk inside the array, and blocks asked of the
    first data chunk. *)
Definition request_ok (rb : raid_bdev) (e : engine) : Prop :=
  0 <= parity_chunk (req e) < num_base_bdevs rb /\
  0 <= first_data_chunk (req e) < num_base_bdevs rb /\
  first_data_chunk (req e) <> parity_chunk (req e) /\
  0 < req_blocks (chunk_at e (first_data_chunk (req e))) /\
  0 < strip_size rb.

(** ** Parity of a write

    What the disks hold, what a write leaves behind, and what the
    planning loop of [raid5_stripe_write] makes of each chunk. *)

(** Byte [j] of the strip that [member] contributes to the stripe. *)
Definition strip_byte (rb : raid_bdev) (stripe_index : Z) (d : disk) (member j : Z) : Z :=
  d member (shl64 stripe_index (strip_size_shift rb) * blocklen rb + j).

(** Byte [j] of the strip of chunk [i] once the writes of the request
    are done: the byte the chunk's vectors name where the request
    covers it, and the byte disk [d] holds elsewhere. *)
Definition final_data (rb : raid_bdev) (stripe_index : Z) (d : disk) (e : engine) (i j : Z)
  : Z :=
  let c := chunk_at e i in
  let lo := req_offset c * blocklen rb in
  let hi := (req_offset c + req_blocks c) * blocklen rb in
  if (lo <=? j) && (j <? hi)
  then mem e (nth (Z.to_nat (j - lo)) (iovs_addrs (chunk_iovs c)) 0)
  else strip_byte rb stripe_index d (index c) j.

(** The buffer of the parity chunk holds, over the parity window, the
    XOR of the data chunks as the request leaves them. *)
Definition parity_holds (rb : raid_bdev) (stripe_index : Z) (d : disk) (e : engine) : Prop :=
  let p := parity_chunk (req e) in
  let pc := chunk_at e p in
  forall t, 0 <= t < req_blocks pc * blocklen rb ->
    mem e (nth (Z.to_nat t) (iovs_addrs (chunk_iovs pc)) 0) =
    foldr Z.lxor 0
      (map (fun i => final_data rb stripe_index d e i (req_offset pc * blocklen rb + t))
           (data_positions (num_base_bdevs rb) p)).

(** The parity strip on disk is the XOR of the data strips. *)
Definition stripe_consistent (rb : raid_bdev) (stripe_index : Z) (d : disk) (p : Z) : Prop :=
  forall j, 0 <= j < strip_size rb * blocklen rb ->
    strip_byte rb stripe_index d p j =
    foldr Z.lxor 0
      (map (fun i => strip_byte rb stripe_index d i j)
           (data_positions (num_base_bdevs rb) p)).

(** A chunk as the pool hands it out and [raid5_handle_stripe]
    initialises it. *)
Definition chunk_fresh_ok (r : stripe_request) (i : Z) : bool :=
  let c := get_chunk r i in
  (index c =? i) && (iovcnt c =? 1) &&
  match iovs c with IovsEmbedded => true | _ => false end.

(** The blocks asked of a data chunk lie in its strip, and the request
    is one range of the stripe: a single chunk, or chunks that reach
    the end of their strip or start at its beginning. *)
Definition chunk_shape_ok (rb : raid_bdev) (r : stripe_request) (i : Z) : bool :=
  let c := get_chunk r i in
  (0 <=? req_offset c) && (0 <=? req_blocks c) &&
  (req_offset c + req_blocks c <=? strip_size rb) &&
  (if first_data_chunk r =? last_data_chunk r
   then (i =? first_data_chunk r) || (req_blocks c =? 0)
   else (req_offset c =? 0) || (req_offset c + req_blocks c =? strip_size rb)).

(** The chunk buffers of the stripe are [strip_size * blocklen] bytes
    each, apart from each other and from the upstream buffers. *)
Definition buffers_apart (rb : raid_bdev) (bdev_iovs : list iovec) (chunk_buffers : list Z)
  : bool :=
  let sz := strip_size rb * blocklen rb in
  forallb
    (fun i =>
       let b := chunk_buffer chunk_buffers i in
       (0 <=? b) &&
       forallb (fun j => (i =? j) || (b + sz <=? chunk_buffer chunk_buffers j)
                         || (chunk_buffer chunk_buffers j + sz <=? b))
               (seqZ 0 (num_base_bdevs rb)) &&
       forallb (fun a => (a <? b) || (b + sz <=? a)) (iovs_addrs bdev_iovs))
    (seqZ 0 (num_base_bdevs rb)).

(** A write request on an array without degraded members. *)
Definition write_request_ok (rb : raid_bdev) (bdev_iovs : list iovec) (stripe_index : Z)
    (chunk_buffers : list Z) (e : engine) : Prop :=
  engine_ok rb e /\ fresh e /\ request_ok rb e /\
  0 < blocklen rb /\ strip_size rb * blocklen rb < 2 ^ 64 /\
  shl64 stripe_index (strip_size_shift rb) + strip_size rb < 2 ^ 64 /\
  wf_iovs bdev_iovs /\
  iovs_total bdev_iovs + strip_size rb * blocklen rb < 2 ^ 64 /\
  0 <= iov_offset (req e) < 2 ^ 64 /\
  forallb (fun i => negb (base_degraded rb i)) (seqZ 0 (num_base_bdevs rb)) = true /\
  forallb (chunk_fresh_ok (req e)) (seqZ 0 (num_base_bdevs rb)) = true /\
  forallb (chunk_shape_ok rb (req e))
          (data_positions (num_base_bdevs rb) (parity_chunk (req e))) = true /\
  buffers_apart rb bdev_iovs chunk_buffers = true.

(** The chunk at position [i] after the planning loop of
    [raid5_stripe_write]; [w] is the request with its parity window
    set. *)
Definition planned_chunk (rb : raid_bdev) (chunk_buffers : list Z) (balance : Z)
    (w : stripe_request) (i : Z) : chunk :=
  let p := parity_chunk w in
  let '(po, pb) := stripe_write_preread rb balance w i in
  let c := chunk_set_preread (get_chunk w i) po pb in
  let c :=
    if negb (pb =? 0) || (i =? p)
    then chunk_set_iov c
           {| iov_base := chunk_buffer chunk_buffers (index c);
              iov_len := if i =? p then blk_len rb (req_blocks c) else blk_len rb pb |}
    else c in
  if negb (pb =? 0) then chunk_set_request_type c CHUNK_PREREAD else c.

(** The prereads in flight or parked belong to chunks that want one. *)
Definition preread_tracked (rb : raid_bdev) (stripe_index : Z) (e : engine) : Prop :=
  (forall io, io ∈ inflight e ->
     exists i, 0 <= i < num_base_bdevs rb /\ preread_blocks (chunk_at e i) <> 0 /\
               io = chunk_bdev_io rb stripe_index i (chunk_at e i)) /\
  (forall i, i ∈ waitq e ->
     0 <= i < num_base_bdevs rb /\ preread_blocks (chunk_at e i) <> 0).

(** The buffer of chunk [i] holds its preread window as disk [d] has
    it. *)
Definition preread_loaded (rb : raid_bdev) (stripe_index : Z) (chunk_buffers : list Z)
    (d : disk) (e : engine) (i : Z) : Prop :=
  let c := chunk_at e i in
  forall t, 0 <= t < preread_blocks c * blocklen rb ->
    mem e (chunk_buffer chunk_buffers i + t) =
    strip_byte rb stripe_index d i (preread_offset c * blocklen rb + t).

(** Every preread is under way or done. *)
Definition prereads_covered (rb : raid_bdev) (stripe_index : Z) (chunk_buffers : list Z)
    (d : disk) (e : engine) : Prop :=
  forall i, 0 <= i < num_base_bdevs rb -> preread_blocks (chunk_at e i) <> 0 ->
    preread_loaded rb stripe_index chunk_buffers d e i \/
    (exists io, io ∈ inflight e /\ bio_chunk io = i) \/ i ∈ waitq e.

(** *** The state in which a compute callback of a write runs *)

(** Sizes fit the address space, and the buffers are apart. *)
Definition sizes_ok (rb : raid_bdev) (bdev_iovs : list iovec) (chunk_buffers : list Z) : Prop :=
  0 < blocklen rb /\ 0 < strip_size rb /\ strip_size rb * blocklen rb < 2 ^ 64 /\
  wf_iovs bdev_iovs /\
  iovs_total bdev_iovs + strip_size rb * blocklen rb < 2 ^ 64 /\
  buffers_apart rb bdev_iovs chunk_buffers = true.

(** The parity chunk carries the parity window and its buffer. *)
Definition parity_ready (rb : raid_bdev) (chunk_buffers : list Z) (e : engine) : Prop :=
  let p := parity_chunk (req e) in
  let pc := chunk_at e p in
  0 <= p < num_base_bdevs rb /\
  iovs pc = IovsEmbedded /\ iovcnt pc = 1 /\
  iov pc = {| iov_base := chunk_buffer chunk_buffers p;
              iov_len := req_blocks pc * blocklen rb |} /\
  0 <= req_offset pc /\ 0 < req_blocks pc /\
  req_offset pc + req_blocks pc <= strip_size rb.

(** A data chunk before its turn in the compute loop: its preread
    window, inside the parity window, is in its buffer; the blocks
    asked of it lie in the parity window; and, for a reconstruction
    write, the two make up the parity window. *)
Definition chunk_ready (rb : raid_bdev) (stripe_index : Z) (chunk_buffers : list Z)
    (rmw : bool) (d : disk) (e : engine) (i : Z) : Prop :=
  let c := chunk_at e i in
  let pc := chunk_at e (parity_chunk (req e)) in
  let bl := blocklen rb in
  let W0 := req_offset pc * bl in
  let W1 := (req_offset pc + req_blocks pc) * bl in
  let P0 := preread_offset c * bl in
  let P1 := (preread_offset c + preread_blocks c) * bl in
  let R0 := req_offset c * bl in
  let R1 := (req_offset c + req_blocks c) * bl in
  index c = i /\ iovs c = IovsEmbedded /\ iovcnt c = 1 /\
  0 <= preread_blocks c <= strip_size rb /\ 0 <= req_blocks c <= strip_size rb /\
  (preread_blocks c <> 0 ->
   iov c = {| iov_base := chunk_buffer chunk_buffers i;
              iov_len := preread_blocks c * bl |} /\
   req_offset pc <= preread_offset c /\ W0 <= P0 /\ P1 <= W1 /\
   preread_loaded rb stripe_index chunk_buffers d e i) /\
  (req_blocks c <> 0 -> req_offset pc <= req_offset c /\ W0 <= R0 /\ R1 <= W1) /\
  (if rmw
   then preread_offset c = req_offset c /\ preread_blocks c = req_blocks c
   else forall j, W0 <= j < W1 ->
          (P0 <= j < P1 /\ ~ (R0 <= j < R1)) \/ (R0 <= j < R1 /\ ~ (P0 <= j < P1))).

(** The vectors of a mapped chunk keep clear of the parity buffer. *)
Definition mapped_clear (rb : raid_bdev) (chunk_buffers : list Z) (e : engine) (i : Z) : Prop :=
  let c := chunk_at e i in
  let b := chunk_buffer chunk_buffers (parity_chunk (req e)) in
  forall k, 0 <= k < req_blocks c * blocklen rb ->
    ~ (b <= nth (Z.to_nat k) (iovs_addrs (chunk_iovs c)) 0
         < b + strip_size rb * blocklen rb).

(** What a data chunk adds to the parity buffer at byte [t] of the
    parity window: its final data in a reconstruction write, the
    change of its data in a read-modify-write. *)
Definition parity_share (rb : raid_bdev) (stripe_index : Z) (rmw : bool) (d : disk)
    (e : engine) (i t : Z) : Z :=
  let j := req_offset (chunk_at e (parity_chunk (req e))) * blocklen rb + t in
  if rmw
  then Z.lxor (strip_byte rb stripe_index d i j) (final_data rb stripe_index d e i j)
  else final_data rb stripe_index d e i j.

(** One turn of a compute loop for data chunk [i] that did not abort:
    the parity buffer took the share of the chunk, nothing else in
    memory changed, and only chunk [i] was touched, by the mapping of
    its request data. *)
Definition step_done (rb : raid_bdev) (stripe_index : Z) (chunk_buffers : list Z)
    (rmw : bool) (d : disk) (e e' : engine) (i : Z) : Prop :=
  let p := parity_chunk (req e) in
  let b := chunk_buffer chunk_buffers p in
  let wlen := req_blocks (chunk_at e p) * blocklen rb in
  (forall t, 0 <= t < wlen ->
     mem e' (b + t) = Z.lxor (mem e (b + t)) (parity_share rb stripe_index rmw d e' i t)) /\
  (forall a, ~ (b <= a < b + wlen) -> mem e' a = mem e a) /\
  (forall j, j <> i -> chunk_at e' j = chunk_at e j) /\
  req_offset (chunk_at e' i) = req_offset (chunk_at e i) /\
  req_blocks (chunk_at e' i) = req_blocks (chunk_at e i) /\
  index (chunk_at e' i) = index (chunk_at e i) /\
  (req_blocks (chunk_at e i) <> 0 -> mapped_clear rb chunk_buffers e' i) /\
  0 <= iov_offset (req e') < 2 ^ 64 /\
  disks e' = disks e /\
  moves 0 e e'.

(** A turn that ended in [raid5_abort_stripe_request]. *)
Definition step_aborted (e e' : engine) : Prop :=
  aborted e e' /\
  status (req e') <> SPDK_BDEV_IO_STATUS_SUCCESS /\
  chunk_requests_complete_cb (req e') = chunk_requests_complete_cb (req e).

(** *** The compute loops and the phases of a write *)

(** The compute loop that started in [x0] has taken the chunks [pre]:
    the parity buffer holds what it held in [x0], XORed with the
    shares of the chunks taken; the other chunks, and the memory
    outside the parity buffer, are as in [x0]. *)
Definition loop_inv (rb : raid_bdev) (stripe_index : Z) (chunk_buffers : list Z)
    (rmw : bool) (d : disk) (x0 : engine) (pre : list Z) (x : engine) : Prop :=
  let p := parity_chunk (req x0) in
  let b := chunk_buffer chunk_buffers p in
  let wlen := req_blocks (chunk_at x0 p) * blocklen rb in
  moves 0 x0 x /\
  chunk_at x p = chunk_at x0 p /\
  (forall j, j ∉ pre -> chunk_at x j = chunk_at x0 j) /\
  (forall a, ~ (b <= a < b + wlen) -> mem x a = mem x0 a) /\
  (forall j, j ∈ pre ->
     req_offset (chunk_at x j) = req_offset (chunk_at x0 j) /\
     req_blocks (chunk_at x j) = req_blocks (chunk_at x0 j) /\
     index (chunk_at x j) = index (chunk_at x0 j) /\
     (req_blocks (chunk_at x0 j) <> 0 -> mapped_clear rb chunk_buffers x j)) /\
  (forall t, 0 <= t < wlen ->
     mem x (b + t) =
     Z.lxor (mem x0 (b + t))
       (foldr Z.lxor 0 (map (fun j => parity_share rb stripe_index rmw d x j t) pre))) /\
  0 <= iov_offset (req x) < 2 ^ 64 /\
  disks x = disks x0.

(** A request that failed before its writes were submitted. *)
Definition compute_failed (e : engine) : Prop :=
  status (req e) <> SPDK_BDEV_IO_STATUS_SUCCESS /\
  chunk_requests_complete_cb (req e) <> cb_raid5_complete_stripe_request.

(** After [raid5_stripe_write_submit]: the parity is in place, and
    only writes are under way. *)
Definition write_phase (rb : raid_bdev) (stripe_index : Z) (d : disk) (e : engine) : Prop :=
  parity_holds rb stripe_index d e /\
  chunk_requests_complete_cb (req e) = cb_raid5_complete_stripe_request /\
  Forall (fun io => bio_type io = SPDK_BDEV_IO_TYPE_WRITE) (inflight e) /\
  Forall (fun i => request_type (chunk_at e i) = CHUNK_WRITE) (waitq e).

(** Between [raid5_stripe_write] and the compute callback: the chunks
    are as planned from the request [w] with the vote [bal], the disks
    are still [d], and every preread is under way or done. *)
Definition preread_phase (rb : raid_bdev) (stripe_index : Z) (chunk_buffers : list Z)
    (bal : Z) (w : stripe_request) (d : disk) (e : engine) : Prop :=
  Z.of_nat (length (chunks (req e))) = num_base_bdevs rb /\
  (forall i, 0 <= i < num_base_bdevs rb ->
     chunk_at e i = planned_chunk rb chunk_buffers bal w i) /\
  parity_chunk (req e) = parity_chunk w /\
  degraded_chunk (req e) = None /\
  chunk_requests_complete_cb (req e) =
    (if bal >? 0 then cb_raid5_stripe_write_preread_complete_rmw
     else cb_raid5_stripe_write_preread_complete) /\
  status (req e) = SPDK_BDEV_IO_STATUS_SUCCESS /\
  disks e = d /\
  remaining (req e) = pending e /\
  bdev_contract (submit_script e) /\
  preread_tracked rb stripe_index e /\
  prereads_covered rb stripe_index chunk_buffers d e /\
  0 <= iov_offset (req e) < 2 ^ 64.

(** ** The stripe cache

    The hash table, the active list and the free list agree: a stripe
    is in at most one of the two lists and at most once, the hash maps
    an index to an active stripe that caches this index, every active
    stripe is found under its index, and every handle names a stripe
    object. *)
Definition cache_coherent (s : system) : Prop :=
  NoDup (active_stripes s ++ free_stripes s) /\
  (forall idx h, active_stripes_hash s !! idx = Some h ->
     h ∈ active_stripes s /\ s_index (the_stripe s h) = idx) /\
  (forall h, h ∈ active_stripes s ->
     active_stripes_hash s !! s_index (the_stripe s h) = Some h) /\
  (forall h, h ∈ active_stripes s ++ free_stripes s -> (h < length (stripes s))%nat).
(** * Properties *)

(** ** Arithmetic helpers *)

Lemma u64_small x : 0 <= x < 2 ^ 64 -> u64 x = x.
Proof. intros H. unfold u64. apply Z.mod_small. exact H. Qed.

Lemma u8_small x : 0 <= x < 2 ^ 8 -> u8 x = x.
Proof. intros H. unfold u8. apply Z.mod_small. exact H. Qed.

Lemma u64_range x : 0 <= u64 x < 2 ^ 64.
Proof. unfold u64. apply Z.mod_pos_bound. lia. Qed.

Lemma u8_range x : 0 <= u8 x < 2 ^ 8.
Proof. unfold u8. apply Z.mod_pos_bound. lia. Qed.

Lemma int32_small x : INT_MIN <= x <= INT_MAX -> int32 x = x.
Proof.
  unfold INT_MIN, INT_MAX, int32. intros H.
  rewrite Z.mod_small by lia. lia.
Qed.

Lemma c_abs_spec e :
  INT_MIN <= e <= INT_MAX ->
  (INT_MIN < e /\ c_abs e = Z.abs e) \/ (e = INT_MIN /\ c_abs e = INT_MIN).
Proof.
  unfold c_abs, INT_MIN, INT_MAX. intros H.
  destruct (Z.eq_dec e (- 2 ^ 31)) as [->|Hne].
  - right. split; [reflexivity|]. vm_compute. reflexivity.
  - left. split; [lia|]. apply int32_small. unfold INT_MIN, INT_MAX. lia.
Qed.

(** ** Stores into the chunk array leave the request header alone *)

Lemma set_chunk_header r i c :
  parity_chunk (set_chunk r i c) = parity_chunk r /\
  first_data_chunk (set_chunk r i c) = first_data_chunk r /\
  last_data_chunk (set_chunk r i c) = last_data_chunk r /\
  degraded_chunk (set_chunk r i c) = degraded_chunk r /\
  remaining (set_chunk r i c) = remaining r /\
  status (set_chunk r i c) = status r /\
  chunk_requests_complete_cb (set_chunk r i c) = chunk_requests_complete_cb r /\
  iov_offset (set_chunk r i c) = iov_offset r /\
  init_iov_offset (set_chunk r i c) = init_iov_offset r /\
  length (chunks (set_chunk r i c)) = length (chunks r).
Proof.
  unfold set_chunk. cbn. destruct (i <? 0); rewrite ?length_insert; tauto.
Qed.

Lemma get_set_chunk_eq r i c :
  0 <= i -> (Z.to_nat i < length (chunks r))%nat -> get_chunk (set_chunk r i c) i = c.
Proof.
  intros Hi Hlen. unfold get_chunk, set_chunk.
  destruct (i <? 0) eqn:E; [lia|]. cbn.
  rewrite list_lookup_insert_eq by exact Hlen. reflexivity.
Qed.

Lemma get_set_chunk_ne r i j c :
  i <> j -> get_chunk (set_chunk r i c) j = get_chunk r j.
Proof.
  intros Hne. unfold get_chunk, set_chunk.
  destruct (j <? 0) eqn:Ej; [reflexivity|].
  destruct (i <? 0) eqn:Ei; [reflexivity|]. cbn.
  rewrite list_lookup_insert_ne by lia. reflexivity.
Qed.

Lemma init_chunk_header rb f t r i :
  parity_chunk (init_chunk rb f t r i) = parity_chunk r /\
  first_data_chunk (init_chunk rb f t r i) = first_data_chunk r /\
  last_data_chunk (init_chunk rb f t r i) = last_data_chunk r /\
  remaining (init_chunk rb f t r i) = remaining r /\
  status (init_chunk rb f t r i) = status r /\
  iov_offset (init_chunk rb f t r i) = iov_offset r /\
  init_iov_offset (init_chunk rb f t r i) = init_iov_offset r /\
  length (chunks (init_chunk rb f t r i)) = length (chunks r).
Proof.
  unfold init_chunk.
  match goal with |- context [set_chunk r i ?c] => set (c0 := c) end.
  pose proof (set_chunk_header r i c0) as H0.
  destruct ((i =? parity_chunk (set_chunk r i c0))
            || (i <? first_data_chunk (set_chunk r i c0))
            || (i >? last_data_chunk (set_chunk r i c0))).
  - pose proof (set_chunk_header (set_chunk r i c0) i (chunk_set_req c0 0 0)) as H1.
    intuition congruence.
  - match goal with |- context [set_chunk (set_chunk r i c0) i ?c] => set (c1 := c) end.
    pose proof (set_chunk_header (set_chunk r i c0) i c1) as H1.
    intuition congruence.
Qed.

Lemma init_fold_header rb f t l r :
  let r' := fold_left (init_chunk rb f t) l r in
  parity_chunk r' = parity_chunk r /\
  first_data_chunk r' = first_data_chunk r /\
  last_data_chunk r' = last_data_chunk r /\
  remaining r' = remaining r /\
  status r' = status r /\
  iov_offset r' = iov_offset r /\
  init_iov_offset r' = init_iov_offset r /\
  length (chunks r') = length (chunks r).
Proof.
  revert r. induction l as [|i l IH]; intros r; cbn; [tauto|].
  specialize (IH (init_chunk rb f t r i)). cbn in IH.
  pose proof (init_chunk_header rb f t r i). intuition congruence.
Qed.

(** ** C10: the status of an error code depends on its magnitude only *)

Lemma errno_to_status_cases e :
  INT_MIN <= e <= INT_MAX ->
  errno_to_status e =
    if Z.abs e =? 0 then SPDK_BDEV_IO_STATUS_SUCCESS
    else if Z.abs e =? ENOMEM then SPDK_BDEV_IO_STATUS_NOMEM
    else SPDK_BDEV_IO_STATUS_FAILED.
Proof.
  intros H. unfold errno_to_status.
  destruct (c_abs_spec e H) as [[_ ->]|[-> ->]]; [reflexivity|].
  vm_compute. reflexivity.
Qed.

Lemma errno_to_status_neg e : errno_to_status (- e) = errno_to_status e.
Proof. unfold errno_to_status, c_abs. rewrite Z.abs_opp. reflexivity. Qed.

Lemma map_count_pos iov off target n : 0 <= n -> n <= map_count iov off target n.
Proof.
  revert off n. induction iov as [|x iov IH]; intros off n Hn; cbn; [lia|].
  destruct (u64 (off + iov_len x) >=? target); [lia|].
  specialize (IH (u64 (off + iov_len x)) (n + 1)). lia.
Qed.

(** The status codes [raid5_chunk_map_iov] can return. *)
Lemma raid5_chunk_map_iov_ret c iov offset len ok :
  let ret := fst (fst (raid5_chunk_map_iov c iov offset len ok)) in
  ret = 0 \/ ret = - EINVAL \/ ret = - ENOMEM.
Proof.
  unfold raid5_chunk_map_iov.
  destruct (map_find_start iov 0 offset) as [[iov_s off]|]; cbn; [|tauto].
  set (n := map_count iov_s off (u64 (offset + len)) 0).
  destruct (n >? iovcnt c).
  - destruct (realloc_iovs _ n ok); cbn; [|tauto].
    destruct (map_fill (Z.to_nat n) iov_s off offset len) as [es len'].
    destruct (len' >? 0); cbn; tauto.
  - destruct (map_fill (Z.to_nat n) iov_s off offset len) as [es len'].
    destruct (len' >? 0); cbn; tauto.
Qed.

(** C10.  [errno_to_status] maps an error code by its absolute value:
    SUCCESS exactly for magnitude 0, NOMEM exactly for magnitude ENOMEM,
    FAILED for every other value, in particular for the [-EINVAL] that
    [raid5_chunk_map_iov] returns.  A code and its negation give the same
    status, and an aborted stripe request hands exactly that status to
    its completion. *)
Theorem errno_to_status_by_magnitude (e : Z) (He : INT_MIN <= e <= INT_MAX) :
  (errno_to_status e = SPDK_BDEV_IO_STATUS_SUCCESS <-> Z.abs e = 0) /\
  (errno_to_status e = SPDK_BDEV_IO_STATUS_NOMEM <-> Z.abs e = ENOMEM) /\
  (Z.abs e <> 0 -> Z.abs e <> ENOMEM ->
   errno_to_status e = SPDK_BDEV_IO_STATUS_FAILED) /\
  errno_to_status (- EINVAL) = SPDK_BDEV_IO_STATUS_FAILED /\
  errno_to_status (- e) = errno_to_status e /\
  (forall rb (e0 : engine),
      raid5_abort_stripe_request rb (errno_to_status (- e)) e0 =
      raid5_abort_stripe_request rb (errno_to_status e) e0 /\
      exists blocks,
        trace (raid5_abort_stripe_request rb (errno_to_status e) e0) =
        trace e0 ++ [EvComplete (errno_to_status e) blocks]).
Proof.
  pose proof (errno_to_status_cases e He) as Hc.
  repeat split.
  - rewrite Hc. destruct (Z.abs e =? 0) eqn:E0; [lia|].
    destruct (Z.abs e =? ENOMEM); discriminate.
  - intros H. rewrite Hc, H. reflexivity.
  - rewrite Hc. destruct (Z.abs e =? 0) eqn:E0; [discriminate|].
    destruct (Z.abs e =? ENOMEM) eqn:E1; [lia|discriminate].
  - intros H. rewrite Hc, H. reflexivity.
  - intros H0 H1. rewrite Hc.
    destruct (Z.abs e =? 0) eqn:E0; [lia|].
    destruct (Z.abs e =? ENOMEM) eqn:E1; [lia|reflexivity].
  - rewrite errno_to_status_neg. reflexivity.
  - rewrite errno_to_status_neg. reflexivity.
  - unfold raid5_abort_stripe_request, raid5_complete_stripe_request. cbn.
    eexists. reflexivity.
Qed.

Lemma errno_to_status_by_magnitude_witness :
  INT_MIN <= - EINVAL <= INT_MAX /\
  errno_to_status (- EINVAL) = SPDK_BDEV_IO_STATUS_FAILED /\
  errno_to_status (- - EINVAL) = errno_to_status (- EINVAL).
Proof.
  assert (H : INT_MIN <= - EINVAL <= INT_MAX) by (vm_compute; split; discriminate).
  split; [exact H|].
  pose proof (errno_to_status_by_magnitude (- EINVAL) H) as T.
  split; [apply T|apply T].
Defined.

(** ** C2: parity placement *)

Lemma parity_position_spec rb s :
  1 <= num_base_bdevs rb <= 255 -> 0 <= s ->
  parity_position rb s = (num_base_bdevs rb - 1) - s mod num_base_bdevs rb.
Proof.
  intros HN Hs. unfold parity_position, raid5_stripe_data_chunks_num,
    base_bdevs_max_degraded.
  pose proof (Z.mod_pos_bound s (num_base_bdevs rb) ltac:(lia)) as Hm.
  rewrite u8_small by lia. apply u64_small. lia.
Qed.

Lemma init_chunk_index_establish rb f t r i :
  0 <= i -> (Z.to_nat i < length (chunks r))%nat ->
  let c := get_chunk (init_chunk rb f t r i) i in
  index c = u8 i /\ iovs c = IovsEmbedded /\ iovcnt c = 1.
Proof.
  intros Hi Hlen. unfold init_chunk.
  match goal with |- context [set_chunk r i ?c] => set (c0 := c) end.
  assert (Hlen' : (Z.to_nat i < length (chunks (set_chunk r i c0)))%nat).
  { pose proof (set_chunk_header r i c0). lia. }
  destruct ((i =? parity_chunk (set_chunk r i c0))
            || (i <? first_data_chunk (set_chunk r i c0))
            || (i >? last_data_chunk (set_chunk r i c0)));
    cbn zeta; rewrite get_set_chunk_eq by assumption; cbn; auto.
Qed.

Lemma init_chunk_other rb f t r i j :
  i <> j -> get_chunk (init_chunk rb f t r i) j = get_chunk r j.
Proof.
  intros Hne. unfold init_chunk.
  match goal with |- context [set_chunk r i ?c] => set (c0 := c) end.
  destruct ((i =? parity_chunk (set_chunk r i c0))
            || (i <? first_data_chunk (set_chunk r i c0))
            || (i >? last_data_chunk (set_chunk r i c0)));
    rewrite !get_set_chunk_ne by assumption; reflexivity.
Qed.

Lemma init_fold_chunk_index rb f t l r i :
  0 <= i -> (Z.to_nat i < length (chunks r))%nat ->
  (i ∈ l \/ (index (get_chunk r i) = u8 i /\ iovs (get_chunk r i) = IovsEmbedded
             /\ iovcnt (get_chunk r i) = 1)) ->
  let c := get_chunk (fold_left (init_chunk rb f t) l r) i in
  index c = u8 i /\ iovs c = IovsEmbedded /\ iovcnt c = 1.
Proof.
  intros Hi. revert r. induction l as [|j l IH]; intros r Hlen H; cbn.
  - destruct H as [H|H]; [inversion H|exact H].
  - apply IH.
    + pose proof (init_chunk_header rb f t r j). lia.
    + destruct (Z.eq_dec j i) as [->|Hne].
      * right. apply init_chunk_index_establish; assumption.
      * destruct H as [H|H].
        -- left. apply elem_of_cons in H. destruct H as [H|H]; [congruence|exact H].
        -- right. rewrite init_chunk_other by assumption. exact H.
Qed.

(** C2.  In every stripe request that [raid5_handle_stripe] builds for a
    stripe with index [s], the parity chunk sits at position
    [D - (s mod N)] of the chunks array ([N] member devices, [D = N - 1]),
    and the data chunk with data index [k] is the chunk at position [k]
    when [k < P(s)] and [k + 1] otherwise; that chunk talks to the member
    device of the same number. *)
Theorem parity_placement (rb : raid_bdev) (r0 : stripe_request)
    (raid_io_h stripe_h : nat) (s stripe_offset blocks iov_off : Z)
    (HN : 1 <= num_base_bdevs rb <= 255)
    (Hs : 0 <= s < 2 ^ 64)
    (Hpool : length (chunks r0) = Z.to_nat (num_base_bdevs rb)) :
  let r := init_stripe_request rb r0 raid_io_h stripe_h s stripe_offset blocks iov_off in
  let N := num_base_bdevs rb in
  let D := N - 1 in
  parity_chunk r = D - s mod N /\
  forall k, 0 <= k < D ->
    raid5_get_data_chunk r k = (if k <? D - s mod N then k else k + 1) /\
    raid5_get_data_chunk r k <> parity_chunk r /\
    index (get_chunk r (raid5_get_data_chunk r k)) = raid5_get_data_chunk r k.
Proof.
  cbn zeta.
  set (r := init_stripe_request rb r0 raid_io_h stripe_h s stripe_offset blocks iov_off).
  assert (HP : parity_chunk r = num_base_bdevs rb - 1 - s mod num_base_bdevs rb).
  { unfold r, init_stripe_request.
    match goal with |- parity_chunk (fold_left ?f ?l ?x) = _ =>
      pose proof (init_fold_header rb stripe_offset (u64 (stripe_offset + blocks)) l x) as Hh
    end.
    cbn zeta in Hh. destruct Hh as [Hh _]. rewrite Hh. cbn.
    apply parity_position_spec; lia. }
  pose proof (Z.mod_pos_bound s (num_base_bdevs rb) ltac:(lia)) as Hm.
  split; [exact HP|].
  intros k Hk.
  assert (Hg : raid5_get_data_chunk r k =
               if k <? num_base_bdevs rb - 1 - s mod num_base_bdevs rb then k else k + 1).
  { unfold raid5_get_data_chunk. rewrite HP. rewrite u8_small by lia. reflexivity. }
  split; [exact Hg|]. split.
  - rewrite Hg, HP.
    destruct (k <? num_base_bdevs rb - 1 - s mod num_base_bdevs rb) eqn:E; lia.
  - set (i := raid5_get_data_chunk r k) in *.
    assert (Hi : 0 <= i < num_base_bdevs rb).
    { rewrite Hg.
      destruct (k <? num_base_bdevs rb - 1 - s mod num_base_bdevs rb) eqn:E; lia. }
    unfold r, init_stripe_request.
    match goal with |- index (get_chunk (fold_left ?f ?l ?x) _) = _ =>
      pose proof (init_fold_chunk_index rb stripe_offset (u64 (stripe_offset + blocks))
                    l x i ltac:(lia)) as Hc
    end.
    cbn zeta in Hc. destruct Hc as [Hc _].
    + cbn. rewrite Hpool. lia.
    + left. apply elem_of_seqZ. lia.
    + fold r in Hc. rewrite Hc. apply u8_small. lia.
Qed.

Lemma parity_placement_witness :
  let rb := {| num_base_bdevs := 3; strip_size := 4; strip_size_shift := 2;
               blocklen := 512; base_bdev_degraded := [false; false; false] |} in
  let r0 := upd_chunks request_zero [chunk_zero; chunk_zero; chunk_zero] in
  parity_chunk (init_stripe_request rb r0 0 0 1 0 8 0) = 1 /\
  raid5_get_data_chunk (init_stripe_request rb r0 0 0 1 0 8 0) 1 = 2.
Proof.
  cbn zeta.
  pose proof (parity_placement
                {| num_base_bdevs := 3; strip_size := 4; strip_size_shift := 2;
                   blocklen := 512; base_bdev_degraded := [false; false; false] |}
                (upd_chunks request_zero [chunk_zero; chunk_zero; chunk_zero])
                0%nat 0%nat 1 0 8 0
                ltac:(cbn; lia) ltac:(lia) ltac:(reflexivity)) as T.
  cbn zeta in T. destruct T as [T1 T2].
  split; [exact T1|].
  destruct (T2 1 ltac:(cbn; lia)) as [T3 _]. exact T3.
Defined.

(** ** Loops *)

Lemma fold_left_invariant {A B} (P : A -> Prop) (f : A -> B -> A) (l : list B) (a : A) :
  P a -> (forall x b, b ∈ l -> P x -> P (f x b)) -> P (fold_left f l a).
Proof.
  revert a. induction l as [|b l IH]; intros a Ha Hstep; cbn; [exact Ha|].
  apply IH.
  - apply Hstep; [left|exact Ha].
  - intros x b' Hb'. apply Hstep. right. exact Hb'.
Qed.

Lemma for_each_invariant (P : engine -> Prop) (Q : engine -> Prop)
    (body : Z -> engine -> bool * engine) (l : list Z) (e : engine) :
  P e ->
  (forall i x, i ∈ l -> P x ->
     let '(go, x') := body i x in if go then P x' else Q x') ->
  let '(go, e') := for_each l body e in if go then P e' else Q e'.
Proof.
  revert e. induction l as [|i l IH]; intros e He Hstep; cbn; [exact He|].
  pose proof (Hstep i e ltac:(left) He) as Hi.
  destruct (body i e) as [go x']. destruct go.
  - apply IH; [exact Hi|]. intros j x Hj. apply Hstep. right. exact Hj.
  - exact Hi.
Qed.

(** Induction along a loop with the elements already visited in view. *)
Lemma fold_left_prefix {A B} (P : list B -> A -> Prop) (f : A -> B -> A) (l : list B) (a : A) :
  P [] a ->
  (forall pre i post x, l = pre ++ i :: post -> P pre x -> P (pre ++ [i]) (f x i)) ->
  P l (fold_left f l a).
Proof.
  induction l as [|b l IH] using rev_ind; intros H0 Hstep; [exact H0|].
  rewrite fold_left_app. cbn [fold_left].
  apply (Hstep l b []); [reflexivity|].
  apply IH; [exact H0|].
  intros pre i post x E. apply (Hstep pre i (post ++ [b])).
  rewrite E. rewrite <- app_assoc. reflexivity.
Qed.

Lemma for_each_prefix (P : list Z -> engine -> Prop) (Q : engine -> Prop)
    (body : Z -> engine -> bool * engine) (l : list Z) (e : engine) :
  P [] e ->
  (forall pre i post x, l = pre ++ i :: post -> P pre x ->
     let '(go, x') := body i x in if go then P (pre ++ [i]) x' else Q x') ->
  let '(go, e') := for_each l body e in if go then P l e' else Q e'.
Proof.
  intros H0 Hstep.
  assert (G : forall post pre x, l = pre ++ post -> P pre x ->
              let '(go, e') := for_each post body x in if go then P l e' else Q e').
  { induction post as [|i post IH]; intros pre x E Hx.
    - cbn. rewrite E, app_nil_r. exact Hx.
    - cbn [for_each]. specialize (Hstep pre i post x E Hx).
      destruct (body i x) as [go x']. destruct go; [|exact Hstep].
      apply (IH (pre ++ [i])); [|exact Hstep].
      rewrite E, <- app_assoc. reflexivity. }
  apply (G l []); [reflexivity|exact H0].
Qed.

Lemma seqZ_snoc (m n : Z) : 0 <= n -> seqZ m (n + 1) = seqZ m n ++ [m + n].
Proof.
  intros Hn. rewrite seqZ_app by lia. reflexivity.
Qed.

(** Induction along [FOR_EACH_CHUNK]: the invariant may mention how far
    the loop has come. *)
Lemma fold_seqZ_invariant {A} (P : Z -> A -> Prop) (f : A -> Z -> A) (n : Z) (a : A) :
  P 0 a ->
  (forall k x, 0 <= k < n -> P k x -> P (k + 1) (f x k)) ->
  0 <= n -> P n (fold_left f (seqZ 0 n) a).
Proof.
  intros H0 Hstep Hn.
  assert (G : forall k : nat, (Z.of_nat k <= n) -> P (Z.of_nat k) (fold_left f (seqZ 0 (Z.of_nat k)) a)).
  { induction k as [|k IH]; intros Hk; [exact H0|].
    rewrite Nat2Z.inj_succ. unfold Z.succ.
    rewrite seqZ_snoc by lia. rewrite fold_left_app. cbn.
    apply Hstep; [lia|]. apply IH. lia. }
  specialize (G (Z.to_nat n)). rewrite Z2Nat.id in G by lia. apply G. lia.
Qed.

(** ** [FOR_EACH_DATA_CHUNK] visits the positions other than the parity's *)

Lemma filter_seqZ_cons (p c len : Z) :
  0 < len -> c <> p ->
  filter (fun i => i <> p) (seqZ c len) = c :: filter (fun i => i <> p) (seqZ (c + 1) (len - 1)).
Proof.
  intros Hlen Hne. rewrite (seqZ_cons c len) by lia.
  rewrite filter_cons. destruct (decide (c <> p)); [|contradiction].
  replace (Z.succ c) with (c + 1) by lia. replace (Z.pred len) with (len - 1) by lia.
  reflexivity.
Qed.

Lemma filter_seqZ_skip (p len : Z) :
  0 < len ->
  filter (fun i => i <> p) (seqZ p len) = filter (fun i => i <> p) (seqZ (p + 1) (len - 1)).
Proof.
  intros Hlen. rewrite (seqZ_cons p len) by lia.
  rewrite filter_cons. destruct (decide (p <> p)); [contradiction|].
  replace (Z.succ p) with (p + 1) by lia. replace (Z.pred len) with (len - 1) by lia.
  reflexivity.
Qed.

Lemma seqZ_nil_le (m len : Z) : len <= 0 -> seqZ m len = [].
Proof. intros H. unfold seqZ. replace (Z.to_nat len) with O by lia. reflexivity. Qed.

Lemma data_chunks_from_spec (fuel : nat) (n p c : Z) :
  c <> p -> (Z.to_nat (n - c) <= fuel)%nat ->
  data_chunks_from fuel n p c = filter (fun i => i <> p) (seqZ c (n - c)).
Proof.
  revert c. induction fuel as [|fuel IH]; intros c Hne Hfuel.
  - cbn. rewrite seqZ_nil_le by lia. reflexivity.
  - cbn. destruct (c <? n) eqn:Hc.
    + apply Z.ltb_lt in Hc.
      rewrite filter_seqZ_cons by lia. f_equal.
      unfold next_data_chunk. destruct (c + 1 =? p) eqn:Hp.
      * apply Z.eqb_eq in Hp. subst p.
        destruct (Z_lt_le_dec 0 (n - c - 1)) as [Hpos|Hnpos].
        -- rewrite filter_seqZ_skip by lia. rewrite IH by lia.
           f_equal. f_equal; lia.
        -- rewrite (seqZ_nil_le (c + 1)) by lia. rewrite IH by lia.
           rewrite seqZ_nil_le by lia. reflexivity.
      * apply Z.eqb_neq in Hp. rewrite IH by lia. f_equal. f_equal. lia.
    + apply Z.ltb_ge in Hc. rewrite seqZ_nil_le by lia. reflexivity.
Qed.

Lemma each_data_chunk_spec (rb : raid_bdev) (r : stripe_request) :
  each_data_chunk rb r = data_positions (num_base_bdevs rb) (parity_chunk r).
Proof.
  unfold each_data_chunk, data_positions, next_data_chunk.
  set (n := num_base_bdevs rb). set (p := parity_chunk r).
  replace (-1 + 1) with 0 by lia. replace (-1 + 2) with 1 by lia.
  destruct (0 =? p) eqn:Hp.
  - apply Z.eqb_eq in Hp. subst p. rewrite <- Hp.
    destruct (Z_lt_le_dec 0 n) as [Hpos|Hnpos].
    + rewrite filter_seqZ_skip by lia. rewrite data_chunks_from_spec by lia.
      reflexivity.
    + rewrite (seqZ_nil_le 0) by lia. replace (Z.to_nat n) with O by lia. reflexivity.
  - apply Z.eqb_neq in Hp. rewrite data_chunks_from_spec by lia.
    replace (n - 0) with n by lia. reflexivity.
Qed.

Lemma elem_of_data_positions (n p i : Z) :
  i ∈ data_positions n p <-> 0 <= i < n /\ i <> p.
Proof.
  unfold data_positions. rewrite list_elem_of_filter, elem_of_seqZ. intuition lia.
Qed.

(** ** Reading a chunk after a store *)

Lemma get_set_chunk_field {A} (f : chunk -> A) r i c j :
  f c = f (get_chunk r i) -> f (get_chunk (set_chunk r i c) j) = f (get_chunk r j).
Proof.
  intros Hf. unfold get_chunk in *. unfold set_chunk. cbn.
  destruct (j <? 0) eqn:Ej; [reflexivity|].
  destruct (i <? 0) eqn:Ei; [reflexivity|].
  destruct (Z.eq_dec i j) as [Heq|Hne].
  - subst i.
    destruct (chunks r !! Z.to_nat j) as [c0|] eqn:El.
    + rewrite list_lookup_insert_eq by (eapply lookup_lt_Some; exact El).
      cbn in *. exact Hf.
    + rewrite list_insert_ge by (apply lookup_ge_None; exact El).
      rewrite El. reflexivity.
  - rewrite list_lookup_insert_ne by lia. reflexivity.
Qed.

Lemma get_chunk_in_range r i :
  0 <= i -> (Z.to_nat i < length (chunks r))%nat ->
  exists c, chunks r !! Z.to_nat i = Some c /\ get_chunk r i = c.
Proof.
  intros Hi Hlen. unfold get_chunk.
  destruct (i <? 0) eqn:E; [lia|].
  destruct (lookup_lt_is_Some_2 (chunks r) (Z.to_nat i) Hlen) as [c Hc].
  exists c. rewrite Hc. split; reflexivity.
Qed.

(** ** The planning frame *)

Lemma plan_frame_refl e : plan_frame e e.
Proof. unfold plan_frame. repeat split; reflexivity. Qed.

Lemma plan_frame_trans e1 e2 e3 : plan_frame e1 e2 -> plan_frame e2 e3 -> plan_frame e1 e3.
Proof.
  unfold plan_frame. intros H1 H2.
  destruct H1 as (A1 & A2 & A3 & A4 & A5 & A6 & A7 & A8 & A9 & A10 & A11 & A12 & A13).
  destruct H2 as (B1 & B2 & B3 & B4 & B5 & B6 & B7 & B8 & B9 & B10 & B11 & B12 & B13).
  repeat split; try congruence;
    destruct (A13 j) as (? & ? & ? & ? & ?); destruct (B13 j) as (? & ? & ? & ? & ?);
    congruence.
Qed.

Lemma plan_frame_store e i c :
  req_offset c = req_offset (chunk_at e i) ->
  req_blocks c = req_blocks (chunk_at e i) ->
  index c = index (chunk_at e i) ->
  iovs c = iovs (chunk_at e i) ->
  iovcnt c = iovcnt (chunk_at e i) ->
  plan_frame e (store_chunk e i c).
Proof.
  intros H1 H2 H3 H4 H5. unfold plan_frame, store_chunk, chunk_at in *. cbn.
  repeat split; try reflexivity.
  - destruct (i <? 0); rewrite ?length_insert; reflexivity.
  - apply (get_set_chunk_field req_offset); exact H1.
  - apply (get_set_chunk_field req_blocks); exact H2.
  - apply (get_set_chunk_field index); exact H3.
  - apply (get_set_chunk_field iovs); exact H4.
  - apply (get_set_chunk_field iovcnt); exact H5.
Qed.

Lemma completions_app t1 t2 : completions (t1 ++ t2) = (completions t1 + completions t2)%nat.
Proof. unfold completions. rewrite List.filter_app, length_app. reflexivity. Qed.

(** ** Submitting a chunk *)
Section SubmitFacts.
Variable rb : raid_bdev.
Variable stripe_index : Z.

Lemma submit_inner_same i e :
  let e' := _raid5_submit_chunk_request rb stripe_index i e in
  req e' = req e /\ mem e' = mem e /\ disks e' = disks e /\
  realloc_script e' = realloc_script e /\ submit_script e' = tl (submit_script e).
Proof.
  unfold _raid5_submit_chunk_request. cbn zeta.
  destruct (hd 0 (submit_script e) =? 0);
    try destruct (hd 0 (submit_script e) =? - ENOMEM); cbn; auto.
Qed.

Lemma bdev_contract_tl l : bdev_contract l -> bdev_contract (tl l).
Proof. unfold bdev_contract. intros H. destruct l; [exact H|]. inversion H; assumption. Qed.

Lemma bdev_contract_hd l : bdev_contract l -> hd 0 l = 0 \/ hd 0 l = - ENOMEM.
Proof. unfold bdev_contract. intros H. destruct l; [left; reflexivity|]. inversion H; assumption. Qed.

(** The trace and the bookkeeping of one submission. *)
Lemma submit_inner_effect i e :
  bdev_contract (submit_script e) ->
  let e' := _raid5_submit_chunk_request rb stripe_index i e in
  let io := chunk_bdev_io rb stripe_index i (chunk_at e i) in
  let ret := hd 0 (submit_script e) in
  asserted e' = asserted e /\
  bdev_contract (submit_script e') /\
  inflight e' = inflight e ++ (if ret =? 0 then [io] else []) /\
  waitq e' = waitq e ++ (if ret =? 0 then [] else [i]) /\
  trace e' = trace e ++ EvSubmit io (request_type (chunk_at e i)) ret ::
             (if ret =? 0 then [] else [EvQueueIoWait i]).
Proof.
  intros Hc. pose proof (bdev_contract_hd _ Hc) as Hhd.
  pose proof (bdev_contract_tl _ Hc) as Htl.
  unfold _raid5_submit_chunk_request. cbn zeta.
  destruct Hhd as [Hhd|Hhd]; rewrite Hhd;
    change (- ENOMEM =? 0) with false; change (- ENOMEM =? - ENOMEM) with true;
    change (0 =? 0) with true; cbn iota;
    cbn [inflight waitq asserted submit_script trace with_inflight with_waitq
         with_submit_script emit];
    rewrite ?app_nil_r, <- ?app_assoc; auto.
Qed.

Lemma submit_chunk_req i ty e :
  req (raid5_submit_chunk_request rb stripe_index i ty e) =
  set_chunk (upd_remaining (req e) (remaining (req e) + 1)) i
            (chunk_set_request_type (chunk_at e i) ty).
Proof.
  unfold raid5_submit_chunk_request.
  match goal with |- req (_raid5_submit_chunk_request _ _ _ ?x) = _ =>
    destruct (submit_inner_same i x) as (H & _) end.
  rewrite H. reflexivity.
Qed.

Lemma submit_chunk_same i ty e :
  let e' := raid5_submit_chunk_request rb stripe_index i ty e in
  mem e' = mem e /\ disks e' = disks e /\ realloc_script e' = realloc_script e /\
  remaining (req e') = remaining (req e) + 1.
Proof.
  cbn zeta. rewrite submit_chunk_req. unfold raid5_submit_chunk_request.
  match goal with |- context [_raid5_submit_chunk_request _ _ _ ?x] =>
    destruct (submit_inner_same i x) as (_ & H1 & H2 & H3 & _) end.
  rewrite H1, H2, H3. cbn. auto.
Qed.

Lemma submit_chunk_other i ty e j :
  i <> j ->
  get_chunk (req (raid5_submit_chunk_request rb stripe_index i ty e)) j = get_chunk (req e) j.
Proof.
  intros Hne. rewrite submit_chunk_req. rewrite get_set_chunk_ne by exact Hne.
  reflexivity.
Qed.

Lemma submit_chunk_frame i ty e :
  plan_frame e (raid5_submit_chunk_request rb stripe_index i ty e).
Proof.
  destruct (submit_chunk_same i ty e) as (H1 & H2 & H3 & _).
  unfold plan_frame. rewrite H1, H2, H3, submit_chunk_req. cbn.
  repeat split; try reflexivity.
  - destruct (i <? 0); rewrite ?length_insert; reflexivity.
  - etransitivity; [apply (get_set_chunk_field req_offset)|]; reflexivity.
  - etransitivity; [apply (get_set_chunk_field req_blocks)|]; reflexivity.
  - etransitivity; [apply (get_set_chunk_field index)|]; reflexivity.
  - etransitivity; [apply (get_set_chunk_field iovs)|]; reflexivity.
  - etransitivity; [apply (get_set_chunk_field iovcnt)|]; reflexivity.
Qed.

Lemma submit_chunk_effect i ty e :
  bdev_contract (submit_script e) ->
  0 <= i -> (Z.to_nat i < length (chunks (req e)))%nat ->
  let e' := raid5_submit_chunk_request rb stripe_index i ty e in
  let io := chunk_bdev_io rb stripe_index i (chunk_set_request_type (chunk_at e i) ty) in
  let ret := hd 0 (submit_script e) in
  asserted e' = asserted e /\
  bdev_contract (submit_script e') /\
  inflight e' = inflight e ++ (if ret =? 0 then [io] else []) /\
  waitq e' = waitq e ++ (if ret =? 0 then [] else [i]) /\
  trace e' = trace e ++ EvSubmit io ty ret :: (if ret =? 0 then [] else [EvQueueIoWait i]).
Proof.
  intros Hc Hi Hlen. unfold raid5_submit_chunk_request.
  match goal with |- context [_raid5_submit_chunk_request _ _ _ ?x] =>
    pose proof (submit_inner_effect i x Hc) as H; set (y := x) in * end.
  cbn zeta in H. destruct H as (H1 & H2 & H3 & H4 & H5).
  assert (Hy : chunk_at y i = chunk_set_request_type (chunk_at e i) ty).
  { subst y. unfold chunk_at, store_chunk. cbn [req with_req].
    rewrite get_set_chunk_eq by (cbn; assumption). reflexivity. }
  rewrite Hy in *. cbn zeta.
  rewrite H1, H3, H4, H5. subst y. cbn. auto.
Qed.

Lemma submit_chunk_pending i ty e :
  bdev_contract (submit_script e) ->
  0 <= i -> (Z.to_nat i < length (chunks (req e)))%nat ->
  let e' := raid5_submit_chunk_request rb stripe_index i ty e in
  pending e' = pending e + 1 /\
  completions (trace e') = completions (trace e).
Proof.
  intros Hc Hi Hlen.
  destruct (submit_chunk_effect i ty e Hc Hi Hlen) as (_ & _ & H3 & H4 & H5).
  cbn zeta. unfold pending, completions. rewrite H3, H4, H5.
  destruct (hd 0 (submit_script e) =? 0);
    rewrite ?List.filter_app, ?length_app; cbn; lia.
Qed.

End SubmitFacts.

(** ** Trace extensions *)

Lemma trace_ext_refl Q e : trace_ext Q e e.
Proof. split; [reflexivity|]. exists []. rewrite app_nil_r. split; [reflexivity|constructor]. Qed.

Lemma trace_ext_trans Q e1 e2 e3 : trace_ext Q e1 e2 -> trace_ext Q e2 e3 -> trace_ext Q e1 e3.
Proof.
  intros (L1 & l1 & H1 & F1) (L2 & l2 & H2 & F2). split; [congruence|].
  exists (l1 ++ l2). rewrite H2, H1, app_assoc. split; [reflexivity|].
  apply Forall_app. split; assumption.
Qed.

Lemma trace_ext_same Q e e' :
  length (chunks (req e')) = length (chunks (req e)) -> trace e' = trace e -> trace_ext Q e e'.
Proof.
  intros HL HT. split; [exact HL|]. exists []. rewrite app_nil_r.
  split; [exact HT|constructor].
Qed.

Lemma trace_ext_weaken (Q Q' : event -> Prop) e e' :
  (forall ev, Q ev -> Q' ev) -> trace_ext Q e e' -> trace_ext Q' e e'.
Proof.
  intros HQ (L & l & H & F). split; [exact L|]. exists l. split; [exact H|].
  eapply Forall_impl; [exact F|exact HQ].
Qed.

Lemma set_chunk_length r i c : length (chunks (set_chunk r i c)) = length (chunks r).
Proof. unfold set_chunk. cbn. destruct (i <? 0); rewrite ?length_insert; reflexivity. Qed.

(** ** [raid5_chunk_map_iov] touches the vectors of the chunk only *)

Lemma chunk_write_iovs_fields c es :
  let c' := chunk_write_iovs c es in
  index c' = index c /\ req_offset c' = req_offset c /\ req_blocks c' = req_blocks c /\
  preread_offset c' = preread_offset c /\ preread_blocks c' = preread_blocks c /\
  request_type c' = request_type c /\ iovcnt c' = iovcnt c.
Proof.
  unfold chunk_write_iovs. destruct (iovs c); [destruct es| |]; cbn; tauto.
Qed.

Lemma raid5_chunk_map_iov_fields c iov offset len ok :
  let c' := snd (raid5_chunk_map_iov c iov offset len ok) in
  index c' = index c /\ req_offset c' = req_offset c /\ req_blocks c' = req_blocks c /\
  preread_offset c' = preread_offset c /\ preread_blocks c' = preread_blocks c /\
  request_type c' = request_type c.
Proof.
  unfold raid5_chunk_map_iov.
  destruct (map_find_start iov 0 offset) as [[iov_s off]|]; cbn; [|tauto].
  set (n := map_count iov_s off (u64 (offset + len)) 0).
  destruct (n >? iovcnt c).
  - destruct (realloc_iovs _ n ok) as [p|].
    + destruct (map_fill (Z.to_nat n) iov_s off offset len) as [es len'].
      match goal with |- context [chunk_write_iovs ?x es] =>
        pose proof (chunk_write_iovs_fields x es) as H end.
      cbn zeta in H.
      destruct (len' >? 0); cbn; destruct (iovs c); cbn in *; tauto.
    + cbn. destruct (iovs c); cbn; tauto.
  - destruct (map_fill (Z.to_nat n) iov_s off offset len) as [es len'].
    match goal with |- context [chunk_write_iovs ?x es] =>
      pose proof (chunk_write_iovs_fields x es) as H end.
    cbn zeta in H.
    destruct (len' >? 0); cbn; cbn in H; tauto.
Qed.

Section EngineFacts.
Variable rb : raid_bdev.
Variable bdev_iovs : list iovec.
Variable stripe_index : Z.
Variable chunk_buffers : list Z.

(** What [raid5_chunk_map_req_data] leaves alone. *)
Lemma map_req_data_same i e :
  let e' := snd (raid5_chunk_map_req_data rb bdev_iovs i e) in
  mem e' = mem e /\ disks e' = disks e /\ trace e' = trace e /\
  inflight e' = inflight e /\ waitq e' = waitq e /\
  submit_script e' = submit_script e /\ asserted e' = asserted e /\
  remaining (req e') = remaining (req e) /\ status (req e') = status (req e) /\
  chunk_requests_complete_cb (req e') = chunk_requests_complete_cb (req e) /\
  parity_chunk (req e') = parity_chunk (req e) /\
  first_data_chunk (req e') = first_data_chunk (req e) /\
  last_data_chunk (req e') = last_data_chunk (req e) /\
  degraded_chunk (req e') = degraded_chunk (req e) /\
  init_iov_offset (req e') = init_iov_offset (req e) /\
  length (chunks (req e')) = length (chunks (req e)).
Proof.
  unfold raid5_chunk_map_req_data.
  destruct (raid5_chunk_map_iov _ _ _ _ _) as [[ret called] c'].
  destruct called; destruct (ret =? 0); cbn;
    destruct (i <? 0); rewrite ?length_insert; repeat split; reflexivity.
Qed.

Lemma map_req_data_chunks i e j :
  let e' := snd (raid5_chunk_map_req_data rb bdev_iovs i e) in
  index (chunk_at e' j) = index (chunk_at e j) /\
  req_offset (chunk_at e' j) = req_offset (chunk_at e j) /\
  req_blocks (chunk_at e' j) = req_blocks (chunk_at e j) /\
  preread_offset (chunk_at e' j) = preread_offset (chunk_at e j) /\
  preread_blocks (chunk_at e' j) = preread_blocks (chunk_at e j) /\
  request_type (chunk_at e' j) = request_type (chunk_at e j) /\
  (i <> j -> chunk_at e' j = chunk_at e j).
Proof.
  unfold raid5_chunk_map_req_data.
  match goal with |- context [raid5_chunk_map_iov ?c ?v ?o ?l ?k] =>
    pose proof (raid5_chunk_map_iov_fields c v o l k) as H;
    destruct (raid5_chunk_map_iov c v o l k) as [[ret called] c'] end.
  cbn in H. destruct H as (H1 & H2 & H3 & H4 & H5 & H6).
  assert (G : forall x : engine, req x = req e ->
    index (chunk_at (store_chunk x i c') j) = index (chunk_at e j) /\
    req_offset (chunk_at (store_chunk x i c') j) = req_offset (chunk_at e j) /\
    req_blocks (chunk_at (store_chunk x i c') j) = req_blocks (chunk_at e j) /\
    preread_offset (chunk_at (store_chunk x i c') j) = preread_offset (chunk_at e j) /\
    preread_blocks (chunk_at (store_chunk x i c') j) = preread_blocks (chunk_at e j) /\
    request_type (chunk_at (store_chunk x i c') j) = request_type (chunk_at e j) /\
    (i <> j -> chunk_at (store_chunk x i c') j = chunk_at e j)).
  { intros x Hx. unfold chunk_at, store_chunk. cbn [req with_req]. rewrite Hx.
    repeat split.
    - apply (get_set_chunk_field index). exact H1.
    - apply (get_set_chunk_field req_offset). exact H2.
    - apply (get_set_chunk_field req_blocks). exact H3.
    - apply (get_set_chunk_field preread_offset). exact H4.
    - apply (get_set_chunk_field preread_blocks). exact H5.
    - apply (get_set_chunk_field request_type). exact H6.
    - intros Hne. apply get_set_chunk_ne. exact Hne. }
  destruct called; destruct (ret =? 0); cbn [snd];
    unfold chunk_at in *; cbn [req with_req upd_iov_offset chunks get_chunk];
    exact (G _ eq_refl).
Qed.

Lemma map_req_data_ext Q i e :
  trace_ext Q e (snd (raid5_chunk_map_req_data rb bdev_iovs i e)).
Proof.
  pose proof (map_req_data_same i e) as H. cbn zeta in H.
  apply trace_ext_same; tauto.
Qed.

Lemma xor_chunks_ext Q e a b c d n : trace_ext Q e (xor_chunks e a b c d n).
Proof. apply trace_ext_same; reflexivity. Qed.

Lemma memset_chunk_ext Q e i : trace_ext Q e (memset_chunk e i).
Proof. apply trace_ext_same; reflexivity. Qed.

Lemma abort_ext (Q : event -> Prop) st e :
  (forall s b, Q (EvComplete s b)) ->
  trace_ext Q e (raid5_abort_stripe_request rb st e).
Proof.
  intros HQ. split; [reflexivity|].
  unfold raid5_abort_stripe_request, raid5_complete_stripe_request. cbn.
  eexists. split; [reflexivity|]. constructor; [apply HQ|constructor].
Qed.

Lemma complete_ext (Q : event -> Prop) e :
  (forall s b, Q (EvComplete s b)) ->
  trace_ext Q e (raid5_complete_stripe_request rb e).
Proof.
  intros HQ. split; [reflexivity|].
  unfold raid5_complete_stripe_request. cbn.
  eexists. split; [reflexivity|]. constructor; [apply HQ|constructor].
Qed.

(** The trace of one submission, whatever the base device answers. *)
Lemma submit_chunk_ext (Q : event -> Prop) i ty e :
  0 <= i -> (Z.to_nat i < length (chunks (req e)))%nat ->
  (forall io ret, Q (EvSubmit io ty ret)) -> (forall j, Q (EvQueueIoWait j)) ->
  trace_ext Q e (raid5_submit_chunk_request rb stripe_index i ty e).
Proof.
  intros Hi Hlen HQ1 HQ2. split.
  - rewrite submit_chunk_req. rewrite set_chunk_length. reflexivity.
  - unfold raid5_submit_chunk_request, _raid5_submit_chunk_request. cbn zeta.
    match goal with |- context [request_type (chunk_at ?x i)] =>
      assert (Hty : request_type (chunk_at x i) = ty) end.
    { unfold chunk_at, store_chunk. cbn [req with_req].
      rewrite get_set_chunk_eq by (cbn; assumption). reflexivity. }
    rewrite Hty.
    match goal with |- context [hd 0 ?s =? 0] => destruct (hd 0 s =? 0) eqn:E0;
      [|destruct (hd 0 s =? - ENOMEM) eqn:E1] end; cbn;
      eexists; (split; [rewrite <- ?app_assoc; reflexivity|]);
      repeat constructor; auto.
Qed.

(** [raid5_stripe_write_submit] submits writes and nothing else. *)
Lemma write_submit_ext (Q : event -> Prop) e :
  (forall io ret, Q (EvSubmit io CHUNK_WRITE ret)) -> (forall j, Q (EvQueueIoWait j)) ->
  (Z.to_nat (num_base_bdevs rb) <= length (chunks (req e)))%nat ->
  trace_ext Q e (raid5_stripe_write_submit rb stripe_index e).
Proof.
  intros HQ1 HQ2 Hlen. unfold raid5_stripe_write_submit.
  set (e1 := with_req e (upd_cb (req e) cb_raid5_complete_stripe_request)).
  assert (H1 : trace_ext Q e e1) by (apply trace_ext_same; reflexivity).
  apply (fold_left_invariant (fun x => trace_ext Q e x)); [exact H1|].
  intros x i Hi Hx. unfold each_chunk in Hi. apply elem_of_seqZ in Hi.
  destruct ((req_blocks (chunk_at x i) >? 0) && negb (is_chunk (degraded_chunk (req e)) i));
    [|exact Hx].
  eapply trace_ext_trans; [exact Hx|].
  destruct Hx as (HL & _).
  apply submit_chunk_ext; [lia| |exact HQ1|exact HQ2].
  rewrite HL. lia.
Qed.


Lemma for_each_ext (Q : event -> Prop) body l e :
  (forall i x, i ∈ l -> trace_ext Q x (snd (body i x))) ->
  trace_ext Q e (snd (for_each l body e)).
Proof.
  intros Hb.
  pose proof (for_each_invariant (trace_ext Q e) (trace_ext Q e) body l e
                (trace_ext_refl Q e)) as H.
  destruct (for_each l body e) as [go e']. cbn.
  assert (G : if go then trace_ext Q e e' else trace_ext Q e e').
  { apply H. intros i x Hi Hx. specialize (Hb i x Hi).
    destruct (body i x) as [go' x']. cbn in Hb.
    destruct go'; eapply trace_ext_trans; eauto. }
  destruct go; exact G.
Qed.

Lemma reconstruct_write_step_ext (Q : event -> Prop) p i e :
  (forall s b, Q (EvComplete s b)) ->
  trace_ext Q e (snd (reconstruct_write_step rb bdev_iovs p i e)).
Proof.
  intros HQ. unfold reconstruct_write_step.
  match goal with |- context [if ?c then xor_chunks e ?a ?b ?d ?f ?g else e] =>
    set (e1 := if c then xor_chunks e a b d f g else e) end.
  assert (H1 : trace_ext Q e e1).
  { subst e1. destruct (preread_blocks (chunk_at e i) >? 0);
      [apply xor_chunks_ext|apply trace_ext_refl]. }
  destruct (req_blocks (chunk_at e1 i) >? 0); [|exact H1].
  pose proof (map_req_data_ext Q i e1) as H2.
  destruct (raid5_chunk_map_req_data rb bdev_iovs i e1) as [ret e2]. cbn in H2.
  destruct (negb (ret =? 0)); cbn.
  - eapply trace_ext_trans; [exact H1|]. eapply trace_ext_trans; [exact H2|].
    apply abort_ext. exact HQ.
  - eapply trace_ext_trans; [exact H1|]. eapply trace_ext_trans; [exact H2|].
    apply xor_chunks_ext.
Qed.

(** After the reconstruct-write callback has been entered, the engine
    submits writes only (or completes the request, if it aborts). *)
Lemma reconstruct_write_callback_ext e :
  (Z.to_nat (num_base_bdevs rb) <= length (chunks (req e)))%nat ->
  trace_ext write_phase_event e
    (raid5_stripe_write_preread_complete rb bdev_iovs stripe_index e).
Proof.
  intros Hlen. unfold raid5_stripe_write_preread_complete.
  set (e1 := memset_chunk e (parity_chunk (req e))).
  pose proof (for_each_ext write_phase_event
                (reconstruct_write_step rb bdev_iovs (parity_chunk (req e)))
                (each_data_chunk rb (req e1)) e1) as H.
  destruct (for_each _ _ e1) as [go e2]. cbn in H.
  assert (H2 : trace_ext write_phase_event e e2).
  { eapply trace_ext_trans; [apply (memset_chunk_ext _ e)|]. apply H.
    intros i x _. apply reconstruct_write_step_ext. intros; exact I. }
  destruct go; [|exact H2].
  eapply trace_ext_trans; [exact H2|].
  apply write_submit_ext; [intros; reflexivity|intros; exact I|].
  destruct H2 as (HL & _). rewrite HL. exact Hlen.
Qed.

(** ** Planning *)

Lemma bind_and_preread_frame p i e :
  plan_frame e (bind_and_preread rb stripe_index chunk_buffers p i e).
Proof.
  unfold bind_and_preread.
  match goal with |- context [if ?c then store_chunk e i ?x else e] =>
    set (e1 := if c then store_chunk e i x else e) end.
  assert (H1 : plan_frame e e1).
  { subst e1. destruct (negb (preread_blocks (chunk_at e i) =? 0) || (i =? p));
      [|apply plan_frame_refl].
    apply plan_frame_store; reflexivity. }
  destruct (negb (preread_blocks (chunk_at e1 i) =? 0)); [|exact H1].
  eapply plan_frame_trans; [exact H1|]. apply submit_chunk_frame.
Qed.

Lemma bind_and_preread_other p i e j :
  i <> j ->
  chunk_at (bind_and_preread rb stripe_index chunk_buffers p i e) j = chunk_at e j.
Proof.
  intros Hne. unfold bind_and_preread.
  match goal with |- context [if ?c then store_chunk e i ?x else e] =>
    set (e1 := if c then store_chunk e i x else e) end.
  assert (H1 : chunk_at e1 j = chunk_at e j).
  { subst e1. destruct (negb (preread_blocks (chunk_at e i) =? 0) || (i =? p));
      [|reflexivity].
    unfold chunk_at, store_chunk. cbn [req with_req]. apply get_set_chunk_ne. exact Hne. }
  destruct (negb (preread_blocks (chunk_at e1 i) =? 0)); [|exact H1].
  unfold chunk_at in *. rewrite submit_chunk_other by exact Hne. exact H1.
Qed.

(** A chunk without a preread window is not submitted. *)
Lemma bind_and_preread_idle p i e :
  preread_blocks (chunk_at e i) = 0 ->
  let e' := bind_and_preread rb stripe_index chunk_buffers p i e in
  trace e' = trace e /\ remaining (req e') = remaining (req e) /\
  inflight e' = inflight e /\ waitq e' = waitq e /\
  submit_script e' = submit_script e /\ asserted e' = asserted e /\
  preread_blocks (chunk_at e' i) = 0 /\ preread_offset (chunk_at e' i) = preread_offset (chunk_at e i).
Proof.
  intros Hpb. unfold bind_and_preread. rewrite Hpb. cbn [Z.eqb negb orb].
  destruct (i =? p).
  - match goal with |- context [store_chunk e i ?x] => set (c := x) end.
    assert (Hc : preread_blocks (chunk_at (store_chunk e i c) i) = 0).
    { unfold chunk_at, store_chunk. cbn [req with_req].
      rewrite (get_set_chunk_field preread_blocks); [exact Hpb|reflexivity]. }
    rewrite Hc. cbn [Z.eqb negb]. cbn zeta.
    repeat split; try reflexivity; try exact Hc.
    unfold chunk_at, store_chunk. cbn [req with_req].
    apply (get_set_chunk_field preread_offset). reflexivity.
  - rewrite Hpb. cbn. repeat split; try reflexivity. exact Hpb.
Qed.

Lemma stripe_write_preread_frame balance e e' i :
  plan_frame e e' ->
  stripe_write_preread rb balance (req e') i = stripe_write_preread rb balance (req e) i.
Proof.
  intros (_ & _ & _ & A4 & A5 & A6 & _ & _ & _ & _ & _ & _ & A13).
  unfold stripe_write_preread. rewrite A4, A5, A6.
  destruct (A13 i) as (B1 & B2 & _). destruct (A13 (parity_chunk (req e))) as (C1 & C2 & _).
  rewrite B1, B2, C1, C2. reflexivity.
Qed.

Lemma set_parity_window_frame_fields e :
  let w := set_parity_window rb e in
  mem w = mem e /\ disks w = disks e /\ trace w = trace e /\
  inflight w = inflight e /\ waitq w = waitq e /\
  submit_script w = submit_script e /\ realloc_script w = realloc_script e /\
  asserted w = asserted e /\
  remaining (req w) = remaining (req e) /\ status (req w) = status (req e) /\
  chunk_requests_complete_cb (req w) = chunk_requests_complete_cb (req e) /\
  parity_chunk (req w) = parity_chunk (req e) /\
  first_data_chunk (req w) = first_data_chunk (req e) /\
  last_data_chunk (req w) = last_data_chunk (req e) /\
  degraded_chunk (req w) = degraded_chunk (req e) /\
  iov_offset (req w) = iov_offset (req e) /\
  init_iov_offset (req w) = init_iov_offset (req e) /\
  length (chunks (req w)) = length (chunks (req e)) /\
  (forall j, j <> parity_chunk (req e) -> chunk_at w j = chunk_at e j).
Proof.
  unfold set_parity_window.
  destruct (first_data_chunk (req e) =? last_data_chunk (req e)); cbn;
    rewrite ?set_chunk_length;
    repeat split; try reflexivity;
    try (destruct (parity_chunk (req e) <? 0); rewrite ?length_insert; reflexivity);
    intros j Hj; unfold chunk_at, store_chunk; cbn [req with_req];
    rewrite ?get_set_chunk_ne by congruence; reflexivity.
Qed.

End EngineFacts.

(** ** The vote and the strategy of a non-degraded write *)

Lemma fold_left_sum (g : Z -> Z) (f : Z -> Z -> Z) (l : list Z) (a : Z) :
  (forall b i, f b i = b + g i) ->
  fold_left f l a = a + foldr Z.add 0 (map g l).
Proof.
  intros Hf. revert a. induction l as [|i l IH]; intros a; cbn; [lia|].
  rewrite IH, Hf. lia.
Qed.

Lemma preread_balance_spec rb (e : engine) :
  preread_balance rb e =
  spec_vote (num_base_bdevs rb) (parity_chunk (req e)) (fun i => req_blocks (chunk_at e i)).
Proof.
  unfold preread_balance, spec_vote. rewrite each_data_chunk_spec.
  rewrite (fold_left_sum
             (fun i => vote_of (req_blocks (chunk_at e i))
                               (req_blocks (chunk_at e (parity_chunk (req e)))))).
  - lia.
  - intros b i. unfold vote_of.
    destruct (req_blocks (chunk_at e i) <? req_blocks (chunk_at e (parity_chunk (req e))));
      destruct (req_blocks (chunk_at e i) >? 0); lia.
Qed.

Section WritePlan.
Variable rb : raid_bdev.
Variable bdev_iovs : list iovec.
Variable stripe_index : Z.
Variable chunk_buffers : list Z.

(** One iteration of the planning loop of [raid5_stripe_write]. *)
Lemma stripe_write_plan_step_frame balance p e i :
  plan_frame e
    (let '(po, pb) := stripe_write_preread rb balance (req e) i in
     bind_and_preread rb stripe_index chunk_buffers p i
       (store_chunk e i (chunk_set_preread (chunk_at e i) po pb))).
Proof.
  destruct (stripe_write_preread rb balance (req e) i) as [po pb].
  eapply plan_frame_trans; [|apply bind_and_preread_frame].
  apply plan_frame_store; reflexivity.
Qed.

Lemma stripe_write_plan_loop_frame balance p l e :
  plan_frame e
    (fold_left
       (fun e i =>
          let '(po, pb) := stripe_write_preread rb balance (req e) i in
          let e := store_chunk e i (chunk_set_preread (chunk_at e i) po pb) in
          bind_and_preread rb stripe_index chunk_buffers p i e) l e).
Proof.
  apply (fold_left_invariant (plan_frame e)); [apply plan_frame_refl|].
  intros x i _ Hx. eapply plan_frame_trans; [exact Hx|].
  apply stripe_write_plan_step_frame.
Qed.

(** C3.  For a write stripe request without a degraded chunk, the
    strategy is decided by the vote over the data chunks -- [+1] for a
    chunk whose [req_blocks] is less than the parity chunk's, [-1] for a
    chunk whose [req_blocks] is greater than 0 -- and Read-Modify-Write
    is installed exactly when the balance is greater than 0;
    Reconstruct-Write is installed otherwise, so a tie goes to it. *)
Theorem write_strategy_by_vote (e : engine)
    (Hnd : degraded_chunk (req e) = None) :
  let w := set_parity_window rb e in
  let vote := spec_vote (num_base_bdevs rb) (parity_chunk (req e))
                        (fun i => req_blocks (chunk_at w i)) in
  let planned := raid5_stripe_write_plan rb stripe_index chunk_buffers e in
  preread_balance rb w = vote /\
  chunk_requests_complete_cb (req planned) =
    (if vote >? 0 then cb_raid5_stripe_write_preread_complete_rmw
     else cb_raid5_stripe_write_preread_complete) /\
  (vote = 0 ->
   chunk_requests_complete_cb (req planned) = cb_raid5_stripe_write_preread_complete) /\
  raid5_stripe_write rb bdev_iovs stripe_index chunk_buffers e =
    (if remaining (req planned) =? 0
     then invoke_cb rb bdev_iovs stripe_index chunk_buffers planned
     else planned).
Proof.
  cbn zeta.
  pose proof (set_parity_window_frame_fields rb e) as Hw. cbn zeta in Hw.
  destruct Hw as (_ & _ & _ & _ & _ & _ & _ & _ & _ & _ & _ & HP & _).
  assert (Hb : preread_balance rb (set_parity_window rb e) =
               spec_vote (num_base_bdevs rb) (parity_chunk (req e))
                 (fun i => req_blocks (chunk_at (set_parity_window rb e) i))).
  { rewrite preread_balance_spec, HP. reflexivity. }
  assert (Hcb : chunk_requests_complete_cb
                  (req (raid5_stripe_write_plan rb stripe_index chunk_buffers e)) =
                if preread_balance rb (set_parity_window rb e) >? 0
                then cb_raid5_stripe_write_preread_complete_rmw
                else cb_raid5_stripe_write_preread_complete).
  { unfold raid5_stripe_write_plan.
    match goal with |- chunk_requests_complete_cb (req (fold_left ?f ?l ?x)) = _ =>
      pose proof (stripe_write_plan_loop_frame
                    (preread_balance rb (set_parity_window rb e))
                    (parity_chunk (req e)) l x) as Hf end.
    destruct Hf as (_ & _ & _ & _ & _ & _ & _ & _ & Hcb & _).
    etransitivity; [exact Hcb|reflexivity]. }
  split; [exact Hb|]. split; [rewrite Hcb, Hb; reflexivity|]. split.
  - intros H0. rewrite Hcb, Hb, H0. reflexivity.
  - unfold raid5_stripe_write. rewrite Hnd. reflexivity.
Qed.


(** ** A full-stripe write needs no preread *)

Lemma spec_vote_nonpos n p (blocks : Z -> Z) :
  (forall i, i ∈ data_positions n p -> blocks i = blocks p) ->
  spec_vote n p blocks <= 0.
Proof.
  intros H. unfold spec_vote.
  induction (data_positions n p) as [|i l IH]; cbn; [lia|].
  assert (Hi : vote_of (blocks i) (blocks p) <= 0).
  { rewrite (H i ltac:(left)). unfold vote_of. rewrite Z.ltb_irrefl.
    destruct (blocks p >? 0); lia. }
  assert (Hl : foldr Z.add 0 (map (fun i => vote_of (blocks i) (blocks p)) l) <= 0).
  { apply IH. intros j Hj. apply H. right. exact Hj. }
  lia.
Qed.


End WritePlan.

(** ** Completion of chunk I/Os *)

Section ChunkCompletion.
Variable rb : raid_bdev.
Variable bdev_iovs : list iovec.
Variable stripe_index : Z.
Variable chunk_buffers : list Z.

Lemma transfer_same io e :
  req (transfer rb io e) = req e /\ trace (transfer rb io e) = trace e /\
  inflight (transfer rb io e) = inflight e /\ waitq (transfer rb io e) = waitq e /\
  submit_script (transfer rb io e) = submit_script e /\
  realloc_script (transfer rb io e) = realloc_script e /\
  asserted (transfer rb io e) = asserted e.
Proof. unfold transfer. destruct (bio_type io); cbn; repeat split; reflexivity. Qed.

(** One completion while siblings are still outstanding: the status is
    updated and nothing else happens. *)
Lemma complete_chunk_waits ok e :
  remaining (req e) <> 1 ->
  let e' := raid5_complete_chunk_request rb bdev_iovs stripe_index chunk_buffers ok e in
  trace e' = trace e /\ remaining (req e') = remaining (req e) - 1 /\
  status (req e') = (if ok then status (req e) else SPDK_BDEV_IO_STATUS_FAILED) /\
  mem e' = mem e /\ disks e' = disks e /\ inflight e' = inflight e /\ waitq e' = waitq e.
Proof.
  intros Hr. unfold raid5_complete_chunk_request. cbn zeta.
  destruct ok; cbn [req with_req upd_remaining upd_status remaining].
  - destruct (remaining (req e) - 1 =? 0) eqn:E; [lia|]. cbn. repeat split; reflexivity.
  - destruct (remaining (req e) - 1 =? 0) eqn:E; [lia|]. cbn. repeat split; reflexivity.
Qed.

(** The last completion of a request that has seen a failure: the
    callback is skipped and the request is completed as FAILED. *)
Lemma complete_chunk_last_failed ok e :
  remaining (req e) = 1 ->
  (ok = false \/ status (req e) = SPDK_BDEV_IO_STATUS_FAILED) ->
  let e' := raid5_complete_chunk_request rb bdev_iovs stripe_index chunk_buffers ok e in
  (exists blocks, trace e' = trace e ++ [EvComplete SPDK_BDEV_IO_STATUS_FAILED blocks]) /\
  remaining (req e') = 0 /\ status (req e') = SPDK_BDEV_IO_STATUS_FAILED.
Proof.
  intros Hr Hf. unfold raid5_complete_chunk_request. cbn zeta.
  destruct ok.
  - destruct Hf as [Hf|Hf]; [discriminate|].
    cbn [req with_req upd_remaining remaining]. rewrite Hr.
    change (1 - 1) with 0. change (0 =? 0) with true. cbn iota.
    cbn [status upd_remaining]. rewrite Hf.
    rewrite bool_decide_eq_false_2 by discriminate.
    unfold raid5_complete_stripe_request. cbn. rewrite Hf. split; [eexists; reflexivity|].
    split; reflexivity.
  - cbn [req with_req upd_remaining upd_status remaining]. rewrite Hr.
    change (1 - 1) with 0. change (0 =? 0) with true. cbn iota.
    cbn [status upd_remaining upd_status].
    rewrite bool_decide_eq_false_2 by discriminate.
    unfold raid5_complete_stripe_request. cbn. split; [eexists; reflexivity|].
    split; reflexivity.
Qed.

(** A run of completions that leaves at least one sibling outstanding. *)
Lemma completions_wait evs : forall e e1,
  Forall is_io_done evs ->
  Z.of_nat (length evs) < remaining (req e) ->
  env_run rb bdev_iovs stripe_index chunk_buffers evs e = Some e1 ->
  trace e1 = trace e /\
  remaining (req e1) = remaining (req e) - Z.of_nat (length evs) /\
  (status (req e) = SPDK_BDEV_IO_STATUS_FAILED \/ Exists is_io_failure evs ->
   status (req e1) = SPDK_BDEV_IO_STATUS_FAILED) /\
  (~ Exists is_io_failure evs -> status (req e1) = status (req e)).
Proof.
  induction evs as [|ev evs IH]; intros e e1 Hall Hlen Hrun.
  - cbn in Hrun. inversion Hrun; subst. cbn. repeat split; try lia; try reflexivity.
    intros [H|H]; [exact H|inversion H].
  - inversion Hall as [|? ? Hev Hall']; subst.
    destruct ev as [n ok|n]; [|destruct Hev].
    cbn [env_run env_step] in Hrun. cbn [length] in Hlen.
    destruct (inflight e !! n) as [io|] eqn:Hio; [|discriminate].
    match type of Hrun with env_run _ _ _ _ evs ?x = _ => set (x1 := x) in * end.
    assert (Hx1 : trace x1 = trace e /\ remaining (req x1) = remaining (req e) - 1 /\
                  status (req x1) = if ok then status (req e) else SPDK_BDEV_IO_STATUS_FAILED).
    { subst x1.
      match goal with |- context [raid5_complete_chunk_request _ _ _ _ ok ?y] =>
        pose proof (complete_chunk_waits ok y) as Hw; set (y0 := y) in * end.
      assert (Hy : req y0 = req e /\ trace y0 = trace e).
      { subst y0. destruct ok; [|split; reflexivity].
        match goal with |- context [transfer rb io ?z] =>
          destruct (transfer_same io z) as (A & B & _) end.
        rewrite A, B. split; reflexivity. }
      destruct Hy as (Hy1 & Hy2). rewrite Hy1 in Hw. cbn zeta in Hw.
      assert (Hne1 : remaining (req e) <> 1) by (clear - Hlen; lia). destruct (Hw Hne1) as (W1 & W2 & W3 & _).
      rewrite W1, W2, W3, Hy2. repeat split; reflexivity. }
    destruct Hx1 as (X1 & X2 & X3).
    destruct (IH x1 e1 Hall' ltac:(lia) Hrun) as (I1 & I2 & I3 & I4).
    rewrite I1, I2, X1, X2. cbn [length]. split; [reflexivity|]. split; [lia|]. split.
    + intros Hf. apply I3. rewrite X3.
      destruct ok; [|left; reflexivity].
      destruct Hf as [Hf|Hf]; [left; exact Hf|].
      inversion Hf as [? ? Hh|? ? Ht]; subst; [destruct Hh|right; exact Ht].
    + intros Hnf. rewrite I4.
      * rewrite X3. destruct ok; [reflexivity|].
        exfalso. apply Hnf. left. exact I.
      * intros Hex. apply Hnf. right. exact Hex.
Qed.

(** C8.  When chunk I/Os of a stripe request complete and at least one
    of them fails, nothing is completed while siblings are outstanding;
    a failure seen so far stays latched as FAILED; and when the last
    sibling completes, the callback chosen during planning is skipped
    and the request is completed with FAILED. *)
Theorem chunk_failure_latched (evs : list env_event) (e e' : engine)
    (Hdone : Forall is_io_done evs)
    (Hcount : Z.of_nat (length evs) = remaining (req e))
    (Hfail : Exists is_io_failure evs)
    (Hrun : env_run rb bdev_iovs stripe_index chunk_buffers evs e = Some e') :
  (exists blocks,
     trace e' = trace e ++ [EvComplete SPDK_BDEV_IO_STATUS_FAILED blocks]) /\
  status (req e') = SPDK_BDEV_IO_STATUS_FAILED /\
  remaining (req e') = 0 /\
  forall evs1 evs2 e1,
    evs = evs1 ++ evs2 -> evs2 <> [] ->
    env_run rb bdev_iovs stripe_index chunk_buffers evs1 e = Some e1 ->
    trace e1 = trace e /\
    remaining (req e1) = remaining (req e) - Z.of_nat (length evs1) /\
    remaining (req e1) > 0 /\
    (Exists is_io_failure evs1 -> status (req e1) = SPDK_BDEV_IO_STATUS_FAILED).
Proof.
  assert (Hprefix : forall evs1 evs2 e1,
    evs = evs1 ++ evs2 -> evs2 <> [] ->
    env_run rb bdev_iovs stripe_index chunk_buffers evs1 e = Some e1 ->
    trace e1 = trace e /\
    remaining (req e1) = remaining (req e) - Z.of_nat (length evs1) /\
    remaining (req e1) > 0 /\
    (Exists is_io_failure evs1 -> status (req e1) = SPDK_BDEV_IO_STATUS_FAILED) /\
    (~ Exists is_io_failure evs1 -> status (req e1) = status (req e))).
  { intros evs1 evs2 e1 Heq Hne Hrun1. subst evs.
    apply Forall_app in Hdone. destruct Hdone as (Hd1 & _).
    rewrite length_app in Hcount.
    assert (0 < length evs2)%nat by (destruct evs2; [congruence|cbn; lia]).
    destruct (completions_wait evs1 e e1 Hd1 ltac:(lia) Hrun1) as (A & B & C & D).
    split; [exact A|]. split; [exact B|]. split; [lia|]. split; [|exact D].
    intros Hex. apply C. right. exact Hex. }
  assert (Hlast : (exists blocks,
            trace e' = trace e ++ [EvComplete SPDK_BDEV_IO_STATUS_FAILED blocks]) /\
          status (req e') = SPDK_BDEV_IO_STATUS_FAILED /\ remaining (req e') = 0).
  { destruct (exists_last (l := evs)) as (evs1 & ev & Heq);
      [intros ->; inversion Hfail|].
    subst evs.
    assert (Hsplit : exists e1,
         env_run rb bdev_iovs stripe_index chunk_buffers evs1 e = Some e1 /\
         env_step rb bdev_iovs stripe_index chunk_buffers ev e1 = Some e').
    { clear - Hrun. revert e Hrun. induction evs1 as [|a evs1 IH]; intros e Hrun.
      - cbn in Hrun.
        destruct (env_step rb bdev_iovs stripe_index chunk_buffers ev e) eqn:E;
          [|discriminate].
        inversion Hrun; subst. eexists. split; [reflexivity|exact E].
      - cbn in Hrun.
        destruct (env_step rb bdev_iovs stripe_index chunk_buffers a e) eqn:E;
          [|discriminate].
        destruct (IH _ Hrun) as (e1 & H1 & H2). exists e1.
        split; [cbn; rewrite E; exact H1|exact H2]. }
    destruct Hsplit as (e1 & Hrun1 & Hstep).
    destruct (Hprefix evs1 [ev] e1 eq_refl ltac:(discriminate) Hrun1)
      as (A & B & C & D & D').
    assert (Hev : is_io_done ev).
    { apply Forall_app in Hdone. destruct Hdone as (_ & Hd). inversion Hd; assumption. }
    destruct ev as [n ok|n]; [|destruct Hev].
    cbn [env_step] in Hstep.
    destruct (inflight e1 !! n) as [io|] eqn:Hio; [|discriminate].
    inversion Hstep as [Hstep']; clear Hstep.
    rewrite length_app in Hcount; cbn [length] in Hcount.
    match goal with |- context [raid5_complete_chunk_request _ _ _ _ ok ?y] =>
      pose proof (complete_chunk_last_failed ok y) as Hl; set (y0 := y) in * end.
    assert (Hy : req y0 = req e1 /\ trace y0 = trace e1).
    { subst y0. destruct ok; [|split; reflexivity].
      match goal with |- context [transfer rb io ?z] =>
        destruct (transfer_same io z) as (Ha & Hb & _) end.
      rewrite Ha, Hb. split; reflexivity. }
    destruct Hy as (Hy1 & Hy2).
    rewrite Hy1, Hy2 in Hl. cbn zeta in Hl.
    assert (Hlatch : ok = false \/ status (req e1) = SPDK_BDEV_IO_STATUS_FAILED).
    { destruct ok; [right|left; reflexivity].
      apply D. apply Exists_app in Hfail. destruct Hfail as [Hf|Hf]; [exact Hf|].
      inversion Hf as [? ? Hh|? ? Ht]; [destruct Hh|inversion Ht]. }
    destruct (Hl ltac:(lia) Hlatch) as ((blocks & L1) & L2 & L3).
    split; [exists blocks; rewrite L1, A; reflexivity|]. split; [exact L3|exact L2]. }
  destruct Hlast as (L1 & L2 & L3).
  split; [exact L1|]. split; [exact L2|]. split; [exact L3|].
  intros evs1 evs2 e1 H1 H2 H3.
  destruct (Hprefix evs1 evs2 e1 H1 H2 H3) as (A & B & C & D & _). auto.
Qed.

End ChunkCompletion.

(** ** The stripe cache: reclaim *)

Lemma filter_ne_absent (h : nat) (l : list nat) :
  h ∉ l -> filter (fun x => x <> h) l = l.
Proof.
  induction l as [|x l IH]; intros Hn; [reflexivity|].
  rewrite filter_cons. apply not_elem_of_cons in Hn. destruct Hn as (Hx & Hn).
  destruct (decide (x <> h)) as [_|Hc]; [|exfalso; apply Hc; congruence].
  rewrite IH by exact Hn. reflexivity.
Qed.

Lemma tailq_remove_filter (h : nat) (l : list nat) :
  NoDup l -> tailq_remove h l = filter (fun x => x <> h) l.
Proof.
  induction l as [|x l IH]; intros Hnd; [reflexivity|].
  apply NoDup_cons in Hnd. destruct Hnd as (Hx & Hnd). cbn [tailq_remove].
  rewrite filter_cons. destruct (Nat.eqb_spec x h) as [->|Hne].
  - destruct (decide (h <> h)) as [Hc|_]; [congruence|].
    rewrite filter_ne_absent by exact Hx. reflexivity.
  - destruct (decide (x <> h)) as [_|Hc]; [|contradiction].
    rewrite IH by exact Hnd. reflexivity.
Qed.

Lemma tailq_remove_fold (taken l : list nat) :
  NoDup l ->
  foldl (fun a h => tailq_remove h a) l taken = filter (fun x => x ∉ taken) l.
Proof.
  revert l. induction taken as [|h taken IH]; intros l Hnd; cbn.
  - induction l as [|x l IHl]; [reflexivity|].
    rewrite filter_cons. destruct (decide (x ∉ [])) as [_|Hc].
    + rewrite <- IHl; [reflexivity|]. apply NoDup_cons in Hnd. tauto.
    + exfalso. apply Hc. apply not_elem_of_nil.
  - rewrite IH by (rewrite tailq_remove_filter by exact Hnd; apply NoDup_filter; exact Hnd).
    rewrite tailq_remove_filter by exact Hnd. rewrite list_filter_filter.
    apply list_filter_iff. intros x. rewrite not_elem_of_cons. tauto.
Qed.

Lemma reclaim_one_fields h s :
  let s' := reclaim_one h s in
  stripes s' = stripes s /\
  free_stripes s' = free_stripes s ++ [h] /\
  active_stripes s' = tailq_remove h (active_stripes s) /\
  active_stripes_hash s' = delete (s_index (the_stripe s h)) (active_stripes_hash s) /\
  stripe_request_mempool s' = stripe_request_mempool s /\
  retry_queues s' = retry_queues s /\ raid_ios s' = raid_ios s /\
  sys_log s' = sys_log s.
Proof.
  unfold reclaim_one. cbn zeta.
  match goal with |- context [bool_decide ?P] => destruct (bool_decide P) end;
    cbn; repeat split; reflexivity.
Qed.

Lemma reclaimable_same s s' h :
  stripes s' = stripes s -> reclaimable s' h = reclaimable s h.
Proof. intros H. unfold reclaimable, the_stripe. rewrite H. reflexivity. Qed.

Lemma reclaim_walk_busy t h l n s :
  (s_refs (the_stripe s h) >? 0) = true ->
  reclaim_walk t (h :: l) (n, s) = reclaim_walk t l (n, s) /\
  List.filter (reclaimable s) (h :: l) = List.filter (reclaimable s) l.
Proof.
  intros Hb. cbn [reclaim_walk reclaim_step List.filter]. unfold reclaimable at 1.
  rewrite Hb. cbn. split; reflexivity.
Qed.

Lemma reclaim_walk_idle t h l n s :
  (s_refs (the_stripe s h) >? 0) = false ->
  reclaim_walk t (h :: l) (n, s) =
    (if n + 1 >? t then (n + 1, reclaim_one h s)
     else reclaim_walk t l (n + 1, reclaim_one h s)) /\
  List.filter (reclaimable s) (h :: l) = h :: List.filter (reclaimable s) l.
Proof.
  intros Hb. cbn [reclaim_walk reclaim_step List.filter]. unfold reclaimable at 1.
  rewrite Hb. cbn [negb]. destruct (n + 1 >? t); split; reflexivity.
Qed.

(** The walk takes the idle stripes it meets, in the order it meets
    them, and goes past the busy ones. *)
Lemma reclaim_walk_spec (t : Z) (l : list nat) : forall (n : Z) (s : system),
  let n' := fst (reclaim_walk t l (n, s)) in
  let s' := snd (reclaim_walk t l (n, s)) in
  let idle := List.filter (reclaimable s) l in
  exists k : nat,
    let taken := take k idle in
    (idle <> [] -> (0 < k)%nat) /\ (k <= length idle)%nat /\
    n' = n + Z.of_nat k /\
    stripes s' = stripes s /\
    free_stripes s' = free_stripes s ++ taken /\
    active_stripes s' = foldl (fun a h => tailq_remove h a) (active_stripes s) taken /\
    active_stripes_hash s' =
      foldl (fun m h => delete (s_index (the_stripe s h)) m) (active_stripes_hash s) taken.
Proof.
  induction l as [|h l IH]; intros n s; cbn zeta.
  - cbn. exists O. cbn. rewrite app_nil_r.
    repeat split; try reflexivity; try lia. congruence.
  - destruct (s_refs (the_stripe s h) >? 0) eqn:Hbusy.
    + (* busy: skipped *)
      destruct (reclaim_walk_busy t h l n s Hbusy) as (-> & ->). apply IH.
    + (* idle: taken *)
      destruct (reclaim_walk_idle t h l n s Hbusy) as (-> & ->).
      pose proof (reclaim_one_fields h s) as Hone. cbn zeta in Hone.
      destruct Hone as (O1 & O2 & O3 & O4 & _).
      destruct (n + 1 >? t) eqn:Hstop.
      * exists 1%nat. cbn. rewrite O1, O2, O3, O4.
        repeat split; try reflexivity; try lia.
      * specialize (IH (n + 1) (reclaim_one h s)). cbn zeta in IH.
        destruct IH as (k & K1 & K2 & K3 & K4 & K5 & K6 & K7).
        assert (Hsame : List.filter (reclaimable (reclaim_one h s)) l
                        = List.filter (reclaimable s) l).
        { apply List.filter_ext. intros x. apply reclaimable_same. exact O1. }
        rewrite Hsame in *.
        exists (S k). cbn [take length foldl].
        split; [lia|]. split; [lia|]. split; [lia|]. split; [congruence|].
        split; [rewrite K5, O2, <- app_assoc; reflexivity|].
        split; [rewrite K6, O3; reflexivity|].
        rewrite K7, O4.
        assert (Hidx : forall x, s_index (the_stripe (reclaim_one h s) x)
                                 = s_index (the_stripe s x)).
        { intros x. unfold the_stripe. rewrite O1. reflexivity. }
        clear - Hidx. generalize (delete (s_index (the_stripe s h)) (active_stripes_hash s)).
        induction (take k (List.filter (reclaimable s) l)) as [|x xs IHx]; intros m;
          [reflexivity|]. cbn. rewrite Hidx. apply IHx.
Qed.


(** The exact extent of the walk: it stops as soon as more stripes than
    the target have been taken. *)
Lemma reclaim_walk_count (t : Z) (l : list nat) : forall (n : Z) (s : system),
  0 <= n ->
  fst (reclaim_walk t l (n, s)) =
  n + Z.min (Z.of_nat (length (List.filter (reclaimable s) l))) (Z.max (t - n) 0 + 1).
Proof.
  induction l as [|h l IH]; intros n s Hn.
  - cbn. lia.
  - destruct (s_refs (the_stripe s h) >? 0) eqn:Hbusy.
    + destruct (reclaim_walk_busy t h l n s Hbusy) as (-> & ->). apply IH. exact Hn.
    + destruct (reclaim_walk_idle t h l n s Hbusy) as (-> & ->).
      destruct (n + 1 >? t) eqn:Hstop.
      * cbn [fst length]. lia.
      * rewrite IH by lia.
        pose proof (reclaim_one_fields h s) as Hone. cbn zeta in Hone.
        destruct Hone as (O1 & _).
        rewrite (List.filter_ext _ _ (fun x => reclaimable_same s (reclaim_one h s) x O1)).
        cbn [length]. lia.
Qed.



(** ** Stripe acquisition and the retry queue *)

Lemma reclaim_walk_all_busy (t : Z) (l : list nat) (n : Z) (s : system) :
  (forall h, h ∈ l -> s_refs (the_stripe s h) > 0) ->
  reclaim_walk t l (n, s) = (n, s).
Proof.
  induction l as [|h l IH]; intros Hb; [reflexivity|].
  destruct (reclaim_walk_busy t h l n s) as (-> & _).
  - apply Z.gtb_lt. specialize (Hb h ltac:(left)). lia.
  - apply IH. intros x Hx. apply Hb. right. exact Hx.
Qed.

(** When a stripe cannot be had: its index is not cached, no stripe is
    free, and every active stripe is referenced. *)
Lemma raid5_get_stripe_none (RAID_MAX_STRIPES : Z) (rte_hash_hash : Z -> Z)
    (stripe_index : Z) (s : system) :
  active_stripes_hash s !! stripe_index = None ->
  free_stripes s = [] ->
  (forall h, h ∈ active_stripes s -> s_refs (the_stripe s h) > 0) ->
  raid5_get_stripe RAID_MAX_STRIPES rte_hash_hash stripe_index s = (None, s).
Proof.
  intros Hmiss Hfree Hbusy. unfold raid5_get_stripe. rewrite Hmiss, Hfree. cbn [head].
  unfold raid5_reclaim_stripes.
  rewrite reclaim_walk_all_busy.
  - reflexivity.
  - intros h Hh. apply Hbusy. apply list_elem_of_In. apply List.in_rev.
    apply list_elem_of_In. exact Hh.
Qed.

Lemma complete_part_last (io_h : nat) (blocks : Z) (st : spdk_bdev_io_status) (s : system) :
  u64 (base_bdev_io_remaining (the_raid_io s io_h) - blocks) = 0 ->
  let agg := if bool_decide (st = SPDK_BDEV_IO_STATUS_SUCCESS)
             then base_bdev_io_status (the_raid_io s io_h) else st in
  let r := raid_bdev_io_complete_part io_h blocks st s in
  fst r = true /\
  sys_log (snd r) = sys_log s ++ [SysCompletePart io_h blocks st; SysComplete io_h agg] /\
  retry_queues (snd r) = retry_queues s /\ stripes (snd r) = stripes s.
Proof.
  intros H0. unfold raid_bdev_io_complete_part. cbn zeta. rewrite H0. cbn.
  rewrite <- app_assoc. repeat split; reflexivity.
Qed.

(** C7.  When no stripe can be had for an incoming request (its stripe
    is not cached, the free list is empty and no active stripe can be
    reclaimed), [raid5_submit_rw_request] appends the request to the
    retry queue of its channel and returns: nothing is completed
    upstream, with NOMEM or otherwise, and the request itself is left as
    it was.  When later a stripe request completes the last part of its
    parent I/O while the retry queue of its channel is not empty,
    [raid5_complete_stripe_request] takes the request at the head of
    that queue and submits it again through [raid5_submit_rw_request]. *)
Theorem stripe_nomem_is_retried (depth : nat) (rb : raid_bdev) (RAID_MAX_STRIPES : Z)
    (rte_hash_hash : Z -> Z) :
  (forall (io_h : nat) (s : system),
     let io := the_raid_io s io_h in
     let ch := rio_raid_ch io in
     active_stripes_hash s !! (rio_offset_blocks io / stripe_blocks rb) = None ->
     free_stripes s = [] ->
     (forall h, h ∈ active_stripes s -> s_refs (the_stripe s h) > 0) ->
     (ch < length (retry_queues s))%nat ->
     let s' := raid5_submit_rw_request (S depth) rb RAID_MAX_STRIPES rte_hash_hash io_h s in
     the_retry_queue s' ch = the_retry_queue s ch ++ [io_h] /\
     sys_log s' = sys_log s ++ [SysRetryQueued io_h] /\
     raid_ios s' = raid_ios s) /\
  (forall (h : nat) (st : spdk_bdev_io_status) (blocks : Z) (s : system)
          (waiter : nat) (q : list nat),
     let io_h := raid_io (the_request s h) in
     let ch := rio_raid_ch (the_raid_io s io_h) in
     u64 (base_bdev_io_remaining (the_raid_io s io_h) - blocks) = 0 ->
     the_retry_queue s ch = waiter :: q ->
     exists s1,
       complete_stripe_request_effects
         (raid5_submit_rw_request depth rb RAID_MAX_STRIPES rte_hash_hash) h st blocks s =
       raid5_submit_rw_request depth rb RAID_MAX_STRIPES rte_hash_hash waiter s1 /\
       retry_queues s1 = <[ch := q]> (retry_queues s) /\
       exists pre agg,
         sys_log s1 = sys_log s ++ pre ++
           [SysCompletePart io_h blocks st; SysComplete io_h agg; SysRetry waiter]).
Proof.
  split.
  - intros io_h s io ch Hmiss Hfree Hbusy Hch. cbn zeta.
    cbn [raid5_submit_rw_request]. unfold submit_rw_request_body.
    fold io. rewrite (raid5_get_stripe_none _ _ _ s Hmiss Hfree Hbusy).
    fold ch. cbn [sys_emit sys_set_retry_queue sys_log raid_ios].
    split; [|split; reflexivity].
    unfold the_retry_queue. cbn [retry_queues sys_emit sys_set_retry_queue].
    rewrite list_lookup_insert_eq by exact Hch. reflexivity.
  - intros h st blocks s waiter q io_h ch H0 Hq.
    unfold complete_stripe_request_effects. fold io_h. fold ch.
    set (o := the_stripe s (stripe (the_request s h))).
    set (s0 := sys_set_stripe s (stripe (the_request s h))
                 {| s_index := s_index o; s_hash := s_hash o;
                    s_requests := tailq_remove h (s_requests o); s_refs := s_refs o;
                    s_chunk_buffers := s_chunk_buffers o |}).
    set (s1 := match tailq_next h (s_requests o) with
               | Some n => sys_emit (sys_set_bdev s0 (sys_inflight s0) (sys_waitq s0)
                                       (sys_msgs s0 ++ [n])) [SysSendMsg n]
               | None => s0
               end).
    set (s2 := sys_set_pool s1 (h :: stripe_request_mempool s1) (stripe_reqs s1)).
    assert (H2 : raid_ios s2 = raid_ios s /\ retry_queues s2 = retry_queues s /\
                 exists pre, sys_log s2 = sys_log s ++ pre).
    { subst s2 s1 s0. destruct (tailq_next h (s_requests o)); cbn.
      - repeat split. eexists. reflexivity.
      - repeat split. exists []. rewrite app_nil_r. reflexivity. }
    destruct H2 as (Hio & Hrq & pre & Hlog).
    assert (Hio2 : the_raid_io s2 io_h = the_raid_io s io_h)
      by (unfold the_raid_io; rewrite Hio; reflexivity).
    pose proof (complete_part_last io_h blocks st s2) as Hcp.
    rewrite Hio2 in Hcp. specialize (Hcp H0). cbn zeta in Hcp.
    destruct (raid_bdev_io_complete_part io_h blocks st s2) as [all_done s3].
    cbn [fst snd] in Hcp. destruct Hcp as (-> & Hlog3 & Hrq3 & _).
    match goal with |- context [sys_set_stripe s3 ?a ?b] => set (s4 := sys_set_stripe s3 a b) end.
    assert (Hq4 : the_retry_queue s4 ch = waiter :: q).
    { unfold the_retry_queue, s4. cbn [sys_set_stripe sys_set_cache retry_queues].
      rewrite Hrq3, Hrq. exact Hq. }
    rewrite Hq4. unfold raid5_io_channel_retry_request. rewrite Hq4.
    eexists. split; [reflexivity|]. split.
    + cbn [sys_emit sys_set_retry_queue retry_queues]. unfold s4.
      cbn [sys_set_stripe sys_set_cache retry_queues]. rewrite Hrq3, Hrq. reflexivity.
    + exists pre. eexists.
      cbn [sys_emit sys_set_retry_queue sys_log]. unfold s4.
      cbn [sys_set_stripe sys_set_cache sys_log]. rewrite Hlog3, Hlog.
      rewrite <- !app_assoc. reflexivity.
Qed.

(** ** Splitting a small write that straddles two strips *)

Section HandleStripe.
Variable rb : raid_bdev.
Variable cb_fn : nat -> system -> system.

(** The recursion of [raid5_handle_stripe] never runs out of depth. *)
Lemma handle_stripe_rec_total (depth : nat) : forall io_h stripe_h stripe_offset blocks iov_off s,
  (Z.to_nat blocks < depth)%nat ->
  is_Some (handle_stripe_rec rb cb_fn depth io_h stripe_h stripe_offset blocks iov_off s).
Proof.
  induction depth as [|depth IH]; intros io_h stripe_h stripe_offset blocks iov_off s Hd;
    [lia|].
  cbn [handle_stripe_rec].
  destruct ((base_bdev_io_remaining (the_raid_io s io_h) =? blocks)
            && bool_decide (rio_type (the_raid_io s io_h) = SPDK_BDEV_IO_TYPE_WRITE)
            && (blocks <? strip_size rb)); [|eexists; reflexivity].
  set (blocks_limit := u64 (strip_size rb - stripe_offset mod strip_size rb)).
  destruct (blocks >? blocks_limit) eqn:Hgt; [|eexists; reflexivity].
  apply Z.gtb_lt in Hgt. pose proof (u64_range (strip_size rb - stripe_offset mod strip_size rb)).
  fold blocks_limit in H.
  destruct (IH io_h stripe_h stripe_offset blocks_limit iov_off s ltac:(lia)) as [s1 Hs1].
  rewrite Hs1. eexists. reflexivity.
Qed.

Lemma handle_stripe_rec_unfold depth io_h stripe_h stripe_offset blocks iov_off s :
  handle_stripe_rec rb cb_fn (S depth) io_h stripe_h stripe_offset blocks iov_off s =
  let io := the_raid_io s io_h in
  if (base_bdev_io_remaining io =? blocks)
     && bool_decide (rio_type io = SPDK_BDEV_IO_TYPE_WRITE)
     && (blocks <? strip_size rb) then
    let blocks_limit := u64 (strip_size rb - stripe_offset mod strip_size rb) in
    if blocks >? blocks_limit then
      match handle_stripe_rec rb cb_fn depth io_h stripe_h stripe_offset blocks_limit iov_off s with
      | Some s =>
          Some (handle_stripe_request rb cb_fn io_h stripe_h
                  (u64 (stripe_offset + blocks_limit))
                  (u64 (blocks - blocks_limit))
                  (u64 (iov_off + u64 (blocks_limit * blocklen rb))) s)
      | None => None
      end
    else Some (handle_stripe_request rb cb_fn io_h stripe_h stripe_offset blocks iov_off s)
  else Some (handle_stripe_request rb cb_fn io_h stripe_h stripe_offset blocks iov_off s).
Proof. reflexivity. Qed.

(** What [raid5_handle_stripe] does once a stripe request has been
    taken from the pool: the request is initialised and appended to the
    queue of the stripe, and it is submitted at once if the queue was
    empty. *)
Lemma handle_stripe_request_enqueues io_h stripe_h stripe_offset blocks iov_off s h pool :
  stripe_request_mempool s = h :: pool ->
  (stripe_h < length (stripes s))%nat ->
  (h < length (stripe_reqs s))%nat ->
  exists s_mid,
    handle_stripe_request rb cb_fn io_h stripe_h stripe_offset blocks iov_off s =
      (if bool_decide (s_requests (the_stripe s stripe_h) = [])
       then sys_submit_stripe_request rb cb_fn h s_mid else s_mid) /\
    s_requests (the_stripe s_mid stripe_h) = s_requests (the_stripe s stripe_h) ++ [h] /\
    sys_log s_mid = sys_log s ++ [SysEnqueue stripe_h h stripe_offset blocks iov_off] /\
    stripe_request_mempool s_mid = pool /\
    the_request s_mid h =
      init_stripe_request rb (the_request s h) io_h stripe_h
        (s_index (the_stripe s stripe_h)) stripe_offset blocks iov_off.
Proof.
  intros Hpool Hst Hh. unfold handle_stripe_request. rewrite Hpool.
  eexists. split; [reflexivity|]. cbn.
  unfold the_stripe, the_request. cbn.
  rewrite !list_lookup_insert_eq by assumption. cbn.
  repeat split; reflexivity.
Qed.

(** With an empty pool the part is completed as NOMEM and nothing is
    queued. *)
Lemma handle_stripe_request_nomem io_h stripe_h stripe_offset blocks iov_off s :
  stripe_request_mempool s = [] ->
  handle_stripe_request rb cb_fn io_h stripe_h stripe_offset blocks iov_off s =
  snd (raid_bdev_io_complete_part io_h blocks SPDK_BDEV_IO_STATUS_NOMEM s).
Proof. intros Hpool. unfold handle_stripe_request. rewrite Hpool. reflexivity. Qed.


End HandleStripe.

(** ** The scatter-gather engine *)

Lemma bytes_op_app f p1 p2 m : bytes_op f (p1 ++ p2) m = bytes_op f p2 (bytes_op f p1 m).
Proof.
  revert m. induction p1 as [|[a b] p1 IH]; intros m; cbn; [reflexivity|]. apply IH.
Qed.

Lemma seqZ_S_cons (a : Z) (n : nat) : seqZ a (Z.of_nat (S n)) = a :: seqZ (a + 1) (Z.of_nat n).
Proof.
  rewrite seqZ_cons by lia. f_equal. f_equal; lia.
Qed.

Lemma xor_bytes_spec (n : nat) : forall m to from,
  xor_bytes n m to from =
  bytes_op Z.lxor (zip (seqZ to (Z.of_nat n)) (seqZ from (Z.of_nat n))) m.
Proof.
  induction n as [|n IH]; intros m to from; [reflexivity|].
  rewrite !seqZ_S_cons. cbn [zip zip_with bytes_op xor_bytes]. apply IH.
Qed.

Lemma copy_bytes_spec (n : nat) : forall m to from,
  copy_bytes n m to from =
  bytes_op (fun _ y => y) (zip (seqZ to (Z.of_nat n)) (seqZ from (Z.of_nat n))) m.
Proof.
  induction n as [|n IH]; intros m to from; [reflexivity|].
  rewrite !seqZ_S_cons. cbn [zip zip_with bytes_op copy_bytes]. apply IH.
Qed.

Lemma raid5_xor_buf_spec m to from n :
  0 <= n -> raid5_xor_buf m to from n = bytes_op Z.lxor (zip (seqZ to n) (seqZ from n)) m.
Proof.
  intros Hn. unfold raid5_xor_buf. rewrite xor_bytes_spec. rewrite Z2Nat.id by lia.
  reflexivity.
Qed.

Lemma c_memcpy_spec m to from n :
  0 <= n -> c_memcpy m to from n = bytes_op (fun _ y => y) (zip (seqZ to n) (seqZ from n)) m.
Proof.
  intros Hn. unfold c_memcpy. rewrite copy_bytes_spec. rewrite Z2Nat.id by lia.
  reflexivity.
Qed.

Lemma iovs_total_nonneg l : Forall (fun v => 0 <= iov_len v) l -> 0 <= iovs_total l.
Proof.
  induction 1 as [|v l Hv Hl IH]; unfold iovs_total in *; cbn [foldr]; lia.
Qed.

Lemma iovs_total_cons x l : iovs_total (x :: l) = iov_len x + iovs_total l.
Proof. reflexivity. Qed.

Lemma length_iovs_addrs l :
  Forall (fun v => 0 <= iov_len v) l ->
  Z.of_nat (length (iovs_addrs l)) = iovs_total l.
Proof.
  induction 1 as [|v l Hv Hl IH]; [reflexivity|].
  rewrite iovs_total_cons. unfold iovs_addrs in *. cbn [map concat].
  rewrite length_app. unfold iov_addrs at 1. rewrite length_seqZ. lia.
Qed.

Lemma cursor_addrs_zero v : cursor_addrs v 0 = iovs_addrs v.
Proof.
  destruct v as [|x v]; [reflexivity|]. cbn. unfold iovs_addrs. cbn. unfold iov_addrs at 2.
  rewrite Z.add_0_r, Z.sub_0_r. reflexivity.
Qed.

Lemma drop_seqZ (a n : Z) (k : nat) :
  Z.of_nat k <= n -> drop k (seqZ a n) = seqZ (a + Z.of_nat k) (n - Z.of_nat k).
Proof.
  intros Hk. replace n with (Z.of_nat k + (n - Z.of_nat k)) at 1 by lia.
  rewrite seqZ_app by lia. rewrite drop_app_length'; [reflexivity|].
  rewrite length_seqZ. lia.
Qed.

(** The positioning loop ends on the vector that holds byte [offset],
    at the right place in it. *)
Lemma iovs_seek_spec (l : list iovec) : forall (n0 offset : Z),
  Forall (fun v => 0 <= iov_len v) l ->
  0 <= n0 <= offset -> n0 + iovs_total l < 2 ^ 64 -> offset < 2 ^ 64 ->
  let '(v, off) := iovs_seek l n0 offset in
  cursor_ok v off /\
  Forall (fun v => 0 <= iov_len v) v /\
  cursor_addrs v off = drop (Z.to_nat (offset - n0)) (iovs_addrs l).
Proof.
  induction l as [|x l IH]; intros n0 offset Hwf Hn Htot Hoff.
  - cbn. repeat split; [constructor|]. rewrite drop_nil. reflexivity.
  - inversion Hwf as [|? ? Hx Hl]; subst. rewrite iovs_total_cons in Htot.
    cbn [iovs_seek].
    pose proof (iovs_total_nonneg l Hl) as Hnn.
    rewrite (u64_small (n0 + iov_len x)) by lia.
    destruct (n0 + iov_len x >? offset) eqn:Hgt.
    + apply Z.gtb_lt in Hgt.
      rewrite (u64_small (n0 + iov_len x - offset)) by lia.
      rewrite (u64_small (iov_len x - (n0 + iov_len x - offset))) by lia.
      replace (iov_len x - (n0 + iov_len x - offset)) with (offset - n0) by lia.
      split; [cbn; lia|]. split; [exact Hwf|].
      cbn [cursor_addrs]. unfold iovs_addrs. cbn [map concat]. unfold iov_addrs at 2.
      rewrite drop_app_le by (rewrite length_seqZ; lia).
      rewrite drop_seqZ by lia. rewrite Z2Nat.id by lia. reflexivity.
    + assert (Hle : n0 + iov_len x <= offset) by (rewrite Z.gtb_ltb in Hgt; apply Z.ltb_ge in Hgt; lia).
      specialize (IH (n0 + iov_len x) offset Hl ltac:(lia) ltac:(lia) Hoff).
      destruct (iovs_seek l (n0 + iov_len x) offset) as [v off].
      destruct IH as (I1 & I2 & I3). split; [exact I1|]. split; [exact I2|].
      rewrite I3. unfold iovs_addrs. cbn [map concat]. unfold iov_addrs at 2.
      rewrite drop_app_ge by (rewrite length_seqZ; lia).
      rewrite length_seqZ. f_equal. lia.
Qed.

Lemma iovs_seek_Forall (P : iovec -> Prop) (l : list iovec) : forall n0 offset,
  Forall P l -> Forall P (fst (iovs_seek l n0 offset)).
Proof.
  induction l as [|x l IH]; intros n0 offset Hl; [constructor|].
  cbn [iovs_seek]. destruct (u64 (n0 + iov_len x) >? offset); [exact Hl|].
  apply IH. inversion Hl; assumption.
Qed.

Lemma iovs_loop_unfold op x1 v1 x2 v2 off1 off2 size m :
  iovs_loop op (x1 :: v1) (x2 :: v2) off1 off2 size m =
  if size >? 0 then
    let n := Z.min (u64 (iov_len x1 - off1)) (u64 (iov_len x2 - off2)) in
    let n := if n >? size then size else n in
    let size' := u64 (size - n) in
    let m' := op m (iov_base x1 + off1) (iov_base x2 + off2) n in
    if u64 (off1 + n) =? iov_len x1 then
      if u64 (off2 + n) =? iov_len x2 then iovs_loop op v1 v2 0 0 size' m'
      else iovs_loop op v1 (x2 :: v2) 0 (u64 (off2 + n)) size' m'
    else
      if u64 (off2 + n) =? iov_len x2 then iovs_loop op (x1 :: v1) v2 (u64 (off1 + n)) 0 size' m'
      else m'
  else m.
Proof. reflexivity. Qed.

Lemma iovs_loop_nil_r op v1 off1 off2 size m : iovs_loop op v1 [] off1 off2 size m = m.
Proof. destruct v1; reflexivity. Qed.

Lemma take_zip_split (a1 r1 a2 r2 n size : Z) (A1 A2 : list Z) :
  0 <= n <= r1 -> n <= r2 -> n <= size ->
  take (Z.to_nat size) (zip (seqZ a1 r1 ++ A1) (seqZ a2 r2 ++ A2)) =
  zip (seqZ a1 n) (seqZ a2 n) ++
  take (Z.to_nat (size - n))
       (zip (seqZ (a1 + n) (r1 - n) ++ A1) (seqZ (a2 + n) (r2 - n) ++ A2)).
Proof.
  intros H1 H2 H3.
  replace r1 with (n + (r1 - n)) at 1 by lia. replace r2 with (n + (r2 - n)) at 1 by lia.
  rewrite !seqZ_app by lia. rewrite <- !app_assoc.
  rewrite zip_with_app by (rewrite !length_seqZ; reflexivity).
  rewrite take_app_ge by (rewrite length_zip_with, !length_seqZ; lia).
  f_equal. f_equal. rewrite length_zip_with, !length_seqZ. lia.
Qed.

Lemma cursor_ok_zero v : Forall iov_sized v -> cursor_ok v 0.
Proof.
  destruct v as [|x v]; intros H; cbn; [reflexivity|].
  inversion H as [|? ? [? ?] ?]; lia.
Qed.

(** The transfer loop applies the segment operation to the two address
    streams in step, for [size] bytes or until one of them ends. *)
Lemma iovs_loop_spec op f
    (Hop : forall m to from n, 0 <= n ->
             op m to from n = bytes_op f (zip (seqZ to n) (seqZ from n)) m) :
  forall v1 v2 off1 off2 size m,
  Forall iov_sized v1 -> Forall iov_sized v2 ->
  cursor_ok v1 off1 -> cursor_ok v2 off2 -> 0 <= size < 2 ^ 64 ->
  iovs_loop op v1 v2 off1 off2 size m =
  bytes_op f (take (Z.to_nat size) (zip (cursor_addrs v1 off1) (cursor_addrs v2 off2))) m.
Proof.
  induction v1 as [|x1 v1 IH1]; intros v2.
  { intros. cbn [cursor_addrs zip zip_with]. rewrite take_nil. destruct v2; reflexivity. }
  induction v2 as [|x2 v2 IH2]; intros off1 off2 size m Hs1 Hs2 Hc1 Hc2 Hsize.
  { rewrite iovs_loop_nil_r. cbn [cursor_addrs]. rewrite zip_with_nil_r, take_nil.
    reflexivity. }
  rewrite iovs_loop_unfold.
  inversion Hs1 as [|? ? [Hx1 Hx1'] Hs1']; subst.
  inversion Hs2 as [|? ? [Hx2 Hx2'] Hs2']; subst.
  cbn [cursor_ok] in Hc1, Hc2.
  destruct (size >? 0) eqn:Hpos.
  2:{ rewrite Z.gtb_ltb in Hpos. apply Z.ltb_ge in Hpos.
      replace size with 0 by lia. reflexivity. }
  rewrite Z.gtb_ltb in Hpos. apply Z.ltb_lt in Hpos.
  rewrite (u64_small (iov_len x1 - off1)) by lia.
  rewrite (u64_small (iov_len x2 - off2)) by lia.
  cbn zeta.
  set (n0 := Z.min (iov_len x1 - off1) (iov_len x2 - off2)).
  set (n := if n0 >? size then size else n0).
  assert (Hn : 0 <= n <= iov_len x1 - off1 /\ n <= iov_len x2 - off2 /\ n <= size /\
               (n = iov_len x1 - off1 \/ n = iov_len x2 - off2 \/ n = size)).
  { unfold n. destruct (n0 >? size) eqn:E; rewrite Z.gtb_ltb in E;
      [apply Z.ltb_lt in E | apply Z.ltb_ge in E]; unfold n0 in *; lia. }
  clearbody n. clear n0.
  rewrite (u64_small (size - n)) by lia.
  rewrite (u64_small (off1 + n)) by lia.
  rewrite (u64_small (off2 + n)) by lia.
  rewrite Hop by lia.
  cbn [cursor_addrs].
  rewrite (take_zip_split _ _ _ _ n) by lia.
  rewrite bytes_op_app.
  set (m' := bytes_op f (zip _ _) m). clearbody m'.
  destruct (Z.eqb_spec (off1 + n) (iov_len x1)) as [E1|E1];
    destruct (Z.eqb_spec (off2 + n) (iov_len x2)) as [E2|E2].
  - rewrite IH1; try assumption; try lia; try (apply cursor_ok_zero; assumption).
    rewrite !cursor_addrs_zero.
    replace (iov_len x1 - off1 - n) with 0 by lia.
    replace (iov_len x2 - off2 - n) with 0 by lia. reflexivity.
  - rewrite IH1; try assumption; try lia.
    + rewrite cursor_addrs_zero. cbn [cursor_addrs].
      replace (iov_len x1 - off1 - n) with 0 by lia.
      replace (iov_base x2 + off2 + n) with (iov_base x2 + (off2 + n)) by lia.
      replace (iov_len x2 - off2 - n) with (iov_len x2 - (off2 + n)) by lia. reflexivity.
    + apply cursor_ok_zero; assumption.
    + cbn. lia.
  - rewrite IH2; try assumption; try lia.
    + rewrite cursor_addrs_zero. cbn [cursor_addrs].
      replace (iov_len x2 - off2 - n) with 0 by lia.
      replace (iov_base x1 + off1 + n) with (iov_base x1 + (off1 + n)) by lia.
      replace (iov_len x1 - off1 - n) with (iov_len x1 - (off1 + n)) by lia. reflexivity.
    + cbn. lia.
    + apply cursor_ok_zero; assumption.
  - replace (size - n) with 0 by lia. reflexivity.
Qed.

(** ** Mapping a window of the upstream vectors *)

Lemma map_find_start_spec (iov : list iovec) : forall off offset,
  Forall (fun v => 0 <= iov_len v) iov ->
  0 <= off <= offset -> offset < off + iovs_total iov -> off + iovs_total iov < 2 ^ 64 ->
  exists x iov' o,
    map_find_start iov off offset = Some (x :: iov', o) /\
    o <= offset < o + iov_len x /\ 0 <= o /\
    o + iovs_total (x :: iov') = off + iovs_total iov /\
    Forall (fun v => 0 <= iov_len v) (x :: iov') /\
    o - off = iovs_total (take (length iov - length (x :: iov')) iov) /\
    x :: iov' = drop (length iov - length (x :: iov')) iov.
Proof.
  induction iov as [|x iov IH]; intros off offset Hnn Hoff Hlt Hbound.
  - cbn in Hlt. lia.
  - inversion Hnn as [|? ? Hx Hl]; subst. rewrite iovs_total_cons in *.
    pose proof (iovs_total_nonneg iov Hl) as Ht.
    cbn [map_find_start]. rewrite (u64_small (off + iov_len x)) by lia.
    destruct (off + iov_len x >? offset) eqn:Hgt.
    + apply Z.gtb_lt in Hgt. exists x, iov, off.
      rewrite Nat.sub_diag. cbn [take drop iovs_total foldr].
      repeat split; try assumption; try lia.
    + rewrite Z.gtb_ltb in Hgt. apply Z.ltb_ge in Hgt.
      destruct (IH (off + iov_len x) offset Hl ltac:(lia) ltac:(lia) ltac:(lia))
        as (y & iov' & o & E & H1 & H2 & H3 & H4 & H5 & H6).
      exists y, iov', o. split; [exact E|]. split; [exact H1|]. split; [exact H2|].
      split; [lia|]. split; [exact H4|].
      assert (Hle : (length (y :: iov') <= length iov)%nat).
      { rewrite H6. rewrite length_drop. lia. }
      replace (length (x :: iov) - length (y :: iov'))%nat
        with (S (length iov - length (y :: iov'))) by (cbn [length] in *; lia).
      cbn [take drop]. rewrite iovs_total_cons. split; [lia|exact H6].
Qed.

Lemma map_count_acc (iov : list iovec) : forall off target n,
  map_count iov off target n = n + map_count iov off target 0.
Proof.
  induction iov as [|x iov IH]; intros off target n; cbn [map_count]; [lia|].
  destruct (u64 (off + iov_len x) >=? target); [lia|].
  rewrite (IH _ _ (n + 1)), (IH _ _ (0 + 1)). lia.
Qed.

Lemma take_seqZ (a n : Z) (k : nat) :
  Z.of_nat k <= n -> take k (seqZ a n) = seqZ a (Z.of_nat k).
Proof.
  intros Hk. replace n with (Z.of_nat k + (n - Z.of_nat k)) by lia.
  rewrite seqZ_app by lia. rewrite take_app_length'; [reflexivity|].
  rewrite length_seqZ. lia.
Qed.

(** The entries written by the third loop name exactly the [len] bytes
    of the upstream vectors from [offset] on. *)
Lemma map_fill_spec (iov : list iovec) : forall off offset len,
  Forall (fun v => 0 <= iov_len v) iov ->
  0 <= off <= offset ->
  match iov with x :: _ => offset <= off + iov_len x | [] => True end ->
  0 <= len -> offset + len <= off + iovs_total iov -> off + iovs_total iov < 2 ^ 64 ->
  let n := map_count iov off (offset + len) 0 in
  let '(es, len') := map_fill (Z.to_nat n) iov off offset len in
  len' = 0 /\ length es = Z.to_nat n /\ Forall iov_sized es /\
  iovs_total es = len /\
  iovs_addrs es = take (Z.to_nat len) (drop (Z.to_nat (offset - off)) (iovs_addrs iov)).
Proof.
  induction iov as [|x iov IH]; intros off offset len Hnn Hoff Hhead Hlen Hcov Hbound.
  - cbn in Hcov. cbn. rewrite drop_nil, take_nil.
    split; [lia|]. split; [reflexivity|]. split; [constructor|].
    split; [unfold iovs_total; cbn; lia|reflexivity].
  - inversion Hnn as [|? ? Hx Hl]; subst. rewrite iovs_total_cons in *.
    pose proof (iovs_total_nonneg iov Hl) as Ht.
    cbn [map_count]. rewrite (u64_small (off + iov_len x)) by lia.
    change (0 + 1) with 1.
    destruct (off + iov_len x >=? offset + len) eqn:Hge.
    + apply Z.geb_le in Hge. cbn zeta.
      change (Z.to_nat 1) with 1%nat. cbn [map_fill].
      rewrite (u64_small (offset - off)) by lia.
      rewrite (u64_small (iov_len x - (offset - off))) by lia.
      rewrite Z.min_l by lia. cbn [iov_len].
      rewrite (u64_small (len - len)) by lia. rewrite Z.sub_diag.
      destruct iov; cbn [map_fill]; (split; [reflexivity|]); (split; [reflexivity|]);
        (split; [repeat constructor; unfold iov_sized; cbn; lia|]);
        (split; [unfold iovs_total; cbn; lia|]);
        unfold iovs_addrs; cbn [map concat]; rewrite app_nil_r;
        unfold iov_addrs at 1; cbn [iov_base iov_len];
        unfold iov_addrs at 1;
        rewrite drop_app_le by (rewrite length_seqZ; lia);
        rewrite drop_seqZ by lia;
        rewrite take_app_le by (rewrite length_seqZ; lia);
        rewrite take_seqZ by lia; rewrite !Z2Nat.id by lia; reflexivity.
    + rewrite Z.geb_leb in Hge. apply Z.leb_gt in Hge.
      rewrite map_count_acc.
      pose proof (map_count_pos iov (off + iov_len x) (offset + len) 0 ltac:(lia)) as Hc.
      cbn zeta.
      replace (Z.to_nat (1 + map_count iov (off + iov_len x) (offset + len) 0))
        with (S (Z.to_nat (map_count iov (off + iov_len x) (offset + len) 0))) by lia.
      cbn [map_fill].
      rewrite (u64_small (offset - off)) by lia.
      rewrite (u64_small (iov_len x - (offset - off))) by lia.
      rewrite Z.min_r by lia. cbn [iov_len].
      rewrite (u64_small (off + iov_len x)) by lia.
      rewrite (u64_small (offset + (iov_len x - (offset - off)))) by lia.
      rewrite (u64_small (len - (iov_len x - (offset - off)))) by lia.
      replace (offset + (iov_len x - (offset - off))) with (off + iov_len x) by lia.
      specialize (IH (off + iov_len x) (off + iov_len x)
                     (len - (iov_len x - (offset - off))) Hl ltac:(lia)).
      replace (off + iov_len x + (len - (iov_len x - (offset - off))))
        with (offset + len) in IH by lia.
      cbn zeta in IH.
      destruct (map_fill _ iov (off + iov_len x) (off + iov_len x)
                  (len - (iov_len x - (offset - off)))) as [es len'].
      destruct IH as (I1 & I2 & I3 & I4 & I5).
      { destruct iov as [|y ?]; [exact I|]. inversion Hl; subst. lia. }
      { lia. } { lia. } { lia. }
      split; [exact I1|]. split; [cbn [length]; rewrite I2; reflexivity|].
      split; [constructor; [unfold iov_sized; cbn; lia|exact I3]|].
      split; [rewrite iovs_total_cons; cbn [iov_len]; lia|].
      unfold iovs_addrs in *. cbn [map concat]. rewrite I5.
      unfold iov_addrs at 1. cbn [iov_base iov_len]. unfold iov_addrs at 2.
      rewrite Z.sub_diag. cbn [Z.to_nat drop].
      rewrite drop_app_le by (rewrite length_seqZ; lia).
      rewrite drop_seqZ by lia. rewrite Z2Nat.id by lia.
      rewrite take_app_ge by (rewrite length_seqZ; lia).
      rewrite length_seqZ. f_equal. f_equal. lia.
Qed.

Lemma iovs_addrs_app l1 l2 : iovs_addrs (l1 ++ l2) = iovs_addrs l1 ++ iovs_addrs l2.
Proof. unfold iovs_addrs. rewrite map_app, concat_app. reflexivity. Qed.

Lemma wf_iovs_nonneg l : wf_iovs l -> Forall (fun v => 0 <= iov_len v) l.
Proof. intros [H _]. exact H. Qed.

Lemma realloc_iovs_ok p n :
  0 <= n -> exists arr, realloc_iovs p n true = Some (IovsHeap arr) /\ length arr = Z.to_nat n.
Proof.
  intros Hn. unfold realloc_iovs.
  destruct p; eexists; (split; [reflexivity|]);
    rewrite ?length_take, ?length_app, ?length_replicate; lia.
Qed.

Lemma chunk_write_iovs_read c es (n : Z) :
  iovcnt c = n -> length es = Z.to_nat n -> 1 <= n ->
  chunk_cap_ok c ->
  chunk_iovs (chunk_write_iovs c es) = es /\ chunk_cap_ok (chunk_write_iovs c es).
Proof.
  intros Hn Hes H1 Hcap. unfold chunk_cap_ok, chunk_write_iovs, chunk_iovs in *.
  destruct (iovs c) as [|arr|] eqn:E.
  - assert (n = 1) by lia. subst n. rewrite H in *.
    destruct es as [|x [|y es]]; try discriminate Hes.
    cbn. rewrite E. cbn. rewrite H. split; [reflexivity|lia].
  - cbn. rewrite Hn. split.
    + rewrite take_app_length' by (symmetry; exact Hes). reflexivity.
    + rewrite length_app, length_drop. lia.
  - lia.
Qed.

(** [raid5_chunk_map_iov] succeeds on a window that the upstream
    vectors hold, and leaves the chunk with vectors for exactly the
    bytes of the window. *)
Lemma raid5_chunk_map_iov_spec c iov offset len :
  wf_iovs iov -> 0 <= offset -> 0 < len -> offset + len <= iovs_total iov ->
  let '(ret, called, c') := raid5_chunk_map_iov c iov offset len true in
  ret = 0 /\
  (chunk_cap_ok c ->
   chunk_cap_ok c' /\ Forall iov_sized (chunk_iovs c') /\
   iovs_total (chunk_iovs c') = len /\
   iovs_addrs (chunk_iovs c') =
     take (Z.to_nat len) (drop (Z.to_nat offset) (iovs_addrs iov))).
Proof.
  intros [Hnn Hbound] Hoff Hlen Hcov. unfold raid5_chunk_map_iov.
  assert (A1 : 0 <= 0 <= offset) by lia.
  assert (A2 : offset < 0 + iovs_total iov) by lia.
  assert (A3 : 0 + iovs_total iov < 2 ^ 64) by lia.
  destruct (map_find_start_spec iov 0 offset Hnn A1 A2 A3)
    as (x & iov' & o & E & H1 & H2 & H3 & H4 & H5 & H6).
  rewrite E. rewrite (u64_small (offset + len)) by lia.
  assert (B1 : 0 <= o <= offset) by lia.
  assert (B2 : offset <= o + iov_len x) by lia.
  assert (B3 : 0 <= len) by lia.
  assert (B4 : offset + len <= o + iovs_total (x :: iov')) by lia.
  assert (B5 : o + iovs_total (x :: iov') < 2 ^ 64) by lia.
  pose proof (map_fill_spec (x :: iov') o offset len H4 B1 B2 B3 B4 B5) as F.
  cbn zeta in F.
  set (n := map_count (x :: iov') o (offset + len) 0) in *.
  assert (Hn : 1 <= n).
  { subst n. cbn [map_count]. destruct (_ >=? _); [lia|].
    pose proof (map_count_pos iov' (u64 (o + iov_len x)) (offset + len) (0 + 1)). lia. }
  destruct (map_fill (Z.to_nat n) (x :: iov') o offset len) as [es len'].
  destruct F as (F1 & F2 & F3 & F4 & F5). subst len'.
  assert (Haddr : iovs_addrs es =
                  take (Z.to_nat len) (drop (Z.to_nat offset) (iovs_addrs iov))).
  { rewrite F5.
    assert (Hsplit : iovs_addrs iov =
                     iovs_addrs (take (length iov - length (x :: iov')) iov) ++
                     iovs_addrs (x :: iov')).
    { rewrite H6 at 2. rewrite <- iovs_addrs_app, take_drop. reflexivity. }
    rewrite Hsplit.
    rewrite drop_app_ge.
    - f_equal. f_equal.
      pose proof (length_iovs_addrs (take (length iov - length (x :: iov')) iov)
                    (Forall_take _ _ _ Hnn)). lia.
    - pose proof (length_iovs_addrs (take (length iov - length (x :: iov')) iov)
                    (Forall_take _ _ _ Hnn)). lia. }
  change (0 >? 0) with false. cbn iota.
  destruct (n >? iovcnt c) eqn:Hgt.
  - set (c0 := match iovs c with IovsEmbedded => chunk_set_iovs c IovsNull | _ => c end).
    destruct (realloc_iovs_ok (iovs c0) n ltac:(lia)) as (arr & Er & Hl).
    rewrite Er. cbn zeta. split; [reflexivity|]. intros _.
    assert (Hcap : chunk_cap_ok (chunk_set_iovcnt (chunk_set_iovs c0 (IovsHeap arr)) n)).
    { unfold chunk_cap_ok. cbn [iovs iovcnt chunk_set_iovcnt chunk_set_iovs].
      rewrite Hl. lia. }
    destruct (chunk_write_iovs_read
                (chunk_set_iovcnt (chunk_set_iovs c0 (IovsHeap arr)) n) es n
                eq_refl F2 Hn Hcap) as [R1 R2].
    rewrite R1. repeat split; assumption.
  - cbn zeta. split; [reflexivity|]. intros Hcap0.
    assert (Hcap : chunk_cap_ok (chunk_set_iovcnt c n)).
    { rewrite Z.gtb_ltb in Hgt. apply Z.ltb_ge in Hgt.
      unfold chunk_cap_ok in *. cbn [iovs iovcnt chunk_set_iovcnt].
      destruct (iovs c); lia. }
    destruct (chunk_write_iovs_read (chunk_set_iovcnt c n) es n
                eq_refl F2 Hn Hcap) as [R1 R2].
    rewrite R1. repeat split; assumption.
Qed.

(** When the window reaches beyond the upstream vectors, the third loop
    is left with bytes to map. *)
Lemma map_fill_short (iov : list iovec) : forall cnt off offset len,
  Forall (fun v => 0 <= iov_len v) iov ->
  0 <= off <= offset ->
  match iov with x :: _ => offset <= off + iov_len x | [] => offset = off end ->
  off + iovs_total iov < offset + len -> offset + len < 2 ^ 64 ->
  0 < snd (map_fill cnt iov off offset len).
Proof.
  induction iov as [|x iov IH]; intros cnt off offset len Hnn Hoff Hhead Hshort Hb.
  - unfold iovs_total in Hshort. cbn in Hshort. destruct cnt; cbn; lia.
  - inversion Hnn as [|? ? Hx Hl]; subst. rewrite iovs_total_cons in Hshort.
    pose proof (iovs_total_nonneg iov Hl) as Ht.
    destruct cnt as [|cnt]; [cbn; lia|]. cbn [map_fill].
    rewrite (u64_small (offset - off)) by lia.
    rewrite (u64_small (iov_len x - (offset - off))) by lia.
    rewrite Z.min_r by lia. cbn [iov_len].
    rewrite (u64_small (off + iov_len x)) by lia.
    rewrite (u64_small (offset + (iov_len x - (offset - off)))) by lia.
    rewrite (u64_small (len - (iov_len x - (offset - off)))) by lia.
    specialize (IH cnt (off + iov_len x) (offset + (iov_len x - (offset - off)))
                   (len - (iov_len x - (offset - off))) Hl).
    destruct (map_fill cnt iov _ _ _) as [es len']. cbn [snd] in *.
    apply IH; try lia.
    destruct iov as [|y ?]; [lia|]. inversion Hl; subst. lia.
Qed.

(** Whatever the allocator answers: when [raid5_chunk_map_iov] returns
    0, the window lies in the upstream vectors and the chunk is left
    with vectors for exactly its bytes. *)
Lemma raid5_chunk_map_iov_ret0 c iov offset len ok :
  wf_iovs iov -> 0 <= offset -> 0 < len -> iovs_total iov + len < 2 ^ 64 ->
  chunk_cap_ok c ->
  let '(ret, called, c') := raid5_chunk_map_iov c iov offset len ok in
  ret = 0 ->
  chunk_cap_ok c' /\ Forall iov_sized (chunk_iovs c') /\
  iovs_total (chunk_iovs c') = len /\
  iovs_addrs (chunk_iovs c') =
    take (Z.to_nat len) (drop (Z.to_nat offset) (iovs_addrs iov)).
Proof.
  intros Hwf Hoff Hlen Hb Hcap.
  destruct (Z_le_gt_dec (offset + len) (iovs_total iov)) as [Hcov|Hshort].
  - pose proof (raid5_chunk_map_iov_spec c iov offset len Hwf Hoff Hlen Hcov) as H.
    destruct ok; [destruct (raid5_chunk_map_iov c iov offset len true) as [[r cl] c'];
                  intros _; apply H; exact Hcap|].
    unfold raid5_chunk_map_iov in *.
    destruct (map_find_start iov 0 offset) as [[iov_s o]|]; [|intros E; discriminate E].
    destruct (_ >? iovcnt c).
    + cbn. intros E. discriminate E.
    + destruct (map_fill _ iov_s o offset len) as [es len'].
      destruct (len' >? 0); intros _; apply H; exact Hcap.
  - unfold raid5_chunk_map_iov.
    destruct Hwf as [Hnn Hbound].
    destruct (Z_lt_le_dec offset (iovs_total iov)) as [Hin|Hout].
    + assert (A1 : 0 <= 0 <= offset) by lia.
      assert (A2 : offset < 0 + iovs_total iov) by lia.
      assert (A3 : 0 + iovs_total iov < 2 ^ 64) by lia.
      destruct (map_find_start_spec iov 0 offset Hnn A1 A2 A3)
        as (x & iov' & o & E & H1 & H2 & H3 & H4 & _).
      rewrite E.
      set (n := map_count (x :: iov') o (u64 (offset + len)) 0).
      assert (B1 : 0 <= o <= offset) by lia.
      assert (B2 : offset <= o + iov_len x) by lia.
      assert (B3 : o + iovs_total (x :: iov') < offset + len) by lia.
      assert (B4 : offset + len < 2 ^ 64) by lia.
      pose proof (map_fill_short (x :: iov') (Z.to_nat n) o offset len H4 B1 B2 B3 B4) as F.
      destruct (n >? iovcnt c).
      * destruct (realloc_iovs _ n ok); [|cbn; intros E0; discriminate E0].
        destruct (map_fill (Z.to_nat n) (x :: iov') o offset len) as [es len'].
        cbn [snd] in F. apply Z.gtb_lt in F. rewrite F. cbn. intros E0. discriminate E0.
      * destruct (map_fill (Z.to_nat n) (x :: iov') o offset len) as [es len'].
        cbn [snd] in F. apply Z.gtb_lt in F. rewrite F. cbn. intros E0. discriminate E0.
    + assert (E : map_find_start iov 0 offset = None).
      { assert (G : forall l off, Forall (fun v => 0 <= iov_len v) l -> 0 <= off ->
                      off + iovs_total l <= offset -> off + iovs_total l < 2 ^ 64 ->
                      map_find_start l off offset = None).
        { induction l as [|y l IHl]; intros off Hl Ho Hle Hlt; [reflexivity|].
          inversion Hl as [|? ? Hy Hl']; subst. rewrite iovs_total_cons in *.
          pose proof (iovs_total_nonneg l Hl').
          cbn [map_find_start]. rewrite (u64_small (off + iov_len y)) by lia.
          destruct (off + iov_len y >? offset) eqn:Eg; [apply Z.gtb_lt in Eg; lia|].
          apply IHl; try assumption; lia. }
        apply G; try assumption; lia. }
      rewrite E. intros E0. discriminate E0.
Qed.

(** ** Accounting of chunk I/Os *)

Lemma shape_eq_refl e : shape_eq e e.
Proof. repeat split; reflexivity. Qed.

Lemma shape_eq_trans e1 e2 e3 : shape_eq e1 e2 -> shape_eq e2 e3 -> shape_eq e1 e3.
Proof.
  intros (A1 & A2 & A3 & A4 & A5 & A6 & A7) (B1 & B2 & B3 & B4 & B5 & B6 & B7).
  repeat split; try congruence.
Qed.

Lemma scripts_shrink_refl e : scripts_shrink e e.
Proof. split; exists 0%nat; reflexivity. Qed.

Lemma scripts_shrink_trans e1 e2 e3 :
  scripts_shrink e1 e2 -> scripts_shrink e2 e3 -> scripts_shrink e1 e3.
Proof.
  intros [[n1 A1] [m1 A2]] [[n2 B1] [m2 B2]]. split.
  - exists (n1 + n2)%nat. rewrite B1, A1, drop_drop. reflexivity.
  - exists (m1 + m2)%nat. rewrite B2, A2, drop_drop. reflexivity.
Qed.

Lemma scripts_shrink_contract e e' :
  scripts_shrink e e' -> bdev_contract (submit_script e) -> bdev_contract (submit_script e').
Proof.
  intros [_ [n H]] Hc. unfold bdev_contract in *. rewrite H. apply Forall_drop. exact Hc.
Qed.

Lemma scripts_shrink_allocator e e' :
  scripts_shrink e e' -> allocator_ok e -> allocator_ok e'.
Proof.
  intros [[n H] _] Hc. unfold allocator_ok in *. rewrite H. apply Forall_drop. exact Hc.
Qed.

Lemma books_trans k1 k2 e1 e2 e3 :
  books k1 e1 e2 -> books k2 e2 e3 -> books (k1 + k2) e1 e3.
Proof.
  intros (A1 & A2 & A3 & A5 & A6 & A7) (B1 & B2 & B3 & B5 & B6 & B7).
  split; [eapply shape_eq_trans; eassumption|].
  split; [eapply scripts_shrink_trans; eassumption|].
  split; [congruence|]. split; [congruence|]. split; [lia|].
  intros H. destruct (A7 H) as [? ?].
  destruct (B7 (scripts_shrink_contract _ _ A2 H)) as [? ?]. split; [congruence|lia].
Qed.

Lemma moves_refl e : moves 0 e e.
Proof.
  split; [|reflexivity].
  split; [apply shape_eq_refl|]. split; [apply scripts_shrink_refl|].
  repeat split; try reflexivity; lia.
Qed.

Lemma moves_trans k1 k2 e1 e2 e3 :
  moves k1 e1 e2 -> moves k2 e2 e3 -> moves (k1 + k2) e1 e3.
Proof.
  intros [A Ac] [B Bc]. split; [eapply books_trans; eassumption|congruence].
Qed.

Lemma moves_then_quiet k e1 e2 e3 : moves k e1 e2 -> moves 0 e2 e3 -> moves k e1 e3.
Proof.
  intros H1 H2. replace k with (k + 0) by lia. apply (moves_trans k 0 e1 e2); assumption.
Qed.

Lemma books_aborted k e1 e2 e3 : books k e1 e2 -> aborted e2 e3 -> aborted e1 e3.
Proof.
  intros (A1 & A2 & A3 & A5 & A6 & A7) (B1 & B2 & B3 & B4 & B5).
  split; [eapply shape_eq_trans; eassumption|].
  split; [eapply scripts_shrink_trans; eassumption|].
  split; [congruence|]. split; [assumption|].
  intros H. destruct (A7 H) as [? ?].
  rewrite (B5 (scripts_shrink_contract _ _ A2 H)). assumption.
Qed.

Lemma moves_aborted k e1 e2 e3 : moves k e1 e2 -> aborted e2 e3 -> aborted e1 e3.
Proof. intros [A _]. apply books_aborted with (k := k). exact A. Qed.

(** Steps that move data or rewrite a chunk's vectors submit nothing. *)
Lemma moves_quiet e e' :
  shape_eq e e' ->
  status (req e') = status (req e) ->
  chunk_requests_complete_cb (req e') = chunk_requests_complete_cb (req e) ->
  remaining (req e') = remaining (req e) ->
  trace e' = trace e -> inflight e' = inflight e -> waitq e' = waitq e ->
  submit_script e' = submit_script e -> realloc_script e' = realloc_script e ->
  asserted e' = asserted e ->
  moves 0 e e'.
Proof.
  intros Hs H1 H2 H3 H4 H5 H6 H7 H8 H9.
  split; [|exact H2].
  split; [exact Hs|].
  split; [split; exists 0%nat; [rewrite H8 | rewrite H7]; reflexivity|].
  split; [assumption|]. split; [rewrite H4; reflexivity|]. split; [lia|].
  intros _. split; [assumption|]. unfold pending. rewrite H5, H6. lia.
Qed.

Lemma moves_with_mem e m : moves 0 e (with_mem e m).
Proof. apply moves_quiet; try reflexivity. repeat split; reflexivity. Qed.

Lemma moves_with_disks e d : moves 0 e (with_disks e d).
Proof. apply moves_quiet; try reflexivity. repeat split; reflexivity. Qed.

Lemma moves_iov_offset e o : moves 0 e (with_req e (upd_iov_offset (req e) o)).
Proof. apply moves_quiet; try reflexivity. repeat split; reflexivity. Qed.

Lemma moves_store e i c :
  req_blocks c = req_blocks (chunk_at e i) -> moves 0 e (store_chunk e i c).
Proof.
  intros Hc. apply moves_quiet; try reflexivity.
  unfold store_chunk. split; [apply set_chunk_length|].
  do 5 (split; [reflexivity|]).
  intros j. apply (get_set_chunk_field req_blocks). exact Hc.
Qed.

Section Accounting.
Variable rb : raid_bdev.
Variable bdev_iovs : list iovec.
Variable stripe_index : Z.
Variable chunk_buffers : list Z.

Lemma moves_xor e a b c d n : moves 0 e (xor_chunks e a b c d n).
Proof. apply moves_with_mem. Qed.

Lemma moves_memset e i : moves 0 e (memset_chunk e i).
Proof. apply moves_with_mem. Qed.

Lemma moves_map i e : moves 0 e (snd (raid5_chunk_map_req_data rb bdev_iovs i e)).
Proof.
  pose proof (map_req_data_same rb bdev_iovs i e) as H. cbn zeta in H.
  destruct H as (H1 & H2 & H3 & H4 & H5 & H6 & H7 & H8 & H9 & H10 & H11 & H12 & H13
                 & H14 & H15 & H16).
  split; [|assumption].
  split.
  { repeat split; try assumption. intros j.
    apply (map_req_data_chunks rb bdev_iovs i e j). }
  split.
  { split; [|exists 0%nat; rewrite H6; reflexivity].
    unfold raid5_chunk_map_req_data.
    destruct (raid5_chunk_map_iov _ _ _ _ _) as [[ret called] c'].
    destruct called; destruct (ret =? 0); cbn;
      solve [exists 1%nat; destruct (realloc_script e); reflexivity
            | exists 0%nat; reflexivity]. }
  split; [assumption|].
  split; [rewrite H3; reflexivity|]. split; [lia|].
  intros _. split; [assumption|]. unfold pending. rewrite H4, H5. lia.
Qed.

Lemma submit_inner_books i e :
  let e' := _raid5_submit_chunk_request rb stripe_index i e in
  req e' = req e /\ realloc_script e' = realloc_script e /\
  submit_script e' = drop 1 (submit_script e) /\
  completions (trace e') = completions (trace e) /\
  (bdev_contract (submit_script e) ->
   asserted e' = asserted e /\ pending e' = pending e + 1).
Proof.
  cbn zeta.
  destruct (submit_inner_same rb stripe_index i e) as (H1 & _ & _ & H4 & H5).
  split; [exact H1|]. split; [exact H4|].
  split; [rewrite H5; destruct (submit_script e); reflexivity|].
  split.
  - unfold _raid5_submit_chunk_request, completions.
    destruct (hd 0 (submit_script e) =? 0); [|destruct (hd 0 (submit_script e) =? - ENOMEM)];
      cbn [trace emit with_inflight with_waitq with_asserted with_submit_script];
      rewrite ?List.filter_app; cbn; rewrite ?app_nil_r; reflexivity.
  - intros Hc.
    destruct (submit_inner_effect rb stripe_index i e Hc) as (E1 & _ & E3 & E4 & _).
    split; [exact E1|]. unfold pending. rewrite E3, E4.
    destruct (hd 0 (submit_script e) =? 0); rewrite !length_app; cbn; lia.
Qed.

Lemma moves_submit i ty e : moves 1 e (raid5_submit_chunk_request rb stripe_index i ty e).
Proof.
  pose proof (submit_chunk_frame rb stripe_index i ty e) as F.
  destruct F as (F1 & F2 & F3 & F4 & F5 & F6 & F7 & F8 & F9 & F10 & F11 & F12 & F13).
  pose proof (submit_chunk_same rb stripe_index i ty e) as S. cbn zeta in S.
  destruct S as (_ & _ & S3 & S4).
  unfold raid5_submit_chunk_request in *.
  match goal with |- context [_raid5_submit_chunk_request _ _ _ ?x] =>
    pose proof (submit_inner_books i x) as B; set (y := x) in * end.
  cbn zeta in B. destruct B as (B1 & B2 & B3 & B4 & B5).
  split; [|assumption].
  split.
  { repeat split; try assumption. intros j. apply (F13 j). }
  split.
  { split; [exists 0%nat; rewrite S3; reflexivity|].
    exists 1%nat. rewrite B3. reflexivity. }
  split; [assumption|].
  split; [rewrite B4; reflexivity|]. split; [assumption|].
  intros Hc. apply B5. exact Hc.
Qed.

Lemma complete_books e :
  let e' := raid5_complete_stripe_request rb e in
  req e' = req e /\ inflight e' = inflight e /\ waitq e' = waitq e /\
  submit_script e' = submit_script e /\ realloc_script e' = realloc_script e /\
  asserted e' = asserted e /\
  completions (trace e') = S (completions (trace e)).
Proof.
  cbn zeta. unfold raid5_complete_stripe_request.
  repeat split; try reflexivity.
  cbn [trace emit]. rewrite completions_app. cbn. lia.
Qed.

Lemma aborted_abort st e : aborted e (raid5_abort_stripe_request rb st e).
Proof.
  unfold raid5_abort_stripe_request.
  match goal with |- aborted _ (raid5_complete_stripe_request _ ?x) =>
    destruct (complete_books x) as (H1 & H2 & H3 & H4 & H5 & H6 & H7) end.
  split.
  { unfold shape_eq. rewrite H1. repeat split; reflexivity. }
  split.
  { split; exists 0%nat; [rewrite H5 | rewrite H4]; reflexivity. }
  split; [rewrite H7; reflexivity|].
  split; [rewrite H1; reflexivity|].
  intros _. rewrite H6. reflexivity.
Qed.

(** A compute loop either runs through without submitting anything or
    ends in an abort. *)
Lemma for_each_moves (body : Z -> engine -> bool * engine) (l : list Z) (e : engine) :
  (forall i x, i ∈ l ->
     let '(go, x') := body i x in if go then moves 0 x x' else aborted x x') ->
  let '(go, e') := for_each l body e in if go then moves 0 e e' else aborted e e'.
Proof.
  intros Hbody.
  apply (for_each_invariant (fun x => moves 0 e x) (fun x => aborted e x)).
  - apply moves_refl.
  - intros i x Hi Hx. specialize (Hbody i x Hi).
    destruct (body i x) as [go x']. destruct go.
    + apply (moves_trans 0 0 e x x'); assumption.
    + apply (moves_aborted 0 e x x'); assumption.
Qed.

Lemma fold_moves (f : engine -> Z -> engine) (l : list Z) (e : engine) :
  (forall i x, i ∈ l -> moves 0 x (f x i)) -> moves 0 e (fold_left f l e).
Proof.
  intros Hf. apply (fold_left_invariant (fun x => moves 0 e x)).
  - apply moves_refl.
  - intros x i Hi Hx. apply (moves_trans 0 0 e x _ Hx). apply Hf. exact Hi.
Qed.

(** Mapping the request data of a chunk, and aborting when that fails. *)
Lemma map_or_abort_moves i e (k : Z -> engine -> engine) :
  (forall x, moves 0 x (k i x)) ->
  let '(go, x') :=
    (let '(ret, e1) := raid5_chunk_map_req_data rb bdev_iovs i e in
     if negb (ret =? 0)
     then (false, raid5_abort_stripe_request rb (errno_to_status ret) e1)
     else (true, k i e1)) in
  if go then moves 0 e x' else aborted e x'.
Proof.
  intros Hk. pose proof (moves_map i e) as Hm.
  destruct (raid5_chunk_map_req_data rb bdev_iovs i e) as [ret e1]. cbn [snd] in Hm.
  destruct (negb (ret =? 0)).
  - apply (moves_aborted 0 e e1); [exact Hm|apply aborted_abort].
  - apply (moves_trans 0 0 e e1); [exact Hm|apply Hk].
Qed.

Lemma reconstruct_write_step_moves p i e :
  let '(go, x') := reconstruct_write_step rb bdev_iovs p i e in
  if go then moves 0 e x' else aborted e x'.
Proof.
  unfold reconstruct_write_step.
  set (e1 := if preread_blocks (chunk_at e i) >? 0 then _ else e).
  assert (H1 : moves 0 e e1).
  { subst e1. destruct (preread_blocks (chunk_at e i) >? 0);
      [apply moves_xor|apply moves_refl]. }
  clearbody e1.
  destruct (req_blocks (chunk_at e1 i) >? 0).
  - pose proof (map_or_abort_moves i e1
      (fun i x => xor_chunks x p
                    (blk_diff rb (req_offset (chunk_at x i)) (req_offset (chunk_at x p)))
                    i 0 (blk_len rb (req_blocks (chunk_at x i))))
      (fun x => moves_xor x _ _ _ _ _)) as H2.
    cbn beta in H2.
    destruct (raid5_chunk_map_req_data rb bdev_iovs i e1) as [ret e2].
    destruct (negb (ret =? 0)).
    + apply (moves_aborted 0 e e1); assumption.
    + apply (moves_trans 0 0 e e1); assumption.
  - exact H1.
Qed.

Lemma write_submit_books e :
  Z.of_nat (length (chunks (req e))) = num_base_bdevs rb ->
  has_write (num_base_bdevs rb) e ->
  let e' := raid5_stripe_write_submit rb stripe_index e in
  exists k, 1 <= k /\ books k e e' /\
            chunk_requests_complete_cb (req e') = cb_raid5_complete_stripe_request.
Proof.
  intros Hlen (w & Hw & Hblocks & Hnd). cbn zeta.
  unfold raid5_stripe_write_submit.
  set (e0 := with_req e (upd_cb (req e) cb_raid5_complete_stripe_request)).
  set (body := fun (e1 : engine) (i : Z) => _).
  assert (G : (fun j x => exists k, moves k e0 x /\ 0 <= k /\ (w < j -> 1 <= k))
                (num_base_bdevs rb) (fold_left body (seqZ 0 (num_base_bdevs rb)) e0)).
  { apply fold_seqZ_invariant; [| |lia].
    - exists 0. split; [apply moves_refl|]. split; lia.
    - intros j x Hj (k & Hk & Hk0 & Hk1). unfold body.
      destruct ((req_blocks (chunk_at x j) >? 0)
                && negb (is_chunk (degraded_chunk (req e)) j)) eqn:Hc.
      + exists (k + 1). split; [|split; lia].
        apply (moves_trans k 1 e0 x); [exact Hk|apply moves_submit].
      + exists k. split; [exact Hk|]. split; [lia|]. intros Hwj.
        destruct (Z.eq_dec w j) as [->|Hne]; [|apply Hk1; lia].
        exfalso. destruct Hk as [(Hs & _) _].
        destruct Hs as (_ & _ & _ & _ & _ & _ & Hrb).
        unfold chunk_at in Hc. rewrite (Hrb j) in Hc.
        change (get_chunk (req e0) j) with (chunk_at e j) in Hc.
        rewrite Hnd in Hc. cbn in Hc. apply andb_false_iff in Hc.
        destruct Hc as [Hc|Hc]; [|discriminate].
        rewrite Z.gtb_ltb in Hc. apply Z.ltb_ge in Hc. lia. }
  cbn beta in G. destruct G as (k & [Hk Hcb] & Hk0 & Hk1).
  exists k. split; [apply Hk1; lia|]. split; [|exact Hcb].
  apply (books_trans 0 k e e0); [|exact Hk].
  split; [repeat split; reflexivity|].
  split; [split; exists 0%nat; reflexivity|].
  split; [reflexivity|]. split; [reflexivity|]. split; [cbn; lia|].
  intros _. split; [reflexivity|]. unfold pending; cbn; lia.
Qed.

Lemma has_write_shape n e e' : shape_eq e e' -> has_write n e -> has_write n e'.
Proof.
  intros (_ & _ & _ & _ & Hd & _ & Hb) (w & Hw & Hblocks & Hnd).
  exists w. split; [exact Hw|]. unfold chunk_at. rewrite (Hb w), Hd. split; assumption.
Qed.

(** The outcome of a compute callback: the request was aborted, or
    writes are under way and the final callback is installed. *)
Lemma compute_then_submit e (r : bool * engine) :
  Z.of_nat (length (chunks (req e))) = num_base_bdevs rb ->
  has_write (num_base_bdevs rb) e ->
  (let '(go, x) := r in if go then moves 0 e x else aborted e x) ->
  let e' := (let '(go, x) := r in
             if go then raid5_stripe_write_submit rb stripe_index x else x) in
  aborted e e' \/
  exists k, 1 <= k /\ books k e e' /\
            chunk_requests_complete_cb (req e') = cb_raid5_complete_stripe_request.
Proof.
  intros Hlen Hw. destruct r as [go x]. destruct go; intros H; cbn zeta.
  - right. destruct H as [Hb Hcb].
    assert (Hs : shape_eq e x) by (destruct Hb as (Hs & _); exact Hs).
    destruct (write_submit_books x) as (k & Hk & Hbk & Hc).
    + destruct Hs as (Hl & _). rewrite Hl. exact Hlen.
    + apply (has_write_shape _ e); assumption.
    + exists k. split; [exact Hk|]. split; [|exact Hc].
      apply (books_trans 0 k e x); assumption.
  - left. exact H.
Qed.

Lemma rmw_books e :
  Z.of_nat (length (chunks (req e))) = num_base_bdevs rb ->
  has_write (num_base_bdevs rb) e ->
  let e' := raid5_stripe_write_preread_complete_rmw rb bdev_iovs stripe_index e in
  aborted e e' \/
  exists k, 1 <= k /\ books k e e' /\
            chunk_requests_complete_cb (req e') = cb_raid5_complete_stripe_request.
Proof.
  intros Hlen Hw. unfold raid5_stripe_write_preread_complete_rmw.
  apply (compute_then_submit e); [exact Hlen|exact Hw|].
  apply for_each_moves. intros i x _.
  destruct (req_blocks (chunk_at x i) =? 0); [apply moves_refl|].
  set (x1 := xor_chunks x _ _ _ _ _).
  pose proof (map_or_abort_moves i x1
    (fun i y => xor_chunks y (parity_chunk (req e))
                  (blk_diff rb (req_offset (chunk_at x i))
                               (req_offset (chunk_at x (parity_chunk (req e)))))
                  i 0 (blk_len rb (req_blocks (chunk_at y i))))
    (fun y => moves_xor y _ _ _ _ _)) as H2.
  cbn beta in H2.
  destruct (raid5_chunk_map_req_data rb bdev_iovs i x1) as [ret x2].
  destruct (negb (ret =? 0)).
  - apply (moves_aborted 0 x x1); [apply moves_xor|exact H2].
  - apply (moves_trans 0 0 x x1); [apply moves_xor|exact H2].
Qed.

Lemma reconstruct_loop_moves p l e :
  let '(go, e') := for_each l (reconstruct_write_step rb bdev_iovs p) e in
  if go then moves 0 e e' else aborted e e'.
Proof.
  apply for_each_moves. intros i x _. apply reconstruct_write_step_moves.
Qed.

Lemma after_moves e e1 (r : bool * engine) :
  moves 0 e e1 ->
  (let '(go, x) := r in if go then moves 0 e1 x else aborted e1 x) ->
  let '(go, x) := r in if go then moves 0 e x else aborted e x.
Proof.
  intros H1. destruct r as [go x]. destruct go; intros H2.
  - apply (moves_trans 0 0 e e1); assumption.
  - apply (moves_aborted 0 e e1); assumption.
Qed.

Lemma preread_complete_books e :
  Z.of_nat (length (chunks (req e))) = num_base_bdevs rb ->
  has_write (num_base_bdevs rb) e ->
  let e' := raid5_stripe_write_preread_complete rb bdev_iovs stripe_index e in
  aborted e e' \/
  exists k, 1 <= k /\ books k e e' /\
            chunk_requests_complete_cb (req e') = cb_raid5_complete_stripe_request.
Proof.
  intros Hlen Hw. unfold raid5_stripe_write_preread_complete.
  apply (compute_then_submit e); [exact Hlen|exact Hw|].
  apply (after_moves e (memset_chunk e (parity_chunk (req e)))); [apply moves_memset|].
  apply reconstruct_loop_moves.
Qed.

Lemma preread_complete_degraded_books e :
  Z.of_nat (length (chunks (req e))) = num_base_bdevs rb ->
  has_write (num_base_bdevs rb) e ->
  let e' := raid5_stripe_write_preread_complete_degraded rb bdev_iovs stripe_index
              chunk_buffers e in
  aborted e e' \/
  exists k, 1 <= k /\ books k e e' /\
            chunk_requests_complete_cb (req e') = cb_raid5_complete_stripe_request.
Proof.
  intros Hlen Hw. unfold raid5_stripe_write_preread_complete_degraded.
  destruct (negb (preread_blocks (chunk_at e (parity_chunk (req e))) =? 0)).
  - cbn zeta.
    set (e1 := store_chunk e _ _).
    assert (H1 : moves 0 e e1) by (apply moves_store; reflexivity).
    set (e2 := memset_chunk e1 _).
    assert (H2 : moves 0 e e2).
    { apply (moves_trans 0 0 e e1); [exact H1|apply moves_memset]. }
    set (e3 := fold_left _ _ e2).
    assert (H3 : moves 0 e e3).
    { apply (moves_trans 0 0 e e2); [exact H2|]. apply fold_moves.
      intros i x _. destruct (negb (is_chunk (degraded_chunk (req x)) i));
        [apply moves_xor|apply moves_refl]. }
    set (e4 := memset_chunk e3 _).
    assert (H4 : moves 0 e e4).
    { apply (moves_trans 0 0 e e3); [exact H3|apply moves_memset]. }
    clearbody e4. clear e1 e2 e3 H1 H2 H3.
    apply (compute_then_submit e); [exact Hlen|exact Hw|].
    apply (after_moves e e4); [exact H4|].
    apply for_each_moves. intros i x _.
    destruct (if negb (req_offset (chunk_at x i) =? 0)
              then (0, req_offset (chunk_at x i))
              else (req_blocks (chunk_at x i),
                    u64 (strip_size rb - req_blocks (chunk_at x i)))) as [po pb].
    set (x1 := if pb >? 0 then _ else x).
    assert (Hx1 : moves 0 x x1).
    { subst x1. destruct (pb >? 0); [apply moves_xor|apply moves_refl]. }
    clearbody x1.
    destruct (req_blocks (chunk_at x i) >? 0); [|exact Hx1].
    pose proof (map_or_abort_moves i x1
      (fun i y => xor_chunks y (parity_chunk (req e))
                    (blk_diff rb (req_offset (chunk_at y i))
                                 (req_offset (chunk_at y (parity_chunk (req e)))))
                    i 0 (blk_len rb (req_blocks (chunk_at y i))))
      (fun y => moves_xor y _ _ _ _ _)) as H2.
    cbn beta in H2.
    destruct (raid5_chunk_map_req_data rb bdev_iovs i x1) as [ret x2].
    destruct (negb (ret =? 0)).
    + apply (moves_aborted 0 x x1); assumption.
    + apply (moves_trans 0 0 x x1); assumption.
  - cbn zeta.
    apply (compute_then_submit e); [exact Hlen|exact Hw|].
    apply (after_moves e (memset_chunk e (parity_chunk (req e)))); [apply moves_memset|].
    apply reconstruct_loop_moves.
Qed.

Lemma sum_snoc (f : Z -> Z) pre i :
  foldr Z.add 0 (map f (pre ++ [i])) = foldr Z.add 0 (map f pre) + f i.
Proof. induction pre as [|a pre IH]; cbn; [lia|]. cbn in IH. rewrite IH. lia. Qed.

Lemma sum_nonneg (f : Z -> Z) l : (forall j, 0 <= f j) -> 0 <= foldr Z.add 0 (map f l).
Proof. intros Hf. induction l as [|a l IH]; cbn; [lia|]. specialize (Hf a). lia. Qed.

Lemma prefix_sum_le (f : Z -> Z) pre i post :
  (forall j, 0 <= f j) ->
  foldr Z.add 0 (map f pre) + f i <= foldr Z.add 0 (map f (pre ++ i :: post)).
Proof.
  intros Hf. replace (pre ++ i :: post) with ((pre ++ [i]) ++ post)
    by (rewrite <- app_assoc; reflexivity).
  rewrite map_app, foldr_app.
  assert (G : forall l a, foldr Z.add a l = a + foldr Z.add 0 l).
  { induction l as [|b l IH]; intros a; cbn; [lia|]. rewrite IH. lia. }
  rewrite (G (map f (pre ++ [i])) (foldr Z.add 0 (map f post))).
  rewrite sum_snoc. pose proof (sum_nonneg f post Hf). lia.
Qed.

(** With the window inside the upstream vectors and an allocator that
    does not fail, the mapping of a chunk succeeds. *)
Lemma map_req_data_ok i e :
  wf_iovs bdev_iovs -> allocator_ok e -> 0 <= iov_offset (req e) ->
  0 < req_blocks (chunk_at e i) * blocklen rb ->
  iov_offset (req e) + req_blocks (chunk_at e i) * blocklen rb <= iovs_total bdev_iovs ->
  let '(ret, e') := raid5_chunk_map_req_data rb bdev_iovs i e in
  ret = 0 /\
  iov_offset (req e') = iov_offset (req e) + req_blocks (chunk_at e i) * blocklen rb.
Proof.
  intros Hwf Hal Hoff Hlen Hcov. unfold raid5_chunk_map_req_data.
  assert (Hok : hd true (realloc_script e) = true).
  { unfold allocator_ok in Hal. destruct (realloc_script e) as [|b l]; [reflexivity|].
    inversion Hal; subst. reflexivity. }
  rewrite Hok.
  assert (Hb : iovs_total bdev_iovs < 2 ^ 64) by (destruct Hwf; assumption).
  rewrite (u64_small (req_blocks (chunk_at e i) * blocklen rb)) by lia.
  pose proof (raid5_chunk_map_iov_spec (chunk_at e i) bdev_iovs (iov_offset (req e))
                (req_blocks (chunk_at e i) * blocklen rb) Hwf Hoff Hlen Hcov) as H.
  destruct (raid5_chunk_map_iov (chunk_at e i) bdev_iovs (iov_offset (req e))
              (req_blocks (chunk_at e i) * blocklen rb) true) as [[ret called] c'].
  destruct H as [-> _]. change (0 =? 0) with true. cbn iota.
  split; [reflexivity|].
  destruct called; cbn [req with_req store_chunk with_realloc_script upd_iov_offset iov_offset];
    apply u64_small; lia.
Qed.

(** The callback of a reconstructing read, when its mappings succeed:
    it completes the request, once. *)
Lemma reconstructed_books e :
  upstream_covers rb bdev_iovs (req e) -> allocator_ok e ->
  let e' := raid5_complete_reconstructed_stripe_request rb bdev_iovs e in
  exists x, moves 0 e x /\ e' = raid5_complete_stripe_request rb x.
Proof.
  intros (Hwf & Hbl & Hnn & Hinit & Hcov) Hal. cbn zeta.
  unfold raid5_complete_reconstructed_stripe_request.
  set (e1 := memset_chunk e _).
  assert (H1 : moves 0 e e1) by apply moves_memset.
  set (e2 := fold_left _ (each_chunk rb) e1).
  assert (H2 : moves 0 e e2).
  { apply (moves_trans 0 0 e e1); [exact H1|]. apply fold_moves.
    intros i x _. destruct (negb (is_chunk (degraded_chunk (req x)) i));
      [apply moves_xor|apply moves_refl]. }
  set (e3 := with_req e2 (upd_iov_offset (req e2) (init_iov_offset (req e2)))).
  assert (H3 : moves 0 e e3).
  { apply (moves_trans 0 0 e e2); [exact H2|apply moves_iov_offset]. }
  assert (Hinit3 : iov_offset (req e3) = init_iov_offset (req e)).
  { subst e3. cbn. destruct H2 as [(Hs & _) _].
    destruct Hs as (_ & _ & _ & _ & _ & Hi & _). exact Hi. }
  assert (Hal3 : allocator_ok e3).
  { destruct H3 as [(_ & Hsc & _) _]. apply (scripts_shrink_allocator e); assumption. }
  assert (HP3 : each_data_chunk rb (req e3) =
                data_positions (num_base_bdevs rb) (parity_chunk (req e))).
  { rewrite each_data_chunk_spec. destruct H3 as [(Hs & _) _].
    destruct Hs as (_ & Hp & _). rewrite Hp. reflexivity. }
  clearbody e3. clear e1 e2 H1 H2.
  eexists. split; [|reflexivity].
  rewrite HP3.
  set (f := fun j => req_blocks (get_chunk (req e) j) * blocklen rb).
  assert (Hf : forall j, 0 <= f j) by (intros j; unfold f; specialize (Hnn j); nia).
  match goal with |- moves 0 e (fold_left ?body ?l e3) =>
    assert (G : (fun pre x => moves 0 e x /\ allocator_ok x /\
                   iov_offset (req x) =
                     init_iov_offset (req e) + foldr Z.add 0 (map f pre))
                l (fold_left body l e3)) end.
  { apply fold_left_prefix.
    - split; [exact H3|]. split; [exact Hal3|]. cbn. lia.
    - intros pre i post x El (Hx & Halx & Hoffx).
      cbn beta. rewrite sum_snoc.
      assert (Hrb : req_blocks (chunk_at x i) = req_blocks (get_chunk (req e) i)).
      { destruct Hx as [(Hs & _) _]. destruct Hs as (_ & _ & _ & _ & _ & _ & Hb).
        apply Hb. }
      pose proof (prefix_sum_le f pre i post Hf) as Hpre.
      unfold request_bytes in Hcov. rewrite El in Hcov. fold f in Hcov.
      pose proof (sum_nonneg f pre Hf) as Hpre0.
      assert (Hbound : iovs_total bdev_iovs < 2 ^ 64) by (destruct Hwf; assumption).
      assert (Hfi : f i = req_blocks (chunk_at x i) * blocklen rb)
        by (unfold f; rewrite Hrb; reflexivity).
      cbn beta zeta.
      destruct ((req_blocks (chunk_at x i) >? 0)
                && negb (is_chunk (degraded_chunk (req x)) i)
                && bool_decide (request_type (chunk_at x i) = CHUNK_PREREAD)) eqn:Hc.
      + assert (Hpos : 0 < req_blocks (chunk_at x i)).
        { apply andb_true_iff in Hc. destruct Hc as [Hc _].
          apply andb_true_iff in Hc. destruct Hc as [Hc _].
          apply Z.gtb_lt in Hc. lia. }
        pose proof (map_req_data_ok i x Hwf Halx ltac:(lia) ltac:(nia) ltac:(lia)) as Hm.
        pose proof (moves_map i x) as Hmv.
        destruct (raid5_chunk_map_req_data rb bdev_iovs i x) as [ret x1].
        destruct Hm as [-> Hoff1]. cbn [snd] in Hmv.
        change (negb (0 =? 0)) with false. cbn iota.
        split; [|split].
        * apply (moves_trans 0 0 e x); [exact Hx|].
          apply (moves_trans 0 0 x x1); [exact Hmv|apply moves_with_mem].
        * destruct Hmv as [(_ & Hsc & _) _].
          apply (scripts_shrink_allocator x); assumption.
        * cbn [req with_mem]. rewrite Hoff1. lia.
      + split; [|split].
        * apply (moves_trans 0 0 e x); [exact Hx|apply moves_iov_offset].
        * exact Halx.
        * cbn [req with_req upd_iov_offset iov_offset].
          unfold blk_len. pose proof (Hf i) as Hfi0. rewrite <- Hfi.
          rewrite (u64_small (f i)) by lia. rewrite u64_small by lia. lia. }
  cbn beta in G. destruct G as (G & _). exact G.
Qed.

Lemma engine_ok_books k e e' : engine_ok rb e -> books k e e' -> engine_ok rb e'.
Proof.
  intros (Hl & Hc & Ha) (Hs & Hsc & _ & _ & _ & Hp).
  destruct Hs as (Hlen & _). destruct (Hp Hc) as [Ha' _].
  split; [rewrite Hlen; exact Hl|]. split; [|congruence].
  apply (scripts_shrink_contract e); assumption.
Qed.

Lemma engine_ok_aborted e e' : engine_ok rb e -> aborted e e' -> engine_ok rb e'.
Proof.
  intros (Hl & Hc & Ha) (Hs & Hsc & _ & _ & Hp).
  destruct Hs as (Hlen & _).
  split; [rewrite Hlen; exact Hl|]. split; [|rewrite (Hp Hc); exact Ha].
  apply (scripts_shrink_contract e); assumption.
Qed.

Lemma accounted_aborted e e' :
  engine_ok rb e -> completions (trace e) = 0%nat -> aborted e e' ->
  accounted rb bdev_iovs e'.
Proof.
  intros Hok Hc Hab. split; [apply (engine_ok_aborted e); assumption|].
  right. destruct Hab as (_ & _ & Hc' & Hr & _). split; [lia|lia].
Qed.

Lemma accounted_submitted k e e' :
  engine_ok rb e -> completions (trace e) = 0%nat ->
  remaining (req e) = pending e -> 0 < pending e + k ->
  books k e e' ->
  (status (req e') = SPDK_BDEV_IO_STATUS_SUCCESS -> cb_good rb bdev_iovs e') ->
  accounted rb bdev_iovs e'.
Proof.
  intros Hok Hc Hr Hk Hb Hgood. split; [apply (engine_ok_books k e); assumption|].
  left. destruct Hok as (_ & Hct & _).
  destruct Hb as (_ & _ & _ & Hc' & Hr' & Hp). destruct (Hp Hct) as [_ Hp'].
  split; [lia|]. split; [lia|]. split; [lia|exact Hgood].
Qed.

Lemma emit_callback_moves e cb : moves 0 e (emit e (EvCallback cb)).
Proof.
  split; [|reflexivity].
  split; [repeat split; reflexivity|].
  split; [split; exists 0%nat; reflexivity|].
  split; [reflexivity|].
  split; [cbn [trace emit]; rewrite completions_app; cbn; lia|].
  split; [cbn; lia|]. intros _. split; [reflexivity|]. unfold pending. cbn. lia.
Qed.

(** Running the callback of a phase that has no chunk I/O left: the
    request is completed, or the write phase is under way. *)
Lemma invoke_cb_accounted e :
  engine_ok rb e -> completions (trace e) = 0%nat ->
  remaining (req e) = 0 -> pending e = 0 ->
  cb_good rb bdev_iovs e ->
  accounted rb bdev_iovs (invoke_cb rb bdev_iovs stripe_index chunk_buffers e).
Proof.
  intros Hok Hc Hr Hp Hgood. unfold invoke_cb.
  set (e0 := emit e (EvCallback (chunk_requests_complete_cb (req e)))).
  pose proof (emit_callback_moves e (chunk_requests_complete_cb (req e))) as [H0 _].
  fold e0 in H0.
  assert (Hok0 : engine_ok rb e0) by (apply (engine_ok_books 0 e); assumption).
  assert (Hc0 : completions (trace e0) = 0%nat).
  { destruct H0 as (_ & _ & _ & Hc' & _). lia. }
  assert (Hr0 : remaining (req e0) = pending e0).
  { unfold pending in *. cbn. lia. }
  assert (Hp0 : pending e0 = 0) by (unfold pending in *; cbn; lia).
  assert (Hlen0 : Z.of_nat (length (chunks (req e0))) = num_base_bdevs rb)
    by (destruct Hok0; assumption).
  assert (Hwr : forall e',
            has_write (num_base_bdevs rb) e0 ->
            (aborted e0 e' \/
             exists k, 1 <= k /\ books k e0 e' /\
               chunk_requests_complete_cb (req e') = cb_raid5_complete_stripe_request) ->
            accounted rb bdev_iovs e').
  { intros e' _ [Hab|(k & Hk & Hb & Hcb)].
    - apply (accounted_aborted e0); assumption.
    - apply (accounted_submitted k e0); try assumption; [lia|].
      intros _. unfold cb_good. rewrite Hcb. exact I. }
  unfold cb_good in Hgood.
  destruct (chunk_requests_complete_cb (req e)) eqn:Ecb.
  - split; [|right].
    + destruct (complete_books e0) as (H1 & H2 & H3 & H4 & H5 & H6 & H7).
      destruct Hok0 as (A & B & C).
      split; [rewrite H1; exact A|]. split; [rewrite H4; exact B|congruence].
    + destruct (complete_books e0) as (H1 & _ & _ & _ & _ & _ & H7).
      split; [lia|]. rewrite H1. cbn. lia.
  - apply Hwr; [exact Hgood|]. apply rmw_books; assumption.
  - apply Hwr; [exact Hgood|]. apply preread_complete_books; assumption.
  - apply Hwr; [exact Hgood|]. apply preread_complete_degraded_books; assumption.
  - destruct Hgood as [Hcov Hal].
    destruct (reconstructed_books e0 Hcov Hal) as (x & [Hx _] & ->).
    destruct (complete_books x) as (H1 & H2 & H3 & H4 & H5 & H6 & H7).
    assert (Hokx : engine_ok rb x) by (apply (engine_ok_books 0 e0); assumption).
    split; [|right].
    + destruct Hokx as (A & B & C).
      split; [rewrite H1; exact A|]. split; [rewrite H4; exact B|congruence].
    + destruct Hx as (_ & _ & _ & Hcx & Hrx & _).
      split; [lia|]. rewrite H1. lia.
Qed.

(** *** Planning *)

Lemma fold_some_moves (f : engine -> Z -> engine) (l : list Z) (e : engine) :
  (forall i x, i ∈ l -> exists k, 0 <= k /\ moves k x (f x i)) ->
  exists k, 0 <= k /\ moves k e (fold_left f l e).
Proof.
  intros Hf. apply (fold_left_invariant (fun x => exists k, 0 <= k /\ moves k e x)).
  - exists 0. split; [lia|apply moves_refl].
  - intros x i Hi (k & Hk & Hx). destruct (Hf i x Hi) as (k' & Hk' & Hx').
    exists (k + k'). split; [lia|]. apply (moves_trans k k' e x); assumption.
Qed.

Lemma bind_and_preread_moves p i e :
  exists k, 0 <= k /\ moves k e (bind_and_preread rb stripe_index chunk_buffers p i e).
Proof.
  unfold bind_and_preread.
  set (e1 := if negb (preread_blocks (chunk_at e i) =? 0) || (i =? p) then _ else e).
  assert (H1 : moves 0 e e1).
  { subst e1. destruct (negb (preread_blocks (chunk_at e i) =? 0) || (i =? p));
      [apply moves_store; reflexivity|apply moves_refl]. }
  clearbody e1.
  destruct (negb (preread_blocks (chunk_at e1 i) =? 0)).
  - exists 1. split; [lia|]. apply (moves_trans 0 1 e e1); [exact H1|apply moves_submit].
  - exists 0. split; [lia|exact H1].
Qed.

Lemma stripe_write_plan_moves e :
  exists k, 0 <= k /\
    moves k
      (with_req (set_parity_window rb e)
         (upd_cb (req (set_parity_window rb e))
            (if preread_balance rb (set_parity_window rb e) >? 0
             then cb_raid5_stripe_write_preread_complete_rmw
             else cb_raid5_stripe_write_preread_complete)))
      (raid5_stripe_write_plan rb stripe_index chunk_buffers e).
Proof.
  unfold raid5_stripe_write_plan. apply fold_some_moves. intros i x _.
  destruct (stripe_write_preread rb _ (req x) i) as [po pb].
  set (x1 := store_chunk x i _).
  destruct (bind_and_preread_moves (parity_chunk (req e)) i x1) as (k & Hk & Hm).
  exists k. split; [exact Hk|].
  apply (moves_trans 0 k x x1); [apply moves_store; reflexivity|exact Hm].
Qed.

Lemma degraded_write_plan_moves e :
  exists k, 0 <= k /\
    moves k
      (with_req (set_parity_window rb e)
         (upd_cb (req (set_parity_window rb e))
            (if negb (req_blocks (chunk_at (set_parity_window rb e)
                                    (deref (degraded_chunk (req e)))) =? 0)
             then cb_raid5_stripe_write_preread_complete_degraded
             else cb_raid5_stripe_write_preread_complete_rmw)))
      (raid5_degraded_write_plan rb stripe_index chunk_buffers e).
Proof.
  unfold raid5_degraded_write_plan. apply fold_some_moves. intros i x _.
  destruct (i =? deref (degraded_chunk (req e))).
  - exists 0. split; [lia|]. apply moves_store. reflexivity.
  - destruct (degraded_write_preread rb (req x) i) as [po pb].
    set (x1 := store_chunk x i _).
    destruct (bind_and_preread_moves (parity_chunk (req e)) i x1) as (k & Hk & Hm).
    exists k. split; [exact Hk|].
    apply (moves_trans 0 k x x1); [apply moves_store; reflexivity|exact Hm].
Qed.

Lemma set_parity_window_blocks e :
  Z.of_nat (length (chunks (req e))) = num_base_bdevs rb ->
  request_ok rb e ->
  0 < req_blocks (chunk_at (set_parity_window rb e) (parity_chunk (req e))).
Proof.
  intros Hlen (HP & HF & Hne & Hb & Hs). unfold set_parity_window.
  destruct (first_data_chunk (req e) =? last_data_chunk (req e)).
  - unfold chunk_at, store_chunk. cbn [req with_req].
    rewrite get_set_chunk_eq by (rewrite ?set_chunk_length; lia).
    cbn [req_blocks chunk_set_req].
    rewrite get_set_chunk_ne by exact (not_eq_sym Hne). exact Hb.
  - unfold chunk_at, store_chunk. cbn [req with_req].
    rewrite get_set_chunk_eq by lia. exact Hs.
Qed.

Lemma request_bytes_shape e e' :
  shape_eq e e' -> request_bytes rb (req e') = request_bytes rb (req e).
Proof.
  intros (_ & Hp & _ & _ & _ & _ & Hb). unfold request_bytes. rewrite Hp.
  f_equal. apply map_ext. intros j. rewrite (Hb j). reflexivity.
Qed.

Lemma cb_good_moves k e e' : moves k e e' -> cb_good rb bdev_iovs e -> cb_good rb bdev_iovs e'.
Proof.
  intros [(Hs & Hsc & _) Hcb]. unfold cb_good. rewrite Hcb.
  destruct (chunk_requests_complete_cb (req e)); try exact (has_write_shape _ e e' Hs).
  - trivial.
  - intros [(Hwf & Hbl & Hnn & Hi & Hcov) Hal]. split.
    + pose proof (request_bytes_shape e e' Hs) as Hrq.
      destruct Hs as (_ & _ & _ & _ & _ & Hinit & Hb).
      split; [exact Hwf|]. split; [exact Hbl|].
      split; [intros j; rewrite (Hb j); apply Hnn|].
      rewrite Hinit, Hrq. split; assumption.
    + apply (scripts_shrink_allocator e); assumption.
Qed.

(** After a planning loop: either no preread was needed and the
    callback runs at once, or prereads are outstanding. *)
Lemma after_plan_accounted k e2 ep :
  engine_ok rb e2 -> completions (trace e2) = 0%nat ->
  remaining (req e2) = 0 -> pending e2 = 0 ->
  cb_good rb bdev_iovs e2 ->
  0 <= k -> moves k e2 ep ->
  accounted rb bdev_iovs
    (if remaining (req ep) =? 0
     then invoke_cb rb bdev_iovs stripe_index chunk_buffers ep else ep).
Proof.
  intros Hok Hc Hr Hp Hgood Hk Hm.
  pose proof (cb_good_moves k e2 ep Hm Hgood) as Hgood'.
  destruct Hm as [Hb Hcb].
  pose proof (engine_ok_books k e2 ep Hok Hb) as Hok'.
  pose proof Hok as (_ & Hct & _).
  pose proof Hb as (_ & _ & _ & Hc' & Hr' & Hp'). destruct (Hp' Hct) as [_ Hp''].
  destruct (remaining (req ep) =? 0) eqn:E.
  - apply Z.eqb_eq in E. apply invoke_cb_accounted; try assumption; lia.
  - apply Z.eqb_neq in E.
    apply (accounted_submitted k e2); try assumption; try lia.
    intros _. exact Hgood'.
Qed.

Lemma fresh_pending e : fresh e -> pending e = 0 /\ completions (trace e) = 0%nat.
Proof.
  intros (_ & _ & Hi & Hw & _ & Ht). unfold pending. rewrite Hi, Hw, Ht. split; reflexivity.
Qed.

Lemma stripe_write_accounted e :
  engine_ok rb e -> fresh e -> request_ok rb e ->
  accounted rb bdev_iovs (raid5_stripe_write rb bdev_iovs stripe_index chunk_buffers e).
Proof.
  intros Hok Hfresh Hreq.
  destruct (fresh_pending e Hfresh) as [Hpend Hcomp].
  destruct Hfresh as (Hrem & Hst & Hinf & Hwq & Hass & Htr).
  pose proof Hok as (Hlen & Hct & _).
  pose proof Hreq as (HP & HF & Hne & Hfb & Hss).
  pose proof (set_parity_window_frame_fields rb e) as W. cbn zeta in W.
  destruct W as (W1 & W2 & W3 & W4 & W5 & W6 & W7 & W8 & W9 & W10 & W11 & W12 & W13
                 & W14 & W15 & W16 & W17 & W18 & W19).
  pose proof (set_parity_window_blocks e Hlen Hreq) as Hpb.
  assert (Hfirst : chunk_at (set_parity_window rb e) (first_data_chunk (req e)) =
                   chunk_at e (first_data_chunk (req e))) by (apply W19; exact Hne).
  assert (Hpre : forall cb,
            let e2 := with_req (set_parity_window rb e)
                        (upd_cb (req (set_parity_window rb e)) cb) in
            engine_ok rb e2 /\ completions (trace e2) = 0%nat /\
            remaining (req e2) = 0 /\ pending e2 = 0).
  { intros cb. cbn zeta. split.
    - split; [cbn; rewrite W18; exact Hlen|]. split; [cbn; rewrite W6; exact Hct|].
      cbn. rewrite W8. exact Hass.
    - split; [cbn; rewrite W3; exact Hcomp|]. split; [cbn; rewrite W9; exact Hrem|].
      unfold pending in *. cbn. rewrite W4, W5. exact Hpend. }
  unfold raid5_stripe_write. destruct (degraded_chunk (req e)) as [d|] eqn:Ed.
  - unfold raid5_degraded_write. rewrite Ed. cbn [is_chunk].
    destruct (d =? parity_chunk (req e)) eqn:EdP.
    + apply Z.eqb_eq in EdP.
      assert (Hw : has_write (num_base_bdevs rb) e).
      { exists (first_data_chunk (req e)). split; [exact HF|]. split; [exact Hfb|].
        rewrite Ed. cbn. apply Z.eqb_neq. lia. }
      match goal with |- accounted _ _ (let '(go, x) := ?r in _) =>
        pose proof (compute_then_submit e r Hlen Hw) as Hcs end.
      cbn zeta in Hcs.
      match type of Hcs with ?A -> _ => assert (HA : A) end.
      { apply for_each_moves. intros i x _.
        destruct (req_blocks (chunk_at x i) >? 0); [|apply moves_refl].
        pose proof (moves_map i x) as Hm.
        destruct (raid5_chunk_map_req_data rb bdev_iovs i x) as [ret x1].
        destruct (negb (ret =? 0)); [|exact Hm].
        apply (moves_aborted 0 x x1); [exact Hm|apply aborted_abort]. }
      specialize (Hcs HA).
      destruct Hcs as [Hab|(k & Hk & Hb & Hcb)].
      * apply (accounted_aborted e); assumption.
      * apply (accounted_submitted k e); try assumption; try lia.
        intros _. unfold cb_good. rewrite Hcb. exact I.
    + apply Z.eqb_neq in EdP.
      destruct (degraded_write_plan_moves e) as (k & Hk & Hm).
      rewrite Ed in Hm. change (deref (Some d)) with d in Hm.
      match type of Hm with moves _ (with_req _ (upd_cb _ ?cb)) _ =>
        destruct (Hpre cb) as (P1 & P2 & P3 & P4) end.
      eapply after_plan_accounted; try eassumption.
      assert (Hw : has_write (num_base_bdevs rb) (set_parity_window rb e)).
      { destruct (Z.eq_dec d (first_data_chunk (req e))) as [Hdf|Hdf].
        - exists (parity_chunk (req e)). split; [exact HP|]. split; [exact Hpb|].
          rewrite W15. cbn. apply Z.eqb_neq. exact EdP.
        - exists (first_data_chunk (req e)). split; [exact HF|].
          rewrite Hfirst. split; [exact Hfb|].
          rewrite W15. cbn. apply Z.eqb_neq. exact Hdf. }
      unfold cb_good. cbn [req with_req chunk_requests_complete_cb upd_cb].
      destruct (negb _); exact Hw.
  - destruct (stripe_write_plan_moves e) as (k & Hk & Hm).
    match type of Hm with moves _ (with_req _ (upd_cb _ ?cb)) _ =>
      destruct (Hpre cb) as (P1 & P2 & P3 & P4) end.
    eapply after_plan_accounted; try eassumption.
    assert (Hw : has_write (num_base_bdevs rb) (set_parity_window rb e)).
    { exists (first_data_chunk (req e)). split; [exact HF|].
      rewrite Hfirst. split; [exact Hfb|]. rewrite W15. reflexivity. }
    unfold cb_good. cbn [req with_req chunk_requests_complete_cb upd_cb].
    destruct (_ >? 0); exact Hw.
Qed.

Lemma upd_cb_books e cb : books 0 e (with_req e (upd_cb (req e) cb)).
Proof.
  split; [repeat split; reflexivity|].
  split; [split; exists 0%nat; reflexivity|].
  split; [reflexivity|]. split; [reflexivity|]. split; [cbn; lia|].
  intros _. split; [reflexivity|]. unfold pending; cbn; lia.
Qed.

Lemma stripe_read_accounted e :
  engine_ok rb e -> fresh e -> request_ok rb e ->
  (forall d, degraded_chunk (req e) = Some d -> 0 < req_blocks (chunk_at e d) ->
             upstream_covers rb bdev_iovs (req e) /\ allocator_ok e) ->
  accounted rb bdev_iovs (raid5_stripe_read rb bdev_iovs stripe_index chunk_buffers e).
Proof.
  intros Hok Hfresh Hreq Hrecon.
  destruct (fresh_pending e Hfresh) as [Hpend Hcomp].
  destruct Hfresh as (Hrem & Hst & Hinf & Hwq & Hass & Htr).
  pose proof Hok as (Hlen & Hct & _).
  pose proof Hreq as (HP & HF & Hne & Hfb & Hss).
  unfold raid5_stripe_read.
  destruct (bool_decide (degraded_chunk (req e) <> None)
            && (req_blocks (chunk_at e (deref (degraded_chunk (req e)))) >? 0)) eqn:Hbr.
  - (* reconstruction *)
    apply andb_true_iff in Hbr. destruct Hbr as [Hsome Hdb].
    apply bool_decide_eq_true in Hsome. apply Z.gtb_lt in Hdb.
    destruct (degraded_chunk (req e)) as [d|] eqn:Ed; [|contradiction].
    change (deref (Some d)) with d in *.
    destruct (Hrecon d eq_refl Hdb) as [Hcov Hal].
    set (e0 := with_req e (upd_cb (req e) cb_raid5_complete_reconstructed_stripe_request)).
    pose proof (upd_cb_books e cb_raid5_complete_reconstructed_stripe_request) as Hb0.
    fold e0 in Hb0.
    match goal with |- accounted _ _ (snd (for_each ?l ?body e0)) =>
      pose proof (for_each_prefix
        (fun pre x => exists k, 0 <= k /\ moves k e0 x /\
                                (forall i, i ∈ pre -> i <> d -> 1 <= k))
        (fun x => aborted e0 x) body l e0) as G end.
    match type of G with ?A -> ?B -> _ => assert (HA : A); [|assert (HB : B)] end.
    { exists 0. split; [lia|]. split; [apply moves_refl|].
      intros i Hi. apply elem_of_nil in Hi. contradiction. }
    { intros pre i post x El (k & Hk & Hx & Hpre).
      assert (Hi : 0 <= i < num_base_bdevs rb).
      { assert (Hin : i ∈ each_chunk rb) by (rewrite El; apply elem_of_app; right; left).
        unfold each_chunk in Hin. apply elem_of_seqZ in Hin. lia. }
      assert (Hxs : shape_eq e0 x) by (destruct Hx as [(Hs & _) _]; exact Hs).
      assert (Hxlen : Z.of_nat (length (chunks (req x))) = num_base_bdevs rb).
      { destruct Hxs as (Hl & _). rewrite Hl. exact Hlen. }
      assert (Hxd : 0 < req_blocks (chunk_at x d)).
      { destruct Hxs as (_ & _ & _ & _ & _ & _ & Hb). unfold chunk_at. rewrite (Hb d).
        exact Hdb. }
      cbn beta zeta.
      set (scratch := fun (e1 : engine) (po pb : Z) =>
             store_chunk e1 i
               (chunk_set_iov (chunk_set_preread (chunk_at e1 i) po pb)
                  {| iov_base := chunk_buffer chunk_buffers
                                   (index (chunk_set_preread (chunk_at e1 i) po pb));
                     iov_len := blk_len rb pb |})).
      assert (Hscratch : forall e1 po pb, moves 0 e1 (scratch e1 po pb)).
      { intros. apply moves_store. reflexivity. }
      assert (Hmapped : forall e1,
                moves 0 e1 (snd (raid5_chunk_map_req_data rb bdev_iovs i
                                   (store_chunk e1 i (chunk_set_preread (chunk_at e1 i) 0 0))))).
      { intros e1. eapply (moves_trans 0 0); [|apply moves_map].
        apply moves_store. reflexivity. }
      assert (Hfin : forall (ret : Z) (e1 : engine),
                moves 0 x e1 ->
                (i <> d -> preread_blocks (chunk_at e1 i) <> 0
                           \/ req_blocks (chunk_at e1 i) <> 0) ->
                let '(go, x') :=
                  (if negb (ret =? 0)
                   then (false, raid5_abort_stripe_request rb (errno_to_status ret) e1)
                   else
                     if negb (preread_blocks (chunk_at e1 i) =? 0)
                     then (true, raid5_submit_chunk_request rb stripe_index i CHUNK_PREREAD e1)
                     else if negb (req_blocks (chunk_at e1 i) =? 0) && negb (i =? d)
                          then (true, raid5_submit_chunk_request rb stripe_index i CHUNK_READ e1)
                          else (true, e1)) in
                if go
                then exists k', 0 <= k' /\ moves k' e0 x' /\
                                (forall i', i' ∈ pre ++ [i] -> i' <> d -> 1 <= k')
                else aborted e0 x').
      { intros ret e1 H1 Hsub.
        destruct (negb (ret =? 0)).
        { apply (moves_aborted k e0 x); [exact Hx|].
          apply (moves_aborted 0 x e1); [exact H1|apply aborted_abort]. }
        assert (Hsubmit : forall ty,
                  exists k', 0 <= k' /\
                    moves k' e0 (raid5_submit_chunk_request rb stripe_index i ty e1) /\
                    (forall i', i' ∈ pre ++ [i] -> i' <> d -> 1 <= k')).
        { intros ty. exists (k + 1). split; [lia|]. split; [|intros; lia].
          apply (moves_trans k 1 e0 x); [exact Hx|].
          apply (moves_trans 0 1 x e1); [exact H1|apply moves_submit]. }
        destruct (preread_blocks (chunk_at e1 i) =? 0) eqn:Epb; cbn [negb];
          [|apply Hsubmit].
        destruct (req_blocks (chunk_at e1 i) =? 0) eqn:Erb; cbn [negb andb].
        - exists k. split; [lia|]. split.
          + apply (moves_then_quiet k e0 x); [exact Hx|exact H1].
          + intros i' Hi' Hne'. apply elem_of_app in Hi'. destruct Hi' as [Hi'|Hi'].
            * apply (Hpre i'); assumption.
            * apply list_elem_of_singleton in Hi'. subst i'.
              apply Z.eqb_eq in Epb. apply Z.eqb_eq in Erb.
              destruct (Hsub Hne'); contradiction.
        - destruct (i =? d) eqn:Eid; cbn [negb]; [|apply Hsubmit].
          apply Z.eqb_eq in Eid. subst i.
          exists k. split; [lia|]. split.
          + apply (moves_then_quiet k e0 x); [exact Hx|exact H1].
          + intros i' Hi' Hne'. apply elem_of_app in Hi'. destruct Hi' as [Hi'|Hi'].
            * apply (Hpre i'); assumption.
            * apply list_elem_of_singleton in Hi'. contradiction. }
      assert (Hkeep : forall e1, moves 0 x e1 -> req_blocks (chunk_at x i) <> 0 ->
                i <> d -> preread_blocks (chunk_at e1 i) <> 0
                          \/ req_blocks (chunk_at e1 i) <> 0).
      { intros e1 [(Hs & _) _] Hnz _. right.
        destruct Hs as (_ & _ & _ & _ & _ & _ & Hb). unfold chunk_at in *.
        rewrite (Hb i). exact Hnz. }
      destruct (req_blocks (chunk_at x i) =? 0) eqn:E0.
      { apply Hfin; [apply Hscratch|]. intros _. left.
        unfold scratch, chunk_at, store_chunk. cbn [req with_req].
        rewrite get_set_chunk_eq by lia. cbn. unfold chunk_at in Hxd. lia. }
      apply Z.eqb_neq in E0.
      destruct (i =? d).
      { pose proof (Hmapped x) as Hm.
        destruct (raid5_chunk_map_req_data rb bdev_iovs i _) as [ret e1].
        apply Hfin; [exact Hm|apply Hkeep; assumption]. }
      destruct ((req_offset (chunk_at x i) >? req_offset (chunk_at x d))
                || (u64 (req_offset (chunk_at x i) + req_blocks (chunk_at x i))
                    <? u64 (req_offset (chunk_at x d) + req_blocks (chunk_at x d)))).
      { assert (Hm : forall po pb o,
                  moves 0 x (with_req (scratch x po pb)
                               (upd_iov_offset (req (scratch x po pb)) o))).
        { intros. apply (moves_trans 0 0 x (scratch x po pb));
            [apply Hscratch|apply moves_iov_offset]. }
        apply Hfin; [apply Hm|apply Hkeep; [apply Hm|assumption]]. }
      pose proof (Hmapped x) as Hm.
      destruct (raid5_chunk_map_req_data rb bdev_iovs i _) as [ret e1].
      apply Hfin; [exact Hm|apply Hkeep; assumption]. }
    specialize (G HA HB). clear HA HB.
    match type of G with (let '(go, e') := ?r in _) => destruct r as [go e'] end.
    cbn [snd]. destruct go.
    + destruct G as (k & Hk & [Hbk Hcb] & Hsome').
      assert (Hk1 : 1 <= k).
      { destruct (Z.eq_dec (first_data_chunk (req e)) d) as [Hfd|Hfd].
        - apply (Hsome' (parity_chunk (req e))); [|lia].
          unfold each_chunk. apply elem_of_seqZ. lia.
        - apply (Hsome' (first_data_chunk (req e))); [|exact Hfd].
          unfold each_chunk. apply elem_of_seqZ. lia. }
      apply (accounted_submitted k e); try assumption; try lia.
      intros _. apply (cb_good_moves k e0); [split; assumption|].
      unfold cb_good. cbn. split; assumption.
    + apply (accounted_aborted e); assumption.
  - (* plain read *)
    set (e0 := with_req e (upd_cb (req e) cb_raid5_complete_stripe_request)).
    pose proof (upd_cb_books e cb_raid5_complete_stripe_request) as Hb0.
    fold e0 in Hb0.
    match goal with |- accounted _ _ (snd (for_each ?l ?body e0)) =>
      pose proof (for_each_prefix
        (fun pre x => exists k, 0 <= k /\ moves k e0 x /\
                                (first_data_chunk (req e) ∈ pre -> 1 <= k))
        (fun x => aborted e0 x) body l e0) as G end.
    match type of G with ?A -> ?B -> _ => assert (HA : A); [|assert (HB : B)] end.
    { exists 0. split; [lia|]. split; [apply moves_refl|].
      intros Hi. apply elem_of_nil in Hi. contradiction. }
    { intros pre i post x El (k & Hk & Hx & Hpre).
      assert (Hxs : shape_eq e0 x) by (destruct Hx as [(Hs & _) _]; exact Hs).
      destruct (req_blocks (chunk_at x i) >? 0) eqn:Eb.
      - pose proof (moves_map i x) as Hm.
        destruct (raid5_chunk_map_req_data rb bdev_iovs i x) as [ret x1]. cbn [snd] in Hm.
        destruct (negb (ret =? 0)).
        + apply (moves_aborted k e0 x); [exact Hx|].
          apply (moves_aborted 0 x x1); [exact Hm|apply aborted_abort].
        + exists (k + 1). split; [lia|]. split; [|intros; lia].
          apply (moves_trans k 1 e0 x); [exact Hx|].
          apply (moves_trans 0 1 x x1); [exact Hm|apply moves_submit].
      - exists k. split; [lia|]. split; [exact Hx|].
        intros Hin. apply elem_of_app in Hin. destruct Hin as [Hin|Hin];
          [apply Hpre; exact Hin|].
        apply list_elem_of_singleton in Hin. subst i. exfalso.
        destruct Hxs as (_ & _ & _ & _ & _ & _ & Hb). unfold chunk_at in Eb.
        rewrite (Hb (first_data_chunk (req e))) in Eb.
        rewrite Z.gtb_ltb in Eb. apply Z.ltb_ge in Eb. unfold chunk_at in Hfb.
        change (get_chunk (req e0)) with (get_chunk (req e)) in Eb. lia. }
    specialize (G HA HB). clear HA HB.
    match type of G with (let '(go, e') := ?r in _) => destruct r as [go e'] end.
    cbn [snd]. destruct go.
    + destruct G as (k & Hk & [Hbk Hcb] & Hfirst).
      assert (Hk1 : 1 <= k).
      { apply Hfirst. rewrite each_data_chunk_spec. apply elem_of_data_positions.
        split; assumption. }
      apply (accounted_submitted k e); try assumption; try lia.
      intros _. unfold cb_good. rewrite Hcb. exact I.
    + apply (accounted_aborted e); assumption.
Qed.

(** [raid5_check_degraded] only sets [degraded_chunk], to a chunk on a
    degraded member if there is one. *)
Lemma check_degraded_spec e :
  exists dc,
    snd (raid5_check_degraded rb e) = with_req e (upd_degraded_chunk (req e) dc) /\
    forall d, dc = Some d ->
      0 <= d < num_base_bdevs rb /\ base_degraded rb (index (chunk_at e d)) = true.
Proof.
  unfold raid5_check_degraded.
  match goal with |- context [fold_left ?f ?l ?a] =>
    assert (G : (fun st : Z * engine =>
                   exists dc, snd st = with_req e (upd_degraded_chunk (req e) dc) /\
                     forall d, dc = Some d ->
                       0 <= d < num_base_bdevs rb /\
                       base_degraded rb (index (chunk_at e d)) = true)
                (fold_left f l a)) end.
  { apply fold_left_invariant.
    - exists None. split; [reflexivity|]. intros d Hd. discriminate Hd.
    - intros [t x] i Hi (dc & Hx & Hdc). cbn [snd] in Hx. subst x.
      unfold each_chunk in Hi. apply elem_of_seqZ in Hi.
      destruct (base_degraded rb (index (chunk_at _ i))) eqn:Eb.
      + exists (Some i). split; [reflexivity|]. intros d Hd. inversion Hd; subst d.
        split; [lia|exact Eb].
      + exists dc. split; [reflexivity|exact Hdc]. }
  cbn beta in G. destruct (fold_left _ _ _) as [t x]. cbn [snd] in G.
  destruct G as (dc & Hx & Hdc). exists dc. split; [|exact Hdc].
  destruct (t >? base_bdevs_max_degraded); exact Hx.
Qed.

End Accounting.

Section Submission.
Variable rb : raid_bdev.
Variable io_type : spdk_bdev_io_type.
Variable bdev_iovs : list iovec.
Variable stripe_index : Z.
Variable chunk_buffers : list Z.

(** Submitting a request leaves it completed or with chunk I/Os
    outstanding. *)
Lemma submit_stripe_request_accounted e :
  engine_ok rb e -> fresh e -> request_ok rb e ->
  (reconstructing rb io_type e -> upstream_covers rb bdev_iovs (req e) /\ allocator_ok e) ->
  accounted rb bdev_iovs
    (raid5_submit_stripe_request rb io_type bdev_iovs stripe_index chunk_buffers e).
Proof.
  intros Hok Hfresh Hreq Hrecon. unfold raid5_submit_stripe_request.
  destruct (check_degraded_spec rb e) as (dc & He & Hdc).
  destruct (raid5_check_degraded rb e) as [ret e']. cbn [snd] in He. subst e'.
  set (e1 := with_req e (upd_degraded_chunk (req e) dc)).
  assert (Hok1 : engine_ok rb e1) by exact Hok.
  assert (Hfresh1 : fresh e1) by exact Hfresh.
  assert (Hreq1 : request_ok rb e1) by exact Hreq.
  destruct (negb (ret =? 0)).
  - apply (accounted_aborted rb bdev_iovs e1); [exact Hok1| |apply aborted_abort].
    apply (fresh_pending e1 Hfresh1).
  - destruct io_type eqn:Ety.
    + apply stripe_read_accounted; try assumption.
      intros d Hd Hb. apply Hrecon. split; [reflexivity|].
      destruct (Hdc d Hd) as [Hr Hdeg]. exists d. split; [exact Hr|]. split; assumption.
    + apply stripe_write_accounted; assumption.
Qed.

(** What the base devices do keeps the accounting. *)
Lemma cb_good_same e e' :
  shape_eq e e' ->
  chunk_requests_complete_cb (req e') = chunk_requests_complete_cb (req e) ->
  realloc_script e' = realloc_script e ->
  cb_good rb bdev_iovs e -> cb_good rb bdev_iovs e'.
Proof.
  intros Hs Hcb Hra. unfold cb_good. rewrite Hcb.
  destruct (chunk_requests_complete_cb (req e)); try exact (has_write_shape _ e e' Hs).
  - trivial.
  - intros [(Hwf & Hbl & Hnn & Hi & Hcov) Hal]. split.
    + pose proof (request_bytes_shape rb e e' Hs) as Hrq.
      destruct Hs as (_ & _ & _ & _ & _ & Hinit & Hb).
      split; [exact Hwf|]. split; [exact Hbl|].
      split; [intros j; rewrite (Hb j); apply Hnn|].
      rewrite Hinit, Hrq. split; assumption.
    + unfold allocator_ok. rewrite Hra. exact Hal.
Qed.

Lemma transfer_books io e :
  let e' := transfer rb io e in
  req e' = req e /\ inflight e' = inflight e /\ waitq e' = waitq e /\
  submit_script e' = submit_script e /\ realloc_script e' = realloc_script e /\
  asserted e' = asserted e /\ trace e' = trace e.
Proof. cbn zeta. unfold transfer. destruct (bio_type io); repeat split; reflexivity. Qed.

Lemma env_step_accounted ev e e' :
  accounted rb bdev_iovs e ->
  env_step rb bdev_iovs stripe_index chunk_buffers ev e = Some e' ->
  accounted rb bdev_iovs e'.
Proof.
  intros [Hok Hst] Hstep. destruct ev as [n success|n]; cbn [env_step] in Hstep.
  - destruct (inflight e !! n) as [io|] eqn:En; [|discriminate Hstep].
    inversion Hstep as [He']; clear Hstep.
    set (e1 := with_inflight e (delete n (inflight e))) in *.
    set (e2 := if success then transfer rb io e1 else e1) in *.
    assert (H2 : req e2 = req e /\ inflight e2 = delete n (inflight e) /\
                 waitq e2 = waitq e /\ submit_script e2 = submit_script e /\
                 realloc_script e2 = realloc_script e /\ asserted e2 = asserted e /\
                 trace e2 = trace e).
    { subst e2. destruct success.
      - destruct (transfer_books io e1) as (A1 & A2 & A3 & A4 & A5 & A6 & A7).
        repeat split; assumption.
      - repeat split; reflexivity. }
    clearbody e2. destruct H2 as (A1 & A2 & A3 & A4 & A5 & A6 & A7).
    assert (Hpend : pending e2 = pending e - 1).
    { unfold pending. rewrite A2, A3. rewrite length_delete by (rewrite En; eauto).
      apply lookup_lt_Some in En. lia. }
    destruct Hok as (Hlen & Hct & Hass).
    unfold raid5_complete_chunk_request.
    set (e3 := if success then e2
               else with_req e2 (upd_status (req e2) SPDK_BDEV_IO_STATUS_FAILED)).
    assert (H3 : shape_eq e e3 /\
                 chunk_requests_complete_cb (req e3) = chunk_requests_complete_cb (req e) /\
                 remaining (req e3) = remaining (req e) /\
                 (status (req e3) = SPDK_BDEV_IO_STATUS_SUCCESS ->
                  status (req e) = SPDK_BDEV_IO_STATUS_SUCCESS) /\
                 inflight e3 = inflight e2 /\ waitq e3 = waitq e2 /\
                 submit_script e3 = submit_script e /\
                 realloc_script e3 = realloc_script e /\ asserted e3 = asserted e /\
                 trace e3 = trace e).
    { subst e3. destruct success; cbn [req with_req inflight waitq submit_script
        realloc_script asserted trace upd_status remaining status
        chunk_requests_complete_cb]; rewrite ?A1;
        (split; [unfold shape_eq; cbn; rewrite ?A1; repeat split; reflexivity|]);
        repeat split; try assumption; try reflexivity; try discriminate; tauto. }
    clearbody e3. destruct H3 as (B1 & B2 & B3 & B4 & B5 & B6 & B7 & B8 & B9 & B10).
    cbn zeta.
    set (e4 := with_req e3 (upd_remaining (req e3) (remaining (req e3) - 1))).
    assert (Hok4 : engine_ok rb e4).
    { destruct B1 as (Hl & _). split; [cbn; rewrite Hl; exact Hlen|].
      split; [cbn; rewrite B7; exact Hct|cbn; rewrite B9; exact Hass]. }
    assert (Hc4 : completions (trace e4) = completions (trace e)).
    { cbn. rewrite B10. reflexivity. }
    assert (Hp4 : pending e4 = pending e - 1).
    { unfold pending in *. cbn. rewrite B5, B6. exact Hpend. }
    assert (Hr4 : remaining (req e4) = remaining (req e) - 1) by (cbn; lia).
    assert (Hs4 : shape_eq e e4).
    { destruct B1 as (C1 & C2 & C3 & C4 & C5 & C6 & C7).
      repeat split; try assumption. }
    assert (Hg4 : status (req e4) = SPDK_BDEV_IO_STATUS_SUCCESS ->
                  cb_good rb bdev_iovs e -> cb_good rb bdev_iovs e4).
    { intros _. apply cb_good_same; [exact Hs4|exact B2|exact B8]. }
    destruct Hst as [(L1 & L2 & L3 & L4)|(F1 & F2)].
    + destruct (remaining (req e4) =? 0) eqn:E0.
      * apply Z.eqb_eq in E0.
        destruct (bool_decide (status (req e4) = SPDK_BDEV_IO_STATUS_SUCCESS)) eqn:Es.
        -- apply bool_decide_eq_true in Es.
           apply invoke_cb_accounted; try assumption; try lia.
           apply Hg4; [exact Es|]. apply L4. apply B4. exact Es.
        -- split.
           ++ destruct (complete_books rb e4) as (H1 & _ & _ & H4 & _ & H6 & _).
              destruct Hok4 as (X & Y & Z0).
              split; [rewrite H1; exact X|]. split; [rewrite H4; exact Y|congruence].
           ++ right. destruct (complete_books rb e4) as (H1 & _ & _ & _ & _ & _ & H7).
              split; [lia|]. rewrite H1. lia.
      * apply Z.eqb_neq in E0. split; [exact Hok4|]. left.
        split; [lia|]. split; [lia|]. split; [lia|].
        intros Es. apply Hg4; [exact Es|]. apply L4. apply B4. exact Es.
    + assert (E0 : (remaining (req e4) =? 0) = false) by (apply Z.eqb_neq; lia).
      rewrite E0. split; [exact Hok4|]. right. split; [lia|lia].
  - destruct (waitq e !! n) as [i|] eqn:En; [|discriminate Hstep].
    inversion Hstep as [He']; clear Hstep.
    set (e1 := with_waitq e (delete n (waitq e))).
    destruct (submit_inner_books rb stripe_index i e1) as (A1 & A2 & A3 & A4 & A5).
    destruct Hok as (Hlen & Hct & Hass).
    destruct (A5 Hct) as [A6 A7].
    assert (Hpend : pending e1 = pending e - 1).
    { unfold pending. cbn. rewrite length_delete by (rewrite En; eauto).
      apply lookup_lt_Some in En. lia. }
    split.
    + split; [rewrite A1; exact Hlen|]. split; [|rewrite A6; exact Hass].
      rewrite A3. unfold bdev_contract. apply Forall_drop. exact Hct.
    + destruct Hst as [(L1 & L2 & L3 & L4)|(F1 & F2)].
      * left. split; [rewrite A4; exact L1|]. split; [rewrite A1; cbn; lia|].
        split; [lia|]. intros Es. rewrite A1 in Es.
        apply (cb_good_same e); [| | |apply L4; exact Es].
        -- unfold shape_eq. rewrite A1. repeat split; reflexivity.
        -- rewrite A1. reflexivity.
        -- rewrite A2. reflexivity.
      * right. split; [rewrite A4; exact F1|rewrite A1; exact F2].
Qed.

Lemma env_run_accounted evs : forall e e',
  accounted rb bdev_iovs e ->
  env_run rb bdev_iovs stripe_index chunk_buffers evs e = Some e' ->
  accounted rb bdev_iovs e'.
Proof.
  induction evs as [|ev evs IH]; intros e e' Hacc Hrun; cbn [env_run] in Hrun.
  - inversion Hrun; subst. exact Hacc.
  - destruct (env_step rb bdev_iovs stripe_index chunk_buffers ev e) as [e1|] eqn:E;
      [|discriminate Hrun].
    apply (IH e1 e'); [|exact Hrun]. apply (env_step_accounted ev e); assumption.
Qed.

End Submission.

(** C9, as the code has it.  [raid5_complete_stripe_request], and with
    it the upstream part-completion, happens exactly once per stripe
    request, whatever the base devices answer and in whatever order:
    at no point has the request been completed twice; once no chunk
    I/O is outstanding it has been completed; and until it is
    completed, [remaining] is the number of chunk I/Os outstanding,
    which is positive.  No [assert(false)] is reached.  This covers
    failed chunk I/Os, mapping failures during planning and in the
    compute callbacks of a write, and more than one degraded member.
    For a read that reconstructs blocks of a degraded member, the
    upstream vectors have to hold the request and [realloc] must not
    fail.  The counter itself comes back to zero once per phase, not
    once per request. *)
Theorem stripe_request_completes_once (rb : raid_bdev) (io_type : spdk_bdev_io_type)
    (bdev_iovs : list iovec) (stripe_index : Z) (chunk_buffers : list Z)
    (e : engine) (evs : list env_event) (e' : engine)
    (Hok : engine_ok rb e) (Hfresh : fresh e) (Hreq : request_ok rb e)
    (Hrecon : reconstructing rb io_type e ->
              upstream_covers rb bdev_iovs (req e) /\ allocator_ok e)
    (Hrun : env_run rb bdev_iovs stripe_index chunk_buffers evs
              (raid5_submit_stripe_request rb io_type bdev_iovs stripe_index
                 chunk_buffers e) = Some e') :
  (completions (trace e') <= 1)%nat /\
  (pending e' = 0 -> completions (trace e') = 1%nat) /\
  (completions (trace e') = 0%nat -> remaining (req e') = pending e' /\ 0 < pending e') /\
  (completions (trace e') = 1%nat -> remaining (req e') <= 0) /\
  asserted e' = false /\
  (0 < pending e' ->
   exists ev e'', env_step rb bdev_iovs stripe_index chunk_buffers ev e' = Some e'').
Proof.
  pose proof (submit_stripe_request_accounted rb io_type bdev_iovs stripe_index
                chunk_buffers e Hok Hfresh Hreq Hrecon) as H0.
  pose proof (env_run_accounted rb bdev_iovs stripe_index chunk_buffers evs _ e' H0 Hrun)
    as [(_ & _ & Hass) Hst].
  assert (Hprog : 0 < pending e' ->
            exists ev e'', env_step rb bdev_iovs stripe_index chunk_buffers ev e' = Some e'').
  { unfold pending. intros Hp. destruct (inflight e') as [|io l] eqn:Ei.
    - destruct (waitq e') as [|i w] eqn:Ew; [cbn in Hp; lia|].
      exists (IoWaitRetry 0). eexists. cbn [env_step]. rewrite Ew. reflexivity.
    - exists (IoDone 0 true). eexists. cbn [env_step]. rewrite Ei. reflexivity. }
  destruct Hst as [(L1 & L2 & L3 & L4)|(F1 & F2)].
  - split; [lia|]. split; [lia|]. split; [intros _; split; assumption|].
    split; [intros Hc; rewrite L1 in Hc; discriminate Hc|]. split; [exact Hass|exact Hprog].
  - split; [lia|]. split; [intros _; exact F1|].
    split; [intros Hc; rewrite F1 in Hc; discriminate Hc|].
    split; [intros _; exact F2|]. split; [exact Hass|exact Hprog].
Qed.

(** The counter does not reach zero once per request: in a write with a
    preread it reaches zero after the preread, where the callback
    chosen during planning runs and submits the writes, and again
    after the writes, where [raid5_complete_stripe_request] runs.
    And when the preread fails, the counter reaches zero and the
    callback chosen during planning does not run at all. *)
Lemma remaining_reaches_zero_per_phase :
  let e := raid5_submit_stripe_request ex_rb SPDK_BDEV_IO_TYPE_WRITE ex_iovs 1 ex_buffers
             (ex_engine ex_single_request) in
  match env_run ex_rb ex_iovs 1 ex_buffers [IoDone 0 true; IoDone 0 true; IoDone 0 true] e,
        env_run ex_rb ex_iovs 1 ex_buffers [IoDone 0 false] e with
  | Some e1, Some e2 =>
      List.filter is_callback (trace e1) =
        [EvCallback cb_raid5_stripe_write_preread_complete;
         EvCallback cb_raid5_complete_stripe_request] /\
      completions (trace e1) = 1%nat /\
      remaining (req e2) = 0 /\ List.filter is_callback (trace e2) = [] /\
      completions (trace e2) = 1%nat
  | _, _ => False
  end.
Proof. vm_compute. repeat split; reflexivity. Qed.

(** Where the hypothesis on reconstructing reads is needed:
    [raid5_complete_reconstructed_stripe_request] goes on after
    [raid5_abort_stripe_request], so a mapping that fails there
    completes the request twice. *)
Lemma reconstructed_read_completes_twice :
  match env_run ex_degraded_rb ex_split_iovs 0 ex_buffers [IoDone 0 true; IoDone 0 true]
          (raid5_submit_stripe_request ex_degraded_rb SPDK_BDEV_IO_TYPE_READ ex_split_iovs 0
             ex_buffers ex_degraded_read) with
  | Some e' => completions (trace e') = 2%nat
  | None => False
  end.
Proof. vm_compute. reflexivity. Qed.

(** ** Memory after the primitives *)

Lemma mem_store_eq m a v : mem_store m a v a = v.
Proof. unfold mem_store. rewrite Z.eqb_refl. reflexivity. Qed.

Lemma mem_store_ne m a v x : x <> a -> mem_store m a v x = m x.
Proof. intros H. unfold mem_store. apply Z.eqb_neq in H. rewrite H. reflexivity. Qed.

Lemma bytes_op_notin f pairs : forall m a,
  a ∉ pairs.*1 -> bytes_op f pairs m a = m a.
Proof.
  induction pairs as [|[a0 b0] ps IH]; intros m a Hn; [reflexivity|].
  cbn [bytes_op]. cbn [fmap list_fmap fst] in Hn.
  apply not_elem_of_cons in Hn. destruct Hn as [Hne Hn].
  rewrite IH by exact Hn. apply mem_store_ne. exact Hne.
Qed.

(** Each destination byte is combined once, with the source byte as it
    was before the operation, when no source byte is a destination. *)
Lemma bytes_op_at f pairs : forall m k a b,
  NoDup pairs.*1 -> (forall p, p ∈ pairs -> p.2 ∉ pairs.*1) ->
  pairs !! k = Some (a, b) -> bytes_op f pairs m a = f (m a) (m b).
Proof.
  induction pairs as [|[a0 b0] ps IH]; intros m k a b Hnd Hsrc Hk; [discriminate Hk|].
  cbn [fmap list_fmap fst] in Hnd. apply NoDup_cons in Hnd. destruct Hnd as [Hna Hnd].
  cbn [bytes_op]. destruct k as [|k].
  - cbn in Hk. inversion Hk; subst a0 b0.
    rewrite bytes_op_notin by exact Hna. apply mem_store_eq.
  - cbn in Hk.
    assert (Hin : (a, b) ∈ ps) by (eapply list_elem_of_lookup_2; exact Hk).
    assert (Ha : a ∈ ps.*1).
    { apply list_elem_of_fmap. exists (a, b). split; [reflexivity|exact Hin]. }
    assert (Hb : b ∉ ((a0, b0) :: ps).*1).
    { apply (Hsrc (a, b)). right. exact Hin. }
    cbn [fmap list_fmap fst] in Hb. apply not_elem_of_cons in Hb. destruct Hb as [Hb0 Hb].
    rewrite (IH _ k a b Hnd); [|intros p Hp|exact Hk].
    + rewrite !mem_store_ne; [reflexivity|exact Hb0|].
      intros ->. contradiction.
    + specialize (Hsrc p (list_elem_of_further _ _ _ Hp)).
      cbn [fmap list_fmap fst] in Hsrc. apply not_elem_of_cons in Hsrc. tauto.
Qed.

Lemma set_bytes_spec (n : nat) : forall m to c x,
  set_bytes n m to c x = if (to <=? x) && (x <? to + Z.of_nat n) then c else m x.
Proof.
  induction n as [|n IH]; intros m to c x.
  - cbn [set_bytes]. destruct (to <=? x) eqn:E1; destruct (x <? to + Z.of_nat 0) eqn:E2;
      try reflexivity. apply Z.leb_le in E1. apply Z.ltb_lt in E2. lia.
  - cbn [set_bytes]. rewrite IH. unfold mem_store.
    destruct (Z.leb_spec (to + 1) x); destruct (Z.ltb_spec x (to + 1 + Z.of_nat n));
      destruct (Z.leb_spec to x); destruct (Z.ltb_spec x (to + Z.of_nat (S n)));
      destruct (Z.eqb_spec x to); cbn; try reflexivity; lia.
Qed.

Lemma memset_buffer m buf blen c x :
  0 <= blen ->
  raid5_memset_iovs m [{| iov_base := buf; iov_len := blen |}] c x =
  if (buf <=? x) && (x <? buf + blen) then c else m x.
Proof.
  intros Hb. unfold raid5_memset_iovs. cbn [fold_left iov_base iov_len].
  unfold c_memset. rewrite set_bytes_spec. rewrite Z2Nat.id by lia. reflexivity.
Qed.

Lemma dma_read_notin d member addrs : forall a m x,
  x ∉ addrs -> dma_read d member a addrs m x = m x.
Proof.
  induction addrs as [|y addrs IH]; intros a m x Hn; [reflexivity|].
  cbn [dma_read]. apply not_elem_of_cons in Hn. destruct Hn as [Hne Hn].
  rewrite IH by exact Hn. apply mem_store_ne. exact Hne.
Qed.

Lemma dma_read_at d member addrs : forall a m (k : nat) x,
  NoDup addrs -> addrs !! k = Some x ->
  dma_read d member a addrs m x = d member (a + Z.of_nat k).
Proof.
  induction addrs as [|y addrs IH]; intros a m k x Hnd Hk; [discriminate Hk|].
  apply NoDup_cons in Hnd. destruct Hnd as [Hny Hnd]. cbn [dma_read].
  destruct k as [|k].
  - cbn in Hk. inversion Hk; subst y. rewrite dma_read_notin by exact Hny.
    rewrite mem_store_eq. f_equal. lia.
  - cbn in Hk. rewrite (IH _ _ k x Hnd Hk). f_equal. lia.
Qed.

(** A read into a buffer. *)
Lemma dma_read_buffer d member a buf n m :
  0 <= n ->
  let m' := dma_read d member a (seqZ buf n) m in
  (forall t, 0 <= t < n -> m' (buf + t) = d member (a + t)) /\
  (forall x, ~ (buf <= x < buf + n) -> m' x = m x).
Proof.
  intros Hn. cbn zeta. split.
  - intros t Ht.
    rewrite (dma_read_at d member (seqZ buf n) a m (Z.to_nat t) (buf + t)).
    + rewrite Z2Nat.id by lia. reflexivity.
    + apply NoDup_seqZ.
    + rewrite lookup_seqZ. split; [f_equal; lia|lia].
  - intros x Hx. apply dma_read_notin. rewrite elem_of_seqZ. lia.
Qed.

Lemma wf_iovs_sized l : wf_iovs l -> Forall iov_sized l.
Proof.
  intros [Hnn Hb]. induction l as [|x l IH]; [constructor|].
  inversion Hnn as [|? ? Hx Hl]; subst. rewrite iovs_total_cons in Hb.
  pose proof (iovs_total_nonneg l Hl).
  constructor; [unfold iov_sized; lia|]. apply IH; [exact Hl|lia].
Qed.

(** [raid5_xor_iovs] XORs the two byte streams, each from its offset,
    for [size] bytes. *)
Lemma raid5_xor_iovs_spec m dst doff src soff size :
  wf_iovs dst -> wf_iovs src ->
  0 <= doff < 2 ^ 64 -> 0 <= soff < 2 ^ 64 -> 0 <= size < 2 ^ 64 ->
  raid5_xor_iovs m dst doff src soff size =
  bytes_op Z.lxor
    (take (Z.to_nat size)
       (zip (drop (Z.to_nat doff) (iovs_addrs dst)) (drop (Z.to_nat soff) (iovs_addrs src))))
    m.
Proof.
  intros Hd Hs Hdo Hso Hsz. unfold raid5_xor_iovs.
  pose proof (iovs_seek_spec dst 0 doff (wf_iovs_nonneg _ Hd)) as S1.
  pose proof (iovs_seek_spec src 0 soff (wf_iovs_nonneg _ Hs)) as S2.
  pose proof (iovs_seek_Forall iov_sized dst 0 doff (wf_iovs_sized _ Hd)) as F1.
  pose proof (iovs_seek_Forall iov_sized src 0 soff (wf_iovs_sized _ Hs)) as F2.
  destruct Hd as [_ Hd]. destruct Hs as [_ Hs].
  destruct (iovs_seek dst 0 doff) as [v1 off1]. destruct (iovs_seek src 0 soff) as [v2 off2].
  cbn [fst] in F1, F2.
  destruct S1 as (C1 & _ & A1); [lia|lia|lia|].
  destruct S2 as (C2 & _ & A2); [lia|lia|lia|].
  rewrite (iovs_loop_spec raid5_xor_buf Z.lxor raid5_xor_buf_spec) by assumption.
  rewrite A1, A2, !Z.sub_0_r. reflexivity.
Qed.

Lemma elem_of_drop_in {A} (n : nat) (l : list A) x : x ∈ drop n l -> x ∈ l.
Proof.
  intros H. apply list_elem_of_lookup in H. destruct H as [i Hi].
  rewrite lookup_drop in Hi. eapply list_elem_of_lookup_2. exact Hi.
Qed.

Lemma elem_of_take_in {A} (n : nat) (l : list A) x : x ∈ take n l -> x ∈ l.
Proof.
  intros H. apply list_elem_of_lookup in H. destruct H as [i Hi].
  apply lookup_take_Some in Hi. destruct Hi as [Hi _].
  eapply list_elem_of_lookup_2. exact Hi.
Qed.

(** XOR of a source stream into a window of one buffer. *)
Lemma xor_into_buffer m buf blen doff src size :
  0 <= blen < 2 ^ 64 -> 0 <= doff -> 0 <= size -> doff + size <= blen ->
  wf_iovs src -> size <= iovs_total src ->
  (forall a, a ∈ iovs_addrs src -> ~ (buf + doff <= a < buf + doff + size)) ->
  let m' := raid5_xor_iovs m [{| iov_base := buf; iov_len := blen |}] doff src 0 size in
  (forall t, 0 <= t < size ->
     m' (buf + doff + t) =
     Z.lxor (m (buf + doff + t)) (m (nth (Z.to_nat t) (iovs_addrs src) 0))) /\
  (forall x, ~ (buf + doff <= x < buf + doff + size) -> m' x = m x).
Proof.
  intros Hb Hdo Hsz Hfit Hwf Htot Hdis. cbn zeta.
  assert (Hwfd : wf_iovs [{| iov_base := buf; iov_len := blen |}]).
  { split; [repeat constructor; cbn; lia|]. unfold iovs_total. cbn. lia. }
  assert (Hsz64 : size < 2 ^ 64) by lia.
  rewrite raid5_xor_iovs_spec; try assumption; try lia.
  set (A := iovs_addrs src).
  assert (HlenA : Z.of_nat (length A) = iovs_total src)
    by (apply length_iovs_addrs; apply wf_iovs_nonneg; exact Hwf).
  change (Z.to_nat 0) with 0%nat. rewrite drop_0.
  assert (Hd : drop (Z.to_nat doff) (iovs_addrs [{| iov_base := buf; iov_len := blen |}])
               = seqZ (buf + doff) (blen - doff)).
  { unfold iovs_addrs. cbn [map concat]. rewrite app_nil_r. unfold iov_addrs.
    cbn [iov_base iov_len]. rewrite drop_seqZ by lia. rewrite Z2Nat.id by lia. reflexivity. }
  rewrite Hd. rewrite zip_with_take. rewrite take_seqZ by lia. rewrite Z2Nat.id by lia.
  set (pairs := zip (seqZ (buf + doff) size) (take (Z.to_nat size) A)).
  assert (Hfst : pairs.*1 = seqZ (buf + doff) size).
  { apply fst_zip. rewrite length_seqZ, length_take. lia. }
  assert (Hnd : NoDup pairs.*1) by (rewrite Hfst; apply NoDup_seqZ).
  assert (Hsrc : forall p, p ∈ pairs -> p.2 ∉ pairs.*1).
  { intros [x1 x2] Hp. cbn [snd]. rewrite Hfst, elem_of_seqZ.
    apply elem_of_zip_r in Hp. apply elem_of_take_in in Hp.
    specialize (Hdis x2 Hp). lia. }
  split.
  - intros t Ht.
    destruct (lookup_lt_is_Some_2 A (Z.to_nat t) ltac:(lia)) as [b Hbk].
    assert (Hk : pairs !! Z.to_nat t = Some (buf + doff + t, b)).
    { unfold pairs. rewrite lookup_zip_with.
      rewrite (proj2 (lookup_seqZ (buf + doff) size (Z.to_nat t) (buf + doff + t)))
        by (split; lia).
      cbn. rewrite lookup_take_lt by lia. rewrite Hbk. reflexivity. }
    rewrite (bytes_op_at Z.lxor pairs m _ _ _ Hnd Hsrc Hk).
    rewrite (nth_lookup_Some _ _ _ _ Hbk). reflexivity.
  - intros x Hx. apply bytes_op_notin. rewrite Hfst, elem_of_seqZ. lia.
Qed.

(** ** The planning loop of a write, chunk by chunk *)
Section WriteParity.
Variable rb : raid_bdev.
Variable bdev_iovs : list iovec.
Variable stripe_index : Z.
Variable chunk_buffers : list Z.

Lemma bind_and_preread_spec p i e :
  0 <= i -> (Z.to_nat i < length (chunks (req e)))%nat ->
  let c := chunk_at e i in
  let c2 :=
    if negb (preread_blocks c =? 0) || (i =? p)
    then chunk_set_iov c
           {| iov_base := chunk_buffer chunk_buffers (index c);
              iov_len := if i =? p then blk_len rb (req_blocks c)
                         else blk_len rb (preread_blocks c) |}
    else c in
  bind_and_preread rb stripe_index chunk_buffers p i e =
    (if negb (preread_blocks c =? 0)
     then raid5_submit_chunk_request rb stripe_index i CHUNK_PREREAD (store_chunk e i c2)
     else if i =? p then store_chunk e i c2 else e).
Proof.
  intros Hi Hlen. cbn zeta. unfold bind_and_preread.
  destruct (preread_blocks (chunk_at e i) =? 0) eqn:Epb; destruct (i =? p) eqn:Eip;
    cbn [negb orb]; unfold chunk_at at 1, store_chunk; cbn [req with_req];
    rewrite ?get_set_chunk_eq by assumption;
    cbn [preread_blocks chunk_set_iov]; fold (chunk_at e i); rewrite ?Epb; reflexivity.
Qed.

Lemma planned_chunk_step bal k x :
  0 <= k -> (Z.to_nat k < length (chunks (req x)))%nat ->
  bdev_contract (submit_script x) ->
  let x' :=
    (let '(po, pb) := stripe_write_preread rb bal (req x) k in
     bind_and_preread rb stripe_index chunk_buffers (parity_chunk (req x)) k
       (store_chunk x k (chunk_set_preread (chunk_at x k) po pb))) in
  let c := planned_chunk rb chunk_buffers bal (req x) k in
  chunk_at x' k = c /\
  (forall j, j <> k -> chunk_at x' j = chunk_at x j) /\
  bdev_contract (submit_script x') /\
  (if preread_blocks c =? 0
   then inflight x' = inflight x /\ waitq x' = waitq x
   else (inflight x' = inflight x ++ [chunk_bdev_io rb stripe_index k c] /\
         waitq x' = waitq x) \/
        (inflight x' = inflight x /\ waitq x' = waitq x ++ [k])).
Proof.
  intros Hk Hlen Hct. cbn zeta. unfold planned_chunk.
  destruct (stripe_write_preread rb bal (req x) k) as [po pb].
  set (c1 := chunk_set_preread (get_chunk (req x) k) po pb).
  set (x1 := store_chunk x k (chunk_set_preread (chunk_at x k) po pb)).
  assert (Hx1 : chunk_at x1 k = c1).
  { unfold x1, chunk_at, store_chunk. cbn [req with_req].
    rewrite get_set_chunk_eq by assumption. reflexivity. }
  assert (Hlen1 : (Z.to_nat k < length (chunks (req x1)))%nat).
  { unfold x1, store_chunk. cbn [req with_req]. rewrite set_chunk_length. exact Hlen. }
  rewrite (bind_and_preread_spec (parity_chunk (req x)) k x1 Hk Hlen1).
  rewrite Hx1. cbn [preread_blocks chunk_set_preread c1].
  change (preread_blocks c1) with pb.
  set (c2 := if negb (pb =? 0) || (k =? parity_chunk (req x)) then _ else c1).
  assert (Hpb2 : preread_blocks c2 = pb).
  { subst c2. destruct (negb (pb =? 0) || (k =? parity_chunk (req x))); reflexivity. }
  set (x2 := store_chunk x1 k c2).
  assert (Hx2 : chunk_at x2 k = c2).
  { unfold x2, chunk_at, store_chunk. cbn [req with_req].
    rewrite get_set_chunk_eq by assumption. reflexivity. }
  assert (Hother2 : forall j, j <> k -> chunk_at x2 j = chunk_at x j).
  { intros j Hj. unfold x2, x1, chunk_at, store_chunk. cbn [req with_req].
    rewrite !get_set_chunk_ne by (intros E; apply Hj; symmetry; exact E). reflexivity. }
  assert (Hother1 : forall j, j <> k -> chunk_at x1 j = chunk_at x j).
  { intros j Hj. unfold x1, chunk_at, store_chunk. cbn [req with_req].
    rewrite !get_set_chunk_ne by (intros E; apply Hj; symmetry; exact E). reflexivity. }
  destruct (pb =? 0) eqn:Epb; cbn [negb].
  - (* no preread *)
    assert (Hc2 : (preread_blocks c2 =? 0) = true) by (rewrite Hpb2; exact Epb).
    rewrite Hc2.
    destruct (k =? parity_chunk (req x)) eqn:Ekp.
    + split; [exact Hx2|]. split; [exact Hother2|]. split; [exact Hct|].
      split; reflexivity.
    + subst c2. cbn [orb negb]. split; [exact Hx1|]. split; [exact Hother1|].
      split; [exact Hct|]. split; reflexivity.
  - (* a preread is submitted *)
    assert (Hlen2 : (Z.to_nat k < length (chunks (req x2)))%nat).
    { unfold x2, store_chunk. cbn [req with_req]. rewrite set_chunk_length. exact Hlen1. }
    assert (Hc2 : (preread_blocks (chunk_set_request_type c2 CHUNK_PREREAD) =? 0) = false)
      by (cbn [preread_blocks chunk_set_request_type]; rewrite Hpb2; exact Epb).
    rewrite Hc2.
    pose proof (submit_chunk_effect rb stripe_index k CHUNK_PREREAD x2 Hct Hk Hlen2) as Hs.
    cbn zeta in Hs. rewrite Hx2 in Hs. destruct Hs as (_ & S2 & S3 & S4 & _).
    split.
    { unfold chunk_at. rewrite submit_chunk_req.
      rewrite get_set_chunk_eq by (cbn; assumption). fold (chunk_at x2 k).
      rewrite Hx2. reflexivity. }
    split.
    { intros j Hj. unfold chunk_at at 1.
      rewrite (submit_chunk_other rb stripe_index k CHUNK_PREREAD x2 j)
        by (intros E; apply Hj; symmetry; exact E).
      apply Hother2. exact Hj. }
    split; [exact S2|].
    change (submit_script x2) with (submit_script x) in S3, S4.
    change (inflight x2) with (inflight x) in S3. change (waitq x2) with (waitq x) in S4.
    destruct (hd 0 (submit_script x) =? 0) eqn:Eh.
    + left. split; [exact S3|]. rewrite S4, app_nil_r. reflexivity.
    + right. split; [rewrite S3, app_nil_r; reflexivity|exact S4].
Qed.

Lemma bio_chunk_bdev_io i c : bio_chunk (chunk_bdev_io rb stripe_index i c) = i.
Proof. unfold chunk_bdev_io. destruct (request_type c); reflexivity. Qed.

Lemma planned_chunk_frame bal e e' k :
  plan_frame e e' -> chunk_at e' k = chunk_at e k ->
  planned_chunk rb chunk_buffers bal (req e') k = planned_chunk rb chunk_buffers bal (req e) k.
Proof.
  intros Hf Hk. unfold planned_chunk.
  rewrite (stripe_write_preread_frame rb bal e e' k Hf).
  destruct Hf as (_ & _ & _ & Hp & _). rewrite Hp.
  unfold chunk_at in Hk. rewrite Hk. reflexivity.
Qed.

Lemma stripe_write_plan_spec e :
  Z.of_nat (length (chunks (req e))) = num_base_bdevs rb ->
  bdev_contract (submit_script e) -> inflight e = [] -> waitq e = [] ->
  let w := set_parity_window rb e in
  let bal := preread_balance rb w in
  let e2 := with_req w (upd_cb (req w)
              (if bal >? 0 then cb_raid5_stripe_write_preread_complete_rmw
               else cb_raid5_stripe_write_preread_complete)) in
  let e1 := raid5_stripe_write_plan rb stripe_index chunk_buffers e in
  plan_frame e2 e1 /\ bdev_contract (submit_script e1) /\
  (forall i, 0 <= i < num_base_bdevs rb ->
     chunk_at e1 i = planned_chunk rb chunk_buffers bal (req w) i) /\
  preread_tracked rb stripe_index e1 /\
  (forall i, 0 <= i < num_base_bdevs rb -> preread_blocks (chunk_at e1 i) <> 0 ->
     (exists io, io ∈ inflight e1 /\ bio_chunk io = i) \/ i ∈ waitq e1).
Proof.
  intros Hlen Hct Hinf Hwq. cbn zeta.
  pose proof (set_parity_window_frame_fields rb e) as W. cbn zeta in W.
  destruct W as (W1 & W2 & W3 & W4 & W5 & W6 & W7 & W8 & W9 & W10 & W11 & W12 & W13
                 & W14 & W15 & W16 & W17 & W18 & W19).
  set (w := set_parity_window rb e) in *.
  set (bal := preread_balance rb w).
  set (e2 := with_req w (upd_cb (req w)
               (if bal >? 0 then cb_raid5_stripe_write_preread_complete_rmw
                else cb_raid5_stripe_write_preread_complete))).
  set (pl := fun i => planned_chunk rb chunk_buffers bal (req w) i).
  unfold raid5_stripe_write_plan. fold w. fold bal. fold e2.
  match goal with |- context [fold_left ?f _ e2] => set (body := f) end.
  assert (G : (fun k x =>
      plan_frame e2 x /\ bdev_contract (submit_script x) /\
      (forall i, 0 <= i < k -> chunk_at x i = pl i) /\
      (forall i, k <= i -> chunk_at x i = chunk_at e2 i) /\
      (forall io, io ∈ inflight x ->
         exists i, 0 <= i < k /\ preread_blocks (pl i) <> 0 /\
                   io = chunk_bdev_io rb stripe_index i (pl i)) /\
      (forall i, i ∈ waitq x -> 0 <= i < k /\ preread_blocks (pl i) <> 0) /\
      (forall i, 0 <= i < k -> preread_blocks (pl i) <> 0 ->
         (exists io, io ∈ inflight x /\ bio_chunk io = i) \/ i ∈ waitq x))
      (num_base_bdevs rb) (fold_left body (seqZ 0 (num_base_bdevs rb)) e2)).
  { apply fold_seqZ_invariant; [| |lia].
    - split; [apply plan_frame_refl|]. split; [cbn; rewrite W6; exact Hct|].
      split; [intros; lia|]. split; [reflexivity|].
      split; [cbn; rewrite W4, Hinf; intros io Hio; apply elem_of_nil in Hio; contradiction|].
      split; [cbn; rewrite W5, Hwq; intros i Hi; apply elem_of_nil in Hi; contradiction|].
      intros; lia.
    - intros k x Hk (Hf & Hc & Hlo & Hhi & Hin & Hw & Hcov).
      assert (Hxlen : (Z.to_nat k < length (chunks (req x)))%nat).
      { destruct Hf as (_ & _ & _ & _ & _ & _ & _ & _ & _ & _ & _ & Hl & _).
        rewrite Hl. cbn. rewrite W18. lia. }
      assert (Hxp : parity_chunk (req e) = parity_chunk (req x)).
      { destruct Hf as (_ & _ & _ & Hp & _). rewrite Hp. cbn. rewrite W12. reflexivity. }
      pose proof (planned_chunk_step bal k x ltac:(lia) Hxlen Hc) as S.
      cbn zeta in S. unfold body. rewrite Hxp.
      assert (Hpl : planned_chunk rb chunk_buffers bal (req x) k = pl k).
      { unfold pl. rewrite (planned_chunk_frame bal e2 x k Hf (Hhi k ltac:(lia))).
        reflexivity. }
      rewrite Hpl in S.
      destruct (stripe_write_preread rb bal (req x) k) as [po pb].
      set (x' := bind_and_preread _ _ _ _ _ _) in *.
      destruct S as (S1 & S2 & S3 & S4).
      assert (Hf' : plan_frame e2 x').
      { apply (plan_frame_trans e2 x); [exact Hf|].
        unfold x'.
        apply (plan_frame_trans x (store_chunk x k (chunk_set_preread (chunk_at x k) po pb)));
          [apply (plan_frame_store x k (chunk_set_preread (chunk_at x k) po pb)); reflexivity
          |apply bind_and_preread_frame]. }
      split; [exact Hf'|]. split; [exact S3|].
      split.
      { intros i Hi. destruct (Z.eq_dec i k) as [->|Hne]; [exact S1|].
        rewrite (S2 i Hne). apply Hlo. lia. }
      split.
      { intros i Hi. rewrite (S2 i ltac:(lia)). apply Hhi. lia. }
      destruct (preread_blocks (pl k) =? 0) eqn:Epb.
      + destruct S4 as [S4 S5]. rewrite S4, S5. apply Z.eqb_eq in Epb.
        split; [|split].
        * intros io Hio. destruct (Hin io Hio) as (i & Hi & Hpb & Eio).
          exists i. split; [lia|]. split; assumption.
        * intros i Hi. destruct (Hw i Hi) as [Hi' Hpb]. split; [lia|exact Hpb].
        * intros i Hi Hpb. destruct (Z.eq_dec i k) as [->|Hne]; [contradiction|].
          apply Hcov; [lia|exact Hpb].
      + apply Z.eqb_neq in Epb.
        destruct S4 as [[S4 S5]|[S4 S5]]; rewrite S4, S5.
        * split; [|split].
          -- intros io Hio. apply elem_of_app in Hio. destruct Hio as [Hio|Hio].
             ++ destruct (Hin io Hio) as (i & Hi & Hpb & Eio).
                exists i. split; [lia|]. split; assumption.
             ++ apply list_elem_of_singleton in Hio. exists k.
                split; [lia|]. split; assumption.
          -- intros i Hi. destruct (Hw i Hi) as [Hi' Hpb]. split; [lia|exact Hpb].
          -- intros i Hi Hpb. destruct (Z.eq_dec i k) as [->|Hne].
             ++ left. exists (chunk_bdev_io rb stripe_index k (pl k)).
                split; [apply elem_of_app; right; left|apply bio_chunk_bdev_io].
             ++ destruct (Hcov i ltac:(lia) Hpb) as [(io & Hio & Eio)|Hq].
                ** left. exists io. split; [apply elem_of_app; left; exact Hio|exact Eio].
                ** right. exact Hq.
        * split; [|split].
          -- intros io Hio. destruct (Hin io Hio) as (i & Hi & Hpb & Eio).
             exists i. split; [lia|]. split; assumption.
          -- intros i Hi. apply elem_of_app in Hi. destruct Hi as [Hi|Hi].
             ++ destruct (Hw i Hi) as [Hi' Hpb]. split; [lia|exact Hpb].
             ++ apply list_elem_of_singleton in Hi. subst i. split; [lia|exact Epb].
          -- intros i Hi Hpb. destruct (Z.eq_dec i k) as [->|Hne].
             ++ right. apply elem_of_app. right. left.
             ++ destruct (Hcov i ltac:(lia) Hpb) as [Hio|Hq].
                ** left. exact Hio.
                ** right. apply elem_of_app. left. exact Hq. }
  cbn beta in G. unfold each_chunk.
  set (e1 := fold_left body (seqZ 0 (num_base_bdevs rb)) e2) in *.
  destruct G as (Hf & Hc & Hlo & _ & Hin & Hw & Hcov).
  split; [exact Hf|]. split; [exact Hc|]. split; [exact Hlo|].
  split; [split|].
  - intros io Hio. destruct (Hin io Hio) as (i & Hi & Hpb & Eio).
    exists i. split; [exact Hi|]. rewrite (Hlo i Hi). split; assumption.
  - intros i Hi. destruct (Hw i Hi) as [Hi' Hpb]. split; [exact Hi'|].
    rewrite (Hlo i Hi'). exact Hpb.
  - intros i Hi Hpb. rewrite (Hlo i Hi) in Hpb. apply Hcov; assumption.
Qed.

(** ** The compute callbacks of a write *)

Lemma forallb_elem_of {A} (f : A -> bool) (l : list A) x :
  forallb f l = true -> x ∈ l -> f x = true.
Proof.
  intros H Hx. rewrite forallb_forall in H. apply H. apply list_elem_of_In. exact Hx.
Qed.

Lemma buffers_apart_spec i :
  buffers_apart rb bdev_iovs chunk_buffers = true -> 0 <= i < num_base_bdevs rb ->
  0 <= chunk_buffer chunk_buffers i /\
  (forall j, 0 <= j < num_base_bdevs rb -> i <> j ->
     chunk_buffer chunk_buffers i + strip_size rb * blocklen rb <= chunk_buffer chunk_buffers j
     \/ chunk_buffer chunk_buffers j + strip_size rb * blocklen rb
        <= chunk_buffer chunk_buffers i) /\
  (forall a, a ∈ iovs_addrs bdev_iovs ->
     a < chunk_buffer chunk_buffers i
     \/ chunk_buffer chunk_buffers i + strip_size rb * blocklen rb <= a).
Proof.
  intros H Hi. unfold buffers_apart in H.
  pose proof (forallb_elem_of _ _ i H ltac:(apply elem_of_seqZ; lia)) as Hi'.
  cbn beta zeta in Hi'. apply andb_true_iff in Hi'. destruct Hi' as [Hi' H3].
  apply andb_true_iff in Hi'. destruct Hi' as [H1 H2].
  split; [apply Z.leb_le; exact H1|]. split.
  - intros j Hj Hne.
    pose proof (forallb_elem_of _ _ j H2 ltac:(apply elem_of_seqZ; lia)) as Hj'.
    cbn beta in Hj'. apply orb_true_iff in Hj'. destruct Hj' as [Hj'|Hj'].
    + apply orb_true_iff in Hj'. destruct Hj' as [Hj'|Hj'].
      * apply Z.eqb_eq in Hj'. contradiction.
      * left. apply Z.leb_le. exact Hj'.
    + right. apply Z.leb_le. exact Hj'.
  - intros a Ha. pose proof (forallb_elem_of _ _ a H3 Ha) as Ha'. cbn beta in Ha'.
    apply orb_true_iff in Ha'. destruct Ha' as [Ha'|Ha'].
    + left. apply Z.ltb_lt. exact Ha'.
    + right. apply Z.leb_le. exact Ha'.
Qed.

Lemma chunk_iovs_embedded c :
  iovs c = IovsEmbedded -> iovcnt c = 1 -> chunk_iovs c = [iov c].
Proof. intros H1 H2. unfold chunk_iovs. rewrite H1, H2. reflexivity. Qed.

Lemma iovs_addrs_single b n : iovs_addrs [{| iov_base := b; iov_len := n |}] = seqZ b n.
Proof. unfold iovs_addrs. cbn. rewrite app_nil_r. reflexivity. Qed.

Lemma nth_seqZ (b n t : Z) : 0 <= t < n -> nth (Z.to_nat t) (seqZ b n) 0 = b + t.
Proof.
  intros Ht. apply nth_lookup_Some. apply lookup_seqZ. split; lia.
Qed.

Lemma blk_len_small n :
  0 < blocklen rb -> strip_size rb * blocklen rb < 2 ^ 64 -> 0 <= n <= strip_size rb ->
  blk_len rb n = n * blocklen rb.
Proof. intros Hb Hs Hn. unfold blk_len. apply u64_small. nia. Qed.

Lemma blk_diff_small a b :
  0 < blocklen rb -> strip_size rb * blocklen rb < 2 ^ 64 -> 0 <= a - b <= strip_size rb ->
  blk_diff rb a b = a * blocklen rb - b * blocklen rb.
Proof.
  intros Hb Hs Hn. unfold blk_diff.
  rewrite (u64_small (a - b)) by nia. rewrite u64_small by nia. lia.
Qed.

(** A successful mapping leaves the chunk with vectors in the upstream
    buffers, for exactly the bytes asked of it. *)
Lemma map_req_data_good i e :
  sizes_ok rb bdev_iovs chunk_buffers ->
  0 <= i -> (Z.to_nat i < length (chunks (req e)))%nat ->
  0 <= iov_offset (req e) < 2 ^ 64 ->
  0 < req_blocks (chunk_at e i) <= strip_size rb ->
  chunk_cap_ok (chunk_at e i) ->
  let '(ret, e') := raid5_chunk_map_req_data rb bdev_iovs i e in
  ret = 0 ->
  let c' := chunk_at e' i in
  0 <= iov_offset (req e') < 2 ^ 64 /\
  wf_iovs (chunk_iovs c') /\
  iovs_total (chunk_iovs c') = req_blocks (chunk_at e i) * blocklen rb /\
  (forall a, a ∈ iovs_addrs (chunk_iovs c') -> a ∈ iovs_addrs bdev_iovs).
Proof.
  intros (Hbl & Hss & Hsz & Hwf & Htot & Hap) Hi Hlen Hoff Hblk Hcap.
  unfold raid5_chunk_map_req_data.
  rewrite (u64_small (req_blocks (chunk_at e i) * blocklen rb)) by nia.
  pose proof (raid5_chunk_map_iov_ret0 (chunk_at e i) bdev_iovs (iov_offset (req e))
                (req_blocks (chunk_at e i) * blocklen rb)
                (hd true (realloc_script e)) Hwf ltac:(lia) ltac:(nia) ltac:(nia) Hcap) as H.
  destruct (raid5_chunk_map_iov (chunk_at e i) bdev_iovs (iov_offset (req e))
              (req_blocks (chunk_at e i) * blocklen rb) (hd true (realloc_script e)))
    as [[ret called] c'].
  intros Hret. subst ret. destruct (H eq_refl) as (H1 & H2 & H3 & H4).
  change (0 =? 0) with true. cbn iota.
  match goal with |- context [wf_iovs (chunk_iovs (chunk_at ?E i))] => set (e' := E) end.
  assert (Hc : chunk_at e' i = c').
  { unfold e', chunk_at, store_chunk. destruct called;
      cbn [req with_req with_realloc_script upd_iov_offset chunks];
      apply get_set_chunk_eq; assumption. }
  assert (Ho : 0 <= iov_offset (req e') < 2 ^ 64).
  { unfold e'. destruct called; cbn [req with_req upd_iov_offset iov_offset]; unfold u64;
      apply Z.mod_pos_bound; lia. }
  rewrite Hc.
  split; [exact Ho|].
  split; [split; [eapply Forall_impl; [exact H2|]; intros v [Hv _]; exact Hv
                 |rewrite H3; nia]|].
  split; [exact H3|].
  intros a Ha. rewrite H4 in Ha. apply elem_of_take_in in Ha.
    eapply elem_of_drop_in; exact Ha.
Qed.

Lemma final_data_in d e i j :
  req_offset (chunk_at e i) * blocklen rb <= j
    < (req_offset (chunk_at e i) + req_blocks (chunk_at e i)) * blocklen rb ->
  final_data rb stripe_index d e i j =
  mem e (nth (Z.to_nat (j - req_offset (chunk_at e i) * blocklen rb))
             (iovs_addrs (chunk_iovs (chunk_at e i))) 0).
Proof.
  intros H. unfold final_data.
  destruct (Z.leb_spec (req_offset (chunk_at e i) * blocklen rb) j); [|lia].
  destruct (Z.ltb_spec j ((req_offset (chunk_at e i) + req_blocks (chunk_at e i))
                          * blocklen rb)); [|lia].
  reflexivity.
Qed.

Lemma final_data_out d e i j :
  ~ (req_offset (chunk_at e i) * blocklen rb <= j
       < (req_offset (chunk_at e i) + req_blocks (chunk_at e i)) * blocklen rb) ->
  final_data rb stripe_index d e i j =
  strip_byte rb stripe_index d (index (chunk_at e i)) j.
Proof.
  intros H. unfold final_data.
  destruct (Z.leb_spec (req_offset (chunk_at e i) * blocklen rb) j);
    destruct (Z.ltb_spec j ((req_offset (chunk_at e i) + req_blocks (chunk_at e i))
                            * blocklen rb)); cbn [andb]; try reflexivity.
  lia.
Qed.

(** XOR of the vectors of chunk [i] into the parity buffer. *)
Lemma xor_parity e i doff size :
  sizes_ok rb bdev_iovs chunk_buffers -> parity_ready rb chunk_buffers e ->
  wf_iovs (chunk_iovs (chunk_at e i)) -> size <= iovs_total (chunk_iovs (chunk_at e i)) ->
  0 <= doff -> 0 <= size ->
  doff + size <= req_blocks (chunk_at e (parity_chunk (req e))) * blocklen rb ->
  (forall a, a ∈ iovs_addrs (chunk_iovs (chunk_at e i)) ->
     ~ (chunk_buffer chunk_buffers (parity_chunk (req e)) <= a
          < chunk_buffer chunk_buffers (parity_chunk (req e))
            + strip_size rb * blocklen rb)) ->
  let b := chunk_buffer chunk_buffers (parity_chunk (req e)) in
  let e' := xor_chunks e (parity_chunk (req e)) doff i 0 size in
  (forall t, doff <= t < doff + size ->
     mem e' (b + t) =
     Z.lxor (mem e (b + t))
            (mem e (nth (Z.to_nat (t - doff)) (iovs_addrs (chunk_iovs (chunk_at e i))) 0))) /\
  (forall a, ~ (b + doff <= a < b + doff + size) -> mem e' a = mem e a).
Proof.
  intros (Hbl & Hss & Hsz & Hwf & Htot & Hap) (HP & Pi & Pc & Pv & Po & Pb & Pw)
         Hsrc Hsize Hdo Hs0 Hfit Hdis.
  cbn zeta. unfold xor_chunks. cbn [mem with_mem].
  rewrite (chunk_iovs_embedded _ Pi Pc), Pv.
  set (b := chunk_buffer chunk_buffers (parity_chunk (req e))) in *.
  set (wlen := req_blocks (chunk_at e (parity_chunk (req e))) * blocklen rb) in *.
  assert (Hw : 0 <= wlen < 2 ^ 64) by (unfold wlen; nia).
  assert (Hws : wlen <= strip_size rb * blocklen rb) by (unfold wlen; nia).
  pose proof (xor_into_buffer (mem e) b wlen doff (chunk_iovs (chunk_at e i)) size
                Hw Hdo Hs0 Hfit Hsrc Hsize) as X.
  cbn zeta in X. destruct X as [X1 X2].
  { intros a Ha. specialize (Hdis a Ha). lia. }
  split.
  - intros t Ht. specialize (X1 (t - doff) ltac:(lia)).
    replace (b + doff + (t - doff)) with (b + t) in X1 by lia. exact X1.
  - exact X2.
Qed.

(** XOR of the preread buffer of chunk [i] into the parity buffer. *)
Lemma scratch_xor d e i :
  sizes_ok rb bdev_iovs chunk_buffers -> parity_ready rb chunk_buffers e ->
  0 <= i < num_base_bdevs rb -> i <> parity_chunk (req e) ->
  iovs (chunk_at e i) = IovsEmbedded -> iovcnt (chunk_at e i) = 1 ->
  0 < preread_blocks (chunk_at e i) <= strip_size rb ->
  iov (chunk_at e i) = {| iov_base := chunk_buffer chunk_buffers i;
                          iov_len := preread_blocks (chunk_at e i) * blocklen rb |} ->
  req_offset (chunk_at e (parity_chunk (req e))) <= preread_offset (chunk_at e i) ->
  (preread_offset (chunk_at e i) + preread_blocks (chunk_at e i)) * blocklen rb
    <= (req_offset (chunk_at e (parity_chunk (req e)))
        + req_blocks (chunk_at e (parity_chunk (req e)))) * blocklen rb ->
  preread_loaded rb stripe_index chunk_buffers d e i ->
  let p := parity_chunk (req e) in
  let b := chunk_buffer chunk_buffers p in
  let W0 := req_offset (chunk_at e p) * blocklen rb in
  let P0 := preread_offset (chunk_at e i) * blocklen rb in
  let P1 := (preread_offset (chunk_at e i) + preread_blocks (chunk_at e i)) * blocklen rb in
  let e' := xor_chunks e p
              (blk_diff rb (preread_offset (chunk_at e i)) (req_offset (chunk_at e p)))
              i 0 (blk_len rb (preread_blocks (chunk_at e i))) in
  (forall t, 0 <= t < req_blocks (chunk_at e p) * blocklen rb -> P0 <= W0 + t < P1 ->
     mem e' (b + t) = Z.lxor (mem e (b + t)) (strip_byte rb stripe_index d i (W0 + t))) /\
  (forall t, 0 <= t < req_blocks (chunk_at e p) * blocklen rb -> ~ (P0 <= W0 + t < P1) ->
     mem e' (b + t) = mem e (b + t)) /\
  (forall a, ~ (b <= a < b + req_blocks (chunk_at e p) * blocklen rb) -> mem e' a = mem e a).
Proof.
  intros Hsz Hpr Hi Hne Ci Cc Hpb Cv Hlo Hhi Hld. cbn zeta.
  pose proof Hsz as (Hbl & Hss & Hs64 & Hwf & Htot & Hap).
  pose proof Hpr as (HP & Pi & Pc & Pv & Po & Pb & Pw).
  set (p := parity_chunk (req e)) in *.
  set (po := preread_offset (chunk_at e i)) in *.
  set (pb := preread_blocks (chunk_at e i)) in *.
  set (wo := req_offset (chunk_at e p)) in *.
  set (wb := req_blocks (chunk_at e p)) in *.
  assert (Hd : blk_diff rb po wo = po * blocklen rb - wo * blocklen rb).
  { apply blk_diff_small; try assumption. nia. }
  assert (Hl : blk_len rb pb = pb * blocklen rb).
  { apply blk_len_small; try assumption. lia. }
  rewrite Hd, Hl.
  assert (Hsrc : chunk_iovs (chunk_at e i) =
                 [{| iov_base := chunk_buffer chunk_buffers i;
                     iov_len := pb * blocklen rb |}]).
  { rewrite (chunk_iovs_embedded _ Ci Cc), Cv. reflexivity. }
  destruct (buffers_apart_spec i Hap Hi) as (Hb0 & Hbb & _).
  specialize (Hbb p HP Hne).
  pose proof (xor_parity e i (po * blocklen rb - wo * blocklen rb) (pb * blocklen rb)
                Hsz Hpr) as X.
  rewrite Hsrc in X. rewrite iovs_addrs_single in X. cbn zeta in X. fold p in X.
  destruct X as [X1 X2].
  { split; [repeat constructor; cbn; nia|]. unfold iovs_total; cbn. nia. }
  { unfold iovs_total; cbn. lia. }
  { nia. } { nia. } { fold wb. nia. }
  { intros a Ha. apply elem_of_seqZ in Ha. nia. }
  split; [|split].
  - intros t Ht Hin. rewrite X1 by nia. f_equal.
    rewrite nth_seqZ by nia.
    rewrite (Hld (t - (po * blocklen rb - wo * blocklen rb))) by (fold pb; nia).
    f_equal. fold po. lia.
  - intros t Ht Hout. apply X2. nia.
  - intros a Ha. apply X2. fold wb in Ha. nia.
Qed.

(** Mapping the request data of chunk [i]. *)
Lemma map_step e i :
  sizes_ok rb bdev_iovs chunk_buffers ->
  Z.of_nat (length (chunks (req e))) = num_base_bdevs rb ->
  0 <= i < num_base_bdevs rb ->
  iovs (chunk_at e i) = IovsEmbedded -> iovcnt (chunk_at e i) = 1 ->
  0 < req_blocks (chunk_at e i) <= strip_size rb ->
  0 <= iov_offset (req e) < 2 ^ 64 ->
  let '(ret, e') := raid5_chunk_map_req_data rb bdev_iovs i e in
  moves 0 e e' /\ mem e' = mem e /\ disks e' = disks e /\
  (forall j, j <> i -> chunk_at e' j = chunk_at e j) /\
  req_offset (chunk_at e' i) = req_offset (chunk_at e i) /\
  req_blocks (chunk_at e' i) = req_blocks (chunk_at e i) /\
  index (chunk_at e' i) = index (chunk_at e i) /\
  (ret = 0 ->
   0 <= iov_offset (req e') < 2 ^ 64 /\
   wf_iovs (chunk_iovs (chunk_at e' i)) /\
   iovs_total (chunk_iovs (chunk_at e' i)) = req_blocks (chunk_at e i) * blocklen rb /\
   (forall a, a ∈ iovs_addrs (chunk_iovs (chunk_at e' i)) -> a ∈ iovs_addrs bdev_iovs)).
Proof.
  intros Hsz Hlen Hi Ci Cc Hblk Hoff.
  pose proof (moves_map rb bdev_iovs i e) as Hm.
  pose proof (map_req_data_same rb bdev_iovs i e) as Hs. cbn zeta in Hs.
  pose proof (fun j => map_req_data_chunks rb bdev_iovs i e j) as Hc. cbn zeta in Hc.
  assert (Hcap : chunk_cap_ok (chunk_at e i)).
  { unfold chunk_cap_ok. rewrite Ci, Cc. lia. }
  pose proof (map_req_data_good i e Hsz ltac:(lia) ltac:(lia) Hoff Hblk Hcap) as Hg.
  destruct (raid5_chunk_map_req_data rb bdev_iovs i e) as [ret e']. cbn [snd] in *.
  destruct Hs as (S1 & S2 & _).
  split; [exact Hm|]. split; [exact S1|]. split; [exact S2|].
  split; [intros j Hj; apply (Hc j); intros E; apply Hj; symmetry; exact E|].
  destruct (Hc i) as (C1 & C2 & C3 & _).
  split; [exact C2|]. split; [exact C3|]. split; [exact C1|].
  intros Hret. apply Hg. exact Hret.
Qed.

(** XOR of the new data of chunk [i] into the parity buffer. *)
Lemma new_data_xor d e i :
  sizes_ok rb bdev_iovs chunk_buffers -> parity_ready rb chunk_buffers e ->
  0 <= i < num_base_bdevs rb -> i <> parity_chunk (req e) ->
  0 < req_blocks (chunk_at e i) <= strip_size rb ->
  req_offset (chunk_at e (parity_chunk (req e))) <= req_offset (chunk_at e i) ->
  (req_offset (chunk_at e i) + req_blocks (chunk_at e i)) * blocklen rb
    <= (req_offset (chunk_at e (parity_chunk (req e)))
        + req_blocks (chunk_at e (parity_chunk (req e)))) * blocklen rb ->
  wf_iovs (chunk_iovs (chunk_at e i)) ->
  iovs_total (chunk_iovs (chunk_at e i)) = req_blocks (chunk_at e i) * blocklen rb ->
  (forall a, a ∈ iovs_addrs (chunk_iovs (chunk_at e i)) -> a ∈ iovs_addrs bdev_iovs) ->
  let p := parity_chunk (req e) in
  let b := chunk_buffer chunk_buffers p in
  let W0 := req_offset (chunk_at e p) * blocklen rb in
  let R0 := req_offset (chunk_at e i) * blocklen rb in
  let R1 := (req_offset (chunk_at e i) + req_blocks (chunk_at e i)) * blocklen rb in
  let e' := xor_chunks e p
              (blk_diff rb (req_offset (chunk_at e i)) (req_offset (chunk_at e p)))
              i 0 (blk_len rb (req_blocks (chunk_at e i))) in
  (forall t, 0 <= t < req_blocks (chunk_at e p) * blocklen rb -> R0 <= W0 + t < R1 ->
     mem e' (b + t) =
     Z.lxor (mem e (b + t)) (final_data rb stripe_index d e' i (W0 + t))) /\
  (forall t, 0 <= t < req_blocks (chunk_at e p) * blocklen rb -> ~ (R0 <= W0 + t < R1) ->
     mem e' (b + t) = mem e (b + t)) /\
  (forall a, ~ (b <= a < b + req_blocks (chunk_at e p) * blocklen rb) -> mem e' a = mem e a) /\
  mapped_clear rb chunk_buffers e' i.
Proof.
  intros Hsz Hpr Hi Hne Hrb Hlo Hhi Hwfc Htotc Huser. cbn zeta.
  pose proof Hsz as (Hbl & Hss & Hs64 & Hwf & Htot & Hap).
  pose proof Hpr as (HP & Pi & Pc & Pv & Po & Pb & Pw).
  set (p := parity_chunk (req e)) in *.
  set (ro := req_offset (chunk_at e i)) in *.
  set (rk := req_blocks (chunk_at e i)) in *.
  set (wo := req_offset (chunk_at e p)) in *.
  set (wb := req_blocks (chunk_at e p)) in *.
  assert (Hd : blk_diff rb ro wo = ro * blocklen rb - wo * blocklen rb).
  { apply blk_diff_small; try assumption. nia. }
  assert (Hl : blk_len rb rk = rk * blocklen rb).
  { apply blk_len_small; try assumption. lia. }
  rewrite Hd, Hl.
  destruct (buffers_apart_spec p Hap HP) as (Hb0 & _ & Hbu).
  assert (Hclear : forall a, a ∈ iovs_addrs (chunk_iovs (chunk_at e i)) ->
            ~ (chunk_buffer chunk_buffers p <= a
                 < chunk_buffer chunk_buffers p + strip_size rb * blocklen rb)).
  { intros a Ha. specialize (Hbu a (Huser a Ha)). lia. }
  pose proof (xor_parity e i (ro * blocklen rb - wo * blocklen rb) (rk * blocklen rb)
                Hsz Hpr Hwfc ltac:(lia) ltac:(nia) ltac:(nia)) as X.
  cbn zeta in X. fold p in X. destruct X as [X1 X2].
  { fold wb. nia. }
  { exact Hclear. }
  set (e' := xor_chunks e p (ro * blocklen rb - wo * blocklen rb) i 0 (rk * blocklen rb))
    in *.
  assert (Hlen : Z.of_nat (length (iovs_addrs (chunk_iovs (chunk_at e i))))
                 = rk * blocklen rb).
  { rewrite length_iovs_addrs by (apply wf_iovs_nonneg; exact Hwfc). exact Htotc. }
  assert (Hnth : forall k, 0 <= k < rk * blocklen rb ->
            nth (Z.to_nat k) (iovs_addrs (chunk_iovs (chunk_at e i))) 0
              ∈ iovs_addrs (chunk_iovs (chunk_at e i))).
  { intros k Hk.
    destruct (lookup_lt_is_Some_2 (iovs_addrs (chunk_iovs (chunk_at e i)))
                (Z.to_nat k) ltac:(lia)) as [a Ha].
    rewrite (nth_lookup_Some _ _ _ _ Ha). eapply list_elem_of_lookup_2. exact Ha. }
  split; [|split; [|split]].
  - intros t Ht Hin. rewrite X1 by nia. f_equal.
    rewrite final_data_in by (change (chunk_at e' i) with (chunk_at e i); fold ro rk; lia).
    change (chunk_at e' i) with (chunk_at e i). fold ro.
    replace (wo * blocklen rb + t - ro * blocklen rb)
      with (t - (ro * blocklen rb - wo * blocklen rb)) by lia.
    symmetry. apply X2.
    specialize (Hclear _ (Hnth (t - (ro * blocklen rb - wo * blocklen rb)) ltac:(nia))).
    fold p. nia.
  - intros t Ht Hout. apply X2. nia.
  - intros a Ha. apply X2. fold wb in Ha. nia.
  - intros k Hk. change (chunk_at e' i) with (chunk_at e i) in *.
    change (parity_chunk (req e')) with p. apply Hclear. apply Hnth. exact Hk.
Qed.

Lemma map_req_data_ret i e :
  let ret := fst (raid5_chunk_map_req_data rb bdev_iovs i e) in
  ret = 0 \/ ret = - EINVAL \/ ret = - ENOMEM.
Proof.
  cbn zeta. unfold raid5_chunk_map_req_data.
  pose proof (raid5_chunk_map_iov_ret (chunk_at e i) bdev_iovs (iov_offset (req e))
                (u64 (req_blocks (chunk_at e i) * blocklen rb))
                (hd true (realloc_script e))) as H.
  cbn zeta in H. destruct (raid5_chunk_map_iov _ _ _ _ _) as [[ret called] c'].
  exact H.
Qed.

Lemma errno_to_status_failure ret :
  ret = - EINVAL \/ ret = - ENOMEM -> errno_to_status ret <> SPDK_BDEV_IO_STATUS_SUCCESS.
Proof. intros [->| ->]; vm_compute; discriminate. Qed.

(** After the mapping of the request data of chunk [i]: an abort when
    it failed, else the XOR of the new data into the parity buffer. *)
Lemma after_map d e i ret e2 :
  sizes_ok rb bdev_iovs chunk_buffers ->
  Z.of_nat (length (chunks (req e))) = num_base_bdevs rb ->
  parity_ready rb chunk_buffers e ->
  0 <= i < num_base_bdevs rb -> i <> parity_chunk (req e) ->
  iovs (chunk_at e i) = IovsEmbedded -> iovcnt (chunk_at e i) = 1 ->
  0 < req_blocks (chunk_at e i) <= strip_size rb ->
  req_offset (chunk_at e (parity_chunk (req e))) <= req_offset (chunk_at e i) ->
  (req_offset (chunk_at e i) + req_blocks (chunk_at e i)) * blocklen rb
    <= (req_offset (chunk_at e (parity_chunk (req e)))
        + req_blocks (chunk_at e (parity_chunk (req e)))) * blocklen rb ->
  0 <= iov_offset (req e) < 2 ^ 64 ->
  raid5_chunk_map_req_data rb bdev_iovs i e = (ret, e2) ->
  let p := parity_chunk (req e) in
  let b := chunk_buffer chunk_buffers p in
  let W0 := req_offset (chunk_at e p) * blocklen rb in
  let R0 := req_offset (chunk_at e i) * blocklen rb in
  let R1 := (req_offset (chunk_at e i) + req_blocks (chunk_at e i)) * blocklen rb in
  (ret <> 0 -> step_aborted e (raid5_abort_stripe_request rb (errno_to_status ret) e2)) /\
  (ret = 0 ->
   let e' := xor_chunks e2 p
               (blk_diff rb (req_offset (chunk_at e i)) (req_offset (chunk_at e p)))
               i 0 (blk_len rb (req_blocks (chunk_at e i))) in
   (forall t, 0 <= t < req_blocks (chunk_at e p) * blocklen rb -> R0 <= W0 + t < R1 ->
      mem e' (b + t) =
      Z.lxor (mem e (b + t)) (final_data rb stripe_index d e' i (W0 + t))) /\
   (forall t, 0 <= t < req_blocks (chunk_at e p) * blocklen rb -> ~ (R0 <= W0 + t < R1) ->
      mem e' (b + t) = mem e (b + t)) /\
   (forall a, ~ (b <= a < b + req_blocks (chunk_at e p) * blocklen rb) ->
      mem e' a = mem e a) /\
   (forall j, j <> i -> chunk_at e' j = chunk_at e j) /\
   req_offset (chunk_at e' i) = req_offset (chunk_at e i) /\
   req_blocks (chunk_at e' i) = req_blocks (chunk_at e i) /\
   index (chunk_at e' i) = index (chunk_at e i) /\
   mapped_clear rb chunk_buffers e' i /\
   0 <= iov_offset (req e') < 2 ^ 64 /\
   disks e' = disks e /\
   moves 0 e e').
Proof.
  intros Hsz Hlen Hpr Hi Hne Ci Cc Hrb Hlo Hhi Hoff Emap. cbn zeta.
  pose proof (map_step e i Hsz Hlen Hi Ci Cc Hrb Hoff) as M.
  pose proof (map_req_data_ret i e) as Hret. cbn zeta in Hret.
  rewrite Emap in M, Hret. cbn [fst] in Hret.
  destruct M as (Mm & Mmem & Mdisk & Mo & M1 & M2 & M3 & Mg).
  split.
  - intros Hnz. split; [|split].
    + apply (moves_aborted 0 e e2); [exact Mm|apply aborted_abort].
    + unfold raid5_abort_stripe_request, raid5_complete_stripe_request.
      cbn [req emit with_req status upd_status].
      apply errno_to_status_failure. destruct Hret as [?|?]; [contradiction|assumption].
    + unfold raid5_abort_stripe_request, raid5_complete_stripe_request.
      cbn [req emit with_req chunk_requests_complete_cb upd_status upd_remaining].
      destruct Mm as [_ Hcb]. exact Hcb.
  - intros Hz. destruct (Mg Hz) as (G1 & G2 & G3 & G4).
    assert (Hp2 : parity_chunk (req e2) = parity_chunk (req e)).
    { destruct Mm as [(Hs & _) _]. destruct Hs as (_ & Hp & _). exact Hp. }
    assert (HP2 : chunk_at e2 (parity_chunk (req e)) = chunk_at e (parity_chunk (req e))).
    { apply Mo. intros E. apply Hne. symmetry. exact E. }
    assert (Hpr2 : parity_ready rb chunk_buffers e2).
    { unfold parity_ready. rewrite Hp2, HP2. exact Hpr. }
    pose proof (new_data_xor d e2 i Hsz Hpr2 Hi) as X.
    cbn zeta in X. rewrite Hp2, !HP2, !M1, !M2 in X.
    specialize (X Hne Hrb Hlo Hhi G2 G3 G4).
    destruct X as (X1 & X2 & X3 & X4).
    set (e' := xor_chunks e2 (parity_chunk (req e)) _ i 0 _) in *.
    split; [intros t Ht Hin; rewrite (X1 t Ht Hin), Mmem; reflexivity|].
    split; [intros t Ht Hout; rewrite (X2 t Ht Hout), Mmem; reflexivity|].
    split; [intros a Ha; rewrite (X3 a Ha), Mmem; reflexivity|].
    split; [exact Mo|]. split; [exact M1|]. split; [exact M2|]. split; [exact M3|].
    split; [exact X4|]. split; [exact G1|]. split; [exact Mdisk|].
    apply (moves_then_quiet 0 e e2); [exact Mm|apply moves_xor].
Qed.

(** The share of a chunk in terms of its two windows. *)
Lemma parity_share_cases rmw d e e' i t :
  parity_chunk (req e') = parity_chunk (req e) ->
  chunk_at e' (parity_chunk (req e)) = chunk_at e (parity_chunk (req e)) ->
  req_offset (chunk_at e' i) = req_offset (chunk_at e i) ->
  req_blocks (chunk_at e' i) = req_blocks (chunk_at e i) ->
  index (chunk_at e' i) = i ->
  let W0 := req_offset (chunk_at e (parity_chunk (req e))) * blocklen rb in
  let R0 := req_offset (chunk_at e i) * blocklen rb in
  let R1 := (req_offset (chunk_at e i) + req_blocks (chunk_at e i)) * blocklen rb in
  (R0 <= W0 + t < R1 ->
   parity_share rb stripe_index rmw d e' i t =
   if rmw then Z.lxor (strip_byte rb stripe_index d i (W0 + t))
                      (final_data rb stripe_index d e' i (W0 + t))
   else final_data rb stripe_index d e' i (W0 + t)) /\
  (~ (R0 <= W0 + t < R1) ->
   parity_share rb stripe_index rmw d e' i t =
   if rmw then 0 else strip_byte rb stripe_index d i (W0 + t)).
Proof.
  intros Hp HP H1 H2 H3. cbn zeta. unfold parity_share. rewrite Hp, HP. split.
  - intros _. reflexivity.
  - intros Hout. rewrite final_data_out by (rewrite H1, H2; exact Hout). rewrite H3.
    destruct rmw; [apply Z.lxor_nilpotent|reflexivity].
Qed.

(** The second half of a turn: mapping and new data, after the preread
    buffer was taken in. *)
Lemma finish_step rmw d x x1 i ret e2 :
  sizes_ok rb bdev_iovs chunk_buffers ->
  Z.of_nat (length (chunks (req x))) = num_base_bdevs rb ->
  parity_ready rb chunk_buffers x ->
  0 <= i < num_base_bdevs rb -> i <> parity_chunk (req x) ->
  chunk_ready rb stripe_index chunk_buffers rmw d x i ->
  0 <= iov_offset (req x) < 2 ^ 64 ->
  req x1 = req x -> disks x1 = disks x -> moves 0 x x1 ->
  let p := parity_chunk (req x) in
  let b := chunk_buffer chunk_buffers p in
  let wlen := req_blocks (chunk_at x p) * blocklen rb in
  let W0 := req_offset (chunk_at x p) * blocklen rb in
  let P0 := preread_offset (chunk_at x i) * blocklen rb in
  let P1 := (preread_offset (chunk_at x i) + preread_blocks (chunk_at x i)) * blocklen rb in
  (forall t, 0 <= t < wlen -> P0 <= W0 + t < P1 ->
     mem x1 (b + t) = Z.lxor (mem x (b + t)) (strip_byte rb stripe_index d i (W0 + t))) ->
  (forall t, 0 <= t < wlen -> ~ (P0 <= W0 + t < P1) -> mem x1 (b + t) = mem x (b + t)) ->
  (forall a, ~ (b <= a < b + wlen) -> mem x1 a = mem x a) ->
  0 < req_blocks (chunk_at x i) ->
  raid5_chunk_map_req_data rb bdev_iovs i x1 = (ret, e2) ->
  (ret <> 0 -> step_aborted x (raid5_abort_stripe_request rb (errno_to_status ret) e2)) /\
  (ret = 0 ->
   step_done rb stripe_index chunk_buffers rmw d x
     (xor_chunks e2 p (blk_diff rb (req_offset (chunk_at x i)) (req_offset (chunk_at x p)))
        i 0 (blk_len rb (req_blocks (chunk_at x i)))) i).
Proof.
  intros Hsz Hlen Hpr Hi Hne Hcr Hoff Hreq1 Hdisk1 Hm1. cbn zeta. intros S1 S2 S3 Hpos Emap.
  destruct Hcr as (Cidx & Ci & Cc & Hpb & Hrb & Hpre & Hrq & Hpart).
  destruct (Hrq ltac:(lia)) as (Hlo & HloB & HhiB).
  assert (Hc1 : forall j, chunk_at x1 j = chunk_at x j).
  { intros j. unfold chunk_at. rewrite Hreq1. reflexivity. }
  assert (Hpr1 : parity_ready rb chunk_buffers x1).
  { unfold parity_ready, chunk_at in *. rewrite Hreq1. exact Hpr. }
  assert (A := after_map d x1 i ret e2 Hsz).
  rewrite Hreq1 in A. rewrite !Hc1 in A.
  specialize (A Hlen Hpr1 Hi Hne Ci Cc ltac:(lia) Hlo HhiB Hoff Emap).
  cbn zeta in A. rewrite ?Hreq1 in A. rewrite ?Hc1 in A.
  destruct A as [A1 A2]. split.
  - intros Hnz. destruct (A1 Hnz) as (Ab & Ast & Acb). split; [|split].
    + apply (moves_aborted 0 x x1); assumption.
    + exact Ast.
    + rewrite Acb, Hreq1. reflexivity.
  - intros Hz. destruct (A2 Hz) as (X1 & X2 & X3 & Xo & F1 & F2 & F3 & Xc & Xoff & Xd & Xm).
    set (e' := xor_chunks e2 _ _ i 0 _) in *.
    assert (Hp' : parity_chunk (req e') = parity_chunk (req x)).
    { destruct Xm as [(Hs & _) _]. destruct Hs as (_ & Hp & _).
      rewrite Hp, Hreq1. reflexivity. }
    assert (HP' : chunk_at e' (parity_chunk (req x)) = chunk_at x (parity_chunk (req x))).
    { rewrite Xo by (intros E; apply Hne; symmetry; exact E). apply Hc1. }
    split; [|split; [|split; [|split; [|split; [|split; [|split; [|split; [|split]]]]]]]].
    + intros t Ht.
      pose proof (parity_share_cases rmw d x e' i t Hp' HP' F1 F2
                    ltac:(rewrite F3; exact Cidx)) as [Sin Sout].
      cbn zeta in Sin, Sout.
      destruct (Z_le_gt_dec (req_offset (chunk_at x i) * blocklen rb)
                  (req_offset (chunk_at x (parity_chunk (req x))) * blocklen rb + t))
        as [Hge|Hlt];
      [destruct (Z_lt_le_dec
                   (req_offset (chunk_at x (parity_chunk (req x))) * blocklen rb + t)
                   ((req_offset (chunk_at x i) + req_blocks (chunk_at x i)) * blocklen rb))
         as [Hin|Hout]|].
      * (* in the request range *)
        rewrite (X1 t Ht ltac:(lia)), (Sin ltac:(lia)).
        destruct rmw.
        -- destruct Hpart as [E1 E2]. rewrite (S1 t Ht) by (rewrite E1, E2; lia).
           rewrite Z.lxor_assoc. reflexivity.
        -- destruct (Hpart (req_offset (chunk_at x (parity_chunk (req x))) * blocklen rb + t)
                       ltac:(nia)) as [[_ Hn]|[_ Hc]].
           ++ exfalso. apply Hn. lia.
           ++ rewrite (S2 t Ht Hc). reflexivity.
      * rewrite (X2 t Ht ltac:(lia)), (Sout ltac:(lia)).
        destruct rmw.
        -- destruct Hpart as [E1 E2]. rewrite (S2 t Ht) by (rewrite E1, E2; lia).
           rewrite Z.lxor_0_r. reflexivity.
        -- destruct (Hpart (req_offset (chunk_at x (parity_chunk (req x))) * blocklen rb + t)
                       ltac:(nia)) as [[Hc _]|[Hc _]]; [|lia].
           apply (S1 t Ht Hc).
      * rewrite (X2 t Ht ltac:(lia)), (Sout ltac:(lia)).
        destruct rmw.
        -- destruct Hpart as [E1 E2]. rewrite (S2 t Ht) by (rewrite E1, E2; lia).
           rewrite Z.lxor_0_r. reflexivity.
        -- destruct (Hpart (req_offset (chunk_at x (parity_chunk (req x))) * blocklen rb + t)
                       ltac:(nia)) as [[Hc _]|[Hc _]]; [|lia].
           apply (S1 t Ht Hc).
    + intros a Ha. rewrite (X3 a Ha). apply S3. exact Ha.
    + intros j Hj. rewrite (Xo j Hj). apply Hc1.
    + exact F1.
    + exact F2.
    + exact F3.
    + intros _. exact Xc.
    + exact Xoff.
    + rewrite Xd. exact Hdisk1.
    + apply (moves_trans 0 0 x x1); assumption.
Qed.

(** One turn of the reconstruction-write loop. *)
Lemma rcw_step d x i :
  sizes_ok rb bdev_iovs chunk_buffers ->
  Z.of_nat (length (chunks (req x))) = num_base_bdevs rb ->
  parity_ready rb chunk_buffers x ->
  0 <= i < num_base_bdevs rb -> i <> parity_chunk (req x) ->
  chunk_ready rb stripe_index chunk_buffers false d x i ->
  0 <= iov_offset (req x) < 2 ^ 64 ->
  let '(go, x') := reconstruct_write_step rb bdev_iovs (parity_chunk (req x)) i x in
  if go then step_done rb stripe_index chunk_buffers false d x x' i else step_aborted x x'.
Proof.
  intros Hsz Hlen Hpr Hi Hne Hcr Hoff.
  pose proof Hcr as (Cidx & Ci & Cc & Hpb & Hrb & Hpre & Hrq & Hpart).
  pose proof Hsz as (Hbl & _).
  unfold reconstruct_write_step.
  set (x1 := if preread_blocks (chunk_at x i) >? 0 then _ else x).
  assert (Hreq1 : req x1 = req x).
  { subst x1. destruct (_ >? _); reflexivity. }
  assert (Hdisk1 : disks x1 = disks x).
  { subst x1. destruct (_ >? _); reflexivity. }
  assert (Hm1 : moves 0 x x1).
  { subst x1. destruct (_ >? _); [apply moves_xor|apply moves_refl]. }
  assert (Hc1 : forall j, chunk_at x1 j = chunk_at x j).
  { intros j. unfold chunk_at. rewrite Hreq1. reflexivity. }
  assert (S :
    (forall t, 0 <= t < req_blocks (chunk_at x (parity_chunk (req x))) * blocklen rb ->
       preread_offset (chunk_at x i) * blocklen rb
         <= req_offset (chunk_at x (parity_chunk (req x))) * blocklen rb + t
         < (preread_offset (chunk_at x i) + preread_blocks (chunk_at x i)) * blocklen rb ->
       mem x1 (chunk_buffer chunk_buffers (parity_chunk (req x)) + t) =
       Z.lxor (mem x (chunk_buffer chunk_buffers (parity_chunk (req x)) + t))
         (strip_byte rb stripe_index d i
            (req_offset (chunk_at x (parity_chunk (req x))) * blocklen rb + t))) /\
    (forall t, 0 <= t < req_blocks (chunk_at x (parity_chunk (req x))) * blocklen rb ->
       ~ (preread_offset (chunk_at x i) * blocklen rb
            <= req_offset (chunk_at x (parity_chunk (req x))) * blocklen rb + t
            < (preread_offset (chunk_at x i) + preread_blocks (chunk_at x i)) * blocklen rb) ->
       mem x1 (chunk_buffer chunk_buffers (parity_chunk (req x)) + t) =
       mem x (chunk_buffer chunk_buffers (parity_chunk (req x)) + t)) /\
    (forall a, ~ (chunk_buffer chunk_buffers (parity_chunk (req x)) <= a
                  < chunk_buffer chunk_buffers (parity_chunk (req x))
                    + req_blocks (chunk_at x (parity_chunk (req x))) * blocklen rb) ->
       mem x1 a = mem x a)).
  { subst x1. destruct (preread_blocks (chunk_at x i) >? 0) eqn:E.
    - apply Z.gtb_lt in E. destruct (Hpre ltac:(lia)) as (Hiov & Hlo & _ & Hhi & Hld).
      apply (scratch_xor d x i Hsz Hpr Hi Hne Ci Cc ltac:(lia) Hiov Hlo Hhi Hld).
    - rewrite Z.gtb_ltb in E. apply Z.ltb_ge in E.
      assert (E0 : preread_blocks (chunk_at x i) = 0) by lia.
      split; [|split]; [|reflexivity|reflexivity].
      intros t _ Hr. rewrite E0, Z.add_0_r in Hr. lia. }
  destruct S as (S1 & S2 & S3).
  rewrite (Hc1 i).
  destruct (req_blocks (chunk_at x i) >? 0) eqn:Er.
  - apply Z.gtb_lt in Er.
    destruct (raid5_chunk_map_req_data rb bdev_iovs i x1) as [ret e2] eqn:Emap.
    pose proof (finish_step false d x x1 i ret e2 Hsz Hlen Hpr Hi Hne Hcr Hoff
                  Hreq1 Hdisk1 Hm1 S1 S2 S3 Er Emap) as [F1 F2].
    pose proof (map_step x1 i Hsz) as M. rewrite Emap in M.
    rewrite Hreq1, !Hc1 in M.
    destruct (M Hlen Hi Ci Cc ltac:(lia) Hoff) as (_ & _ & _ & Mo & M1 & M2 & _).
    destruct (ret =? 0) eqn:Ez; cbn [negb].
    + apply Z.eqb_eq in Ez.
      rewrite M1, M2, (Mo (parity_chunk (req x))), (Hc1 (parity_chunk (req x)))
        by (intros E; apply Hne; symmetry; exact E).
      apply F2. exact Ez.
    + apply Z.eqb_neq in Ez. apply F1. exact Ez.
  - rewrite Z.gtb_ltb in Er. apply Z.ltb_ge in Er.
    assert (E0 : req_blocks (chunk_at x i) = 0) by lia.
    split; [|split; [|split; [|split; [|split; [|split; [|split; [|split; [|split]]]]]]]].
    + intros t Ht.
      pose proof (parity_share_cases false d x x1 i t ltac:(rewrite Hreq1; reflexivity)
                    (Hc1 _) ltac:(rewrite Hc1; reflexivity) ltac:(rewrite Hc1; reflexivity)
                    ltac:(rewrite Hc1; exact Cidx)) as [_ Sout].
      cbn zeta in Sout. rewrite Sout by (rewrite E0, Z.add_0_r; lia).
      destruct (Hpart (req_offset (chunk_at x (parity_chunk (req x))) * blocklen rb + t)
                  ltac:(nia)) as [[Hc _]|[Hc _]].
      * apply (S1 t Ht Hc).
      * rewrite E0, Z.add_0_r in Hc. lia.
    + exact S3.
    + intros j _. apply Hc1.
    + rewrite Hc1. reflexivity.
    + rewrite Hc1. reflexivity.
    + rewrite Hc1. reflexivity.
    + intros Hnz. contradiction.
    + rewrite Hreq1. exact Hoff.
    + exact Hdisk1.
    + exact Hm1.
Qed.

(** One turn of the read-modify-write loop. *)
Lemma rmw_step d x i :
  sizes_ok rb bdev_iovs chunk_buffers ->
  Z.of_nat (length (chunks (req x))) = num_base_bdevs rb ->
  parity_ready rb chunk_buffers x ->
  0 <= i < num_base_bdevs rb -> i <> parity_chunk (req x) ->
  chunk_ready rb stripe_index chunk_buffers true d x i ->
  0 <= iov_offset (req x) < 2 ^ 64 ->
  let '(go, x') :=
    (let chunk := chunk_at x i in
     if req_blocks chunk =? 0 then (true, x)
     else
       let dest_offset :=
         blk_diff rb (req_offset chunk) (req_offset (chunk_at x (parity_chunk (req x)))) in
       let e := xor_chunks x (parity_chunk (req x)) dest_offset i 0
                  (blk_len rb (req_blocks chunk)) in
       let '(ret, e) := raid5_chunk_map_req_data rb bdev_iovs i e in
       if negb (ret =? 0)
       then (false, raid5_abort_stripe_request rb (errno_to_status ret) e)
       else (true, xor_chunks e (parity_chunk (req x)) dest_offset i 0
                     (blk_len rb (req_blocks (chunk_at e i))))) in
  if go then step_done rb stripe_index chunk_buffers true d x x' i else step_aborted x x'.
Proof.
  intros Hsz Hlen Hpr Hi Hne Hcr Hoff.
  pose proof Hcr as (Cidx & Ci & Cc & Hpb & Hrb & Hpre & Hrq & E1 & E2).
  pose proof Hsz as (Hbl & _).
  cbn zeta.
  destruct (Z.eqb_spec (req_blocks (chunk_at x i)) 0) as [E0|Hnz].
  - split; [|split; [|split; [|split; [|split; [|split; [|split; [|split; [|split]]]]]]]];
      try reflexivity.
    + intros t Ht.
      pose proof (parity_share_cases true d x x i t eq_refl eq_refl eq_refl eq_refl Cidx)
        as [_ Sout].
      cbn zeta in Sout. rewrite Sout by (rewrite E0, Z.add_0_r; lia).
      rewrite Z.lxor_0_r. reflexivity.
    + intros Hc. contradiction.
    + exact Hoff.
    + apply moves_refl.
  - set (x1 := xor_chunks x _ _ i 0 _).
    destruct (Hpre ltac:(lia)) as (Hiov & Hlo & _ & Hhi & Hld).
    pose proof (scratch_xor d x i Hsz Hpr Hi Hne Ci Cc ltac:(lia) Hiov Hlo Hhi Hld) as S.
    cbn zeta in S. rewrite E1, E2 in S. fold x1 in S. destruct S as (S1 & S2 & S3).
    rewrite <- E1 in S1, S2. rewrite <- E2 in S1, S2.
    destruct (raid5_chunk_map_req_data rb bdev_iovs i x1) as [ret e2] eqn:Emap.
    pose proof (finish_step true d x x1 i ret e2 Hsz Hlen Hpr Hi Hne Hcr Hoff
                  eq_refl eq_refl (moves_xor _ _ _ _ _ _) S1 S2 S3 ltac:(lia) Emap) as [F1 F2].
    pose proof (map_step x1 i Hsz) as M. rewrite Emap in M.
    assert (Hb : 0 < req_blocks (chunk_at x i) <= strip_size rb) by lia.
    destruct (M Hlen Hi Ci Cc Hb Hoff) as (_ & _ & _ & _ & _ & M2 & _).
    change (chunk_at x1 i) with (chunk_at x i) in M2.
    destruct (ret =? 0) eqn:Ez; cbn [negb].
    + apply Z.eqb_eq in Ez. rewrite M2. apply F2. exact Ez.
    + apply Z.eqb_neq in Ez. apply F1. exact Ez.
Qed.

Lemma xor_fold_snoc {A} (f : A -> Z) (l : list A) (a : A) :
  foldr Z.lxor 0 (map f (l ++ [a])) = Z.lxor (foldr Z.lxor 0 (map f l)) (f a).
Proof.
  induction l as [|b l IH]; cbn [app map foldr].
  - rewrite Z.lxor_0_r, Z.lxor_0_l. reflexivity.
  - rewrite IH, Z.lxor_assoc. reflexivity.
Qed.

Lemma xor_fold_pair {A} (f g : A -> Z) (l : list A) :
  foldr Z.lxor 0 (map (fun a => Z.lxor (f a) (g a)) l) =
  Z.lxor (foldr Z.lxor 0 (map f l)) (foldr Z.lxor 0 (map g l)).
Proof.
  induction l as [|b l IH]; cbn [map foldr]; [reflexivity|].
  rewrite IH. rewrite !Z.lxor_assoc. f_equal.
  rewrite <- !Z.lxor_assoc. f_equal. apply Z.lxor_comm.
Qed.

Lemma xor_fold_ext {A} (f g : A -> Z) (l : list A) :
  (forall a, a ∈ l -> f a = g a) ->
  foldr Z.lxor 0 (map f l) = foldr Z.lxor 0 (map g l).
Proof.
  induction l as [|b l IH]; intros H; cbn [map foldr]; [reflexivity|].
  rewrite H by apply list_elem_of_here. rewrite IH; [reflexivity|].
  intros a Ha. apply H. apply list_elem_of_further. exact Ha.
Qed.

(** The share of a chunk that was taken does not change when the
    parity buffer does. *)
Lemma share_stable rmw d x x' j t :
  parity_chunk (req x') = parity_chunk (req x) ->
  chunk_at x' (parity_chunk (req x)) = chunk_at x (parity_chunk (req x)) ->
  chunk_at x' j = chunk_at x j ->
  (req_blocks (chunk_at x j) <> 0 -> mapped_clear rb chunk_buffers x j) ->
  (forall a, ~ (chunk_buffer chunk_buffers (parity_chunk (req x)) <= a
                < chunk_buffer chunk_buffers (parity_chunk (req x))
                  + strip_size rb * blocklen rb) -> mem x' a = mem x a) ->
  parity_share rb stripe_index rmw d x' j t = parity_share rb stripe_index rmw d x j t.
Proof.
  intros Hp HP Hj Hclear Hmem. unfold parity_share. rewrite Hp, HP.
  set (k := req_offset (chunk_at x (parity_chunk (req x))) * blocklen rb + t).
  assert (F : final_data rb stripe_index d x' j k = final_data rb stripe_index d x j k).
  { unfold final_data. rewrite Hj.
    destruct ((req_offset (chunk_at x j) * blocklen rb <=? k)
              && (k <? (req_offset (chunk_at x j) + req_blocks (chunk_at x j)) * blocklen rb))
      eqn:E; [|reflexivity].
    apply andb_true_iff in E. destruct E as [E1 E2].
    apply Z.leb_le in E1. apply Z.ltb_lt in E2.
    apply Hmem. apply Hclear; [|lia].
    intros E0. rewrite E0 in E2. lia. }
  rewrite F. reflexivity.
Qed.

(** A chunk that was not taken yet is as ready as it was. *)
Lemma chunk_ready_frame rmw d x0 x j :
  chunk_ready rb stripe_index chunk_buffers rmw d x0 j ->
  parity_chunk (req x) = parity_chunk (req x0) ->
  chunk_at x (parity_chunk (req x0)) = chunk_at x0 (parity_chunk (req x0)) ->
  chunk_at x j = chunk_at x0 j ->
  (forall t, 0 <= t < preread_blocks (chunk_at x0 j) * blocklen rb ->
     mem x (chunk_buffer chunk_buffers j + t) = mem x0 (chunk_buffer chunk_buffers j + t)) ->
  chunk_ready rb stripe_index chunk_buffers rmw d x j.
Proof.
  intros (C1 & C2 & C3 & C4 & C5 & Hpre & C7 & C8) Hp HP Hj Hmem.
  unfold chunk_ready. rewrite Hp, HP, Hj.
  split; [exact C1|]. split; [exact C2|]. split; [exact C3|]. split; [exact C4|].
  split; [exact C5|]. split; [|split; [exact C7|exact C8]].
  intros Hnz. destruct (Hpre Hnz) as (P1 & P2 & P3 & P4 & Hld).
  split; [exact P1|]. split; [exact P2|]. split; [exact P3|]. split; [exact P4|].
  unfold preread_loaded in *. rewrite Hj. intros t Ht.
  rewrite Hmem by exact Ht. apply Hld. exact Ht.
Qed.

Lemma NoDup_data_positions n p : NoDup (data_positions n p).
Proof. unfold data_positions. apply NoDup_filter, NoDup_seqZ. Qed.

Lemma moves_shape k x0 x :
  moves k x0 x ->
  parity_chunk (req x) = parity_chunk (req x0) /\
  length (chunks (req x)) = length (chunks (req x0)) /\
  degraded_chunk (req x) = degraded_chunk (req x0) /\
  chunk_requests_complete_cb (req x) = chunk_requests_complete_cb (req x0) /\
  status (req x) = status (req x0).
Proof.
  intros [B Hc]. destruct B as (Sh & _ & Hs & _).
  destruct Sh as (Hl & Hp & _ & _ & Hd & _). tauto.
Qed.

(** A compute loop, turn by turn. *)
Lemma compute_loop rmw d (body : Z -> engine -> bool * engine) x0 :
  sizes_ok rb bdev_iovs chunk_buffers ->
  Z.of_nat (length (chunks (req x0))) = num_base_bdevs rb ->
  parity_ready rb chunk_buffers x0 ->
  0 <= iov_offset (req x0) < 2 ^ 64 ->
  (forall i, i ∈ data_positions (num_base_bdevs rb) (parity_chunk (req x0)) ->
     chunk_ready rb stripe_index chunk_buffers rmw d x0 i) ->
  (forall x i,
     parity_chunk (req x) = parity_chunk (req x0) ->
     Z.of_nat (length (chunks (req x))) = num_base_bdevs rb ->
     parity_ready rb chunk_buffers x ->
     0 <= i < num_base_bdevs rb -> i <> parity_chunk (req x) ->
     chunk_ready rb stripe_index chunk_buffers rmw d x i ->
     0 <= iov_offset (req x) < 2 ^ 64 ->
     let '(go, x') := body i x in
     if go then step_done rb stripe_index chunk_buffers rmw d x x' i
     else step_aborted x x') ->
  let '(go, x') := for_each (each_data_chunk rb (req x0)) body x0 in
  if go
  then loop_inv rb stripe_index chunk_buffers rmw d x0
         (data_positions (num_base_bdevs rb) (parity_chunk (req x0))) x'
  else step_aborted x0 x'.
Proof.
  intros Hsz Hlen Hpr Hoff Hready Hbody.
  rewrite each_data_chunk_spec.
  pose proof Hsz as (Hbl & HS & Hfit & _ & _ & Hapart).
  pose proof Hpr as (HPr & _ & _ & _ & Hw0 & Hw1 & Hw2).
  apply (for_each_prefix
           (loop_inv rb stripe_index chunk_buffers rmw d x0) (step_aborted x0)).
  - (* before the first turn *)
    split; [apply moves_refl|]. split; [reflexivity|]. split; [reflexivity|].
    split; [reflexivity|]. split; [intros j Hj; inversion Hj|].
    split; [|split; [exact Hoff|reflexivity]].
    intros t _. cbn [map foldr]. rewrite Z.lxor_0_r. reflexivity.
  - intros pre i post x E (M & HP & Hrest & Hmem & Hpre & Hacc & Hoffx & Hdisk).
    destruct (moves_shape 0 x0 x M) as (Hp & Hl & _ & Hcb & _).
    assert (Hin : i ∈ data_positions (num_base_bdevs rb) (parity_chunk (req x0))).
    { rewrite E. apply elem_of_app. right. apply list_elem_of_here. }
    pose proof Hin as Hin'. apply elem_of_data_positions in Hin'. destruct Hin' as [Hi Hne].
    assert (Hnd : i ∉ pre).
    { pose proof (NoDup_data_positions (num_base_bdevs rb) (parity_chunk (req x0))) as ND.
      rewrite E in ND. apply NoDup_app in ND. destruct ND as (_ & ND & _).
      intros Hc. apply (ND i Hc). apply list_elem_of_here. }
    assert (Hlenx : Z.of_nat (length (chunks (req x))) = num_base_bdevs rb).
    { rewrite Hl. exact Hlen. }
    assert (Hprx : parity_ready rb chunk_buffers x).
    { unfold parity_ready in *. rewrite Hp, HP. exact Hpr. }
    assert (Hcrx : chunk_ready rb stripe_index chunk_buffers rmw d x i).
    { apply (chunk_ready_frame rmw d x0 x i (Hready i Hin) Hp HP (Hrest i Hnd)).
      intros t Ht. apply Hmem.
      pose proof (Hready i Hin) as (_ & _ & _ & Hpb & _).
      destruct (buffers_apart_spec i Hapart Hi) as (_ & Hothers & _).
      destruct (Hothers (parity_chunk (req x0)) HPr Hne) as [Ho|Ho]; nia. }
    specialize (Hbody x i Hp Hlenx Hprx Hi ltac:(rewrite Hp; exact Hne) Hcrx Hoffx).
    destruct (body i x) as [go x']. destruct go.
    + destruct Hbody as (D1 & D2 & D3 & D4 & D5 & D6 & D7 & D8 & D9 & D10).
      cbn zeta in D1, D2. rewrite Hp, HP in D1, D2.
      destruct (moves_shape 0 x x' D10) as (Hp' & _).
      assert (HP' : chunk_at x' (parity_chunk (req x0)) = chunk_at x (parity_chunk (req x0))).
      { apply D3. intros Ec. apply Hne. symmetry. exact Ec. }
      split; [apply (moves_trans 0 0 x0 x x'); assumption|].
      split; [rewrite HP'; exact HP|].
      split.
      { intros j Hj. rewrite D3.
        - apply Hrest. intros Hc. apply Hj. apply elem_of_app. left. exact Hc.
        - intros Ec. apply Hj. apply elem_of_app. right. rewrite Ec. apply list_elem_of_here. }
      split; [intros a Ha; rewrite D2 by exact Ha; apply Hmem; exact Ha|].
      split.
      { intros j Hj. apply elem_of_app in Hj. destruct Hj as [Hj|Hj].
        - assert (Hji : j <> i) by (intros Ec; apply Hnd; rewrite <- Ec; exact Hj).
          rewrite (D3 j Hji). destruct (Hpre j Hj) as (Q1 & Q2 & Q3 & Q4).
          split; [exact Q1|]. split; [exact Q2|]. split; [exact Q3|].
          intros Hnz. specialize (Q4 Hnz). unfold mapped_clear in *.
          rewrite (D3 j Hji). rewrite Hp', Hp. rewrite Hp in Q4. exact Q4.
        - apply list_elem_of_singleton in Hj. subst j.
          rewrite D4, D5, D6, (Hrest i Hnd).
          split; [reflexivity|]. split; [reflexivity|]. split; [reflexivity|].
          intros Hnz. apply D7. rewrite (Hrest i Hnd). exact Hnz. }
      split; [|split; [exact D8|rewrite D9; exact Hdisk]].
      intros t Ht. rewrite (D1 t Ht), (Hacc t Ht), xor_fold_snoc.
      rewrite <- Z.lxor_assoc. f_equal. f_equal.
      apply xor_fold_ext. intros j Hj.
      assert (Hji : j <> i) by (intros Ec; apply Hnd; rewrite <- Ec; exact Hj).
      symmetry. apply share_stable.
      * exact Hp'.
      * rewrite Hp. exact HP'.
      * apply D3. exact Hji.
      * destruct (Hpre j Hj) as (_ & Q2 & _ & Q4). intros Hnz. apply Q4.
        rewrite <- Q2. exact Hnz.
      * intros a Ha. apply D2. rewrite Hp in Ha. nia.
    + destruct Hbody as (A1 & A2 & A3). split; [|split].
      * apply (moves_aborted 0 x0 x); assumption.
      * exact A2.
      * rewrite A3. exact Hcb.
Qed.

(** The parity chunk once its window is set. *)
Lemma window_chunk e :
  Z.of_nat (length (chunks (req e))) = num_base_bdevs rb -> request_ok rb e ->
  chunk_at (set_parity_window rb e) (parity_chunk (req e)) =
  chunk_set_req (chunk_at e (parity_chunk (req e)))
    (if first_data_chunk (req e) =? last_data_chunk (req e)
     then req_offset (chunk_at e (first_data_chunk (req e))) else 0)
    (if first_data_chunk (req e) =? last_data_chunk (req e)
     then req_blocks (chunk_at e (first_data_chunk (req e))) else strip_size rb).
Proof.
  intros Hlen (HP & HF & Hne & Hb & Hs). unfold set_parity_window.
  destruct (first_data_chunk (req e) =? last_data_chunk (req e)).
  - unfold chunk_at, store_chunk. cbn [req with_req].
    rewrite !get_set_chunk_eq by (rewrite ?set_chunk_length; lia).
    rewrite get_set_chunk_ne by exact (not_eq_sym Hne). reflexivity.
  - unfold chunk_at, store_chunk. cbn [req with_req].
    rewrite get_set_chunk_eq by lia. reflexivity.
Qed.

(** What the planning loop leaves of the chunk it was given. *)
Lemma planned_fields bal w i :
  let c := planned_chunk rb chunk_buffers bal w i in
  let c0 := get_chunk w i in
  index c = index c0 /\ iovs c = iovs c0 /\ iovcnt c = iovcnt c0 /\
  req_offset c = req_offset c0 /\ req_blocks c = req_blocks c0 /\
  (preread_offset c, preread_blocks c) = stripe_write_preread rb bal w i /\
  (preread_blocks c <> 0 \/ i = parity_chunk w ->
   iov c = {| iov_base := chunk_buffer chunk_buffers (index c0);
              iov_len := if i =? parity_chunk w then blk_len rb (req_blocks c0)
                         else blk_len rb (preread_blocks c) |}) /\
  (preread_blocks c <> 0 -> request_type c = CHUNK_PREREAD).
Proof.
  cbn zeta. unfold planned_chunk.
  destruct (stripe_write_preread rb bal w i) as [po pb].
  destruct (Z.eqb_spec pb 0) as [E0|Hnz];
    destruct (Z.eqb_spec i (parity_chunk w)) as [Ep|Hnp]; cbn;
    repeat split; try reflexivity; intros H; try reflexivity;
    try (destruct H as [H|H]; congruence); congruence.
Qed.

(** The parity chunk as planned. *)
Lemma parity_chunk_plan e :
  write_request_ok rb bdev_iovs stripe_index chunk_buffers e ->
  let w := set_parity_window rb e in
  let bal := preread_balance rb w in
  let pc := planned_chunk rb chunk_buffers bal (req w) (parity_chunk (req e)) in
  index pc = parity_chunk (req e) /\ iovs pc = IovsEmbedded /\ iovcnt pc = 1 /\
  iov pc = {| iov_base := chunk_buffer chunk_buffers (parity_chunk (req e));
              iov_len := req_blocks pc * blocklen rb |} /\
  0 <= req_offset pc /\ 0 < req_blocks pc /\ req_offset pc + req_blocks pc <= strip_size rb /\
  req_offset pc =
    (if first_data_chunk (req e) =? last_data_chunk (req e)
     then req_offset (chunk_at e (first_data_chunk (req e))) else 0) /\
  req_blocks pc =
    (if first_data_chunk (req e) =? last_data_chunk (req e)
     then req_blocks (chunk_at e (first_data_chunk (req e))) else strip_size rb) /\
  ((bal >? 0) = true ->
   preread_offset pc = req_offset pc /\ preread_blocks pc = req_blocks pc).
Proof.
  intros (Hok & Hfresh & Hreq & Hbl & Hfit & Hshl & Hwf & Htot & Hoff & Hnodeg & Hfr & Hsh
          & Hap). cbn zeta.
  destruct Hok as (Hlen & _). pose proof Hreq as (HP & HF & Hne & HbF & HS).
  pose proof (set_parity_window_frame_fields rb e) as W. cbn zeta in W.
  destruct W as (_ & _ & _ & _ & _ & _ & _ & _ & _ & _ & _ & Wp & Wf & Wl & _ & _ & _ & _ & Wj).
  pose proof (window_chunk e Hlen Hreq) as WP.
  set (w := set_parity_window rb e) in *.
  set (bal := preread_balance rb w).
  pose proof (planned_fields bal (req w) (parity_chunk (req e))) as PF. cbn zeta in PF.
  change (get_chunk (req w) (parity_chunk (req e)))
    with (chunk_at w (parity_chunk (req e))) in PF.
  rewrite WP, Wp, Z.eqb_refl in PF.
  destruct PF as (F1 & F2 & F3 & F4 & F5 & F6 & F7 & _).
  cbn [index iovs iovcnt req_offset req_blocks chunk_set_req] in F1, F2, F3, F4, F5, F7.
  pose proof (forallb_elem_of _ _ (parity_chunk (req e)) Hfr
                ltac:(apply elem_of_seqZ; lia)) as Fr.
  unfold chunk_fresh_ok in Fr. apply andb_true_iff in Fr. destruct Fr as [Fr Fr3].
  apply andb_true_iff in Fr. destruct Fr as [Fr1 Fr2].
  apply Z.eqb_eq in Fr1. apply Z.eqb_eq in Fr2.
  change (get_chunk (req e) (parity_chunk (req e)))
    with (chunk_at e (parity_chunk (req e))) in Fr1, Fr2, Fr3.
  pose proof (forallb_elem_of _ _ (first_data_chunk (req e)) Hsh
                ltac:(apply elem_of_data_positions; split; [lia|exact Hne])) as Sh.
  unfold chunk_shape_ok in Sh. apply andb_true_iff in Sh. destruct Sh as [Sh _].
  apply andb_true_iff in Sh. destruct Sh as [Sh Sh3].
  apply andb_true_iff in Sh. destruct Sh as [Sh1 Sh2].
  apply Z.leb_le in Sh1. apply Z.leb_le in Sh2. apply Z.leb_le in Sh3.
  change (get_chunk (req e) (first_data_chunk (req e)))
    with (chunk_at e (first_data_chunk (req e))) in Sh1, Sh2, Sh3.
  assert (Hwb : 0 < req_blocks (planned_chunk rb chunk_buffers bal (req w)
                                  (parity_chunk (req e))) <= strip_size rb).
  { rewrite F5. destruct (first_data_chunk (req e) =? last_data_chunk (req e)); lia. }
  split; [rewrite F1; exact Fr1|]. split.
  { rewrite F2. destruct (iovs (chunk_at e (parity_chunk (req e)))); try discriminate Fr3.
    reflexivity. }
  split; [rewrite F3; exact Fr2|]. split.
  { rewrite (F7 ltac:(right; reflexivity)). rewrite Fr1. f_equal.
    rewrite <- F5. apply blk_len_small; [exact Hbl|exact Hfit|lia]. }
  split; [rewrite F4; destruct (first_data_chunk (req e) =? last_data_chunk (req e)); lia|].
  split; [lia|]. split.
  { rewrite F4, F5. destruct (first_data_chunk (req e) =? last_data_chunk (req e)); lia. }
  split; [exact F4|]. split; [exact F5|].
  intros Hb. unfold stripe_write_preread in F6. rewrite Hb in F6.
  change (get_chunk (req w) (parity_chunk (req e)))
    with (chunk_at w (parity_chunk (req e))) in F6.
  rewrite WP in F6. cbn [req_offset req_blocks chunk_set_req] in F6.
  injection F6 as E1 E2. rewrite E1, E2, F4, F5. split; reflexivity.
Qed.

(** A data chunk as planned: in a read-modify-write its preread
    window is the window asked of it, and in a reconstruction write
    the two windows tile the parity window. *)
Lemma data_chunk_plan e i :
  write_request_ok rb bdev_iovs stripe_index chunk_buffers e ->
  0 <= i < num_base_bdevs rb -> i <> parity_chunk (req e) ->
  let w := set_parity_window rb e in
  let bal := preread_balance rb w in
  let c := planned_chunk rb chunk_buffers bal (req w) i in
  let pc := planned_chunk rb chunk_buffers bal (req w) (parity_chunk (req e)) in
  index c = i /\ iovs c = IovsEmbedded /\ iovcnt c = 1 /\
  0 <= preread_blocks c <= strip_size rb /\ 0 <= req_blocks c <= strip_size rb /\
  (preread_blocks c <> 0 ->
   iov c = {| iov_base := chunk_buffer chunk_buffers i;
              iov_len := preread_blocks c * blocklen rb |} /\
   request_type c = CHUNK_PREREAD) /\
  (if bal >? 0
   then preread_offset c = req_offset c /\ preread_blocks c = req_blocks c /\
        (req_blocks c <> 0 ->
         req_offset pc <= req_offset c /\
         req_offset c + req_blocks c <= req_offset pc + req_blocks pc)
   else
     (preread_blocks c = 0 /\ req_offset c = req_offset pc /\ req_blocks c = req_blocks pc) \/
     (req_blocks c = 0 /\ preread_offset c = req_offset pc /\
      preread_blocks c = req_blocks pc) \/
     (preread_offset c = req_offset pc /\
      preread_offset c + preread_blocks c = req_offset c /\
      req_offset c + req_blocks c = req_offset pc + req_blocks pc) \/
     (req_offset c = req_offset pc /\
      req_offset c + req_blocks c = preread_offset c /\
      preread_offset c + preread_blocks c = req_offset pc + req_blocks pc)).
Proof.
  intros Hwr Hi Hne.
  pose proof (parity_chunk_plan e Hwr) as PP. cbn zeta in PP.
  destruct PP as (_ & _ & _ & _ & Pw0 & Pw1 & Pw2 & Pwo & Pwb & _).
  destruct Hwr as (Hok & Hfresh & Hreq & Hbl & Hfit & Hshl & Hwf & Htot & Hoff & Hnodeg & Hfr
                   & Hsh & Hap). cbn zeta.
  destruct Hok as (Hlen & _). pose proof Hreq as (HP & HF & HneF & HbF & HS).
  pose proof (set_parity_window_frame_fields rb e) as W. cbn zeta in W.
  destruct W as (_ & _ & _ & _ & _ & _ & _ & _ & _ & _ & _ & Wp & Wf & Wl & _ & _ & _ & _ & Wj).
  pose proof (window_chunk e Hlen Hreq) as WP.
  set (w := set_parity_window rb e) in *.
  set (bal := preread_balance rb w) in *.
  set (pc := planned_chunk rb chunk_buffers bal (req w) (parity_chunk (req e))) in *.
  pose proof (planned_fields bal (req w) i) as PF. cbn zeta in PF.
  change (get_chunk (req w) i) with (chunk_at w i) in PF.
  rewrite (Wj i Hne), Wp in PF.
  destruct (Z.eqb_spec i (parity_chunk (req e))) as [Ec|_]; [contradiction|].
  destruct PF as (F1 & F2 & F3 & F4 & F5 & F6 & F7 & F8).
  pose proof (forallb_elem_of _ _ i Hfr ltac:(apply elem_of_seqZ; lia)) as Fr.
  unfold chunk_fresh_ok in Fr. apply andb_true_iff in Fr. destruct Fr as [Fr Fr3].
  apply andb_true_iff in Fr. destruct Fr as [Fr1 Fr2].
  apply Z.eqb_eq in Fr1. apply Z.eqb_eq in Fr2.
  change (get_chunk (req e) i) with (chunk_at e i) in Fr1, Fr2, Fr3.
  pose proof (forallb_elem_of _ _ i Hsh
                ltac:(apply elem_of_data_positions; split; [lia|exact Hne])) as Sh.
  unfold chunk_shape_ok in Sh. apply andb_true_iff in Sh. destruct Sh as [Sh Sh4].
  apply andb_true_iff in Sh. destruct Sh as [Sh Sh3].
  apply andb_true_iff in Sh. destruct Sh as [Sh1 Sh2].
  apply Z.leb_le in Sh1. apply Z.leb_le in Sh2. apply Z.leb_le in Sh3.
  change (get_chunk (req e) i) with (chunk_at e i) in Sh1, Sh2, Sh3, Sh4.
  unfold stripe_write_preread in F6. rewrite Wp, Wf, Wl in F6.
  change (get_chunk (req w) i) with (chunk_at w i) in F6.
  change (get_chunk (req w) (parity_chunk (req e)))
    with (chunk_at w (parity_chunk (req e))) in F6.
  rewrite (Wj i Hne), WP in F6. cbn [req_offset req_blocks chunk_set_req] in F6.
  destruct (Z.eqb_spec i (parity_chunk (req e))) as [Ec|_]; [contradiction|].
  set (c := planned_chunk rb chunk_buffers bal (req w) i) in *.
  symmetry in F4, F5.
  rewrite F4 in Sh1, Sh3, Sh4, F6. rewrite F5 in Sh2, Sh3, Sh4, F6.
  assert (HS64 : strip_size rb < 2 ^ 64) by nia.
  assert (Hpre : 0 <= preread_blocks c <= strip_size rb /\
    (if bal >? 0
     then preread_offset c = req_offset c /\ preread_blocks c = req_blocks c /\
          (req_blocks c <> 0 ->
           req_offset pc <= req_offset c /\
           req_offset c + req_blocks c <= req_offset pc + req_blocks pc)
     else
       (preread_blocks c = 0 /\ req_offset c = req_offset pc /\
        req_blocks c = req_blocks pc) \/
       (req_blocks c = 0 /\ preread_offset c = req_offset pc /\
        preread_blocks c = req_blocks pc) \/
       (preread_offset c = req_offset pc /\
        preread_offset c + preread_blocks c = req_offset c /\
        req_offset c + req_blocks c = req_offset pc + req_blocks pc) \/
       (req_offset c = req_offset pc /\
        req_offset c + req_blocks c = preread_offset c /\
        preread_offset c + preread_blocks c = req_offset pc + req_blocks pc))).
  { destruct (bal >? 0).
    - injection F6 as E1 E2. split; [lia|]. split; [exact E1|]. split; [exact E2|].
      intros Hnz. rewrite Pwo, Pwb.
      destruct (first_data_chunk (req e) =? last_data_chunk (req e)).
      + apply orb_true_iff in Sh4. destruct Sh4 as [Sh4|Sh4].
        * apply Z.eqb_eq in Sh4. rewrite <- Sh4. rewrite F4, F5. lia.
        * apply Z.eqb_eq in Sh4. contradiction.
      + lia.
    - rewrite Pwo, Pwb.
      destruct (first_data_chunk (req e) =? last_data_chunk (req e)).
      + apply orb_true_iff in Sh4.
        destruct (Z.eqb_spec (req_blocks c) 0) as [E0|Hnz]; cbn [negb] in F6;
          injection F6 as E1 E2.
        * split; [lia|]. right. left. rewrite E1, E2. tauto.
        * split; [lia|]. left. destruct Sh4 as [Sh4|Sh4].
          -- apply Z.eqb_eq in Sh4. rewrite <- Sh4. rewrite F4, F5. tauto.
          -- discriminate Sh4.
      + apply orb_true_iff in Sh4.
        destruct (Z.eqb_spec (req_offset c) 0) as [E0|Hnz]; cbn [negb] in F6;
          injection F6 as E1 E2.
        * rewrite u64_small in E2 by lia. split; [lia|]. right. right. right. lia.
        * destruct Sh4 as [Sh4|Sh4]; [discriminate Sh4|]. apply Z.eqb_eq in Sh4.
          split; [lia|]. right. right. left. lia. }
  destruct Hpre as [Hpb Hcase].
  split; [rewrite F1; exact Fr1|]. split.
  { rewrite F2. destruct (iovs (chunk_at e i)); try discriminate Fr3. reflexivity. }
  split; [rewrite F3; exact Fr2|]. split; [exact Hpb|]. split; [lia|].
  split; [|exact Hcase].
  intros Hnz. split; [|apply F8; exact Hnz].
  rewrite (F7 ltac:(left; exact Hnz)). rewrite Fr1. f_equal.
  apply blk_len_small; [exact Hbl|exact Hfit|exact Hpb].
Qed.

Lemma tiling_bytes bl po pb ro rbk wo wb :
  0 < bl -> 0 <= pb -> 0 <= rbk -> 0 <= wb ->
  (pb = 0 /\ ro = wo /\ rbk = wb) \/
  (rbk = 0 /\ po = wo /\ pb = wb) \/
  (po = wo /\ po + pb = ro /\ ro + rbk = wo + wb) \/
  (ro = wo /\ ro + rbk = po /\ po + pb = wo + wb) ->
  forall j, wo * bl <= j < (wo + wb) * bl ->
    (po * bl <= j < (po + pb) * bl /\ ~ (ro * bl <= j < (ro + rbk) * bl)) \/
    (ro * bl <= j < (ro + rbk) * bl /\ ~ (po * bl <= j < (po + pb) * bl)).
Proof.
  intros Hbl Hpb Hrb Hwb T j Hj.
  destruct T as [(E1 & E2 & E3)|[(E1 & E2 & E3)|[(E1 & E2 & E3)|(E1 & E2 & E3)]]].
  - subst pb ro rbk. lia.
  - subst rbk po pb. lia.
  - subst po. subst ro. assert (wb = pb + rbk) by lia. subst wb.
    pose proof (Z.mul_nonneg_nonneg pb bl Hpb ltac:(lia)).
    pose proof (Z.mul_nonneg_nonneg rbk bl Hrb ltac:(lia)). lia.
  - subst ro. subst po. assert (wb = rbk + pb) by lia. subst wb.
    pose proof (Z.mul_nonneg_nonneg pb bl Hpb ltac:(lia)).
    pose proof (Z.mul_nonneg_nonneg rbk bl Hrb ltac:(lia)). lia.
Qed.

(** When the last preread is done, the chunks are ready for the
    compute loop. *)
Lemma plan_ready e d x :
  write_request_ok rb bdev_iovs stripe_index chunk_buffers e ->
  let w := set_parity_window rb e in
  let bal := preread_balance rb w in
  preread_phase rb stripe_index chunk_buffers bal (req w) d x ->
  inflight x = [] -> waitq x = [] ->
  sizes_ok rb bdev_iovs chunk_buffers /\
  parity_chunk (req x) = parity_chunk (req e) /\
  parity_ready rb chunk_buffers x /\
  (forall i, i ∈ data_positions (num_base_bdevs rb) (parity_chunk (req x)) ->
     chunk_ready rb stripe_index chunk_buffers (bal >? 0) d x i) /\
  ((bal >? 0) = true ->
   forall t, 0 <= t < req_blocks (chunk_at x (parity_chunk (req x))) * blocklen rb ->
     mem x (chunk_buffer chunk_buffers (parity_chunk (req x)) + t) =
     strip_byte rb stripe_index d (parity_chunk (req x))
       (req_offset (chunk_at x (parity_chunk (req x))) * blocklen rb + t)).
Proof.
  intros Hwr. cbn zeta.
  intros (Hlen & Hchunks & Hp & Hdeg & Hcb & Hst & Hd & Hrem & Hcon & Htr & Hcov & Hoffx)
         Hin Hwq.
  pose proof (parity_chunk_plan e Hwr) as PP. cbn zeta in PP.
  destruct PP as (Pi & Pv & Pc & Piov & Pw0 & Pw1 & Pw2 & _ & _ & Prmw).
  pose proof (fun i Hi Hne => data_chunk_plan e i Hwr Hi Hne) as DP. cbn zeta in DP.
  pose proof Hwr as (Hok & Hfresh & Hreq & Hbl & Hfit & Hshl & Hwf & Htot & Hoff & Hnodeg
                     & Hfr & Hsh & Hap).
  pose proof Hreq as (HP & HF & HneF & HbF & HS).
  pose proof (set_parity_window_frame_fields rb e) as W. cbn zeta in W.
  destruct W as (_ & _ & _ & _ & _ & _ & _ & _ & _ & _ & _ & Wp & _).
  rewrite Wp in Hp.
  set (w := set_parity_window rb e) in *.
  set (bal := preread_balance rb w) in *.
  assert (Hld : forall i, 0 <= i < num_base_bdevs rb -> preread_blocks (chunk_at x i) <> 0 ->
                  preread_loaded rb stripe_index chunk_buffers d x i).
  { intros i Hi Hnz. destruct (Hcov i Hi Hnz) as [H|[(io & Hio & _)|H]]; [exact H| |].
    - rewrite Hin in Hio. inversion Hio.
    - rewrite Hwq in H. inversion H. }
  split; [exact (conj Hbl (conj HS (conj Hfit (conj Hwf (conj Htot Hap)))))|].
  split; [exact Hp|].
  rewrite Hp. split; [|split].
  - unfold parity_ready. rewrite Hp, (Hchunks _ HP).
    repeat split; try assumption; lia.
  - intros i Hi. apply elem_of_data_positions in Hi. destruct Hi as [Hi Hne].
    destruct (DP i Hi Hne) as (D1 & D2 & D3 & D4 & D5 & D6 & D7).
    pose proof (Hld i Hi) as Hldi.
    unfold chunk_ready. rewrite Hp, (Hchunks i Hi), (Hchunks _ HP).
    rewrite (Hchunks i Hi) in Hldi.
    set (c := planned_chunk rb chunk_buffers bal (req w) i) in *.
    set (pc := planned_chunk rb chunk_buffers bal (req w) (parity_chunk (req e))) in *.
    assert (Hins : (preread_blocks c <> 0 ->
                    req_offset pc <= preread_offset c /\
                    preread_offset c + preread_blocks c <= req_offset pc + req_blocks pc) /\
                   (req_blocks c <> 0 ->
                    req_offset pc <= req_offset c /\
                    req_offset c + req_blocks c <= req_offset pc + req_blocks pc)).
    { destruct (bal >? 0); [lia|]. lia. }
    destruct Hins as [Hi1 Hi2].
    split; [exact D1|]. split; [exact D2|]. split; [exact D3|]. split; [exact D4|].
    split; [exact D5|]. split; [|split].
    + intros Hnz. destruct (D6 Hnz) as [D6a _]. destruct (Hi1 Hnz) as [I1 I2].
      split; [exact D6a|]. split; [exact I1|].
      split; [apply Z.mul_le_mono_nonneg_r; lia|].
      split; [apply Z.mul_le_mono_nonneg_r; lia|]. apply Hldi. exact Hnz.
    + intros Hnz. destruct (Hi2 Hnz) as [I1 I2].
      split; [exact I1|]. split; apply Z.mul_le_mono_nonneg_r; lia.
    + destruct (bal >? 0); [tauto|].
      apply tiling_bytes; [exact Hbl|lia|lia|lia|exact D7].
  - intros Hb t Ht. destruct (Prmw Hb) as [E1 E2].
    rewrite (Hchunks _ HP) in Ht |- *.
    set (pc := planned_chunk rb chunk_buffers bal (req w) (parity_chunk (req e))) in *.
    pose proof (Hld _ HP) as L. rewrite (Hchunks _ HP) in L. fold pc in L.
    specialize (L ltac:(lia)). unfold preread_loaded in L.
    rewrite (Hchunks _ HP) in L. fold pc in L. rewrite E1, E2 in L. apply L. exact Ht.
Qed.

(** After the last turn the parity buffer holds the parity. *)
Lemma loop_parity rmw d x0 x :
  sizes_ok rb bdev_iovs chunk_buffers ->
  parity_ready rb chunk_buffers x0 ->
  loop_inv rb stripe_index chunk_buffers rmw d x0
    (data_positions (num_base_bdevs rb) (parity_chunk (req x0))) x ->
  (forall t, 0 <= t < req_blocks (chunk_at x0 (parity_chunk (req x0))) * blocklen rb ->
     mem x0 (chunk_buffer chunk_buffers (parity_chunk (req x0)) + t) =
     if rmw
     then strip_byte rb stripe_index d (parity_chunk (req x0))
            (req_offset (chunk_at x0 (parity_chunk (req x0))) * blocklen rb + t)
     else 0) ->
  (rmw = true -> stripe_consistent rb stripe_index d (parity_chunk (req x0))) ->
  parity_holds rb stripe_index d x.
Proof.
  intros Hsz Hpr (M & HP & _ & _ & _ & Hacc & _ & _) Hm0 Hcons.
  destruct (moves_shape 0 x0 x M) as (Hp & _).
  destruct Hsz as (Hbl & HS & _).
  destruct Hpr as (_ & Pv & Pc & Piov & Pw0 & Pw1 & Pw2).
  unfold parity_holds. rewrite Hp, HP. intros t Ht.
  rewrite (chunk_iovs_embedded _ Pv Pc), Piov, iovs_addrs_single, nth_seqZ by exact Ht.
  rewrite (Hacc t Ht), (Hm0 t Ht).
  destruct rmw.
  - unfold parity_share. rewrite Hp, HP.
    rewrite (xor_fold_pair
               (fun j => strip_byte rb stripe_index d j
                           (req_offset (chunk_at x0 (parity_chunk (req x0))) * blocklen rb + t))
               (fun j => final_data rb stripe_index d x j
                           (req_offset (chunk_at x0 (parity_chunk (req x0))) * blocklen rb + t))).
    rewrite (Hcons eq_refl) by nia.
    rewrite <- Z.lxor_assoc, Z.lxor_nilpotent, Z.lxor_0_l. reflexivity.
  - unfold parity_share. rewrite Hp, HP, Z.lxor_0_l. reflexivity.
Qed.

(** The parity depends on the memory and, of the chunks, on their
    request windows, their members and their vectors. *)
Lemma parity_holds_ext d x x' :
  mem x' = mem x -> parity_chunk (req x') = parity_chunk (req x) ->
  (forall j, req_offset (chunk_at x' j) = req_offset (chunk_at x j) /\
             req_blocks (chunk_at x' j) = req_blocks (chunk_at x j) /\
             index (chunk_at x' j) = index (chunk_at x j) /\
             chunk_iovs (chunk_at x' j) = chunk_iovs (chunk_at x j)) ->
  parity_holds rb stripe_index d x -> parity_holds rb stripe_index d x'.
Proof.
  intros Hm Hp Hc H. unfold parity_holds in *. rewrite Hm, Hp.
  destruct (Hc (parity_chunk (req x))) as (P1 & P2 & _ & P4). rewrite P1, P2, P4.
  intros t Ht. rewrite (H t Ht). apply xor_fold_ext. intros j _.
  unfold final_data. destruct (Hc j) as (J1 & J2 & J3 & J4).
  rewrite Hm, J1, J2, J3, J4. reflexivity.
Qed.

(** Where a submission puts the chunk. *)
Lemma submit_inner_queues i e :
  let e' := _raid5_submit_chunk_request rb stripe_index i e in
  (inflight e' = inflight e ++ [chunk_bdev_io rb stripe_index i (chunk_at e i)] /\
   waitq e' = waitq e) \/
  (inflight e' = inflight e /\ waitq e' = waitq e ++ [i]) \/
  (inflight e' = inflight e /\ waitq e' = waitq e).
Proof.
  unfold _raid5_submit_chunk_request. cbn zeta.
  destruct (hd 0 (submit_script e) =? 0);
    [|destruct (hd 0 (submit_script e) =? - ENOMEM)]; cbn; auto.
Qed.

Lemma bio_type_write i c :
  request_type c = CHUNK_WRITE ->
  bio_type (chunk_bdev_io rb stripe_index i c) = SPDK_BDEV_IO_TYPE_WRITE.
Proof. intros H. unfold chunk_bdev_io. rewrite H. reflexivity. Qed.

(** [raid5_stripe_write_submit] leaves the parity as it is and starts
    writes only. *)
Lemma write_submit_phase d x :
  Z.of_nat (length (chunks (req x))) = num_base_bdevs rb ->
  parity_holds rb stripe_index d x -> inflight x = [] -> waitq x = [] ->
  write_phase rb stripe_index d (raid5_stripe_write_submit rb stripe_index x).
Proof.
  intros Hlen Hpar Hin Hwq. unfold raid5_stripe_write_submit.
  match goal with |- write_phase _ _ _ (fold_left ?f ?l ?a) =>
    assert (G : (fun y =>
      length (chunks (req y)) = length (chunks (req x)) /\
      mem y = mem x /\ parity_chunk (req y) = parity_chunk (req x) /\
      chunk_requests_complete_cb (req y) = cb_raid5_complete_stripe_request /\
      (forall j, req_offset (chunk_at y j) = req_offset (chunk_at x j) /\
                 req_blocks (chunk_at y j) = req_blocks (chunk_at x j) /\
                 index (chunk_at y j) = index (chunk_at x j) /\
                 chunk_iovs (chunk_at y j) = chunk_iovs (chunk_at x j)) /\
      Forall (fun io => bio_type io = SPDK_BDEV_IO_TYPE_WRITE) (inflight y) /\
      Forall (fun k => request_type (chunk_at y k) = CHUNK_WRITE) (waitq y))
      (fold_left f l a)) end.
  { apply fold_left_invariant.
    - cbn [inflight waitq with_req mem req]. rewrite Hin, Hwq.
      repeat split; try reflexivity; constructor.
    - intros y i Hi (I1 & I2 & I3 & I4 & I5 & I6 & I7).
      unfold each_chunk in Hi. apply elem_of_seqZ in Hi.
      destruct ((req_blocks (chunk_at y i) >? 0) && _);
        [|repeat split; try assumption; apply I5].
      pose proof (submit_chunk_req rb stripe_index i CHUNK_WRITE y) as R.
      destruct (submit_chunk_same rb stripe_index i CHUNK_WRITE y) as (S1 & _).
      assert (Hat : forall k,
                chunk_at (raid5_submit_chunk_request rb stripe_index i CHUNK_WRITE y) k =
                if Z.eq_dec k i then chunk_set_request_type (chunk_at y i) CHUNK_WRITE
                else chunk_at y k).
      { intros k. unfold chunk_at. rewrite R. destruct (Z.eq_dec k i) as [->|Hk].
        - rewrite get_set_chunk_eq by (cbn; lia). reflexivity.
        - rewrite get_set_chunk_ne by congruence. reflexivity. }
      unfold raid5_submit_chunk_request in *.
      match goal with |- context [_raid5_submit_chunk_request _ _ _ ?z] =>
        pose proof (submit_inner_queues i z) as Q; cbn zeta in Q; set (y2 := z) in * end.
      assert (Hy2 : chunk_at y2 i = chunk_set_request_type (chunk_at y i) CHUNK_WRITE).
      { subst y2. unfold chunk_at, store_chunk. cbn [req with_req].
        rewrite get_set_chunk_eq by (cbn; lia). reflexivity. }
      assert (Hw : Forall (fun k => request_type
                             (chunk_at (_raid5_submit_chunk_request rb stripe_index i y2) k)
                           = CHUNK_WRITE) (waitq y)).
      { eapply Forall_impl; [exact I7|]. intros k Hk. cbn beta in Hk |- *.
        rewrite Hat. destruct (Z.eq_dec k i); [reflexivity|exact Hk]. }
      split; [rewrite R; rewrite set_chunk_length; exact I1|].
      split; [rewrite S1; exact I2|].
      split; [rewrite R; exact I3|].
      split; [rewrite R; exact I4|].
      split.
      { intros k. rewrite Hat. destruct (Z.eq_dec k i) as [->|Hk]; [|apply I5].
        destruct (I5 i) as (A1 & A2 & A3 & A4). repeat split; assumption. }
      change (inflight y2) with (inflight y) in Q. change (waitq y2) with (waitq y) in Q.
      destruct Q as [[Q1 Q2]|[[Q1 Q2]|[Q1 Q2]]]; rewrite Q1, Q2.
      + split; [|exact Hw]. apply Forall_app. split; [exact I6|].
        constructor; [|constructor]. apply bio_type_write. rewrite Hy2. reflexivity.
      + split; [exact I6|]. apply Forall_app. split; [exact Hw|].
        constructor; [|constructor]. rewrite Hat.
        destruct (Z.eq_dec i i); [reflexivity|contradiction].
      + split; [exact I6|exact Hw]. }
  cbn beta in G. destruct G as (G1 & G2 & G3 & G4 & G5 & G6 & G7).
  split; [|split; [exact G4|split; [exact G6|exact G7]]].
  apply (parity_holds_ext d x); assumption.
Qed.

Lemma pending_zero e : pending e = 0 -> inflight e = [] /\ waitq e = [].
Proof.
  unfold pending. intros H.
  destruct (inflight e); [|cbn [length] in H; lia].
  destruct (waitq e); [|cbn [length] in H; lia]. split; reflexivity.
Qed.

(** The end of a compute callback: the writes are submitted if the
    loop came through. *)
Lemma after_loop (rmw : bool) d x0 (r : bool * engine) :
  sizes_ok rb bdev_iovs chunk_buffers ->
  Z.of_nat (length (chunks (req x0))) = num_base_bdevs rb ->
  parity_ready rb chunk_buffers x0 ->
  bdev_contract (submit_script x0) -> inflight x0 = [] -> waitq x0 = [] ->
  chunk_requests_complete_cb (req x0) <> cb_raid5_complete_stripe_request ->
  (forall t, 0 <= t < req_blocks (chunk_at x0 (parity_chunk (req x0))) * blocklen rb ->
     mem x0 (chunk_buffer chunk_buffers (parity_chunk (req x0)) + t) =
     if rmw
     then strip_byte rb stripe_index d (parity_chunk (req x0))
            (req_offset (chunk_at x0 (parity_chunk (req x0))) * blocklen rb + t)
     else 0) ->
  (rmw = true -> stripe_consistent rb stripe_index d (parity_chunk (req x0))) ->
  (let '(go, x') := r in
   if go
   then loop_inv rb stripe_index chunk_buffers rmw d x0
          (data_positions (num_base_bdevs rb) (parity_chunk (req x0))) x'
   else step_aborted x0 x') ->
  let x'' := (let '(go, e) := r in
              if go then raid5_stripe_write_submit rb stripe_index e else e) in
  write_phase rb stripe_index d x'' \/ compute_failed x''.
Proof.
  intros Hsz Hlen Hpr Hcon Hin Hwq Hcb Hm0 Hcons Hr. cbn zeta.
  destruct r as [go x']. destruct go.
  - left. pose proof Hr as M. destruct M as [M _].
    destruct (moves_shape 0 x0 x' M) as (_ & Hl & _).
    destruct M as [B _]. destruct B as (_ & _ & _ & _ & _ & Hpend).
    destruct (Hpend Hcon) as [_ Hpd].
    assert (Hp0 : pending x0 = 0) by (unfold pending; rewrite Hin, Hwq; reflexivity).
    destruct (pending_zero x' ltac:(lia)) as [Hin' Hwq'].
    apply write_submit_phase; [rewrite Hl; exact Hlen| |exact Hin'|exact Hwq'].
    apply (loop_parity rmw d x0 x'); assumption.
  - right. destruct Hr as (_ & Hst & Hc). split; [exact Hst|]. rewrite Hc. exact Hcb.
Qed.

(** The compute callback of a write, run when the last preread is
    done: it ends with the parity in place and the writes submitted,
    or with the request failed. *)
Lemma compute_phase e d x :
  write_request_ok rb bdev_iovs stripe_index chunk_buffers e ->
  (preread_balance rb (set_parity_window rb e) > 0 ->
   stripe_consistent rb stripe_index d (parity_chunk (req e))) ->
  preread_phase rb stripe_index chunk_buffers
    (preread_balance rb (set_parity_window rb e)) (req (set_parity_window rb e)) d x ->
  remaining (req x) = 0 ->
  let x' := invoke_cb rb bdev_iovs stripe_index chunk_buffers x in
  write_phase rb stripe_index d x' \/ compute_failed x'.
Proof.
  intros Hwr Hcons Hph Hrem0.
  pose proof Hph as (Hlen & Hchunks & Hp & Hdeg & Hcb & Hst & Hd & Hrem & Hcon & Htr & Hcov
                     & Hoffx).
  destruct (pending_zero x ltac:(lia)) as [Hin Hwq].
  pose proof (plan_ready e d x Hwr Hph Hin Hwq) as (Hsz & HpP & Hpr & Hready & Hld).
  cbn zeta. unfold invoke_cb. rewrite Hcb.
  destruct (preread_balance rb (set_parity_window rb e) >? 0) eqn:Eb.
  - set (y := emit x _). unfold raid5_stripe_write_preread_complete_rmw. cbv zeta.
    apply (after_loop true d y); try assumption.
    + change (chunk_requests_complete_cb (req y)) with (chunk_requests_complete_cb (req x)).
      rewrite Hcb. discriminate.
    + intros t Ht. apply (Hld eq_refl t Ht).
    + intros _. change (parity_chunk (req y)) with (parity_chunk (req x)). rewrite HpP.
      apply Hcons. apply Z.gtb_lt in Eb. lia.
    + match goal with |- context [for_each _ ?body _] =>
        apply (compute_loop true d body y) end; try assumption.
      intros x1 i Hp1 Hl1 Hpr1 Hi1 Hne1 Hcr1 Hoff1. cbv beta. rewrite <- Hp1.
      apply (rmw_step d x1 i); assumption.
  - set (y := emit x _). unfold raid5_stripe_write_preread_complete. cbv zeta.
    set (y0 := memset_chunk y (parity_chunk (req y))).
    pose proof Hsz as (Hbl & HS & Hfit & _ & _ & Hap).
    pose proof Hpr as (HPr & Pv & Pc & Piov & Pw0 & Pw1 & Pw2).
    assert (Hm0 : forall a,
              mem y0 a =
              if (chunk_buffer chunk_buffers (parity_chunk (req x)) <=? a)
                 && (a <? chunk_buffer chunk_buffers (parity_chunk (req x))
                          + req_blocks (chunk_at x (parity_chunk (req x))) * blocklen rb)
              then 0 else mem x a).
    { intros a. subst y0 y. unfold memset_chunk. cbn [mem with_mem].
      change (chunk_at (emit x _) (parity_chunk (req (emit x _))))
        with (chunk_at x (parity_chunk (req x))).
      rewrite (chunk_iovs_embedded _ Pv Pc), Piov. apply memset_buffer. nia. }
    apply (after_loop false d y0); try assumption.
    + change (chunk_requests_complete_cb (req y0)) with (chunk_requests_complete_cb (req x)).
      rewrite Hcb. discriminate.
    + intros t Ht. rewrite Hm0.
      change (chunk_at y0 (parity_chunk (req y0))) with (chunk_at x (parity_chunk (req x))) in Ht.
      change (parity_chunk (req y0)) with (parity_chunk (req x)).
      destruct (Z.leb_spec (chunk_buffer chunk_buffers (parity_chunk (req x)))
                  (chunk_buffer chunk_buffers (parity_chunk (req x)) + t)); [|lia].
      destruct (Z.ltb_spec (chunk_buffer chunk_buffers (parity_chunk (req x)) + t)
                  (chunk_buffer chunk_buffers (parity_chunk (req x))
                   + req_blocks (chunk_at x (parity_chunk (req x))) * blocklen rb)); [|lia].
      reflexivity.
    + discriminate.
    + apply (compute_loop false d
               (reconstruct_write_step rb bdev_iovs (parity_chunk (req y))) y0);
        try assumption.
      * intros i Hi. pose proof (Hready i Hi) as Hcr.
        apply elem_of_data_positions in Hi. destruct Hi as [Hi Hne].
        apply (chunk_ready_frame false d x y0 i Hcr); try reflexivity.
        intros t Ht. rewrite Hm0.
        destruct Hcr as (_ & _ & _ & Hpb & _).
        destruct (buffers_apart_spec i Hap Hi) as (_ & Hothers & _).
        destruct (Hothers (parity_chunk (req x)) HPr Hne) as [Ho|Ho].
        -- destruct (Z.leb_spec (chunk_buffer chunk_buffers (parity_chunk (req x)))
                       (chunk_buffer chunk_buffers i + t)); [nia|reflexivity].
        -- destruct (Z.ltb_spec (chunk_buffer chunk_buffers i + t)
                       (chunk_buffer chunk_buffers (parity_chunk (req x))
                        + req_blocks (chunk_at x (parity_chunk (req x))) * blocklen rb));
             [nia|]. rewrite andb_false_r. reflexivity.
      * intros x1 i Hp1 Hl1 Hpr1 Hi1 Hne1 Hcr1 Hoff1.
        change (parity_chunk (req y)) with (parity_chunk (req y0)). rewrite <- Hp1.
        apply (rcw_step d x1 i); assumption.
Qed.

Lemma elem_of_delete_other {A} (l : list A) n x y :
  y ∈ l -> l !! n = Some x -> y <> x -> y ∈ delete n l.
Proof.
  intros Hy Hn Hne. apply list_elem_of_lookup in Hy. destruct Hy as [k Hk].
  apply list_elem_of_lookup.
  destruct (lt_eq_lt_dec k n) as [[Hlt|Heq]|Hgt].
  - exists k. rewrite list_lookup_delete_lt by exact Hlt. exact Hk.
  - subst k. rewrite Hk in Hn. congruence.
  - exists (pred k). rewrite list_lookup_delete_ge by lia.
    replace (S (pred k)) with k by lia. exact Hk.
Qed.

(** A chunk that wants a preread reads its window into its own
    buffer. *)
Lemma preread_io_plan e i :
  write_request_ok rb bdev_iovs stripe_index chunk_buffers e ->
  0 <= i < num_base_bdevs rb ->
  let w := set_parity_window rb e in
  let bal := preread_balance rb w in
  let c := planned_chunk rb chunk_buffers bal (req w) i in
  preread_blocks c <> 0 ->
  index c = i /\ iovs c = IovsEmbedded /\ iovcnt c = 1 /\
  iov c = {| iov_base := chunk_buffer chunk_buffers i;
             iov_len := preread_blocks c * blocklen rb |} /\
  request_type c = CHUNK_PREREAD /\
  0 <= preread_offset c /\ 0 < preread_blocks c /\
  preread_offset c + preread_blocks c <= strip_size rb.
Proof.
  intros Hwr Hi. cbn zeta. intros Hnz.
  pose proof (parity_chunk_plan e Hwr) as PP. cbn zeta in PP.
  destruct PP as (Pi & Pv & Pc & Piov & Pw0 & Pw1 & Pw2 & _ & _ & Prmw).
  destruct (Z.eq_dec i (parity_chunk (req e))) as [->|Hne].
  - pose proof (planned_fields (preread_balance rb (set_parity_window rb e))
                  (req (set_parity_window rb e)) (parity_chunk (req e))) as PF.
    cbn zeta in PF. destruct PF as (_ & _ & _ & _ & _ & F6 & _ & F8).
    destruct (preread_balance rb (set_parity_window rb e) >? 0) eqn:Eb.
    + destruct (Prmw eq_refl) as [E1 E2].
      split; [exact Pi|]. split; [exact Pv|]. split; [exact Pc|].
      split; [rewrite Piov, E2; reflexivity|]. split; [apply F8; exact Hnz|]. lia.
    + exfalso. apply Hnz. unfold stripe_write_preread in F6. rewrite Eb in F6.
      pose proof (set_parity_window_frame_fields rb e) as W. cbn zeta in W.
      destruct W as (_ & _ & _ & _ & _ & _ & _ & _ & _ & _ & _ & Wp & _).
      rewrite Wp, Z.eqb_refl in F6. injection F6 as _ E2. exact E2.
  - pose proof (data_chunk_plan e i Hwr Hi Hne) as DP. cbn zeta in DP.
    destruct DP as (D1 & D2 & D3 & D4 & D5 & D6 & D7).
    destruct (D6 Hnz) as [D6a D6b].
    split; [exact D1|]. split; [exact D2|]. split; [exact D3|].
    split; [exact D6a|]. split; [exact D6b|].
    destruct (preread_balance rb (set_parity_window rb e) >? 0); lia.
Qed.

(** Once the writes are submitted, a completion touches neither the
    memory nor the chunks. *)
Lemma complete_chunk_quiet ok e :
  chunk_requests_complete_cb (req e) = cb_raid5_complete_stripe_request ->
  let e' := raid5_complete_chunk_request rb bdev_iovs stripe_index chunk_buffers ok e in
  mem e' = mem e /\ chunks (req e') = chunks (req e) /\
  parity_chunk (req e') = parity_chunk (req e) /\
  chunk_requests_complete_cb (req e') = cb_raid5_complete_stripe_request /\
  inflight e' = inflight e /\ waitq e' = waitq e.
Proof.
  intros Hcb. cbn zeta. unfold raid5_complete_chunk_request, invoke_cb.
  destruct ok; cbn [req with_req upd_remaining upd_status remaining status
                    chunk_requests_complete_cb emit];
    rewrite ?Hcb;
    match goal with |- context [?a =? 0] => destruct (a =? 0) end;
    try match goal with |- context [bool_decide ?P] => destruct (bool_decide P) end;
    cbn; rewrite ?Hcb; repeat split; reflexivity.
Qed.

(** A request that failed before its writes stays so. *)
Lemma complete_chunk_failed ok e :
  (ok = false \/ status (req e) <> SPDK_BDEV_IO_STATUS_SUCCESS) ->
  let e' := raid5_complete_chunk_request rb bdev_iovs stripe_index chunk_buffers ok e in
  status (req e') <> SPDK_BDEV_IO_STATUS_SUCCESS /\
  chunk_requests_complete_cb (req e') = chunk_requests_complete_cb (req e).
Proof.
  intros Hf. cbn zeta. unfold raid5_complete_chunk_request.
  destruct ok.
  - destruct Hf as [Hf|Hf]; [discriminate Hf|].
    cbn [req with_req upd_remaining remaining status].
    destruct (remaining (req e) - 1 =? 0); [|cbn; split; [exact Hf|reflexivity]].
    rewrite bool_decide_eq_false_2 by exact Hf.
    cbn. split; [exact Hf|reflexivity].
  - cbn [req with_req upd_remaining upd_status remaining status].
    destruct (remaining (req e) - 1 =? 0); [|cbn; split; [discriminate|reflexivity]].
    rewrite bool_decide_eq_false_2 by discriminate.
    cbn. split; [discriminate|reflexivity].
Qed.

Lemma write_phase_step d ev x x' :
  env_step rb bdev_iovs stripe_index chunk_buffers ev x = Some x' ->
  write_phase rb stripe_index d x -> write_phase rb stripe_index d x'.
Proof.
  intros Hstep (Hpar & Hcb & Hfl & Hwq). destruct ev as [n ok|n]; cbn [env_step] in Hstep.
  - destruct (inflight x !! n) as [io|] eqn:En; [|discriminate Hstep].
    injection Hstep as <-.
    pose proof (Forall_lookup_1 _ _ _ _ Hfl En) as Hty. cbn beta in Hty.
    set (x1 := with_inflight x (delete n (inflight x))).
    set (x2 := if ok then transfer rb io x1 else x1).
    assert (H2 : req x2 = req x /\ mem x2 = mem x /\ inflight x2 = delete n (inflight x) /\
                 waitq x2 = waitq x).
    { subst x2. destruct ok; [|repeat split; reflexivity].
      unfold transfer. rewrite Hty. repeat split; reflexivity. }
    destruct H2 as (A1 & A2 & A3 & A4).
    pose proof (complete_chunk_quiet ok x2 ltac:(rewrite A1; exact Hcb)) as Q.
    cbn zeta in Q. destruct Q as (Q1 & Q2 & Q3 & Q4 & Q5 & Q6).
    split; [|split; [exact Q4|split]].
    + apply (parity_holds_ext d x); [rewrite Q1; exact A2|rewrite Q3, A1; reflexivity| |exact Hpar].
      intros j. unfold chunk_at, get_chunk. rewrite Q2, A1. repeat split; reflexivity.
    + rewrite Q5, A3. apply Forall_delete. exact Hfl.
    + rewrite Q6, A4. eapply Forall_impl; [exact Hwq|]. intros k Hk. cbn beta in Hk |- *.
      unfold chunk_at, get_chunk in *. rewrite Q2, A1. exact Hk.
  - destruct (waitq x !! n) as [i|] eqn:En; [|discriminate Hstep].
    injection Hstep as <-.
    set (x1 := with_waitq x (delete n (waitq x))).
    destruct (submit_inner_same rb stripe_index i x1) as (S1 & S2 & _).
    pose proof (submit_inner_queues i x1) as Q. cbn zeta in Q.
    pose proof (Forall_lookup_1 _ _ _ _ Hwq En) as Hty. cbn beta in Hty.
    assert (Hat : forall k, chunk_at (_raid5_submit_chunk_request rb stripe_index i x1) k
                            = chunk_at x k).
    { intros k. unfold chunk_at. rewrite S1. reflexivity. }
    assert (Hw : Forall (fun k => request_type
                           (chunk_at (_raid5_submit_chunk_request rb stripe_index i x1) k)
                         = CHUNK_WRITE) (delete n (waitq x))).
    { apply Forall_delete. eapply Forall_impl; [exact Hwq|]. intros k Hk. cbn beta in Hk |- *.
      rewrite Hat. exact Hk. }
    split; [|split; [rewrite S1; exact Hcb|]].
    + apply (parity_holds_ext d x); [exact S2|rewrite S1; reflexivity| |exact Hpar].
      intros j. rewrite Hat. repeat split; reflexivity.
    + change (inflight x1) with (inflight x) in Q.
      change (waitq x1) with (delete n (waitq x)) in Q.
      destruct Q as [[Q1 Q2]|[[Q1 Q2]|[Q1 Q2]]]; rewrite Q1, Q2.
      * split; [|exact Hw]. apply Forall_app. split; [exact Hfl|].
        constructor; [|constructor]. apply bio_type_write. exact Hty.
      * split; [exact Hfl|]. apply Forall_app. split; [exact Hw|].
        constructor; [|constructor]. rewrite Hat. exact Hty.
      * split; [exact Hfl|exact Hw].
Qed.

Lemma compute_failed_step ev x x' :
  env_step rb bdev_iovs stripe_index chunk_buffers ev x = Some x' ->
  compute_failed x -> compute_failed x'.
Proof.
  intros Hstep (Hst & Hcb). destruct ev as [n ok|n]; cbn [env_step] in Hstep.
  - destruct (inflight x !! n) as [io|] eqn:En; [|discriminate Hstep].
    injection Hstep as <-.
    set (x1 := with_inflight x (delete n (inflight x))).
    set (x2 := if ok then transfer rb io x1 else x1).
    assert (A1 : req x2 = req x).
    { subst x2. destruct ok; [|reflexivity]. apply (transfer_books rb io x1). }
    pose proof (complete_chunk_failed ok x2 ltac:(right; rewrite A1; exact Hst)) as Q.
    cbn zeta in Q. destruct Q as [Q1 Q2]. split; [exact Q1|]. rewrite Q2, A1. exact Hcb.
  - destruct (waitq x !! n) as [i|] eqn:En; [|discriminate Hstep].
    injection Hstep as <-.
    destruct (submit_inner_same rb stripe_index i (with_waitq x (delete n (waitq x))))
      as (S1 & _).
    split; rewrite S1; assumption.
Qed.

(** A preread that completes leaves the request in its preread
    phase, with one chunk I/O less outstanding and the window of the
    chunk in its buffer. *)
Lemma preread_done e d n io x :
  write_request_ok rb bdev_iovs stripe_index chunk_buffers e ->
  preread_phase rb stripe_index chunk_buffers
    (preread_balance rb (set_parity_window rb e)) (req (set_parity_window rb e)) d x ->
  inflight x !! n = Some io ->
  let x2 := transfer rb io (with_inflight x (delete n (inflight x))) in
  let x4 := with_req x2 (upd_remaining (req x2) (remaining (req x2) - 1)) in
  preread_phase rb stripe_index chunk_buffers
    (preread_balance rb (set_parity_window rb e)) (req (set_parity_window rb e)) d x4.
Proof.
  intros Hwr Hph En.
  pose proof Hph as (Hlen & Hchunks & Hp & Hdeg & Hcb & Hst & Hd & Hrem & Hcon & Htr & Hcov
                     & Hoffx).
  pose proof Hwr as (_ & _ & Hreq & Hbl & Hfit & Hshl & _ & _ & _ & _ & _ & _ & Hap).
  destruct Hreq as (_ & _ & _ & _ & HS).
  destruct Htr as [Htr1 Htr2].
  assert (Hio : io ∈ inflight x) by (apply list_elem_of_lookup; exists n; exact En).
  destruct (Htr1 io Hio) as (i & Hi & Hnz & Eio).
  pose proof (preread_io_plan e i Hwr Hi) as IO. cbn zeta in IO.
  rewrite <- (Hchunks i Hi) in IO.
  destruct (IO Hnz) as (I1 & I2 & I3 & I4 & I5 & I6 & I7 & I8).
  assert (Hty : bio_type io = SPDK_BDEV_IO_TYPE_READ).
  { rewrite Eio. unfold chunk_bdev_io. rewrite I5. reflexivity. }
  cbn zeta. unfold transfer. rewrite Hty.
  set (buf := chunk_buffer chunk_buffers i) in *.
  set (len := preread_blocks (chunk_at x i) * blocklen rb) in *.
  assert (Hlen0 : 0 <= len) by (subst len; nia).
  assert (Haddrs : take (Z.to_nat (bio_num_blocks io * blocklen rb))
                     (iovs_addrs (bio_iovs io)) = seqZ buf len).
  { rewrite Eio. unfold chunk_bdev_io. rewrite I5. cbn [bio_num_blocks bio_iovs].
    rewrite (chunk_iovs_embedded _ I2 I3), I4, iovs_addrs_single.
    apply take_ge. rewrite length_seqZ. subst len. lia. }
  assert (Hmember : bio_member io = i).
  { rewrite Eio. unfold chunk_bdev_io. rewrite I5. exact I1. }
  assert (Hoffs : bio_offset_blocks io * blocklen rb =
                  shl64 stripe_index (strip_size_shift rb) * blocklen rb
                  + preread_offset (chunk_at x i) * blocklen rb).
  { rewrite Eio. unfold chunk_bdev_io. rewrite I5. cbn [bio_offset_blocks].
    rewrite u64_small; [lia|].
    assert (0 <= shl64 stripe_index (strip_size_shift rb)).
    { unfold shl64, u64. apply Z.mod_pos_bound. lia. }
    lia. }
  rewrite Haddrs, Hmember, Hoffs.
  cbn [disks with_inflight mem].
  pose proof (dma_read_buffer (disks x) i
                (shl64 stripe_index (strip_size_shift rb) * blocklen rb
                 + preread_offset (chunk_at x i) * blocklen rb) buf len (mem x) Hlen0) as DR.
  cbn zeta in DR. destruct DR as [DR1 DR2].
  set (m' := dma_read _ _ _ _ _) in *.
  assert (Hpend : Z.of_nat (length (delete n (inflight x))) =
                  Z.of_nat (length (inflight x)) - 1).
  { rewrite length_delete by (rewrite En; eauto). apply lookup_lt_Some in En. lia. }
  split; [exact Hlen|]. split; [exact Hchunks|]. split; [exact Hp|]. split; [exact Hdeg|].
  split; [exact Hcb|]. split; [exact Hst|]. split; [exact Hd|].
  split.
  { cbn [req with_req with_mem upd_remaining remaining]. unfold pending in *.
    cbn [inflight waitq with_req with_mem with_inflight].
    change (req (with_inflight x (delete n (inflight x)))) with (req x). lia. }
  split; [exact Hcon|].
  split.
  { split.
    - intros io' Hio'. cbn [inflight with_req with_mem with_inflight] in Hio'.
      apply list_elem_of_delete_inv in Hio'. exact (Htr1 io' Hio').
    - exact Htr2. }
  split; [|exact Hoffx].
  intros j Hj Hnzj. change (preread_blocks (chunk_at x j) <> 0) in Hnzj.
  destruct (Z.eq_dec j i) as [->|Hji].
  - left. intros t Ht. change (m' (buf + t) = strip_byte rb stripe_index d i
                                  (preread_offset (chunk_at x i) * blocklen rb + t)).
    rewrite (DR1 t Ht). unfold strip_byte. rewrite Hd. f_equal. lia.
  - destruct (Hcov j Hj Hnzj) as [Hl|[(io' & Hio' & Hc')|Hw]].
    + left. intros t Ht.
      change (m' (chunk_buffer chunk_buffers j + t) =
              strip_byte rb stripe_index d j
                (preread_offset (chunk_at x j) * blocklen rb + t)).
      change (0 <= t < preread_blocks (chunk_at x j) * blocklen rb) in Ht.
      rewrite DR2; [apply Hl; exact Ht|].
      pose proof (preread_io_plan e j Hwr Hj) as IOj. cbn zeta in IOj.
      rewrite <- (Hchunks j Hj) in IOj. destruct (IOj Hnzj) as (_ & _ & _ & _ & _ & J6 & J7 & J8).
      destruct (buffers_apart_spec j Hap Hj) as (_ & Hothers & _).
      subst buf len. destruct (Hothers i Hi Hji) as [Ho|Ho]; nia.
    + right. left. exists io'. split; [|exact Hc'].
      cbn [inflight with_req with_mem with_inflight].
      apply (elem_of_delete_other _ n io); [exact Hio'|exact En|].
      intros Ec. rewrite Ec, Eio, bio_chunk_bdev_io in Hc'. congruence.
    + right. right. exact Hw.
Qed.

(** A parked preread that is resubmitted leaves the request in its
    preread phase. *)
Lemma preread_retry bal w d n i x :
  preread_phase rb stripe_index chunk_buffers bal w d x ->
  waitq x !! n = Some i ->
  preread_phase rb stripe_index chunk_buffers bal w d
    (_raid5_submit_chunk_request rb stripe_index i (with_waitq x (delete n (waitq x)))).
Proof.
  intros (Hlen & Hchunks & Hp & Hdeg & Hcb & Hst & Hd & Hrem & Hcon & Htr & Hcov & Hoffx) En.
  destruct Htr as [Htr1 Htr2].
  set (x1 := with_waitq x (delete n (waitq x))).
  destruct (submit_inner_same rb stripe_index i x1) as (S1 & S2 & S3 & _).
  destruct (submit_inner_effect rb stripe_index i x1 Hcon) as (_ & E2 & E3 & E4 & _).
  change (inflight x1) with (inflight x) in E3.
  change (waitq x1) with (delete n (waitq x)) in E4.
  change (chunk_at x1 i) with (chunk_at x i) in E3.
  set (x' := _raid5_submit_chunk_request rb stripe_index i x1) in *.
  assert (Hat : forall k, chunk_at x' k = chunk_at x k).
  { intros k. unfold chunk_at. rewrite S1. reflexivity. }
  assert (Hiw : i ∈ waitq x) by (apply list_elem_of_lookup; exists n; exact En).
  destruct (Htr2 i Hiw) as [Hi Hnz].
  assert (Hdel : Z.of_nat (length (delete n (waitq x))) = Z.of_nat (length (waitq x)) - 1).
  { rewrite length_delete by (rewrite En; eauto). apply lookup_lt_Some in En. lia. }
  split; [rewrite S1; exact Hlen|].
  split; [intros k Hk; rewrite Hat; apply Hchunks; exact Hk|].
  split; [rewrite S1; exact Hp|]. split; [rewrite S1; exact Hdeg|].
  split; [rewrite S1; exact Hcb|]. split; [rewrite S1; exact Hst|].
  split; [rewrite S3; exact Hd|].
  split.
  { rewrite S1. change (req x1) with (req x). rewrite Hrem. unfold pending.
    rewrite E3, E4. destruct (hd 0 (submit_script x1) =? 0);
      rewrite !length_app; cbn [length]; lia. }
  split; [exact E2|].
  split.
  { split.
    - intros io Hio. rewrite E3 in Hio. apply elem_of_app in Hio.
      destruct Hio as [Hio|Hio].
      + destruct (Htr1 io Hio) as (k & Hk & Hnzk & Ek). exists k. rewrite Hat. tauto.
      + destruct (hd 0 (submit_script x1) =? 0); [|inversion Hio].
        apply list_elem_of_singleton in Hio. exists i. rewrite Hat. tauto.
    - intros k Hk. rewrite E4 in Hk. rewrite Hat. apply elem_of_app in Hk.
      destruct Hk as [Hk|Hk].
      + apply Htr2. apply list_elem_of_delete_inv in Hk. exact Hk.
      + destruct (hd 0 (submit_script x1) =? 0); [inversion Hk|].
        apply list_elem_of_singleton in Hk. subst k. tauto. }
  split; [|rewrite S1; exact Hoffx].
  intros k Hk Hnzk. rewrite Hat in Hnzk.
  destruct (Hcov k Hk Hnzk) as [Hl|[(io & Hio & Hc)|Hw]].
  - left. unfold preread_loaded in *. rewrite Hat, S2. exact Hl.
  - right. left. exists io. split; [|exact Hc]. rewrite E3. apply elem_of_app. left. exact Hio.
  - destruct (Z.eq_dec k i) as [->|Hki].
    + destruct (hd 0 (submit_script x1) =? 0).
      * right. left. exists (chunk_bdev_io rb stripe_index i (chunk_at x i)).
        split; [|apply bio_chunk_bdev_io]. rewrite E3. apply elem_of_app. right.
        apply list_elem_of_here.
      * right. right. rewrite E4. apply elem_of_app. right. apply list_elem_of_here.
    + right. right. rewrite E4. apply elem_of_app. left.
      apply (elem_of_delete_other _ n i); assumption.
Qed.

(** One event of the base devices during the preread phase. *)
Lemma preread_phase_step e d ev x x' :
  write_request_ok rb bdev_iovs stripe_index chunk_buffers e ->
  (preread_balance rb (set_parity_window rb e) > 0 ->
   stripe_consistent rb stripe_index d (parity_chunk (req e))) ->
  preread_phase rb stripe_index chunk_buffers
    (preread_balance rb (set_parity_window rb e)) (req (set_parity_window rb e)) d x ->
  env_step rb bdev_iovs stripe_index chunk_buffers ev x = Some x' ->
  preread_phase rb stripe_index chunk_buffers
    (preread_balance rb (set_parity_window rb e)) (req (set_parity_window rb e)) d x' \/
  write_phase rb stripe_index d x' \/ compute_failed x'.
Proof.
  intros Hwr Hcons Hph Hstep. destruct ev as [n ok|n]; cbn [env_step] in Hstep.
  - destruct (inflight x !! n) as [io|] eqn:En; [|discriminate Hstep].
    injection Hstep as <-. destruct ok.
    + pose proof (preread_done e d n io x Hwr Hph En) as H4. cbn zeta in H4.
      unfold raid5_complete_chunk_request. cbv zeta.
      set (x4 := with_req _ _) in *.
      destruct (remaining (req x4) =? 0) eqn:E0; [|left; exact H4].
      apply Z.eqb_eq in E0. right.
      pose proof H4 as (_ & _ & _ & _ & _ & Hst & _).
      rewrite bool_decide_eq_true_2 by exact Hst.
      apply (compute_phase e d x4 Hwr Hcons H4 E0).
    + right. right.
      pose proof Hph as (_ & _ & _ & _ & Hcb & _).
      pose proof (complete_chunk_failed false (with_inflight x (delete n (inflight x)))
                    ltac:(left; reflexivity)) as Q.
      cbn zeta in Q. destruct Q as [Q1 Q2]. split; [exact Q1|]. rewrite Q2.
      change (req (with_inflight x (delete n (inflight x)))) with (req x). rewrite Hcb.
      destruct (_ >? 0); discriminate.
  - destruct (waitq x !! n) as [i|] eqn:En; [|discriminate Hstep].
    injection Hstep as <-. left. apply preread_retry; assumption.
Qed.

(** Without a degraded member [raid5_check_degraded] finds none. *)
Lemma check_degraded_none e :
  forallb (fun i => negb (base_degraded rb i)) (seqZ 0 (num_base_bdevs rb)) = true ->
  forallb (chunk_fresh_ok (req e)) (seqZ 0 (num_base_bdevs rb)) = true ->
  raid5_check_degraded rb e = (0, with_req e (upd_degraded_chunk (req e) None)).
Proof.
  intros Hnd Hfr. unfold raid5_check_degraded.
  match goal with |- context [fold_left ?f ?l ?a] =>
    assert (G : fold_left f l a = a) end.
  { apply (fold_left_invariant (fun st => st = (0, with_req e (upd_degraded_chunk (req e) None)))).
    - reflexivity.
    - intros st i Hi ->. unfold each_chunk in Hi.
      pose proof (forallb_elem_of _ _ i Hfr Hi) as Fr. unfold chunk_fresh_ok in Fr.
      apply andb_true_iff in Fr. destruct Fr as [Fr _].
      apply andb_true_iff in Fr. destruct Fr as [Fr _]. apply Z.eqb_eq in Fr.
      pose proof (forallb_elem_of _ _ i Hnd Hi) as Nd. cbn beta in Nd.
      apply negb_true_iff in Nd.
      change (chunk_at (with_req e (upd_degraded_chunk (req e) None)) i)
        with (get_chunk (req e) i).
      rewrite Fr, Nd. reflexivity. }
  rewrite G. reflexivity.
Qed.

Lemma window_reset e dc :
  set_parity_window rb (with_req e (upd_degraded_chunk (req e) dc)) =
  with_req (set_parity_window rb e)
    (upd_degraded_chunk (req (set_parity_window rb e)) dc).
Proof.
  unfold set_parity_window.
  cbn [req with_req upd_degraded_chunk parity_chunk first_data_chunk last_data_chunk].
  destruct (first_data_chunk (req e) =? last_data_chunk (req e)); reflexivity.
Qed.

Lemma balance_reset e dc :
  preread_balance rb (set_parity_window rb (with_req e (upd_degraded_chunk (req e) dc))) =
  preread_balance rb (set_parity_window rb e).
Proof. rewrite window_reset. reflexivity. Qed.

(** [raid5_stripe_write] leaves the request in its preread phase, or
    runs the compute callback at once. *)
Lemma stripe_write_phase e :
  write_request_ok rb bdev_iovs stripe_index chunk_buffers e ->
  degraded_chunk (req e) = None ->
  (preread_balance rb (set_parity_window rb e) > 0 ->
   stripe_consistent rb stripe_index (disks e) (parity_chunk (req e))) ->
  let x := raid5_stripe_write rb bdev_iovs stripe_index chunk_buffers e in
  preread_phase rb stripe_index chunk_buffers
    (preread_balance rb (set_parity_window rb e)) (req (set_parity_window rb e))
    (disks e) x \/
  write_phase rb stripe_index (disks e) x \/ compute_failed x.
Proof.
  intros Hwr Hdeg Hcons. cbn zeta. unfold raid5_stripe_write. rewrite Hdeg.
  pose proof Hwr as ((Hlen & Hcon & _) & Hfresh & _ & _ & _ & _ & _ & _ & Hoff & _).
  destruct Hfresh as (Hrem & Hst & Hin & Hwq & _).
  pose proof (stripe_write_plan_spec e Hlen Hcon Hin Hwq) as PS. cbn zeta in PS.
  destruct PS as (PF & Pcon & Pch & Ptr & Pcov).
  destruct (stripe_write_plan_moves rb stripe_index chunk_buffers e) as (k & Hk & M).
  pose proof (set_parity_window_frame_fields rb e) as W. cbn zeta in W.
  destruct W as (_ & Wd & _ & Win & Wwq & Wss & _ & _ & Wrem & Wst & _ & Wp & _ & _ & Wdeg
                 & Woff & _ & Wlen & _).
  destruct PF as (_ & F2 & _ & F4 & _ & _ & F7 & F8 & F9 & F10 & _ & F12 & _).
  cbn [req with_req upd_cb parity_chunk degraded_chunk status chunk_requests_complete_cb
       iov_offset disks chunks] in F2, F4, F7, F8, F9, F10, F12.
  set (e1 := raid5_stripe_write_plan rb stripe_index chunk_buffers e) in *.
  assert (Hph : preread_phase rb stripe_index chunk_buffers
                  (preread_balance rb (set_parity_window rb e))
                  (req (set_parity_window rb e)) (disks e) e1).
  { split; [rewrite F12, Wlen; exact Hlen|]. split; [exact Pch|].
    split; [exact F4|]. split; [rewrite F7, Wdeg; exact Hdeg|].
    split; [exact F9|]. split; [rewrite F8, Wst; exact Hst|].
    split; [rewrite F2; exact Wd|].
    split.
    { destruct M as [B _]. destruct B as (_ & _ & _ & _ & Mr & Mp).
      cbn [req with_req upd_cb remaining submit_script] in Mr, Mp.
      rewrite Wss in Mp. destruct (Mp Hcon) as [_ Mp2].
      rewrite Mr, Mp2. unfold pending. cbn [inflight waitq with_req].
      rewrite Win, Wwq, Hin, Hwq, Wrem, Hrem. reflexivity. }
    split; [exact Pcon|]. split; [exact Ptr|].
    split; [|rewrite F10, Woff; exact Hoff].
    intros i Hi Hnz. right. apply Pcov; assumption. }
  destruct (remaining (req e1) =? 0) eqn:E0; [|left; exact Hph].
  right. apply Z.eqb_eq in E0. apply (compute_phase e (disks e) e1 Hwr Hcons Hph E0).
Qed.

Lemma env_run_phase e d evs : forall x x',
  write_request_ok rb bdev_iovs stripe_index chunk_buffers e ->
  (preread_balance rb (set_parity_window rb e) > 0 ->
   stripe_consistent rb stripe_index d (parity_chunk (req e))) ->
  env_run rb bdev_iovs stripe_index chunk_buffers evs x = Some x' ->
  preread_phase rb stripe_index chunk_buffers
    (preread_balance rb (set_parity_window rb e)) (req (set_parity_window rb e)) d x \/
  write_phase rb stripe_index d x \/ compute_failed x ->
  preread_phase rb stripe_index chunk_buffers
    (preread_balance rb (set_parity_window rb e)) (req (set_parity_window rb e)) d x' \/
  write_phase rb stripe_index d x' \/ compute_failed x'.
Proof.
  induction evs as [|ev evs IH]; intros x x' Hwr Hcons Hrun Hx; cbn [env_run] in Hrun.
  - injection Hrun as <-. exact Hx.
  - destruct (env_step rb bdev_iovs stripe_index chunk_buffers ev x) as [x1|] eqn:Es;
      [|discriminate Hrun].
    apply (IH x1 x' Hwr Hcons Hrun).
    destruct Hx as [Hx|[Hx|Hx]].
    + apply (preread_phase_step e d ev x x1); assumption.
    + right. left. apply (write_phase_step d ev x x1); assumption.
    + right. right. apply (compute_failed_step ev x x1); assumption.
Qed.

End WriteParity.


(** ** The scatter-gather primitives, byte by byte *)

Lemma raid5_memcpy_iovs_spec m dst doff src soff size :
  wf_iovs dst -> wf_iovs src ->
  0 <= doff < 2 ^ 64 -> 0 <= soff < 2 ^ 64 -> 0 <= size < 2 ^ 64 ->
  raid5_memcpy_iovs m dst doff src soff size =
  bytes_op (fun _ y => y)
    (take (Z.to_nat size)
       (zip (drop (Z.to_nat doff) (iovs_addrs dst)) (drop (Z.to_nat soff) (iovs_addrs src))))
    m.
Proof.
  intros Hd Hs Hdo Hso Hsz. unfold raid5_memcpy_iovs.
  pose proof (iovs_seek_spec dst 0 doff (wf_iovs_nonneg _ Hd)) as S1.
  pose proof (iovs_seek_spec src 0 soff (wf_iovs_nonneg _ Hs)) as S2.
  pose proof (iovs_seek_Forall iov_sized dst 0 doff (wf_iovs_sized _ Hd)) as F1.
  pose proof (iovs_seek_Forall iov_sized src 0 soff (wf_iovs_sized _ Hs)) as F2.
  destruct Hd as [_ Hd]. destruct Hs as [_ Hs].
  destruct (iovs_seek dst 0 doff) as [v1 off1]. destruct (iovs_seek src 0 soff) as [v2 off2].
  cbn [fst] in F1, F2.
  destruct S1 as (C1 & _ & A1); [lia|lia|lia|].
  destruct S2 as (C2 & _ & A2); [lia|lia|lia|].
  rewrite (iovs_loop_spec c_memcpy (fun _ y => y) c_memcpy_spec) by assumption.
  rewrite A1, A2, !Z.sub_0_r. reflexivity.
Qed.

(** A bytewise operation over two address streams, when the
    destination addresses are distinct and no source address is a
    destination. *)
Lemma stream_op_bytewise f (D S : list Z) (size : nat) m :
  NoDup D -> (forall a, a ∈ S -> a ∉ D) ->
  (size <= length D)%nat -> (size <= length S)%nat ->
  let m' := bytes_op f (take size (zip D S)) m in
  (forall t, (t < size)%nat -> m' (nth t D 0) = f (m (nth t D 0)) (m (nth t S 0))) /\
  (forall x, x ∉ take size D -> m' x = m x).
Proof.
  intros Hnd Hdis HD HS. cbn zeta. rewrite zip_with_take.
  set (pairs := zip (take size D) (take size S)).
  assert (Hfst : pairs.*1 = take size D).
  { apply fst_zip. rewrite !length_take. lia. }
  assert (Hnd' : NoDup pairs.*1).
  { rewrite Hfst. apply (sublist_NoDup _ D Hnd). apply sublist_take. }
  assert (Hsrc : forall p, p ∈ pairs -> p.2 ∉ pairs.*1).
  { intros [x1 x2] Hp. cbn [snd]. rewrite Hfst. apply elem_of_zip_r in Hp.
    apply elem_of_take_in in Hp. intros Hc. apply elem_of_take_in in Hc.
    exact (Hdis x2 Hp Hc). }
  split.
  - intros t Ht.
    destruct (lookup_lt_is_Some_2 D t ltac:(lia)) as [a Ha].
    destruct (lookup_lt_is_Some_2 S t ltac:(lia)) as [b Hb].
    assert (Hk : pairs !! t = Some (a, b)).
    { unfold pairs. rewrite lookup_zip_with. rewrite !lookup_take_lt by exact Ht.
      rewrite Ha, Hb. reflexivity. }
    rewrite (nth_lookup_Some _ _ _ _ Ha), (nth_lookup_Some _ _ _ _ Hb).
    apply (bytes_op_at f pairs m t a b Hnd' Hsrc Hk).
  - intros x Hx. apply bytes_op_notin. rewrite Hfst. exact Hx.
Qed.

Lemma nth_drop_Z (l : list Z) (n t : Z) :
  0 <= n -> 0 <= t -> nth (Z.to_nat t) (drop (Z.to_nat n) l) 0 = nth (Z.to_nat (n + t)) l 0.
Proof.
  intros Hn Ht. rewrite !nth_lookup, lookup_drop. rewrite Z2Nat.inj_add by lia. reflexivity.
Qed.

Lemma bytes_op_confined f (D S : list Z) (n : nat) m x :
  x ∉ D -> bytes_op f (take n (zip D S)) m x = m x.
Proof.
  intros Hx. apply bytes_op_notin. intros Hc. apply Hx.
  apply list_elem_of_fmap in Hc. destruct Hc as ([a b] & -> & Hp). cbn [fst].
  apply elem_of_take_in in Hp. apply elem_of_zip_l in Hp. exact Hp.
Qed.


(** [raid5_memcpy_iovs] copies [size] bytes of the source vectors, from
    byte [iovs_src_offset] on, to the destination vectors, from byte
    [iovs_dest_offset] on, and changes nothing else, under the same
    conditions. *)
Theorem raid5_memcpy_iovs_bytewise (m : memory) (dst src : list iovec) (doff soff size : Z)
    (Hd : wf_iovs dst) (Hs : wf_iovs src)
    (Hdo : 0 <= doff) (Hso : 0 <= soff) (Hsz : 0 <= size)
    (Hdfit : doff + size <= iovs_total dst) (Hsfit : soff + size <= iovs_total src)
    (Hnd : NoDup (iovs_addrs dst))
    (Hdis : forall a, a ∈ iovs_addrs src -> a ∉ iovs_addrs dst) :
  let m' := raid5_memcpy_iovs m dst doff src soff size in
  (forall t, 0 <= t < size ->
     m' (nth (Z.to_nat (doff + t)) (iovs_addrs dst) 0) =
     m (nth (Z.to_nat (soff + t)) (iovs_addrs src) 0)) /\
  (forall x, x ∉ take (Z.to_nat size) (drop (Z.to_nat doff) (iovs_addrs dst)) -> m' x = m x).
Proof.
  cbn zeta.
  pose proof Hd as [Hdn Hdb]. pose proof Hs as [Hsn Hsb].
  pose proof (length_iovs_addrs dst Hdn) as Ld.
  pose proof (length_iovs_addrs src Hsn) as Ls.
  rewrite raid5_memcpy_iovs_spec by (try assumption; lia).
  destruct (stream_op_bytewise (fun _ y => y) (drop (Z.to_nat doff) (iovs_addrs dst))
              (drop (Z.to_nat soff) (iovs_addrs src)) (Z.to_nat size) m) as [H1 H2].
  - apply (sublist_NoDup _ (iovs_addrs dst) Hnd). apply sublist_drop.
  - intros a Ha Hc. apply elem_of_drop_in in Ha. apply elem_of_drop_in in Hc.
    exact (Hdis a Ha Hc).
  - rewrite length_drop. lia.
  - rewrite length_drop. lia.
  - split; [|exact H2].
    intros t Ht. specialize (H1 (Z.to_nat t) ltac:(lia)).
    rewrite !nth_drop_Z in H1 by lia. exact H1.
Qed.

(** Whatever the offsets and the size, [raid5_xor_iovs] and
    [raid5_memcpy_iovs] write to bytes of the destination vectors from
    the destination offset on only: they stop at the end of the shorter
    of the two streams, and do nothing when the destination offset is at
    or past the end of the destination vectors. *)
Theorem iovs_transfer_confined (m : memory) (dst src : list iovec) (doff soff size : Z)
    (Hd : wf_iovs dst) (Hs : wf_iovs src)
    (Hdo : 0 <= doff < 2 ^ 64) (Hso : 0 <= soff < 2 ^ 64) (Hsz : 0 <= size < 2 ^ 64) :
  (forall x, x ∉ drop (Z.to_nat doff) (iovs_addrs dst) ->
     raid5_xor_iovs m dst doff src soff size x = m x /\
     raid5_memcpy_iovs m dst doff src soff size x = m x) /\
  (iovs_total dst <= doff ->
   raid5_xor_iovs m dst doff src soff size = m /\
   raid5_memcpy_iovs m dst doff src soff size = m).
Proof.
  rewrite raid5_xor_iovs_spec, raid5_memcpy_iovs_spec by assumption.
  split.
  - intros x Hx. split; apply bytes_op_confined; exact Hx.
  - intros Hpast. destruct Hd as [Hdn _].
    pose proof (length_iovs_addrs dst Hdn) as Ld.
    rewrite drop_ge by lia. cbn [zip zip_with]. rewrite take_nil. split; reflexivity.
Qed.

(** [raid5_memset_iovs] sets every byte of every vector to [c] and
    changes no other byte. *)
Theorem raid5_memset_iovs_fills (iovs : list iovec) (c : Z) : forall (m : memory) (x : Z),
  raid5_memset_iovs m iovs c x = if bool_decide (x ∈ iovs_addrs iovs) then c else m x.
Proof.
  unfold raid5_memset_iovs.
  induction iovs as [|v l IH]; intros m x.
  - cbn [fold_left]. rewrite bool_decide_eq_false_2; [reflexivity|].
    unfold iovs_addrs. cbn. apply not_elem_of_nil.
  - cbn [fold_left]. rewrite IH.
    assert (Hcons : iovs_addrs (v :: l) = iov_addrs v ++ iovs_addrs l) by reflexivity.
    unfold c_memset. rewrite set_bytes_spec.
    destruct (bool_decide_reflect (x ∈ iovs_addrs l)) as [Hin|Hout].
    + rewrite bool_decide_eq_true_2; [reflexivity|].
      rewrite Hcons. apply elem_of_app. right. exact Hin.
    + destruct (Z.leb_spec (iov_base v) x) as [H1|H1];
        [destruct (Z.ltb_spec x (iov_base v + Z.of_nat (Z.to_nat (iov_len v)))) as [H2|H2]|];
        cbn [andb].
      * rewrite bool_decide_eq_true_2; [reflexivity|].
        rewrite Hcons. apply elem_of_app. left. unfold iov_addrs. apply elem_of_seqZ. lia.
      * rewrite bool_decide_eq_false_2; [reflexivity|].
        rewrite Hcons. intros Hc. apply elem_of_app in Hc. destruct Hc as [Hc|Hc];
          [|contradiction]. unfold iov_addrs in Hc. apply elem_of_seqZ in Hc. lia.
      * rewrite bool_decide_eq_false_2; [reflexivity|].
        rewrite Hcons. intros Hc. apply elem_of_app in Hc. destruct Hc as [Hc|Hc];
          [|contradiction]. unfold iov_addrs in Hc. apply elem_of_seqZ in Hc. lia.
Qed.

(** ** Mapping the upstream vectors onto a chunk *)

Lemma map_find_start_past (l : list iovec) : forall off offset,
  Forall (fun v => 0 <= iov_len v) l -> 0 <= off ->
  off + iovs_total l <= offset -> off + iovs_total l < 2 ^ 64 ->
  map_find_start l off offset = None.
Proof.
  induction l as [|y l IHl]; intros off offset Hl Ho Hle Hlt; [reflexivity|].
  inversion Hl as [|? ? Hy Hl']; subst. rewrite iovs_total_cons in *.
  pose proof (iovs_total_nonneg l Hl').
  cbn [map_find_start]. rewrite (u64_small (off + iov_len y)) by lia.
  destruct (off + iov_len y >? offset) eqn:Eg; [apply Z.gtb_lt in Eg; lia|].
  apply IHl; try assumption; lia.
Qed.

Lemma realloc_iovs_fails p n ok : realloc_iovs p n ok = None -> ok = false.
Proof. unfold realloc_iovs. destruct ok; [destruct p; discriminate|reflexivity]. Qed.

(** What [raid5_chunk_map_iov] returns and leaves behind. *)
Lemma chunk_map_iov_outcome (c : chunk) (iov : list iovec) (offset len : Z) (ok : bool)
    (Hwf : wf_iovs iov) (Hoff : 0 <= offset) (Hlen : 0 < len)
    (Hb : iovs_total iov + len < 2 ^ 64) (Hcap : chunk_cap_ok c) :
  let '(ret, called, c') := raid5_chunk_map_iov c iov offset len ok in
  (ret = 0 \/ ret = - EINVAL \/ ret = - ENOMEM) /\
  (ret = 0 ->
   offset + len <= iovs_total iov /\ chunk_cap_ok c' /\
   iovs_addrs (chunk_iovs c') =
     take (Z.to_nat len) (drop (Z.to_nat offset) (iovs_addrs iov))) /\
  (ret = - ENOMEM -> ok = false /\ called = true /\ offset < iovs_total iov) /\
  (ok = true -> offset + len <= iovs_total iov -> ret = 0) /\
  (iovs_total iov <= offset -> ret = - EINVAL /\ called = false /\ c' = c).
Proof.
  pose proof (raid5_chunk_map_iov_ret0 c iov offset len ok Hwf Hoff Hlen Hb Hcap) as R0.
  pose proof (raid5_chunk_map_iov_spec c iov offset len Hwf Hoff Hlen) as Sp.
  pose proof Hwf as [Hnn Hbound].
  pose proof (length_iovs_addrs iov Hnn) as Llen.
  assert (Hpast : iovs_total iov <= offset -> map_find_start iov 0 offset = None).
  { intros Hp. apply map_find_start_past; try assumption; lia. }
  assert (Hshape :
    let '(ret, called, c') := raid5_chunk_map_iov c iov offset len ok in
    (ret = 0 \/ ret = - EINVAL \/ ret = - ENOMEM) /\
    (ret = - ENOMEM -> ok = false /\ called = true /\ offset < iovs_total iov) /\
    (iovs_total iov <= offset -> ret = - EINVAL /\ called = false /\ c' = c)).
  { unfold raid5_chunk_map_iov.
    destruct (map_find_start iov 0 offset) as [[iov_s o]|] eqn:E.
    - assert (Hin : offset < iovs_total iov).
      { destruct (Z_lt_le_dec offset (iovs_total iov)) as [H|H]; [exact H|].
        specialize (Hpast H). congruence. }
      destruct (_ >? iovcnt c).
      + destruct (realloc_iovs _ _ ok) as [p|] eqn:Er.
        * destruct (map_fill _ iov_s o offset len) as [es len'].
          destruct (len' >? 0); cbn;
            (split; [auto|split; [intros Ec; unfold EINVAL, ENOMEM in Ec; lia|intros Hp; lia]]).
        * apply realloc_iovs_fails in Er.
          split; [auto|split; [intros _; auto|intros Hp; lia]].
      + destruct (map_fill _ iov_s o offset len) as [es len'].
        destruct (len' >? 0); cbn;
          (split; [auto|split; [intros Ec; unfold EINVAL, ENOMEM in Ec; lia|intros Hp; lia]]).
    - split; [auto|split; [intros Ec; unfold EINVAL, ENOMEM in Ec; lia|intros _; auto]]. }
  assert (H4 : ok = true -> offset + len <= iovs_total iov ->
               let '(ret, _, _) := raid5_chunk_map_iov c iov offset len ok in ret = 0).
  { intros -> Hfit. specialize (Sp Hfit).
    destruct (raid5_chunk_map_iov c iov offset len true) as [[r cl] c2]. tauto. }
  revert R0 Hshape H4.
  destruct (raid5_chunk_map_iov c iov offset len ok) as [[ret called] c'].
  intros R0 Hshape H4.
  destruct Hshape as (S1 & S2 & S3).
  split; [exact S1|]. split; [|split; [exact S2|split; [exact H4|exact S3]]].
  - intros Hr. destruct (R0 Hr) as (C1 & _ & C3 & C4). split; [|split; [exact C1|exact C4]].
    assert (Hl : Z.of_nat (length (iovs_addrs (chunk_iovs c'))) = len).
    { rewrite <- C3. apply length_iovs_addrs.
      destruct (R0 Hr) as (_ & C2 & _). eapply Forall_impl; [exact C2|].
      intros v Hv. unfold iov_sized in Hv. lia. }
    rewrite C4, length_take, length_drop in Hl. lia.
Qed.

(** The outcomes of [raid5_chunk_map_iov] for a request of [len > 0]
    bytes at byte [offset] of the upstream vectors: it returns [0],
    [-EINVAL] or [-ENOMEM]; [0] only if the range lies inside the
    vectors, and then the chunk's vectors name exactly the bytes
    [offset .. offset + len) of the upstream vectors, in order;
    [-ENOMEM] only if [realloc] was called and failed; when [realloc]
    does not fail, a range inside the vectors is always mapped; and an
    offset at or past the end gives [-EINVAL] with the chunk
    untouched. *)
Theorem raid5_chunk_map_iov_result (c : chunk) (iov : list iovec) (offset len : Z) (ok : bool)
    (Hwf : wf_iovs iov) (Hoff : 0 <= offset) (Hlen : 0 < len)
    (Hb : iovs_total iov + len < 2 ^ 64) (Hcap : chunk_cap_ok c) :
  let '(ret, called, c') := raid5_chunk_map_iov c iov offset len ok in
  (ret = 0 \/ ret = - EINVAL \/ ret = - ENOMEM) /\
  (ret = 0 ->
   offset + len <= iovs_total iov /\ chunk_cap_ok c' /\
   iovs_addrs (chunk_iovs c') =
     take (Z.to_nat len) (drop (Z.to_nat offset) (iovs_addrs iov))) /\
  (ret = - ENOMEM -> ok = false /\ called = true /\ offset < iovs_total iov) /\
  (ok = true -> offset + len <= iovs_total iov -> ret = 0) /\
  (iovs_total iov <= offset -> ret = - EINVAL /\ called = false /\ c' = c).
Proof. exact (chunk_map_iov_outcome c iov offset len ok Hwf Hoff Hlen Hb Hcap). Qed.

(** [raid5_chunk_map_req_data] hands chunk [i] the next
    [req_blocks * blocklen] bytes of the upstream vectors: on success
    the chunk's vectors name the bytes from [iov_offset] on and
    [iov_offset] has advanced past them, so that consecutive calls map
    consecutive, disjoint parts of the upstream buffer; on failure
    [iov_offset] stays.  Neither the memory nor any other chunk is
    touched, and the call succeeds whenever the bytes are there and
    [realloc] does not fail. *)
Theorem raid5_chunk_map_req_data_advances (rb : raid_bdev) (bdev_iovs : list iovec)
    (i : Z) (e : engine)
    (Hwf : wf_iovs bdev_iovs)
    (Hi : 0 <= i) (Hlen : (Z.to_nat i < length (chunks (req e)))%nat)
    (Hcap : chunk_cap_ok (chunk_at e i))
    (Hoff : 0 <= iov_offset (req e))
    (Hblk : 0 < req_blocks (chunk_at e i) * blocklen rb)
    (Hb : iovs_total bdev_iovs + req_blocks (chunk_at e i) * blocklen rb < 2 ^ 64) :
  let len := req_blocks (chunk_at e i) * blocklen rb in
  let '(ret, e') := raid5_chunk_map_req_data rb bdev_iovs i e in
  mem e' = mem e /\
  (forall j, j <> i -> chunk_at e' j = chunk_at e j) /\
  (ret = 0 ->
   iov_offset (req e') = iov_offset (req e) + len /\
   iov_offset (req e') <= iovs_total bdev_iovs /\
   iovs_addrs (chunk_iovs (chunk_at e' i)) =
     take (Z.to_nat len) (drop (Z.to_nat (iov_offset (req e))) (iovs_addrs bdev_iovs))) /\
  (ret <> 0 -> iov_offset (req e') = iov_offset (req e)) /\
  (hd true (realloc_script e) = true ->
   iov_offset (req e) + len <= iovs_total bdev_iovs -> ret = 0).
Proof.
  cbn zeta. unfold raid5_chunk_map_req_data.
  pose proof Hwf as [Hnn Hbound]. pose proof (iovs_total_nonneg bdev_iovs Hnn) as Htot.
  rewrite (u64_small (req_blocks (chunk_at e i) * blocklen rb)) by lia.
  pose proof (chunk_map_iov_outcome (chunk_at e i) bdev_iovs (iov_offset (req e))
                (req_blocks (chunk_at e i) * blocklen rb) (hd true (realloc_script e))
                Hwf Hoff Hblk Hb Hcap) as R.
  destruct (raid5_chunk_map_iov _ _ _ _ _) as [[ret called] c'].
  destruct R as (R1 & R2 & R3 & R4 & R5).
  set (e1 := if called then with_realloc_script e (tl (realloc_script e)) else e).
  assert (He1 : req e1 = req e /\ mem e1 = mem e).
  { subst e1. destruct called; split; reflexivity. }
  destruct He1 as [Hr1 Hm1].
  assert (Hat : forall j, chunk_at (store_chunk e1 i c') j =
                          if Z.eq_dec j i then c' else chunk_at e j).
  { intros j. unfold chunk_at, store_chunk. cbn [req with_req]. rewrite Hr1.
    destruct (Z.eq_dec j i) as [->|Hj].
    - apply get_set_chunk_eq; assumption.
    - apply get_set_chunk_ne. congruence. }
  destruct (Z.eqb_spec ret 0) as [Hz|Hnz].
  - destruct (R2 Hz) as (Hfit & _ & Haddr).
    split; [cbn; exact Hm1|].
    split.
    { intros j Hj. change (chunk_at (store_chunk e1 i c') j = chunk_at e j).
      rewrite Hat. destruct (Z.eq_dec j i); [contradiction|reflexivity]. }
    split; [|split; [intros Hc; contradiction|intros _ _; exact Hz]].
    intros _. cbn [req with_req upd_iov_offset iov_offset store_chunk].
    change (iov_offset (set_chunk (req e1) i c')) with (iov_offset (req e1)).
    rewrite Hr1. rewrite u64_small by lia.
    split; [reflexivity|]. split; [lia|].
    change (iovs_addrs (chunk_iovs (get_chunk (set_chunk (req e) i c') i)) =
            take (Z.to_nat (req_blocks (chunk_at e i) * blocklen rb))
              (drop (Z.to_nat (iov_offset (req e))) (iovs_addrs bdev_iovs))).
    rewrite get_set_chunk_eq by assumption. exact Haddr.
  - split; [cbn; exact Hm1|].
    split.
    { intros j Hj. rewrite Hat. destruct (Z.eq_dec j i); [contradiction|reflexivity]. }
    split; [intros Hc; contradiction|].
    split.
    + intros _. cbn [req with_req store_chunk].
      change (iov_offset (set_chunk (req e1) i c')) with (iov_offset (req e1)).
      rewrite Hr1. reflexivity.
    + intros Hok Hfit. exfalso. apply Hnz. apply R4; assumption.
Qed.

(** ** The chunk loops and the data index *)

Lemma filter_ne_all (p : Z) (l : list Z) :
  p ∉ l -> filter (fun i => i <> p) l = l.
Proof.
  induction l as [|x l IH]; intros Hn; [reflexivity|].
  apply not_elem_of_cons in Hn. destruct Hn as [Hx Hn].
  rewrite filter_cons. destruct (decide (x <> p)) as [_|Hc]; [|exfalso; apply Hc; congruence].
  rewrite IH by exact Hn. reflexivity.
Qed.

(** [FOR_EACH_DATA_CHUNK] visits the chunks before the parity chunk
    and then the chunks behind it, each once and in order; with a
    parity pointer outside the array it visits every chunk. *)
Theorem for_each_data_chunk_visits (rb : raid_bdev) (r : stripe_request) :
  (0 <= parity_chunk r < num_base_bdevs rb ->
   each_data_chunk rb r =
   seqZ 0 (parity_chunk r)
   ++ seqZ (parity_chunk r + 1) (num_base_bdevs rb - parity_chunk r - 1)) /\
  (~ (0 <= parity_chunk r < num_base_bdevs rb) ->
   each_data_chunk rb r = seqZ 0 (num_base_bdevs rb)).
Proof.
  rewrite each_data_chunk_spec. unfold data_positions.
  set (p := parity_chunk r). set (n := num_base_bdevs rb). split.
  - intros Hp.
    replace n with (p + (n - p)) at 1 by lia.
    rewrite seqZ_app by lia. rewrite filter_app.
    rewrite filter_ne_all by (rewrite elem_of_seqZ; lia).
    f_equal. replace (0 + p) with p by lia.
    rewrite filter_seqZ_skip by lia.
    apply filter_ne_all. rewrite elem_of_seqZ. lia.
  - intros Hp. apply filter_ne_all. rewrite elem_of_seqZ. lia.
Qed.

(** [raid5_get_data_chunk] and [raid5_chunk_data_index] are inverse
    to each other on the data chunks of a request, and
    [raid5_get_data_chunk] never yields the parity chunk. *)
Theorem data_index_round_trip (r : stripe_request) (k i : Z)
    (Hp : 0 <= parity_chunk r < 2 ^ 8)
    (Hk : 0 <= k < 2 ^ 8 - 1) (Hi : 0 <= i < 2 ^ 8) (Hne : i <> parity_chunk r)
    (Hidx : index (get_chunk r (raid5_get_data_chunk r k)) = raid5_get_data_chunk r k)
    (Hidxi : index (get_chunk r i) = i) :
  raid5_get_data_chunk r k <> parity_chunk r /\
  raid5_chunk_data_index r (raid5_get_data_chunk r k) = k /\
  raid5_get_data_chunk r (raid5_chunk_data_index r i) = i.
Proof.
  unfold raid5_chunk_data_index. rewrite Hidx, Hidxi.
  unfold raid5_get_data_chunk in *. rewrite (u8_small (parity_chunk r)) by exact Hp.
  split; [|split].
  - destruct (Z.ltb_spec k (parity_chunk r)); lia.
  - destruct (Z.ltb_spec k (parity_chunk r)) as [H1|H1].
    + destruct (Z.ltb_spec k (parity_chunk r)); [|lia]. apply u8_small. lia.
    + destruct (Z.ltb_spec (k + 1) (parity_chunk r)); [lia|].
      replace (k + 1 - 1) with k by lia. apply u8_small. lia.
  - destruct (Z.ltb_spec i (parity_chunk r)) as [H1|H1].
    + rewrite (u8_small i) by lia. destruct (Z.ltb_spec i (parity_chunk r)); lia.
    + rewrite (u8_small (i - 1)) by lia.
      destruct (Z.ltb_spec (i - 1) (parity_chunk r)); lia.
Qed.

(** ** [raid5_check_degraded] *)

Lemma filter_snoc_bool {A} (f : A -> bool) (l : list A) (x : A) :
  List.filter f (l ++ [x]) = List.filter f l ++ (if f x then [x] else []).
Proof. rewrite List.filter_app. cbn. destruct (f x); reflexivity. Qed.

(** [raid5_check_degraded] counts the chunks of the request that lie
    on a degraded member, leaves [degraded_chunk] at the last of them
    (NULL when there is none, whatever it was before), and returns
    [-1] exactly when more than one member is degraded.  The array has
    at most 255 members, so the count does not wrap in its
    [uint8_t]. *)
Theorem raid5_check_degraded_counts (rb : raid_bdev) (e : engine)
    (HN : 0 <= num_base_bdevs rb <= 255) :
  let degraded :=
    List.filter (fun i => base_degraded rb (index (chunk_at e i)))
                (seqZ 0 (num_base_bdevs rb)) in
  raid5_check_degraded rb e =
  (if (1 <? Z.of_nat (length degraded)) then -1 else 0,
   with_req e (upd_degraded_chunk (req e) (last degraded))).
Proof.
  cbn zeta. unfold raid5_check_degraded.
  set (f := fun i => base_degraded rb (index (chunk_at e i))).
  match goal with |- context [fold_left ?g ?l ?a] =>
    assert (G : (fun pre st =>
                   Z.of_nat (length pre) <= 255 ->
                   st = (Z.of_nat (length (List.filter f pre)),
                         with_req e (upd_degraded_chunk (req e) (last (List.filter f pre)))))
                l (fold_left g l a)) end.
  { apply fold_left_prefix.
    - intros _. reflexivity.
    - intros pre i post [t x] E IH Hlen. rewrite length_app in Hlen. cbn [length] in Hlen.
      specialize (IH ltac:(lia)). injection IH as -> ->.
      rewrite filter_snoc_bool.
      change (chunk_at (with_req e (upd_degraded_chunk (req e) (last (List.filter f pre)))) i)
        with (chunk_at e i).
      fold (f i). destruct (f i).
      + rewrite last_snoc, length_app. cbn [length].
        pose proof (List.filter_length_le f pre) as Hle.
        rewrite u8_small by (change (2 ^ 8) with 256; lia).
        f_equal. lia.
      + rewrite app_nil_r. reflexivity. }
  cbn beta in G. unfold each_chunk in *.
  specialize (G ltac:(rewrite length_seqZ; lia)). rewrite G.
  unfold base_bdevs_max_degraded.
  destruct (Z.gtb_spec (Z.of_nat (length (List.filter f (seqZ 0 (num_base_bdevs rb))))) 1);
    destruct (Z.ltb_spec 1 (Z.of_nat (length (List.filter f (seqZ 0 (num_base_bdevs rb))))));
    try lia; reflexivity.
Qed.

(** ** The stripe cache *)

(** [raid5_reclaim_stripes] returns the number of stripes it took: all
    the unreferenced active stripes, but no more than one beyond its
    target, [RAID_MAX_STRIPES / 8 - RAID_MAX_STRIPES + rte_hash_count];
    with a target of zero or less it still takes one. *)
Theorem raid5_reclaim_stripes_count (RAID_MAX_STRIPES : Z) (s : system) :
  fst (raid5_reclaim_stripes RAID_MAX_STRIPES s) =
  Z.min (Z.of_nat (length (List.filter (reclaimable s) (active_stripes s))))
        (Z.max (reclaim_target RAID_MAX_STRIPES s) 0 + 1).
Proof.
  unfold raid5_reclaim_stripes. rewrite reclaim_walk_count by lia.
  rewrite Z.add_0_l, Z.sub_0_r. f_equal. f_equal.
  assert (G : forall l : list nat,
            length (List.filter (reclaimable s) (rev l)) =
            length (List.filter (reclaimable s) l)).
  { induction l as [|x l IH]; [reflexivity|].
    cbn [rev]. change (reverse l ++ [x]) with (rev l ++ [x]).
    rewrite List.filter_app, length_app, IH. cbn [List.filter].
    destruct (reclaimable s x); cbn [length]; lia. }
  apply G.
Qed.

Lemma NoDup_move_front (h : nat) (a f : list nat) :
  NoDup (a ++ f) -> h ∈ a -> NoDup ((h :: filter (fun x => x <> h) a) ++ f).
Proof.
  intros Hnd Hin. apply NoDup_app in Hnd. destruct Hnd as (Ha & Hdis & Hf).
  apply NoDup_app. split; [|split; [|exact Hf]].
  - apply NoDup_cons. split; [|apply NoDup_filter; exact Ha].
    intros Hc. apply list_elem_of_filter in Hc. destruct Hc as [Hc _]. congruence.
  - intros x Hx. apply elem_of_cons in Hx. destruct Hx as [->|Hx]; [apply Hdis; exact Hin|].
    apply list_elem_of_filter in Hx. apply Hdis. tauto.
Qed.

Lemma NoDup_move_to_free (h : nat) (a f : list nat) :
  NoDup (a ++ f) -> h ∈ a -> NoDup (filter (fun x => x <> h) a ++ f ++ [h]).
Proof.
  intros Hnd Hin. apply NoDup_app in Hnd. destruct Hnd as (Ha & Hdis & Hf).
  apply NoDup_app. split; [apply NoDup_filter; exact Ha|]. split.
  - intros x Hx. apply list_elem_of_filter in Hx. destruct Hx as [Hne Hx].
    intros Hc. apply elem_of_app in Hc. destruct Hc as [Hc|Hc]; [exact (Hdis x Hx Hc)|].
    apply list_elem_of_singleton in Hc. contradiction.
  - apply NoDup_app. split; [exact Hf|]. split; [|apply NoDup_singleton].
    intros x Hx Hc. apply list_elem_of_singleton in Hc. subst x. exact (Hdis h Hin Hx).
Qed.

Lemma NoDup_move_to_active (h : nat) (a f : list nat) :
  NoDup (a ++ f) -> h ∈ f -> NoDup ((h :: a) ++ filter (fun x => x <> h) f).
Proof.
  intros Hnd Hin. apply NoDup_app in Hnd. destruct Hnd as (Ha & Hdis & Hf).
  apply NoDup_app. split; [|split; [|apply NoDup_filter; exact Hf]].
  - apply NoDup_cons. split; [|exact Ha]. intros Hc. exact (Hdis h Hc Hin).
  - intros x Hx Hc. apply list_elem_of_filter in Hc. destruct Hc as [Hne Hc].
    apply elem_of_cons in Hx. destruct Hx as [->|Hx]; [congruence|]. exact (Hdis x Hx Hc).
Qed.

(** A cached stripe that is asked for again moves to the head of the
    active list. *)
Lemma coherent_touch s s' idx h :
  cache_coherent s -> active_stripes_hash s !! idx = Some h ->
  active_stripes s' = h :: tailq_remove h (active_stripes s) ->
  free_stripes s' = free_stripes s ->
  active_stripes_hash s' = active_stripes_hash s ->
  length (stripes s') = length (stripes s) ->
  (forall h', s_index (the_stripe s' h') = s_index (the_stripe s h')) ->
  cache_coherent s'.
Proof.
  intros (Hnd & Hh & Ha & Hb) Hhit Ea Ef Eh El Ei.
  destruct (Hh idx h Hhit) as [Hin Hidx].
  assert (Hnda : NoDup (active_stripes s)).
  { apply NoDup_app in Hnd. tauto. }
  rewrite tailq_remove_filter in Ea by exact Hnda.
  assert (Hmem : forall x, x ∈ active_stripes s' <-> x ∈ active_stripes s).
  { intros x. rewrite Ea, elem_of_cons, list_elem_of_filter. split.
    - intros [->|[_ Hx]]; assumption.
    - intros Hx. destruct (Nat.eq_dec x h) as [->|Hne]; [left; reflexivity|right; tauto]. }
  split; [rewrite Ea, Ef; apply NoDup_move_front; assumption|].
  split; [|split].
  - intros k x Hk. rewrite Eh in Hk. destruct (Hh k x Hk) as [H1 H2].
    rewrite Hmem, Ei. tauto.
  - intros x Hx. apply Hmem in Hx. rewrite Eh, Ei. apply Ha. exact Hx.
  - intros x Hx. rewrite El. apply Hb. rewrite elem_of_app in *. rewrite Hmem, Ef in Hx.
    exact Hx.
Qed.

(** A free stripe that is given a new index becomes the head of the
    active list. *)
Lemma coherent_install s s' idx h :
  cache_coherent s -> active_stripes_hash s !! idx = None ->
  head (free_stripes s) = Some h ->
  active_stripes s' = h :: active_stripes s ->
  free_stripes s' = tailq_remove h (free_stripes s) ->
  active_stripes_hash s' = <[idx := h]> (active_stripes_hash s) ->
  length (stripes s') = length (stripes s) ->
  s_index (the_stripe s' h) = idx ->
  (forall h', h' <> h -> s_index (the_stripe s' h') = s_index (the_stripe s h')) ->
  cache_coherent s'.
Proof.
  intros (Hnd & Hh & Ha & Hb) Hmiss Hhead Ea Ef Eh El Eidx Ei.
  assert (Hin : h ∈ free_stripes s).
  { destruct (free_stripes s) as [|x f]; [discriminate Hhead|].
    injection Hhead as ->. apply list_elem_of_here. }
  assert (Hndf : NoDup (free_stripes s)).
  { apply NoDup_app in Hnd. tauto. }
  assert (Hnot : h ∉ active_stripes s).
  { intros Hc. apply NoDup_app in Hnd. destruct Hnd as (_ & Hdis & _). exact (Hdis h Hc Hin). }
  rewrite tailq_remove_filter in Ef by exact Hndf.
  split; [rewrite Ea, Ef; apply NoDup_move_to_active; assumption|].
  split; [|split].
  - intros k x Hk. rewrite Eh in Hk. rewrite Ea.
    destruct (Z.eq_dec k idx) as [->|Hne].
    + rewrite lookup_insert_eq in Hk. injection Hk as <-.
      split; [apply list_elem_of_here|exact Eidx].
    + rewrite lookup_insert_ne in Hk by congruence.
      destruct (Hh k x Hk) as [H1 H2].
      split; [apply list_elem_of_further; exact H1|].
      rewrite Ei; [exact H2|]. intros ->. contradiction.
  - intros x Hx. rewrite Ea in Hx. rewrite Eh. apply elem_of_cons in Hx.
    destruct Hx as [->|Hx].
    + rewrite Eidx. apply lookup_insert_eq.
    + assert (Hne : x <> h) by (intros ->; contradiction).
      rewrite (Ei x Hne). rewrite lookup_insert_ne; [apply Ha; exact Hx|].
      intros Hc. rewrite Hc in Hmiss. rewrite (Ha x Hx) in Hmiss. discriminate Hmiss.
  - intros x Hx. rewrite El. apply Hb. rewrite Ea, Ef in Hx.
    rewrite elem_of_app in *. rewrite elem_of_cons, list_elem_of_filter in Hx.
    destruct Hx as [[->|Hx]|[_ Hx]]; auto.
Qed.

(** A stripe that is reclaimed leaves the hash and the active list for
    the tail of the free list. *)
Lemma reclaim_one_coherent h s :
  cache_coherent s -> h ∈ active_stripes s -> cache_coherent (reclaim_one h s).
Proof.
  intros (Hnd & Hh & Ha & Hb) Hin.
  pose proof (reclaim_one_fields h s) as F. cbn zeta in F.
  destruct F as (F1 & F2 & F3 & F4 & _).
  assert (Hnda : NoDup (active_stripes s)).
  { apply NoDup_app in Hnd. tauto. }
  rewrite tailq_remove_filter in F3 by exact Hnda.
  assert (Hi : forall x, s_index (the_stripe (reclaim_one h s) x) = s_index (the_stripe s x)).
  { intros x. unfold the_stripe. rewrite F1. reflexivity. }
  split; [rewrite F2, F3; apply NoDup_move_to_free; assumption|].
  split; [|split].
  - intros k x Hk. rewrite F4 in Hk. apply lookup_delete_Some in Hk.
    destruct Hk as [Hne Hk]. destruct (Hh k x Hk) as [H1 H2].
    rewrite F3, Hi, list_elem_of_filter. split; [split; [|exact H1]|exact H2].
    intros ->. congruence.
  - intros x Hx. rewrite F3 in Hx. apply list_elem_of_filter in Hx. destruct Hx as [Hne Hx].
    rewrite F4, Hi. rewrite lookup_delete_ne; [apply Ha; exact Hx|].
    intros Hc. pose proof (Ha x Hx) as H1. pose proof (Ha h Hin) as H2.
    rewrite <- Hc in H1. rewrite H1 in H2. congruence.
  - intros x Hx. rewrite F1. apply Hb. rewrite F2, F3 in Hx.
    rewrite !elem_of_app in *. rewrite list_elem_of_filter, list_elem_of_singleton in Hx.
    destruct Hx as [[_ Hx]|[Hx| ->]]; auto.
Qed.

Lemma reclaim_walk_coherent (t : Z) (l : list nat) : forall (n : Z) (s : system),
  cache_coherent s -> NoDup l -> (forall x, x ∈ l -> x ∈ active_stripes s) ->
  cache_coherent (snd (reclaim_walk t l (n, s))) /\
  (forall k v, active_stripes_hash (snd (reclaim_walk t l (n, s))) !! k = Some v ->
               active_stripes_hash s !! k = Some v) /\
  stripes (snd (reclaim_walk t l (n, s))) = stripes s /\
  (exists taken, free_stripes (snd (reclaim_walk t l (n, s))) = free_stripes s ++ taken /\
                 fst (reclaim_walk t l (n, s)) = n + Z.of_nat (length taken)).
Proof.
  induction l as [|h l IH]; intros n s Hc Hnd Hin.
  - cbn. split; [exact Hc|]. split; [tauto|]. split; [reflexivity|].
    exists []. rewrite app_nil_r. cbn. split; [reflexivity|lia].
  - apply NoDup_cons in Hnd. destruct Hnd as [Hh Hnd].
    destruct (s_refs (the_stripe s h) >? 0) eqn:Hbusy.
    + destruct (reclaim_walk_busy t h l n s Hbusy) as (-> & _).
      apply IH; [exact Hc|exact Hnd|]. intros x Hx. apply Hin. right. exact Hx.
    + destruct (reclaim_walk_idle t h l n s Hbusy) as (-> & _).
      pose proof (reclaim_one_coherent h s Hc (Hin h ltac:(left))) as Hc1.
      pose proof (reclaim_one_fields h s) as F. cbn zeta in F.
      destruct F as (F1 & F2 & F3 & F4 & _).
      assert (Hsub : forall k v, active_stripes_hash (reclaim_one h s) !! k = Some v ->
                                 active_stripes_hash s !! k = Some v).
      { intros k v Hk. rewrite F4 in Hk. apply lookup_delete_Some in Hk. tauto. }
      destruct (n + 1 >? t).
      * cbn [fst snd]. split; [exact Hc1|]. split; [exact Hsub|]. split; [exact F1|].
        exists [h]. split; [exact F2|]. cbn. lia.
      * destruct (IH (n + 1) (reclaim_one h s) Hc1 Hnd) as (I1 & I2 & I3 & taken & I4 & I5).
        { intros x Hx. rewrite F3.
          destruct Hc as (Hnda & _). apply NoDup_app in Hnda. destruct Hnda as (Hnda & _).
          rewrite tailq_remove_filter by exact Hnda. apply list_elem_of_filter.
          split; [intros ->; contradiction|]. apply Hin. right. exact Hx. }
        split; [exact I1|]. split; [intros k v Hk; apply Hsub, I2; exact Hk|].
        split; [rewrite I3; exact F1|].
        exists (h :: taken). split; [rewrite I4, F2, <- app_assoc; reflexivity|].
        rewrite I5. cbn [length]. lia.
Qed.

Lemma the_stripe_set_eq s h o :
  (h < length (stripes s))%nat -> the_stripe (sys_set_stripe s h o) h = o.
Proof.
  intros Hlt. unfold the_stripe, sys_set_stripe. cbn [stripes sys_set_cache].
  rewrite list_lookup_insert_eq by exact Hlt. reflexivity.
Qed.

Lemma the_stripe_set_ne s h o h' :
  h' <> h -> the_stripe (sys_set_stripe s h o) h' = the_stripe s h'.
Proof.
  intros Hne. unfold the_stripe, sys_set_stripe. cbn [stripes sys_set_cache].
  rewrite list_lookup_insert_ne by congruence. reflexivity.
Qed.

Lemma the_stripe_set_cache s h a f h' :
  the_stripe (sys_set_cache s (stripes s) h a f) h' = the_stripe s h'.
Proof. reflexivity. Qed.

(** Taking the free stripe [h] for [idx] and referencing it. *)
Lemma install_stripe (hashv idx : Z) (s : system) (h : nat) :
  cache_coherent s -> active_stripes_hash s !! idx = None ->
  head (free_stripes s) = Some h ->
  let s1 := sys_set_cache s (stripes s) (active_stripes_hash s)
              (active_stripes s) (tailq_remove h (free_stripes s)) in
  let o := the_stripe s1 h in
  let s2 := sys_set_stripe s1 h
              {| s_index := idx; s_hash := hashv; s_requests := s_requests o;
                 s_refs := s_refs o; s_chunk_buffers := s_chunk_buffers o |} in
  let s3 := sys_set_cache s2 (stripes s2) (<[idx := h]> (active_stripes_hash s2))
              (active_stripes s2) (free_stripes s2) in
  let s4 := sys_set_cache s3 (stripes s3) (active_stripes_hash s3)
              (h :: active_stripes s3) (free_stripes s3) in
  let o4 := the_stripe s4 h in
  let s5 := sys_set_stripe s4 h
              {| s_index := s_index o4; s_hash := s_hash o4; s_requests := s_requests o4;
                 s_refs := (s_refs o4 + 1) mod 2 ^ 32;
                 s_chunk_buffers := s_chunk_buffers o4 |} in
  cache_coherent s5 /\
  active_stripes_hash s5 !! idx = Some h /\
  head (active_stripes s5) = Some h /\
  s_index (the_stripe s5 h) = idx /\
  s_hash (the_stripe s5 h) = hashv /\
  s_refs (the_stripe s5 h) = (s_refs (the_stripe s h) + 1) mod 2 ^ 32 /\
  (forall h', h' <> h -> the_stripe s5 h' = the_stripe s h').
Proof.
  intros Hc Hmiss Hhead s1 o s2 s3 s4 o4 s5.
  assert (Hlt : (h < length (stripes s))%nat).
  { destruct Hc as (_ & _ & _ & Hb). apply Hb. apply elem_of_app. right.
    destruct (free_stripes s) as [|x f]; [discriminate Hhead|].
    injection Hhead as ->. apply list_elem_of_here. }
  assert (Ho4 : o4 = {| s_index := idx; s_hash := hashv; s_requests := s_requests o;
                        s_refs := s_refs o; s_chunk_buffers := s_chunk_buffers o |}).
  { subst o4 s4 s3. rewrite !the_stripe_set_cache. subst s2.
    apply the_stripe_set_eq. exact Hlt. }
  assert (H5 : the_stripe s5 h =
               {| s_index := idx; s_hash := hashv; s_requests := s_requests o;
                  s_refs := (s_refs o + 1) mod 2 ^ 32;
                  s_chunk_buffers := s_chunk_buffers o |}).
  { subst s5. rewrite the_stripe_set_eq.
    - rewrite Ho4. reflexivity.
    - subst s4 s3 s2 s1. cbn [stripes sys_set_cache sys_set_stripe].
      rewrite length_insert. exact Hlt. }
  assert (Hother : forall h', h' <> h -> the_stripe s5 h' = the_stripe s h').
  { intros h' Hne. subst s5. rewrite the_stripe_set_ne by exact Hne.
    subst s4 s3. rewrite !the_stripe_set_cache. subst s2.
    rewrite the_stripe_set_ne by exact Hne. reflexivity. }
  split; [|split; [|split; [|split; [|split; [|split]]]]].
  - apply (coherent_install s s5 idx h Hc Hmiss Hhead).
    + reflexivity.
    + reflexivity.
    + reflexivity.
    + subst s5 s4 s3 s2 s1. cbn [stripes sys_set_cache sys_set_stripe].
      rewrite !length_insert. reflexivity.
    + rewrite H5. reflexivity.
    + intros h' Hne. rewrite (Hother h' Hne). reflexivity.
  - subst s5 s4 s3. cbn [active_stripes_hash sys_set_cache sys_set_stripe].
    apply lookup_insert_eq.
  - reflexivity.
  - rewrite H5. reflexivity.
  - rewrite H5. reflexivity.
  - rewrite H5. reflexivity.
  - exact Hother.
Qed.

(** Referencing the cached stripe [h] again. *)
Lemma touch_stripe (idx : Z) (s : system) (h : nat) :
  cache_coherent s -> active_stripes_hash s !! idx = Some h ->
  let s1 := sys_set_cache s (stripes s) (active_stripes_hash s)
              (tailq_remove h (active_stripes s)) (free_stripes s) in
  let s4 := sys_set_cache s1 (stripes s1) (active_stripes_hash s1)
              (h :: active_stripes s1) (free_stripes s1) in
  let o4 := the_stripe s4 h in
  let s5 := sys_set_stripe s4 h
              {| s_index := s_index o4; s_hash := s_hash o4; s_requests := s_requests o4;
                 s_refs := (s_refs o4 + 1) mod 2 ^ 32;
                 s_chunk_buffers := s_chunk_buffers o4 |} in
  cache_coherent s5 /\
  active_stripes_hash s5 !! idx = Some h /\
  head (active_stripes s5) = Some h /\
  s_index (the_stripe s5 h) = idx /\
  s_hash (the_stripe s5 h) = s_hash (the_stripe s h) /\
  s_refs (the_stripe s5 h) = (s_refs (the_stripe s h) + 1) mod 2 ^ 32 /\
  (forall h', h' <> h -> the_stripe s5 h' = the_stripe s h').
Proof.
  intros Hc Hhit s1 s4 o4 s5.
  assert (Hin : h ∈ active_stripes s /\ s_index (the_stripe s h) = idx).
  { destruct Hc as (_ & Hh & _). apply Hh. exact Hhit. }
  assert (Hlt : (h < length (stripes s))%nat).
  { destruct Hc as (_ & _ & _ & Hb). apply Hb. apply elem_of_app. left. tauto. }
  assert (H5 : the_stripe s5 h =
               {| s_index := s_index (the_stripe s h); s_hash := s_hash (the_stripe s h);
                  s_requests := s_requests (the_stripe s h);
                  s_refs := (s_refs (the_stripe s h) + 1) mod 2 ^ 32;
                  s_chunk_buffers := s_chunk_buffers (the_stripe s h) |}).
  { subst s5. rewrite the_stripe_set_eq by exact Hlt. reflexivity. }
  assert (Hother : forall h', h' <> h -> the_stripe s5 h' = the_stripe s h').
  { intros h' Hne. subst s5. rewrite the_stripe_set_ne by exact Hne. reflexivity. }
  split; [|split; [|split; [|split; [|split; [|split]]]]].
  - apply (coherent_touch s s5 idx h Hc Hhit).
    + reflexivity.
    + reflexivity.
    + reflexivity.
    + subst s5 s4 s1. cbn [stripes sys_set_cache sys_set_stripe].
      rewrite length_insert. reflexivity.
    + intros h'. destruct (Nat.eq_dec h' h) as [->|Hne].
      * rewrite H5. reflexivity.
      * rewrite (Hother h' Hne). reflexivity.
  - exact Hhit.
  - reflexivity.
  - rewrite H5. cbn. tauto.
  - rewrite H5. reflexivity.
  - rewrite H5. reflexivity.
  - exact Hother.
Qed.

(** [raid5_get_stripe] keeps the stripe cache coherent.  When it hands
    out a stripe, the stripe is the one the hash now maps the index
    to, it carries the index, it is the head of the active list, its
    reference count has grown by one, no other stripe object has
    changed, and asking again gives the same stripe.  When it hands
    out none, nothing has changed: the index is not cached, no stripe
    is free and every active stripe is referenced. *)
Theorem raid5_get_stripe_coherent (RAID_MAX_STRIPES : Z) (rte_hash_hash : Z -> Z)
    (stripe_index : Z) (s : system) (Hc : cache_coherent s) :
  match raid5_get_stripe RAID_MAX_STRIPES rte_hash_hash stripe_index s with
  | (Some h, s') =>
      cache_coherent s' /\
      active_stripes_hash s' !! stripe_index = Some h /\
      head (active_stripes s') = Some h /\
      s_index (the_stripe s' h) = stripe_index /\
      s_refs (the_stripe s' h) = (s_refs (the_stripe s h) + 1) mod 2 ^ 32 /\
      (forall h', h' <> h -> the_stripe s' h' = the_stripe s h') /\
      fst (raid5_get_stripe RAID_MAX_STRIPES rte_hash_hash stripe_index s') = Some h
  | (None, s') =>
      s' = s /\ active_stripes_hash s !! stripe_index = None /\ free_stripes s = [] /\
      (forall h, h ∈ active_stripes s -> s_refs (the_stripe s h) > 0)
  end.
Proof.
  assert (Hagain : forall s' h, active_stripes_hash s' !! stripe_index = Some h ->
            fst (raid5_get_stripe RAID_MAX_STRIPES rte_hash_hash stripe_index s') = Some h).
  { intros s' h Hk. unfold raid5_get_stripe. rewrite Hk. reflexivity. }
  unfold raid5_get_stripe.
  destruct (active_stripes_hash s !! stripe_index) as [h|] eqn:Eh.
  - cbn beta iota zeta.
    destruct (touch_stripe stripe_index s h Hc Eh) as (T1 & T2 & T3 & T4 & _ & T6 & T7).
    repeat (split; [assumption|]). apply Hagain. exact T2.
  - destruct (head (free_stripes s)) as [h|] eqn:Ef.
    + cbn beta iota zeta.
      destruct (install_stripe (rte_hash_hash stripe_index) stripe_index s h Hc Eh Ef)
        as (T1 & T2 & T3 & T4 & _ & T6 & T7).
      repeat (split; [assumption|]). apply Hagain. exact T2.
    + assert (Hfree : free_stripes s = []).
      { destruct (free_stripes s); [reflexivity|discriminate Ef]. }
      assert (Hnd : NoDup (rev (active_stripes s))).
      { apply NoDup_ListNoDup, List.NoDup_rev, NoDup_ListNoDup.
        destruct Hc as (Hnd & _). apply NoDup_app in Hnd. tauto. }
      assert (Hin : forall x, x ∈ rev (active_stripes s) -> x ∈ active_stripes s).
      { intros x Hx. apply list_elem_of_In. apply List.in_rev. apply list_elem_of_In.
        exact Hx. }
      destruct (reclaim_walk_coherent (reclaim_target RAID_MAX_STRIPES s)
                  (rev (active_stripes s)) 0 s Hc Hnd Hin)
        as (R1 & R2 & R3 & taken & R4 & R5).
      pose proof (reclaim_walk_count (reclaim_target RAID_MAX_STRIPES s)
                    (rev (active_stripes s)) 0 s ltac:(lia)) as Rn.
      unfold raid5_reclaim_stripes.
      destruct (reclaim_walk (reclaim_target RAID_MAX_STRIPES s)
                  (rev (active_stripes s)) (0, s)) as [n sr] eqn:Er.
      cbn [fst snd] in R1, R2, R3, R4, R5, Rn.
      destruct (n >? 0) eqn:En.
      * assert (Hmiss : active_stripes_hash sr !! stripe_index = None).
        { destruct (active_stripes_hash sr !! stripe_index) as [v|] eqn:Ev;
            [|reflexivity]. apply R2 in Ev. congruence. }
        destruct taken as [|h taken]; [cbn in R5; lia|].
        assert (Ef2 : head (free_stripes sr) = Some h).
        { rewrite R4, Hfree. reflexivity. }
        rewrite Ef2. cbn beta iota zeta.
        destruct (install_stripe (rte_hash_hash stripe_index) stripe_index sr h R1 Hmiss Ef2)
          as (T1 & T2 & T3 & T4 & _ & T6 & T7).
        assert (Hst : forall x, the_stripe sr x = the_stripe s x).
        { intros x. unfold the_stripe. rewrite R3. reflexivity. }
        rewrite Hst in T6.
        split; [exact T1|]. split; [exact T2|]. split; [exact T3|]. split; [exact T4|].
        split; [exact T6|]. split; [|apply Hagain; exact T2].
        intros h' Hne. rewrite (T7 h' Hne). apply Hst.
      * cbn beta iota zeta.
        assert (Hnone : List.filter (reclaimable s) (rev (active_stripes s)) = []).
        { destruct (List.filter (reclaimable s) (rev (active_stripes s))); [reflexivity|].
          cbn [length] in Rn. lia. }
        assert (Hbusy : forall x, x ∈ active_stripes s -> s_refs (the_stripe s x) > 0).
        { intros x Hx.
          destruct (s_refs (the_stripe s x) >? 0) eqn:Eb; [apply Z.gtb_lt in Eb; lia|].
          assert (Hf : List.In x (List.filter (reclaimable s) (rev (active_stripes s)))).
          { apply List.filter_In. split.
            - apply List.in_rev. rewrite List.rev_involutive. apply list_elem_of_In. exact Hx.
            - unfold reclaimable. rewrite Eb. reflexivity. }
          rewrite Hnone in Hf. destruct Hf. }
        assert (Hsame : sr = s).
        { pose proof (reclaim_walk_all_busy (reclaim_target RAID_MAX_STRIPES s)
                        (rev (active_stripes s)) 0 s) as W.
          rewrite Er in W. 
          assert (W' : (n, sr) = (0, s)).
          { apply W. intros x Hx. apply Hbusy. apply Hin. exact Hx. }
          congruence. }
        split; [exact Hsame|]. split; [reflexivity|]. split; [exact Hfree|exact Hbusy].
Qed.

(** ** The block range of each chunk of a new stripe request *)

Lemma init_chunk_req rb f t r i :
  0 <= i < 2 ^ 8 -> (Z.to_nat i < length (chunks r))%nat ->
  let c := get_chunk (init_chunk rb f t r i) i in
  (req_offset c, req_blocks c) =
  if (i =? parity_chunk r) || (i <? first_data_chunk r) || (i >? last_data_chunk r)
  then (0, 0)
  else
    let cf := shl64 (u8 (if i <? parity_chunk r then i else i - 1)) (strip_size_shift rb) in
    let ct := u64 (cf + strip_size rb) in
    let off := if f >? cf then u64 (f - cf) else 0 in
    let blk := if t <? ct then u64 (t - cf) else strip_size rb in
    (off, u64 (blk - off)).
Proof.
  intros Hi Hlen. unfold init_chunk.
  match goal with |- context [set_chunk r i ?c] => set (c0 := c) end.
  pose proof (set_chunk_header r i c0) as (H1 & H2 & H3 & _ & _ & _ & _ & _ & _ & H4).
  assert (Hlen' : (Z.to_nat i < length (chunks (set_chunk r i c0)))%nat) by lia.
  rewrite H1, H2, H3.
  destruct ((i =? parity_chunk r) || (i <? first_data_chunk r) || (i >? last_data_chunk r)).
  - cbn zeta. rewrite get_set_chunk_eq by (assumption || lia). reflexivity.
  - cbn zeta. rewrite get_set_chunk_eq by (assumption || lia).
    unfold raid5_chunk_data_index. rewrite H1.
    rewrite get_set_chunk_eq by (assumption || lia).
    replace (index c0) with i by (unfold c0; cbn; symmetry; apply u8_small; exact Hi).
    reflexivity.
Qed.

Lemma init_fold_req rb f t (P F L i : Z) (v : Z * Z) :
  0 <= i < 2 ^ 8 ->
  v = (if (i =? P) || (i <? F) || (i >? L) then (0, 0)
       else
         let cf := shl64 (u8 (if i <? P then i else i - 1)) (strip_size_shift rb) in
         let ct := u64 (cf + strip_size rb) in
         let off := if f >? cf then u64 (f - cf) else 0 in
         let blk := if t <? ct then u64 (t - cf) else strip_size rb in
         (off, u64 (blk - off))) ->
  forall l r,
    parity_chunk r = P -> first_data_chunk r = F -> last_data_chunk r = L ->
    (Z.to_nat i < length (chunks r))%nat ->
    (i ∈ l \/ (req_offset (get_chunk r i), req_blocks (get_chunk r i)) = v) ->
    let c := get_chunk (fold_left (init_chunk rb f t) l r) i in
    (req_offset c, req_blocks c) = v.
Proof.
  intros Hi Hv. induction l as [|j l IH]; intros r HP HF HL Hlen H; cbn.
  - destruct H as [H|H]; [inversion H|exact H].
  - pose proof (init_chunk_header rb f t r j) as (G1 & G2 & G3 & _ & _ & _ & _ & G4).
    apply IH; [congruence|congruence|congruence|lia|].
    destruct (Z.eq_dec j i) as [->|Hne].
    + right. rewrite Hv, <- HP, <- HF, <- HL. apply init_chunk_req; assumption.
    + destruct H as [H|H].
      * left. apply elem_of_cons in H. destruct H as [H|H]; [congruence|exact H].
      * right. rewrite init_chunk_other by assumption. exact H.
Qed.

(** The chunk at position [i] of a new stripe request is asked for the
    part of the request's block range that lies in its strip. *)
Lemma init_request_ranges (rb : raid_bdev) (r0 : stripe_request)
    (raid_io_h stripe_h : nat) (s stripe_offset blocks iov_off : Z) :
  2 <= num_base_bdevs rb <= 255 -> 0 <= s ->
  length (chunks r0) = Z.to_nat (num_base_bdevs rb) ->
  0 <= strip_size_shift rb -> strip_size rb = 2 ^ strip_size_shift rb ->
  strip_size rb * (num_base_bdevs rb - 1) < 2 ^ 64 ->
  0 <= stripe_offset -> 0 < blocks ->
  stripe_offset + blocks <= strip_size rb * (num_base_bdevs rb - 1) ->
  let r := init_stripe_request rb r0 raid_io_h stripe_h s stripe_offset blocks iov_off in
  let P := num_base_bdevs rb - 1 - s mod num_base_bdevs rb in
  parity_chunk r = P /\
  forall i, 0 <= i < num_base_bdevs rb ->
    let c := get_chunk r i in
    (i = P -> req_offset c = 0 /\ req_blocks c = 0) /\
    (i <> P ->
     let k := if i <? P then i else i - 1 in
     let lo := Z.max stripe_offset (k * strip_size rb) in
     let hi := Z.min (stripe_offset + blocks) ((k + 1) * strip_size rb) in
     if lo <? hi then req_offset c = lo - k * strip_size rb /\ req_blocks c = hi - lo
     else req_offset c = 0 /\ req_blocks c = 0).
Proof.
  intros HN Hs Hpool Hsh Hstrip Hsz Hoff Hblocks Hend r P.
  pose proof (Z.mod_pos_bound s (num_base_bdevs rb) ltac:(lia)) as Hm.
  assert (HS : 0 < strip_size rb).
  { rewrite Hstrip. apply Z.pow_pos_nonneg; lia. }
  set (S := strip_size rb) in *. set (N := num_base_bdevs rb) in *.
  assert (HPos : parity_position rb s = P) by (apply parity_position_spec; lia).
  assert (HP : 0 <= P < N) by (unfold P; lia).
  assert (Hto : u64 (stripe_offset + blocks) = stripe_offset + blocks).
  { apply u64_small. lia. }
  assert (Hfi : u8 (Z.shiftr stripe_offset (strip_size_shift rb)) = stripe_offset / S).
  { rewrite Z.shiftr_div_pow2 by lia. rewrite <- Hstrip. apply u8_small.
    split; [apply Z.div_pos; lia|].
    apply Z.lt_le_trans with (N - 1); [|lia].
    apply Z.div_lt_upper_bound; lia. }
  assert (Hli : u8 (Z.shiftr (u64 (u64 (stripe_offset + blocks) - 1)) (strip_size_shift rb)) =
                (stripe_offset + blocks - 1) / S).
  { rewrite Hto. rewrite (u64_small (stripe_offset + blocks - 1)) by lia.
    rewrite Z.shiftr_div_pow2 by lia. rewrite <- Hstrip. apply u8_small.
    split; [apply Z.div_pos; lia|].
    apply Z.lt_le_trans with (N - 1); [|lia].
    apply Z.div_lt_upper_bound; lia. }
  set (fi := stripe_offset / S) in *.
  set (li := (stripe_offset + blocks - 1) / S) in *.
  assert (Hfi1 : fi * S <= stripe_offset < (fi + 1) * S).
  { unfold fi. pose proof (Z.div_mod stripe_offset S ltac:(lia)).
    pose proof (Z.mod_pos_bound stripe_offset S ltac:(lia)). lia. }
  assert (Hli1 : li * S <= stripe_offset + blocks - 1 < (li + 1) * S).
  { unfold li. pose proof (Z.div_mod (stripe_offset + blocks - 1) S ltac:(lia)).
    pose proof (Z.mod_pos_bound (stripe_offset + blocks - 1) S ltac:(lia)). lia. }
  assert (Hfi0 : 0 <= fi) by (apply Z.div_pos; lia).
  assert (Hli0 : fi <= li < N - 1).
  { split; [apply Z.div_le_mono; lia|].
    apply Z.div_lt_upper_bound; lia. }
  set (F := if fi <? P then fi else fi + 1).
  set (L := if li <? P then li else li + 1).
  assert (Hshape : forall i, 0 <= i < N ->
            (req_offset (get_chunk r i), req_blocks (get_chunk r i)) =
            (if (i =? P) || (i <? F) || (i >? L) then (0, 0)
             else
               let cf := shl64 (u8 (if i <? P then i else i - 1)) (strip_size_shift rb) in
               let ct := u64 (cf + S) in
               let off := if stripe_offset >? cf then u64 (stripe_offset - cf) else 0 in
               let blk := if u64 (stripe_offset + blocks) <? ct
                          then u64 (u64 (stripe_offset + blocks) - cf) else S in
               (off, u64 (blk - off)))).
  { intros i Hi. unfold r, init_stripe_request.
    apply (init_fold_req rb stripe_offset (u64 (stripe_offset + blocks)) P F L i);
      [lia|reflexivity| | | | |].
    - cbn. exact HPos.
    - cbn. unfold raid5_get_data_chunk. cbn. rewrite HPos, Hfi.
      rewrite (u8_small P) by lia. reflexivity.
    - cbn. unfold raid5_get_data_chunk. cbn. rewrite HPos, Hli.
      rewrite (u8_small P) by lia. reflexivity.
    - cbn. rewrite Hpool. lia.
    - left. apply elem_of_seqZ. lia. }
  split.
  { unfold r, init_stripe_request.
    match goal with |- parity_chunk (fold_left ?f ?l ?x) = _ =>
      pose proof (init_fold_header rb stripe_offset (u64 (stripe_offset + blocks)) l x) as Hh
    end.
    cbn zeta in Hh. destruct Hh as [Hh _]. rewrite Hh. cbn. exact HPos. }
  intros i Hi c. specialize (Hshape i Hi). fold c in Hshape. split.
  - intros ->. rewrite Z.eqb_refl in Hshape. cbn in Hshape.
    injection Hshape as -> ->. split; reflexivity.
  - intros Hne k lo hi.
    destruct (Z.eqb_spec i P) as [|_]; [contradiction|]. cbn [orb] in Hshape.
    fold k in Hshape.
    assert (Hk : 0 <= k < N - 1).
    { unfold k. destruct (Z.ltb_spec i P); lia. }
    assert (HF : (i <? F) = (k <? fi)).
    { unfold F, k. destruct (Z.ltb_spec fi P), (Z.ltb_spec i P); lia. }
    assert (HL : (i >? L) = (k >? li)).
    { unfold L, k. rewrite !Z.gtb_ltb.
      destruct (Z.ltb_spec li P), (Z.ltb_spec i P); lia. }
    rewrite HF, HL in Hshape.
    rewrite (u8_small k) in Hshape by lia.
    assert (HkS : 0 <= k * S) by (apply Z.mul_nonneg_nonneg; lia).
    assert (HkN : (k + 1) * S <= (N - 1) * S) by (apply Z.mul_le_mono_nonneg_r; lia).
    assert (Hcf : shl64 k (strip_size_shift rb) = k * S).
    { unfold shl64. rewrite Z.shiftl_mul_pow2 by lia. rewrite <- Hstrip.
      apply u64_small. lia. }
    rewrite Hcf, Hto in Hshape.
    rewrite (u64_small (k * S + S)) in Hshape by lia.
    cbn zeta in Hshape.
    destruct (Z.ltb_spec k fi) as [Hlow|Hlow].
    { cbn [orb] in Hshape. injection Hshape as -> ->.
      assert (Hb : (k + 1) * S <= fi * S) by (apply Z.mul_le_mono_nonneg_r; lia).
      destruct (Z.ltb_spec lo hi) as [Hc|Hc]; [unfold lo, hi in Hc; lia|tauto]. }
    rewrite Z.gtb_ltb in Hshape.
    destruct (Z.ltb_spec li k) as [Hhigh|Hhigh].
    { cbn [orb] in Hshape. injection Hshape as -> ->.
      assert (Hb : (li + 1) * S <= k * S) by (apply Z.mul_le_mono_nonneg_r; lia).
      destruct (Z.ltb_spec lo hi) as [Hc|Hc]; [unfold lo, hi in Hc; lia|tauto]. }
    cbn [orb] in Hshape.
    assert (Hb1 : k * S <= li * S) by (apply Z.mul_le_mono_nonneg_r; lia).
    assert (Hb2 : (fi + 1) * S <= (k + 1) * S) by (apply Z.mul_le_mono_nonneg_r; lia).
    assert (Hlh : lo < hi) by (unfold lo, hi; lia).
    destruct (Z.ltb_spec lo hi) as [_|Hc]; [|lia].
    rewrite Z.gtb_ltb in Hshape.
    assert (Hoffv : (if k * S <? stripe_offset then u64 (stripe_offset - k * S) else 0) =
                    lo - k * S).
    { destruct (Z.ltb_spec (k * S) stripe_offset).
      - rewrite u64_small by lia. unfold lo. lia.
      - unfold lo. lia. }
    assert (Hblkv : (if stripe_offset + blocks <? k * S + S
                     then u64 (stripe_offset + blocks - k * S) else S) = hi - k * S).
    { destruct (Z.ltb_spec (stripe_offset + blocks) (k * S + S)).
      - rewrite u64_small by lia. unfold hi. lia.
      - unfold hi. lia. }
    rewrite Hoffv, Hblkv in Hshape.
    rewrite (u64_small (hi - k * S - (lo - k * S))) in Hshape by (unfold lo, hi in *; lia).
    injection Hshape as -> ->. split; lia.
Qed.

(** The running total of the blocks of the data chunks at positions
    below [n]. *)
Lemma init_request_prefix_sum (rb : raid_bdev) (r : stripe_request)
    (stripe_offset blocks P : Z) :
  0 < strip_size rb -> 0 <= stripe_offset -> 0 < blocks ->
  stripe_offset + blocks < 2 ^ 64 -> 0 <= P ->
  (forall i, 0 <= i < num_base_bdevs rb -> i <> P ->
     let k := if i <? P then i else i - 1 in
     let lo := Z.max stripe_offset (k * strip_size rb) in
     let hi := Z.min (stripe_offset + blocks) ((k + 1) * strip_size rb) in
     req_blocks (get_chunk r i) = Z.max 0 (hi - lo)) ->
  forall n : nat, Z.of_nat n <= num_base_bdevs rb ->
    fold_left (fun acc i => u64 (acc + req_blocks (get_chunk r i)))
              (data_positions (Z.of_nat n) P) 0 =
    Z.min (Z.max ((if Z.of_nat n <=? P then Z.of_nat n else Z.of_nat n - 1) * strip_size rb)
                 stripe_offset)
          (stripe_offset + blocks) - stripe_offset.
Proof.
  intros HS Hoff Hblocks Hbound HP Hreq. unfold data_positions.
  induction n as [|n IH]; intros Hn.
  - change (Z.of_nat 0) with 0. rewrite seqZ_nil by lia. rewrite filter_nil.
    cbn [fold_left]. destruct (Z.leb_spec 0 P); lia.
  - replace (Z.of_nat (Datatypes.S n)) with (Z.of_nat n + 1) by lia.
    rewrite seqZ_app by lia. rewrite filter_app, fold_left_app.
    rewrite IH by lia. rewrite Z.add_0_l.
    replace (seqZ (Z.of_nat n) 1) with [Z.of_nat n] by reflexivity.
    destruct (Z.eq_dec (Z.of_nat n) P) as [HeqP|HneP].
    + rewrite filter_cons_False by (intros Hc; apply Hc; exact HeqP).
      rewrite filter_nil. cbn [fold_left].
      destruct (Z.leb_spec (Z.of_nat n) P); [|lia].
      destruct (Z.leb_spec (Z.of_nat n + 1) P); [lia|].
      replace (Z.of_nat n + 1 - 1) with (Z.of_nat n) by lia. reflexivity.
    + rewrite filter_cons_True by exact HneP. rewrite filter_nil. cbn [fold_left].
      rewrite (Hreq (Z.of_nat n)) by lia. cbn zeta.
      set (S := strip_size rb) in *. set (m := Z.of_nat n) in *.
      assert (Hm : 0 <= m) by lia.
      destruct (Z.leb_spec m P) as [H1|H1].
      * destruct (Z.ltb_spec m P) as [H2|H2]; [|lia].
        destruct (Z.leb_spec (m + 1) P) as [_|H3]; [|lia].
        replace ((m + 1) * S) with (m * S + S) by ring.
        assert (Ha : 0 <= m * S) by nia. revert Ha. generalize (m * S). intros a Ha.
        rewrite u64_small by lia. lia.
      * destruct (Z.ltb_spec m P) as [H2|H2]; [lia|].
        destruct (Z.leb_spec (m + 1) P) as [H3|_]; [lia|].
        replace (m + 1 - 1) with (m - 1 + 1) by lia.
        replace ((m - 1 + 1) * S) with ((m - 1) * S + S) by ring.
        assert (Ha : 0 <= (m - 1) * S) by nia. revert Ha. generalize ((m - 1) * S).
        intros a Ha. rewrite u64_small by lia. lia.
Qed.

(** In the stripe request that [raid5_handle_stripe] builds for the
    blocks [stripe_offset, stripe_offset + blocks) of a stripe, the
    parity chunk is asked for nothing, and the data chunk with data
    index [k] is asked for exactly the part of that range which lies in
    strip [k]: [req_offset] is where the part starts inside the strip
    and [req_blocks] is its length; a data chunk whose strip the range
    does not meet is asked for nothing. *)
Theorem handle_stripe_chunk_ranges (rb : raid_bdev) (r0 : stripe_request)
    (raid_io_h stripe_h : nat) (s stripe_offset blocks iov_off : Z)
    (HN : 2 <= num_base_bdevs rb <= 255)
    (Hs : 0 <= s)
    (Hpool : length (chunks r0) = Z.to_nat (num_base_bdevs rb))
    (Hshift : 0 <= strip_size_shift rb)
    (Hstrip : strip_size rb = 2 ^ strip_size_shift rb)
    (Hsize : strip_size rb * (num_base_bdevs rb - 1) < 2 ^ 64)
    (Hoff : 0 <= stripe_offset)
    (Hblocks : 0 < blocks)
    (Hend : stripe_offset + blocks <= strip_size rb * (num_base_bdevs rb - 1)) :
  let r := init_stripe_request rb r0 raid_io_h stripe_h s stripe_offset blocks iov_off in
  req_offset (get_chunk r (parity_chunk r)) = 0 /\
  req_blocks (get_chunk r (parity_chunk r)) = 0 /\
  forall k, 0 <= k < num_base_bdevs rb - 1 ->
    let c := get_chunk r (raid5_get_data_chunk r k) in
    let lo := Z.max stripe_offset (k * strip_size rb) in
    let hi := Z.min (stripe_offset + blocks) ((k + 1) * strip_size rb) in
    if lo <? hi
    then k * strip_size rb + req_offset c = lo /\ req_blocks c = hi - lo /\
         req_offset c + req_blocks c <= strip_size rb
    else req_offset c = 0 /\ req_blocks c = 0.
Proof.
  intros r.
  destruct (init_request_ranges rb r0 raid_io_h stripe_h s stripe_offset blocks iov_off
              HN Hs Hpool Hshift Hstrip Hsize Hoff Hblocks Hend) as [HP Hall].
  fold r in HP, Hall.
  pose proof (Z.mod_pos_bound s (num_base_bdevs rb) ltac:(lia)) as Hm.
  set (P := num_base_bdevs rb - 1 - s mod num_base_bdevs rb) in *.
  assert (HPr : 0 <= P < num_base_bdevs rb) by (unfold P; lia).
  split; [|split].
  - rewrite HP. apply (Hall P HPr). reflexivity.
  - rewrite HP. apply (Hall P HPr). reflexivity.
  - intros k Hk. unfold raid5_get_data_chunk. rewrite HP, (u8_small P) by lia.
    set (i := if k <? P then k else k + 1).
    assert (Hi : 0 <= i < num_base_bdevs rb /\ i <> P /\ (if i <? P then i else i - 1) = k).
    { unfold i. destruct (Z.ltb_spec k P) as [H1|H1].
      - destruct (Z.ltb_spec k P); lia.
      - destruct (Z.ltb_spec (k + 1) P); lia. }
    destruct Hi as (Hi1 & Hi2 & Hi3).
    destruct (Hall i Hi1) as [_ Hd]. specialize (Hd Hi2). cbn zeta in Hd.
    rewrite Hi3 in Hd. cbn zeta.
    destruct (Z.max stripe_offset (k * strip_size rb) <?
              Z.min (stripe_offset + blocks) ((k + 1) * strip_size rb)); [|exact Hd].
    destruct Hd as [Hd1 Hd2]. rewrite Hd1, Hd2. split; [lia|]. split; [lia|].
    replace ((k + 1) * strip_size rb) with (k * strip_size rb + strip_size rb) by ring.
    lia.
Qed.


(** ** The theorems at work on the worked configurations *)

Ltac decide_by_evaluation := refine (bool_decide_unpack _ _); vm_compute; exact I.

Lemma write_strategy_by_vote_witness :
  degraded_chunk (req (ex_engine ex_single_request)) = None /\
  chunk_requests_complete_cb
    (req (raid5_stripe_write_plan ex_rb 1 ex_buffers (ex_engine ex_single_request))) =
  cb_raid5_stripe_write_preread_complete.
Proof.
  split; [reflexivity|].
  destruct (write_strategy_by_vote ex_rb ex_iovs 1 ex_buffers
              (ex_engine ex_single_request) eq_refl) as (_ & _ & H & _).
  apply H. vm_compute. reflexivity.
Defined.


Lemma chunk_failure_latched_witness :
  let e := raid5_submit_stripe_request ex_rb SPDK_BDEV_IO_TYPE_WRITE ex_iovs 1 ex_buffers
             (ex_engine ex_single_request) in
  remaining (req e) = 1 /\
  match env_run ex_rb ex_iovs 1 ex_buffers [IoDone 0 false] e with
  | Some e' => status (req e') = SPDK_BDEV_IO_STATUS_FAILED /\ remaining (req e') = 0
  | None => False
  end.
Proof.
  cbn zeta. split; [vm_compute; reflexivity|].
  destruct (env_run ex_rb ex_iovs 1 ex_buffers [IoDone 0 false]
              (raid5_submit_stripe_request ex_rb SPDK_BDEV_IO_TYPE_WRITE ex_iovs 1
                 ex_buffers (ex_engine ex_single_request))) as [e'|] eqn:E.
  - assert (Hd : Forall is_io_done [IoDone 0 false]) by (repeat constructor).
    assert (Hf : Exists is_io_failure [IoDone 0 false]) by (left; exact I).
    destruct (chunk_failure_latched ex_rb ex_iovs 1 ex_buffers [IoDone 0 false]
                (raid5_submit_stripe_request ex_rb SPDK_BDEV_IO_TYPE_WRITE ex_iovs 1
                   ex_buffers (ex_engine ex_single_request)) e'
                Hd ltac:(vm_compute; reflexivity) Hf E)
      as (_ & H1 & H2 & _).
    split; assumption.
  - vm_compute in E. discriminate E.
Defined.


Lemma stripe_nomem_is_retried_witness :
  the_retry_queue
    (raid5_submit_rw_request 1 ex_rb 1024 (fun x => x) 0 ex_busy_system) 0 = [0%nat] /\
  exists s1 : system,
    complete_stripe_request_effects (raid5_submit_rw_request 0 ex_rb 1024 (fun x => x))
      0 SPDK_BDEV_IO_STATUS_SUCCESS 2 ex_retry_system =
    raid5_submit_rw_request 0 ex_rb 1024 (fun x => x) 1 s1 /\
    retry_queues s1 = [ [] ].
Proof.
  destruct (stripe_nomem_is_retried 0 ex_rb 1024 (fun x => x)) as [H1 H2].
  split.
  - destruct (H1 0%nat ex_busy_system) as (Hq & _).
    + vm_compute. reflexivity.
    + reflexivity.
    + intros h Hh. apply list_elem_of_singleton in Hh. subst h. vm_compute. reflexivity.
    + cbn. lia.
    + exact Hq.
  - destruct (H2 0%nat SPDK_BDEV_IO_STATUS_SUCCESS 2 ex_retry_system 1%nat []
                eq_refl eq_refl) as (s1 & E & Hq & _).
    exists s1. split; [exact E | exact Hq].
Defined.

Lemma stripe_request_completes_once_witness :
  match env_run ex_rb ex_iovs 1 ex_buffers [IoDone 0 true]
          (raid5_submit_stripe_request ex_rb SPDK_BDEV_IO_TYPE_WRITE ex_iovs 1 ex_buffers
             (ex_engine ex_single_request)) with
  | Some e' => (completions (trace e') <= 1)%nat /\ asserted e' = false
  | None => False
  end.
Proof.
  destruct (env_run ex_rb ex_iovs 1 ex_buffers [IoDone 0 true]
              (raid5_submit_stripe_request ex_rb SPDK_BDEV_IO_TYPE_WRITE ex_iovs 1
                 ex_buffers (ex_engine ex_single_request))) as [e'|] eqn:E.
  - assert (Hok : engine_ok ex_rb (ex_engine ex_single_request)).
    { split; [reflexivity|]. split; [constructor|reflexivity]. }
    assert (Hfresh : fresh (ex_engine ex_single_request)).
    { repeat split; reflexivity. }
    assert (Hreq : request_ok ex_rb (ex_engine ex_single_request)).
    { vm_compute. repeat split; discriminate. }
    assert (Hrecon : reconstructing ex_rb SPDK_BDEV_IO_TYPE_WRITE
                       (ex_engine ex_single_request) ->
                     upstream_covers ex_rb ex_iovs (req (ex_engine ex_single_request)) /\
                     allocator_ok (ex_engine ex_single_request)).
    { intros [H _]. discriminate H. }
    destruct (stripe_request_completes_once ex_rb SPDK_BDEV_IO_TYPE_WRITE ex_iovs 1
                ex_buffers (ex_engine ex_single_request) [IoDone 0 true] e'
                Hok Hfresh Hreq Hrecon E) as (H1 & _ & _ & _ & H5 & _).
    split; assumption.
  - vm_compute in E. discriminate E.
Defined.



Lemma raid5_memcpy_iovs_bytewise_witness :
  let dst := [{| iov_base := 100; iov_len := 2 |}; {| iov_base := 104; iov_len := 2 |}] in
  let src := [{| iov_base := 108; iov_len := 4 |}] in
  raid5_memcpy_iovs ex_mem dst 1 src 1 2 104 = ex_mem 110 /\
  raid5_memcpy_iovs ex_mem dst 1 src 1 2 100 = ex_mem 100.
Proof.
  intros dst src.
  assert (Hd : wf_iovs dst) by (split; [repeat constructor; cbn; lia|reflexivity]).
  assert (Hs : wf_iovs src) by (split; [repeat constructor; cbn; lia|reflexivity]).
  assert (Hnd : NoDup (iovs_addrs dst)).
  { decide_by_evaluation. }
  assert (Hall : Forall (fun a => a ∉ iovs_addrs dst) (iovs_addrs src)).
  { decide_by_evaluation. }
  assert (Hdis : forall a, a ∈ iovs_addrs src -> a ∉ iovs_addrs dst).
  { intros a Ha. exact (proj1 (Forall_forall _ _) Hall a Ha). }
  destruct (raid5_memcpy_iovs_bytewise ex_mem dst src 1 1 2 Hd Hs ltac:(lia) ltac:(lia)
              ltac:(lia) ltac:(vm_compute; discriminate) ltac:(vm_compute; discriminate)
              Hnd Hdis) as [H1 H2].
  split.
  - exact (H1 1 ltac:(lia)).
  - apply H2. decide_by_evaluation.
Defined.

Lemma iovs_transfer_confined_witness :
  let dst := [{| iov_base := 100; iov_len := 2 |}; {| iov_base := 104; iov_len := 2 |}] in
  let src := [{| iov_base := 108; iov_len := 4 |}] in
  raid5_xor_iovs ex_mem dst 1 src 1 2 100 = ex_mem 100 /\
  raid5_memcpy_iovs ex_mem dst 4 src 0 2 = ex_mem.
Proof.
  intros dst src.
  assert (Hd : wf_iovs dst) by (split; [repeat constructor; cbn; lia|reflexivity]).
  assert (Hs : wf_iovs src) by (split; [repeat constructor; cbn; lia|reflexivity]).
  split.
  - destruct (iovs_transfer_confined ex_mem dst src 1 1 2 Hd Hs ltac:(lia) ltac:(lia)
                ltac:(lia)) as [H1 _].
    apply H1. decide_by_evaluation.
  - destruct (iovs_transfer_confined ex_mem dst src 4 0 2 Hd Hs ltac:(lia) ltac:(lia)
                ltac:(lia)) as [_ H2].
    apply H2. vm_compute. discriminate.
Defined.

Lemma raid5_chunk_map_iov_result_witness :
  fst (fst (raid5_chunk_map_iov chunk_zero ex_split_iovs 1 4 true)) = 0 /\
  iovs_addrs (chunk_iovs (snd (raid5_chunk_map_iov chunk_zero ex_split_iovs 1 4 true))) =
    [101; 102; 103; 104].
Proof.
  assert (Hwf : wf_iovs ex_split_iovs) by (split; [repeat constructor; cbn; lia|reflexivity]).
  assert (Hcap : chunk_cap_ok chunk_zero) by (vm_compute; discriminate).
  pose proof (raid5_chunk_map_iov_result chunk_zero ex_split_iovs 1 4 true Hwf
                ltac:(lia) ltac:(lia) ltac:(reflexivity) Hcap) as T.
  destruct (raid5_chunk_map_iov chunk_zero ex_split_iovs 1 4 true) as [[ret called] c'].
  destruct T as (_ & T2 & _ & T4 & _).
  assert (Hret : ret = 0) by (apply T4; [reflexivity|vm_compute; discriminate]).
  split; [exact Hret|].
  destruct (T2 Hret) as (_ & _ & Ha). exact Ha.
Defined.

Lemma raid5_chunk_map_req_data_advances_witness :
  fst (raid5_chunk_map_req_data ex_rb ex_iovs 0 (ex_engine ex_single_request)) = 0 /\
  iov_offset (req (snd (raid5_chunk_map_req_data ex_rb ex_iovs 0
                          (ex_engine ex_single_request)))) = 2.
Proof.
  assert (Hwf : wf_iovs ex_iovs) by (split; [repeat constructor; cbn; lia|reflexivity]).
  assert (Hcap : chunk_cap_ok (chunk_at (ex_engine ex_single_request) 0)).
  { vm_compute. discriminate. }
  pose proof (raid5_chunk_map_req_data_advances ex_rb ex_iovs 0 (ex_engine ex_single_request)
                Hwf ltac:(lia) ltac:(vm_compute; lia) Hcap ltac:(vm_compute; discriminate)
                ltac:(reflexivity) ltac:(reflexivity)) as T.
  cbn zeta in T.
  destruct (raid5_chunk_map_req_data ex_rb ex_iovs 0 (ex_engine ex_single_request))
    as [ret e'].
  destruct T as (_ & _ & T3 & _ & T5).
  assert (Hret : ret = 0) by (apply T5; [reflexivity|vm_compute; discriminate]).
  split; [exact Hret|].
  destruct (T3 Hret) as (Ho & _). exact Ho.
Defined.

Lemma data_index_round_trip_witness :
  raid5_get_data_chunk ex_single_request 1 <> parity_chunk ex_single_request /\
  raid5_chunk_data_index ex_single_request (raid5_get_data_chunk ex_single_request 1) = 1 /\
  raid5_get_data_chunk ex_single_request (raid5_chunk_data_index ex_single_request 2) = 2.
Proof.
  apply (data_index_round_trip ex_single_request 1 2).
  - vm_compute. split; [discriminate|reflexivity].
  - lia.
  - lia.
  - vm_compute. discriminate.
  - vm_compute. reflexivity.
  - vm_compute. reflexivity.
Defined.

Lemma raid5_check_degraded_counts_witness :
  raid5_check_degraded ex_degraded_rb ex_degraded_read =
  (0, with_req ex_degraded_read (upd_degraded_chunk (req ex_degraded_read) (Some 1))).
Proof.
  exact (raid5_check_degraded_counts ex_degraded_rb ex_degraded_read
           ltac:(vm_compute; split; discriminate)).
Defined.

Lemma ex_cache_coherent : cache_coherent ex_cache.
Proof.
  split; [decide_by_evaluation|].
  split; [|split].
  - intros idx h Hk. unfold ex_cache in Hk. cbn [active_stripes_hash] in Hk.
    apply lookup_insert_Some in Hk. destruct Hk as [[<- <-]|[_ Hk]].
    + split; [decide_by_evaluation|reflexivity].
    + apply lookup_insert_Some in Hk. destruct Hk as [[<- <-]|[_ Hk]].
      * split; [decide_by_evaluation|reflexivity].
      * rewrite lookup_empty in Hk. discriminate Hk.
  - intros h Hh. cbn in Hh. apply elem_of_cons in Hh. destruct Hh as [->|Hh].
    + vm_compute. reflexivity.
    + apply list_elem_of_singleton in Hh. subst h. vm_compute. reflexivity.
  - intros h Hh. cbn in Hh. apply elem_of_cons in Hh. destruct Hh as [->|Hh].
    + cbn. lia.
    + apply list_elem_of_singleton in Hh. subst h. cbn. lia.
Defined.

Lemma raid5_get_stripe_coherent_witness :
  match raid5_get_stripe 2 (fun x => x) 12 ex_cache with
  | (Some h, s') =>
      h = 0%nat /\ cache_coherent s' /\ active_stripes_hash s' !! 12 = Some h /\
      fst (raid5_get_stripe 2 (fun x => x) 12 s') = Some h
  | (None, _) => False
  end.
Proof.
  pose proof (raid5_get_stripe_coherent 2 (fun x => x) 12 ex_cache ex_cache_coherent) as T.
  assert (Hh : fst (raid5_get_stripe 2 (fun x => x) 12 ex_cache) = Some 0%nat).
  { vm_compute. reflexivity. }
  destruct (raid5_get_stripe 2 (fun x => x) 12 ex_cache) as [[h|] s'].
  - cbn [fst] in Hh. injection Hh as ->.
    destruct T as (T1 & T2 & _ & _ & _ & _ & T7).
    split; [reflexivity|]. split; [exact T1|]. split; [exact T2|exact T7].
  - discriminate Hh.
Defined.

Lemma handle_stripe_chunk_ranges_witness :
  let r := init_stripe_request ex_rb ex_pool_object 0 0 0 2 4 0 in
  req_blocks (get_chunk r (parity_chunk r)) = 0 /\
  req_offset (get_chunk r (raid5_get_data_chunk r 0)) = 2 /\
  req_blocks (get_chunk r (raid5_get_data_chunk r 0)) = 2 /\
  req_offset (get_chunk r (raid5_get_data_chunk r 1)) = 0 /\
  req_blocks (get_chunk r (raid5_get_data_chunk r 1)) = 2.
Proof.
  intros r.
  destruct (handle_stripe_chunk_ranges ex_rb ex_pool_object 0 0 0 2 4 0
              ltac:(vm_compute; split; discriminate) ltac:(lia) ltac:(reflexivity)
              ltac:(vm_compute; discriminate) ltac:(reflexivity) ltac:(reflexivity)
              ltac:(lia) ltac:(lia) ltac:(vm_compute; discriminate)) as (_ & H1 & H2).
  fold r in H1, H2.
  pose proof (H2 0 ltac:(vm_compute; split; [discriminate|reflexivity])) as K0.
  pose proof (H2 1 ltac:(vm_compute; split; [discriminate|reflexivity])) as K1.
  cbn zeta in K0, K1.
  change (Z.max 2 (0 * strip_size ex_rb) <? Z.min (2 + 4) ((0 + 1) * strip_size ex_rb))
    with true in K0.
  change (Z.max 2 (1 * strip_size ex_rb) <? Z.min (2 + 4) ((1 + 1) * strip_size ex_rb))
    with true in K1.
  cbn iota in K0, K1.
  destruct K0 as (A1 & A2 & _). destruct K1 as (B1 & B2 & _).
  split; [exact H1|].
  split; [change (0 * strip_size ex_rb) with 0 in A1;
          change (Z.max 2 0) with 2 in A1; lia|].
  split; [exact A2|].
  split; [change (1 * strip_size ex_rb) with 4 in B1;
          change (Z.max 2 4) with 4 in B1; lia|].
  exact B2.
Defined.

